(* ===== verification/_CoqProject ===== *)
-Q . S2P
Prelude.v
Format.v
Comparator.v
State.v
Memory.v
FreeMap.v
Pager.v
PagerI.v
PagerInst.v
Node.v
NodeWf.v
NodeSpec.v
Sample.v
LeafTheorems.v
Search.v
BranchSpec.v
BranchTheorems.v
Tx.v
Iterator.v
BTree.v
Trails.v
Meta.v
Logger.v
TxManager.v
Bucket.v
Recovery.v
TreeTrails.v
Stack.v
Handles.v
NodeDb.v
Freed.v
Tree.v
TreeSearch.v
TreeGet.v
SampleTree.v
TreeWalk.v
Copying.v
TreeSteps.v
Height.v
Forest.v
LeafPage.v
LeafSplit.v
BranchPage.v
BranchSplit.v
Rebuild.v
PutUp.v
PutTree.v
PutOrder.v
PutTheorems.v
PutSame.v
Holes.v
Siblings.v
DeleteUp.v
DeleteLeaf.v
DeleteTheorems.v
KeyValue.v
Peeks.v
PutSamples.v
DeleteSamples.v
PagerTheorems.v
MetaTheorems.v
Keeps.v
TxTheorems.v
LogTheorems.v
RecoveryTheorems.v
FormatTheorems.v
Isolation.v
Versions.v
System.v
SystemViews.v
SystemBegin.v
SystemEnds.v
SystemTheorem.v
Durable.v
Runs.v
Crashes.v
