(* ===== verification/Prelude.v ===== *)
(** * atomkv: its storage engine, modelled and verified

    atomkv is an embedded key-value store: one file of pages, mapped in memory;
    B+ trees of byte keys and values in buckets that nest; one write transaction
    at a time next to any number of read transactions ("views"), by copy on
    write; two alternating meta records as the commit point, or a write-ahead
    log with checkpoints.  This library translates its C++ sources, under
    [include/atomkv] and [src], into executable definitions, and proves what
    its parts promise one another.  This first file holds what they all share:
    machine integers, the error-and-state monad [M], lists of bytes, ordered
    association lists, tactics and hints.

    ** The parts

    The parts are layers; each file requires those it calls.

    - On-disk formats ([page_format.h], [node_format.h], [slot.h], [meta_format.h],
      [tx_format.h], [options.h], [version.h]): [Format], with the byte layout of
      the packed structs; [FormatTheorems] has the round trips.
    - Comparators ([comparator.h]): [Comparator].  A comparator is a partial
      function, [None] where an assertion fails; the class [KeyOrder] is what
      the trees ask of one on the keys they hold.
    - The state of the database ([db_impl.h], [pager.h], [tx_manager.h], [tx_impl.h],
      [bucket_impl.h], [logger.h]): [State].
    - Pager ([pager.cpp]): [Memory] (addresses and copies through the mapping),
      [FreeMap] (the map of free ranges), [Pager] (allocation, delayed release,
      rollback, the saved free list).  [PagerI] is the interface the nodes use, a
      class of operations with its laws; [PagerInst] discharges it with the
      database's pager; [PagerTheorems] has the pager's own promises.
    - Nodes ([node.cpp]): [Node].  [NodeWf] is the invariant of a slotted page with
      its space accounting and compaction, [NodeSpec] and [LeafTheorems] see a leaf
      as a list of entries, [BranchSpec] and [BranchTheorems] a branch as its keys
      and children, [Search] the halving search of [Node::LowerBound].
    - Transactions seen from the trees ([tx_impl.cpp]): [Tx].
    - Tree iterator ([btree_iterator.cpp]) and trees ([btree.cpp]): [Iterator], [BTree].
    - The array stack of the iterator ([stack.h]): [Stack], refined to the list the
      iterator's model keeps; page, node and bucket iterator handles ([page.cpp],
      [node.cpp], [bucket_iterator.h]): [Handles].
    - Meta records ([meta.cpp]): [Meta]; log ([logger.cpp], [log_type.h]): [Logger];
      transaction manager ([tx_manager.cpp]): [TxManager]; buckets
      ([bucket_impl.cpp]) and the rest of [tx_impl.cpp]: [Bucket]; replay, opening
      and closing ([logger.cpp], [db_impl.cpp]): [Recovery].

    ** How the state and the operations correspond to the code

    - [DBImpl] is the C++ object with the objects it owns.  The mapped file is a
      finite map from page ids to pages, a page being a node or raw bytes, with
      the two casts between them ([page_image], [decode_node]); a page never
      written is zero.  The slots and the records of a node are kept apart, with
      the invariant that they do not overlap in the page.
    - A method is a program of [M DBImpl]: it ends with a value and a state
      ([Ok]), an exception and a state ([Throw]), or stuck ([Fault]): a failed
      [assert], an access out of bounds, an empty optional, an invalid iterator,
      overlapping [memcpy], a wait for a lock that is held ([Blocked]).
      Assertions are part of the model, as in a debug build.
    - A [TxRef] says which transaction a bucket or a tree belongs to, the write
      transaction or the view of a handle; a [RootRef] which variable a tree's
      root page id is (the C++ reference [BTree::root_pgid_]).
    - Integers are [Z], reduced where the code's types reduce them.  Byte spans
      of keys are [span]: bytes from elsewhere or a window of the node's own
      page, so that aliasing in [BTree::Update] shows.
    - Fill rates are compared as fractions, where the code divides doubles.
    - File and log effects are recorded in [io_trace] and [writer_calls].
    - The mutex over a whole method makes the method one step; [update_lock] and
      the lock of the mapping are states a later method may wait for.
    - Loops over the iterator's stack take fuel [depth_fuel], one more than the 32
      levels the stack holds, and the climbs the height of the stack; the
      theorems prove that it is enough.  [replay_loop] takes one more than the
      number of records; [replay_terminates] relates it to the loop without a
      bound ([replays]), which it proves to end.
      [DeleteSubBucket] takes its bound as an argument.

    ** What is proved

    - [SystemTheorem]: the database as a whole, by its public methods and in the
      update-in-place mode, refines a machine of maps ([System], [sys_step]): the
      committed map, the map of the open write transaction, the map each live
      view was opened on.  From a new file on, every call answers as the machine
      does, whatever the order of transactions, commits, rollbacks and views.
      [Versions] says what a committed tree is on the pages of the file and what
      keeps it; [SystemBegin] (a release gives back no page of a version),
      [SystemViews] ([Peeks]: a read depends on the file alone) and [SystemEnds]
      (commit and rollback) have the operations, [System] the writes and the
      invariant ([sys_at]).
    - [Durable]: what is committed survives.  The file a database leaves when it is
      closed, or crashes between two calls, holds the two meta records and the
      pages of the committed version, and anything elsewhere ([left_by]); [DB_Open]
      succeeds on it, and the answers go on as those of the committed map
      ([life_step]), through any number of stops, transactions and views open or
      not.  [disk_at] says what the two records are next to the one in memory.
    - [TreeGet], [TreeSearch], [TreeWalk]: on every well-formed tree ([tree_at]), [Get] and
      [LowerBound] are the lookup and the split of the sorted list of entries
      that the tree holds ([contents]), and walking from [begin()] reads that list.
      [Tree] has the representation: [rep d t] says that the pages of [d] hold the
      tree [t]; [trace] is the sequence of its entries and separators.
    - [PutTheorems], [PutSame]: [Put] and [Insert] implement the insertion into a sorted
      list ([put_entry]): new keys through leaf and branch splits up to a new root,
      existing keys, trees without pages.  On the way: [Copying] and [TreeSteps]
      (copy on write of the search path), [Forest] (steps on several trees with a
      frame rule), [LeafPage] and [LeafSplit], [BranchPage] and [BranchSplit],
      [Rebuild] (one tree out of several), [PutUp] (the climb), [PutTree], [PutOrder].
      A put leaves alone every tree that shares no page of the transaction with
      its own ([nodes_kept]), frees no page that stays in use, each page once
      ([Freed], [accounted]), and marks its nodes with its version at the latest;
      [turned] has all of it.  [Trails] is the frame calculus for relations
      between a program's states.
    - [DeleteTheorems]: [Delete] implements the removal from that list, and leaves the
      same trees alone.  [Holes] has the tree in the middle of a deletion, one
      subtree taken out and its place remembered; [Siblings] what [GetSibling]
      finds and the two nodes of a level side by side; [DeleteUp] rotations and
      merges of branches, the loss of the root and the climb through the levels;
      [DeleteLeaf] the same for leaves and the deletion through an iterator.
    - [KeyValue]: a tree refines a finite map: any sequence of [Get], [Put] and [Delete]
      on it, with values kept in the leaves, returns what the map returns
      ([kv_steps] is the abstract machine), but for a longer value put for an
      existing key in a leaf that has no room for it: the code drops it, and the
      machine may, if the map has entries that overfill a leaf ([crowded]).  [Height]: no tree that fits a file is
      higher than 24.
    - [Isolation]: in the update-in-place mode such a sequence leaves the trees of
      all views alone.
    - Nodes: insertion, overwriting, deletion and reading of entries and of keys
      with children, on every branch, inline and in overflow pages.
    - Pager: allocation gives pages nobody uses, release gives back exactly what
      earlier transactions freed, rollback restores the free pages, and both
      step an iterator before [begin()] exactly when [runs_into] says; the free
      list is read back as saved where the meta record names it.
    - Meta records and transactions: a commit is atomic however its write is
      cut; pages before meta; what a view can read is never reused; the counts
      of views and the write lock in every reachable state ([TxTheorems], with
      [Keeps] for what programs leave alone).
    - Log: what the log methods append is replayed as the operations logged
      ([LogTheorems]); a recovery makes no I/O but one sync of the pages
      ([RecoveryTheorems], over [TreeTrails]: what the pager's operations keep, every
      operation of trees and buckets keeps).
    - Where the code does not do what it means to, a theorem says what it does:
      [Last_misses_tail], [LowerBound_end], [FreeToMap_exact], [Put_same_key],
      [Leaf_Update_overflow_fault], [Commit_forgets_free_list],
      [Update_overflow_stuck], [first_commit_lost], [recovery_not_saved]; and so do the
      runs [dirty_read], [long_keys_lost], [nested_commit_lost] of [Runs].
    - [Sample], [SampleTree], [PutSamples], [DeleteSamples] and the ends of the theorem files apply
      the theorems to concrete databases; [Runs] evaluates whole runs, from
      opening an empty file on, and [Crashes] runs over several openings.

    ** Bounds of the theorems

    - Page sizes are the powers of two from 256 to 16384 ([page_size_ok]): the
      offsets in a page are 16-bit signed, so 32768, which the code admits, is
      out of reach.
    - Trees are at most 32 levels high, the iterator's stack; those of the write
      transaction are lower anyway ([Height]).
    - Theorems on trees are about the open write transaction's database
      ([db_inv]); the records of a branch are inline.
    - For [Put] keys take at most a quarter of a page ([thin]); [long_keys_lost]
      shows what happens beyond.  [put_room] asks for free page ids.
    - For [Delete] keys take at most a tenth of a page ([slim]), so that a node less
      than four tenths full has room for a key of its sibling or for the whole of
      it, whichever the code tries.  [delete_room] asks for free page ids.

    ** Parameters

    The checksum ([Crc32]) and the log writer's size ([WalWriter]) come from
    libraries outside the sources and are classes the definitions take; the
    records a log file holds are an argument of recovery.  The file system is
    assumed not to fail; mapping the file again keeps its contents, and old
    mappings stay coherent with the file, as shared mappings do.  The pointer
    that the moving constructor of [UpdateTx] reads before it is set is an
    argument ([garbage]); for the transactions of a replay it is what the class
    [Uninitialised] finds in the storage of [current_tx], and the theorems on
    the log that depend on it ask for null, as the constructor asserts.

    ** Not modelled

    The shared-memory segment of [shm.h] but for the current meta record and the
    write lock it holds (its count of connections is never read), the calls of
    the file system themselves, vendored code ([mio], the memory pool), tests and
    benchmarks.  The operations of nested buckets are modelled, and evaluated in
    [Runs]; the theorems on whole databases ask for transactions that open none. *)
From stdpp Require Export base tactics numbers option list gmap sets strings sorting.
From Stdlib Require Export ZArith Lia.
From Stdlib Require Export Strings.Byte.

#[global] Open Scope Z_scope.

(** ** Machine integers.  A [w]-bit unsigned value is a [Z] reduced modulo
    [2^w]; [i16] is the two's-complement reading the code gives [int16_t]. *)
Definition u8 (z : Z) : Z := z mod 2 ^ 8.
Definition u14 (z : Z) : Z := z mod 2 ^ 14.
Definition u15 (z : Z) : Z := z mod 2 ^ 15.
Definition u16 (z : Z) : Z := z mod 2 ^ 16.
Definition u32 (z : Z) : Z := z mod 2 ^ 32.
Definition u64 (z : Z) : Z := z mod 2 ^ 64.
Definition i64 (z : Z) : Z := (z + 2 ^ 63) mod 2 ^ 64 - 2 ^ 63.
Definition i16 (z : Z) : Z := (z + 2 ^ 15) mod 2 ^ 16 - 2 ^ 15.

Lemma u14_small z : 0 <= z < 2 ^ 14 -> u14 z = z.
Proof. apply Z.mod_small. Qed.
Lemma u15_small z : 0 <= z < 2 ^ 15 -> u15 z = z.
Proof. apply Z.mod_small. Qed.
Lemma u16_small z : 0 <= z < 2 ^ 16 -> u16 z = z.
Proof. apply Z.mod_small. Qed.
Lemma u32_small z : 0 <= z < 2 ^ 32 -> u32 z = z.
Proof. apply Z.mod_small. Qed.
Lemma u64_small z : 0 <= z < 2 ^ 64 -> u64 z = z.
Proof. apply Z.mod_small. Qed.
Lemma i16_small z : - 2 ^ 15 <= z < 2 ^ 15 -> i16 z = z.
Proof. intros H. unfold i16. rewrite Z.mod_small; lia. Qed.
Lemma u32_range z : 0 <= u32 z < 2 ^ 32.
Proof. apply Z.mod_pos_bound. lia. Qed.
Lemma u64_range z : 0 <= u64 z < 2 ^ 64.
Proof. apply Z.mod_pos_bound. lia. Qed.

(** [unwrap_all] removes every machine reduction whose argument is in range. *)
Ltac unwrap_all :=
  repeat match goal with
    | |- context [u14 ?x] => rewrite (u14_small x) by lia
    | |- context [u15 ?x] => rewrite (u15_small x) by lia
    | |- context [u16 ?x] => rewrite (u16_small x) by lia
    | |- context [u32 ?x] => rewrite (u32_small x) by lia
    | |- context [u64 ?x] => rewrite (u64_small x) by lia
    | |- context [i16 ?x] => rewrite (i16_small x) by lia
    end.

(** ** Outcomes.  A C++ call returns, throws (keeping every effect it had so
    far), or runs into something the language leaves undefined: a failed
    [assert], an access outside a buffer, a bad iterator step, an empty
    [std::optional], a [memcpy] between overlapping regions.  [Blocked] is a
    wait for a lock that is held; [OutOfFuel] is a loop that used up its bound
    (the theorems show which loops never do). *)
Inductive fault : Type :=
  Assertion | OutOfBounds | BadIterator | EmptyOptional | OverlappingCopy | Blocked | OutOfFuel.

Inductive exn : Type :=
| InvalidArgument (what : string)
| RuntimeError (what : string).

Inductive outcome (S A : Type) : Type :=
| Ok (a : A) (s : S)
| Throw (e : exn) (s : S)
| Fault (w : fault).
Arguments Ok {S A} a s.
Arguments Throw {S A} e s.
Arguments Fault {S A} w.

(** Programs over a state [S]: state, exceptions that keep the state, faults. *)
Definition M (S A : Type) : Type := S -> outcome S A.

Definition ret {S A} (a : A) : M S A := fun s => Ok a s.
Definition bind {S A B} (m : M S A) (k : A -> M S B) : M S B := fun s =>
  match m s with
  | Ok a s' => k a s'
  | Throw e s' => Throw e s'
  | Fault w => Fault w
  end.
Definition throw {S A} (e : exn) : M S A := fun s => Throw e s.
Definition stuck {S A} (w : fault) : M S A := fun _ => Fault w.
Definition gets {S A} (f : S -> A) : M S A := fun s => Ok (f s) s.
Definition modify {S} (f : S -> S) : M S unit := fun s => Ok tt (f s).
Definition assertM {S} (b : bool) : M S unit := if b then ret tt else stuck Assertion.

(** A part [T] of a state [S], as a getter and a setter. *)
Record lens (S T : Type) : Type := mkLens { lget : S -> T; lset : T -> S -> S }.
Arguments mkLens {S T} _ _.
Arguments lget {S T} _ _.
Arguments lset {S T} _ _ _.

(** Run a program over a part of the state. *)
Definition zoom {S T A} (l : lens S T) (m : M T A) : M S A := fun s =>
  match m (lget l s) with
  | Ok a t => Ok a (lset l t s)
  | Throw e t => Throw e (lset l t s)
  | Fault w => Fault w
  end.

Declare Scope prog_scope.
Delimit Scope prog_scope with prog.
Notation "'let*' x ':=' m 'in' k" := (bind m (fun x => k))
  (at level 10, x pattern, m at level 100, k at level 200,
   format "'let*'  x  ':='  m  'in' '//' k") : prog_scope.
Notation "m ;;; k" := (bind m (fun _ => k))
  (at level 199, k at level 200, right associativity) : prog_scope.
#[global] Open Scope prog_scope.

Lemma bind_ok {S A B} (m : M S A) (k : A -> M S B) s a s' :
  m s = Ok a s' -> bind m k s = k a s'.
Proof. intros H. unfold bind. by rewrite H. Qed.

Lemma bind_assoc {S A B C} (m : M S A) (f : A -> M S B) (g : B -> M S C) s :
  bind (bind m f) g s = bind m (fun a => bind (f a) g) s.
Proof. unfold bind. by destruct (m s). Qed.

Lemma bind_assert {S B} (b : bool) (k : unit -> M S B) s :
  b = true -> bind (assertM b) k s = k tt s.
Proof. by intros ->. Qed.

Lemma zoom_ok {S T A} (l : lens S T) (m : M T A) s a t :
  m (lget l s) = Ok a t -> zoom l m s = Ok a (lset l t s).
Proof. intros H. unfold zoom. by rewrite H. Qed.

(** [run_step H] advances one bind of the goal by the equation [H]. *)
Ltac run_step H := rewrite (bind_ok _ _ _ _ _ H); cbv beta.

(** ** Windows of a buffer.  [slice off n l] reads [n] cells from [off];
    [splice off new l] overwrites from [off] (a [memcpy] into [l]). *)
Section windows.
Context {A : Type}.
Implicit Types (l new : list A) (off n : Z).

Definition slice off n l : list A := take (Z.to_nat n) (drop (Z.to_nat off) l).
Definition splice off new l : list A :=
  take (Z.to_nat off) l ++ new ++ drop (Z.to_nat off + length new)%nat l.

Lemma length_splice off new l :
  0 <= off -> off + Z.of_nat (length new) <= Z.of_nat (length l) ->
  length (splice off new l) = length l.
Proof.
  intros ??. unfold splice. rewrite !length_app, length_take, length_drop. lia.
Qed.

Lemma length_slice off n l :
  0 <= off -> 0 <= n -> off + n <= Z.of_nat (length l) ->
  length (slice off n l) = Z.to_nat n.
Proof. intros. unfold slice. rewrite length_take, length_drop. lia. Qed.

Lemma slice_nil off l : slice off 0 l = [].
Proof. done. Qed.

Lemma slice_splice_same off new l :
  0 <= off -> off + Z.of_nat (length new) <= Z.of_nat (length l) ->
  slice off (Z.of_nat (length new)) (splice off new l) = new.
Proof.
  intros ??. unfold slice, splice.
  rewrite drop_app_length' by (rewrite length_take; lia).
  rewrite Nat2Z.id. by rewrite take_app_length.
Qed.

Lemma slice_splice_above off new l o n :
  0 <= off -> off + Z.of_nat (length new) <= Z.of_nat (length l) ->
  off + Z.of_nat (length new) <= o ->
  slice o n (splice off new l) = slice o n l.
Proof.
  intros ???. unfold slice, splice. f_equal.
  rewrite app_assoc, drop_app_ge, drop_drop
    by (rewrite length_app, length_take; lia).
  rewrite length_app, length_take. f_equal. lia.
Qed.

Lemma slice_splice_below off new l o n :
  0 <= o -> 0 <= n -> o + n <= off -> off <= Z.of_nat (length l) ->
  slice o n (splice off new l) = slice o n l.
Proof.
  intros ????. unfold slice, splice.
  rewrite drop_app_le by (rewrite length_take; lia).
  rewrite take_app_le by (rewrite length_drop, length_take; lia).
  rewrite <- (take_drop (Z.to_nat off) l) at 2.
  rewrite drop_app_le by (rewrite length_take; lia).
  by rewrite take_app_le by (rewrite length_drop, length_take; lia).
Qed.

Lemma slice_slice_sub off n l o k :
  0 <= off -> 0 <= o -> o + k <= n ->
  slice o k (slice off n l) = slice (off + o) k l.
Proof.
  intros. unfold slice.
  apply list_eq. intros i.
  destruct (decide (i < Z.to_nat k)%nat).
  - rewrite !lookup_take_lt, !lookup_drop, lookup_take_lt, lookup_drop by lia.
    f_equal. lia.
  - by rewrite !lookup_take_ge by lia.
Qed.

Lemma slice_splice_inside off new l o n :
  0 <= off -> off + Z.of_nat (length new) <= Z.of_nat (length l) ->
  off <= o -> 0 <= n -> o + n <= off + Z.of_nat (length new) ->
  slice o n (splice off new l) = slice (o - off) n new.
Proof.
  intros. rewrite <- (slice_splice_same off new l) at 2 by lia.
  rewrite slice_slice_sub by lia. f_equal. lia.
Qed.

(** Writing on where the last write ended. *)
Lemma splice_splice_next off a b l :
  0 <= off -> off + Z.of_nat (length a) + Z.of_nat (length b) <= Z.of_nat (length l) ->
  splice (off + Z.of_nat (length a)) b (splice off a l) = splice off (a ++ b) l.
Proof.
  intros. unfold splice. rewrite length_app, Z2Nat.inj_add, Nat2Z.id by lia.
  assert (Ht : length (take (Z.to_nat off) l) = Z.to_nat off) by (rewrite length_take; lia).
  rewrite <- Ht at 1. rewrite take_app_add, take_app_length.
  rewrite <- app_assoc. f_equal. rewrite <- app_assoc. do 2 f_equal.
  rewrite <- Ht at 1. rewrite <- Nat.add_assoc, drop_app_add, drop_app_add, drop_drop.
  f_equal. lia.
Qed.

Lemma slice_app off n m l :
  0 <= off -> 0 <= n -> 0 <= m ->
  slice off (n + m) l = slice off n l ++ slice (off + n) m l.
Proof.
  intros. unfold slice. rewrite Z2Nat.inj_add by lia.
  rewrite Z2Nat.inj_add by lia. rewrite <- drop_drop.
  by rewrite <- (take_take_drop (drop (Z.to_nat off) l) (Z.to_nat n) (Z.to_nat m)).
Qed.

Lemma slice_app_here n new l :
  Z.of_nat (length new) = n -> slice 0 n (new ++ l) = new.
Proof. intros <-. unfold slice. rewrite Nat2Z.id. apply take_app_length. Qed.

Lemma slice_app_skip off n pre l :
  Z.of_nat (length pre) <= off ->
  slice off n (pre ++ l) = slice (off - Z.of_nat (length pre)) n l.
Proof.
  intros. unfold slice. rewrite drop_app_ge by lia. do 2 f_equal. lia.
Qed.

Lemma slice_all n l : Z.of_nat (length l) = n -> slice 0 n l = l.
Proof. intros <-. unfold slice. rewrite Nat2Z.id. apply firstn_all. Qed.

Lemma length_slice_le off n l : (length (slice off n l) <= Z.to_nat n)%nat.
Proof. unfold slice. rewrite length_take. lia. Qed.
End windows.

(** ** Bytes.  [Byte.byte] has the 256 values and nothing else; little-endian
    encoding of machine integers. *)

Definition byte_of_Z (z : Z) : byte :=
  default x00 (Byte.of_N (Z.to_N (z mod 256))).
Definition Z_of_byte (b : byte) : Z := Z.of_N (Byte.to_N b).

Fixpoint le_bytes (n : nat) (z : Z) : list byte :=
  match n with
  | O => []
  | S n => byte_of_Z z :: le_bytes n (z / 256)
  end.

Fixpoint le_value (bs : list byte) : Z :=
  match bs with
  | [] => 0
  | b :: bs => Z_of_byte b + 256 * le_value bs
  end.

#[export] Instance byte_eq_dec : EqDecision byte := Byte.byte_eq_dec.
#[export] Instance byte_inhabited : Inhabited byte := populate x00.

Lemma Z_of_byte_range b : 0 <= Z_of_byte b < 256.
Proof.
  unfold Z_of_byte. pose proof (Byte.to_N_bounded b). lia.
Qed.

Lemma Z_of_byte_of_Z z : Z_of_byte (byte_of_Z z) = z mod 256.
Proof.
  unfold Z_of_byte, byte_of_Z.
  pose proof (Z.mod_pos_bound z 256 ltac:(lia)) as Hz.
  destruct (Byte.of_N (Z.to_N (z mod 256))) as [b|] eqn:E; simpl.
  - apply Byte.to_of_N in E. rewrite E. lia.
  - apply Byte.of_N_None_iff in E. lia.
Qed.

Lemma byte_of_Z_of_byte b : byte_of_Z (Z_of_byte b) = b.
Proof.
  unfold byte_of_Z. pose proof (Z_of_byte_range b).
  rewrite Z.mod_small by lia. unfold Z_of_byte. rewrite N2Z.id.
  by rewrite Byte.of_to_N.
Qed.

Lemma Z_of_byte_inj b c : Z_of_byte b = Z_of_byte c -> b = c.
Proof.
  intros H. by rewrite <- (byte_of_Z_of_byte b), H, byte_of_Z_of_byte.
Qed.

Lemma length_le_bytes n z : length (le_bytes n z) = n.
Proof. revert z. induction n as [|n IH]; intros z; simpl; [done|]. by rewrite IH. Qed.

Lemma le_value_bytes n z :
  0 <= z < 256 ^ Z.of_nat n -> le_value (le_bytes n z) = z.
Proof.
  revert z. induction n as [|n IH]; intros z Hz; simpl.
  - change (256 ^ Z.of_nat 0) with 1 in Hz. lia.
  - rewrite Nat2Z.inj_succ, Z.pow_succ_r in Hz by lia.
    rewrite Z_of_byte_of_Z, IH.
    + pose proof (Z.div_mod z 256 ltac:(lia)). lia.
    + split; [apply Z.div_pos; lia|]. apply Z.div_lt_upper_bound; lia.
Qed.

Lemma le_value_range bs : 0 <= le_value bs < 256 ^ Z.of_nat (length bs).
Proof.
  induction bs as [|b bs IH]; cbn [le_value length].
  - change (256 ^ Z.of_nat 0) with 1. lia.
  - rewrite Nat2Z.inj_succ, Z.pow_succ_r by lia.
    pose proof (Z_of_byte_range b). lia.
Qed.

Lemma le_bytes_value bs : le_bytes (length bs) (le_value bs) = bs.
Proof.
  induction bs as [|b bs IH]; cbn [le_value length le_bytes]; [done|].
  pose proof (Z_of_byte_range b).
  f_equal.
  - rewrite <- (byte_of_Z_of_byte b) at 2. unfold byte_of_Z. do 3 f_equal.
    rewrite (Z.mod_small (Z_of_byte b)) by lia.
    rewrite (Z.mul_comm 256), Z_mod_plus_full. apply Z.mod_small. lia.
  - rewrite (Z.mul_comm 256), Z.div_add by lia.
    rewrite (Z.div_small (Z_of_byte b)) by lia. by rewrite Z.add_0_l.
Qed.
