(* ===== verification/Format.v ===== *)
(** On-disk formats: the constants and packed structs of
    [include/atomkv/page_format.h], [tx_format.h], [slot.h], [node_format.h],
    [meta_format.h], [version.h] and [options.h], and their byte layout
    ([#pragma pack(push, 1)], little-endian, bit-fields allocated from the
    least significant bit). *)
From S2P Require Import Prelude.

(** ** page_format.h and tx_format.h *)
Definition kPageInvalidOffset : Z := -1.
Definition kPageMinSize : Z := 0x100.
Definition kPageMaxSize : Z := 0x8000.
Definition kPageInvalidId : Z := 0xffffffff.
Definition kPageInitCount : Z := 2.
Definition kPageMaxCount : Z := 0x80000000.
Definition kTxInvalidId : Z := 0xffffffffffffffff.
Definition kUserRootBucketId : Z := 0xffffffff.

(** ** version.h.  ['atom'] is a multi-character literal; its value is the one
    the usual compilers give it. *)
Definition ATOMKV_SIGN : Z := 0x61746f6d.
Definition ATOMKV_VERSION : Z := 1.

(** ** slot.h *)
Definition kSlotInvalidId : Z := -1.
Definition kKeyMaxSize : Z := 0x7fff.
Definition kValueMaxSize : Z := 0xffffffff.

(** [slot_u] is the union of [left_child] (branch) and [value_size] (leaf). *)
Record Slot := mkSlot {
  record_offset : Z;
  is_overflow_pages : bool;
  key_size : Z;
  is_bucket : bool;
  slot_u : Z;
}.
Abbreviation left_child := slot_u (only parsing).
Abbreviation value_size := slot_u (only parsing).

#[export] Instance Slot_eq_dec : EqDecision Slot.
Proof. solve_decision. Defined.
#[export] Instance Slot_inhabited : Inhabited Slot := populate (mkSlot 0 false 0 false 0).

Definition set_record_offset (v : Z) (s : Slot) : Slot :=
  mkSlot (u15 v) (is_overflow_pages s) (key_size s) (is_bucket s) (slot_u s).
Definition set_is_overflow_pages (v : bool) (s : Slot) : Slot :=
  mkSlot (record_offset s) v (key_size s) (is_bucket s) (slot_u s).
Definition set_key_size (v : Z) (s : Slot) : Slot :=
  mkSlot (record_offset s) (is_overflow_pages s) (u15 v) (is_bucket s) (slot_u s).
Definition set_is_bucket (v : bool) (s : Slot) : Slot :=
  mkSlot (record_offset s) (is_overflow_pages s) (key_size s) v (slot_u s).
Definition set_slot_u (v : Z) (s : Slot) : Slot :=
  mkSlot (record_offset s) (is_overflow_pages s) (key_size s) (is_bucket s) (u32 v).

(** ** node_format.h *)
Definition kInvalid : Z := 0.
Definition kBranch : Z := 1.
Definition kLeaf : Z := 2.

Record NodeHeader := mkHeader {
  last_modified_txid : Z;
  node_type : Z;      (* 2 bits *)
  hcount : Z;         (* 14 bits *)
  space_used : Z;
  data_offset : Z;    (* int16_t *)
}.

Definition sizeof_OverflowRecord : Z := 4.
Definition sizeof_NodeHeader : Z := 14.
Definition sizeof_padding : Z := 4.
Definition sizeof_Slot : Z := 8.

(** A node page.  [slots] is the slot array that starts at byte 18, live up to
    [hcount]; [payload] is the page's bytes, addressed by page offset, of
    which a node uses those from [data_offset] on. *)
Record NodeData := mkNode {
  header : NodeHeader;
  tail_child : Z;
  slots : list Slot;
  payload : list byte;
}.

(** ** meta_format.h *)
Record MetaStruct := mkMeta {
  m_sign : Z;
  m_page_size : Z;
  m_min_version : Z;
  m_page_count : Z;
  m_user_root : Z;
  m_free_list_pgid : Z;
  m_free_pair_count : Z;
  m_free_list_page_count : Z;
  m_txid : Z;
  m_crc32 : Z;
}.

Definition kMetaSize : Z := 42.

Definition CopyMetaInfo (dst src : MetaStruct) : MetaStruct :=
  mkMeta (m_sign dst) (m_page_size dst) (m_min_version dst)
    (m_page_count src) (m_user_root src) (m_free_list_pgid src)
    (m_free_pair_count src) (m_free_list_page_count src) (m_txid src)
    (m_crc32 dst).

(** ** options.h *)
Inductive DbMode := kUpdateInPlace | kWal.
#[export] Instance DbMode_eq_dec : EqDecision DbMode.
Proof. solve_decision. Defined.

(** ** Byte layout *)
Definition bit15 (b : bool) : Z := if b then 2 ^ 15 else 0.

Definition encode_slot (s : Slot) : list byte :=
  le_bytes 2 (record_offset s + bit15 (is_overflow_pages s)) ++
  le_bytes 2 (key_size s + bit15 (is_bucket s)) ++
  le_bytes 4 (slot_u s).

Definition decode_slot (bs : list byte) : Slot :=
  let w0 := le_value (slice 0 2 bs) in
  let w1 := le_value (slice 2 2 bs) in
  mkSlot (u15 w0) (2 ^ 15 <=? w0) (u15 w1) (2 ^ 15 <=? w1) (le_value (slice 4 4 bs)).

Definition encode_header (h : NodeHeader) : list byte :=
  le_bytes 8 (last_modified_txid h) ++
  le_bytes 2 (node_type h + 4 * hcount h) ++
  le_bytes 2 (space_used h) ++
  le_bytes 2 (u16 (data_offset h)).

Definition decode_header (bs : list byte) : NodeHeader :=
  let w := le_value (slice 8 2 bs) in
  mkHeader (le_value (slice 0 8 bs)) (w mod 4) (w / 4)
    (le_value (slice 10 2 bs)) (i16 (le_value (slice 12 2 bs))).

Definition encode_meta (m : MetaStruct) : list byte :=
  le_bytes 4 (m_sign m) ++ le_bytes 2 (m_page_size m) ++ le_bytes 4 (m_min_version m) ++
  le_bytes 4 (m_page_count m) ++ le_bytes 4 (m_user_root m) ++
  le_bytes 4 (m_free_list_pgid m) ++ le_bytes 4 (m_free_pair_count m) ++
  le_bytes 4 (m_free_list_page_count m) ++ le_bytes 8 (m_txid m) ++ le_bytes 4 (m_crc32 m).

Definition decode_meta (bs : list byte) : MetaStruct :=
  let f off n := le_value (slice off n bs) in
  mkMeta (f 0 4) (f 4 2) (f 6 4) (f 10 4) (f 14 4) (f 18 4) (f 22 4) (f 26 4) (f 30 8) (f 38 4).

(** The bytes of a node page: header, tail child, live slots, then the rest of
    the page; and the reading of a page of bytes as a node
    ([reinterpret_cast<NodeData*>]). *)
Definition live_slots (nd : NodeData) : list Slot := take (Z.to_nat (hcount (header nd))) (slots nd).

Definition page_image (nd : NodeData) : list byte :=
  let front := encode_header (header nd) ++ le_bytes 4 (tail_child nd) ++
               concat (encode_slot <$> live_slots nd) in
  front ++ drop (length front) (payload nd).

Fixpoint decode_slots (n : nat) (bs : list byte) : list Slot :=
  match n with
  | O => []
  | S n => decode_slot (take 8 bs) :: decode_slots n (drop 8 bs)
  end.

Definition decode_node (bs : list byte) : NodeData :=
  mkNode (decode_header bs) (le_value (slice 14 4 bs))
    (decode_slots ((length bs - 18) / 8) (drop 18 bs)) bs.

(** Field ranges of the packed structs. *)
Record slot_ranges (s : Slot) : Prop := {
  sr_offset : 0 <= record_offset s < 2 ^ 15;
  sr_key : 0 <= key_size s < 2 ^ 15;
  sr_u : 0 <= slot_u s < 2 ^ 32;
}.
Record header_ranges (h : NodeHeader) : Prop := {
  hr_txid : 0 <= last_modified_txid h < 2 ^ 64;
  hr_type : 0 <= node_type h < 4;
  hr_count : 0 <= hcount h < 2 ^ 14;
  hr_space : 0 <= space_used h < 2 ^ 16;
  hr_offset : - 2 ^ 15 <= data_offset h < 2 ^ 15;
}.

(** ** Round trips *)
Ltac at_field :=
  rewrite ?slice_app_skip by (rewrite ?length_le_bytes; lia);
  rewrite ?length_le_bytes;
  first [ rewrite slice_app_here by (rewrite length_le_bytes; reflexivity)
        | rewrite slice_all by (rewrite length_le_bytes; reflexivity) ].

Lemma length_encode_slot s : length (encode_slot s) = 8%nat.
Proof. reflexivity. Qed.
Lemma length_encode_header h : length (encode_header h) = 14%nat.
Proof. reflexivity. Qed.
Lemma length_encode_meta m : length (encode_meta m) = 42%nat.
Proof. reflexivity. Qed.

Lemma bitfield_low v b : 0 <= v < 2 ^ 15 -> u15 (v + bit15 b) = v.
Proof.
  intros. unfold u15. destruct b; simpl bit15.
  - replace (v + 2 ^ 15) with (v + 1 * 2 ^ 15) by lia.
    rewrite Z_mod_plus_full. by apply Z.mod_small.
  - rewrite Z.add_0_r. by apply Z.mod_small.
Qed.

Lemma bitfield_high v b : 0 <= v < 2 ^ 15 -> (2 ^ 15 <=? v + bit15 b) = b.
Proof. intros. destruct b; simpl bit15; [apply Z.leb_le | apply Z.leb_gt]; lia. Qed.

Lemma bitfield_range v b : 0 <= v < 2 ^ 15 -> 0 <= v + bit15 b < 256 ^ Z.of_nat 2.
Proof. intros. change (256 ^ Z.of_nat 2) with (2 ^ 16). destruct b; simpl bit15; lia. Qed.

Lemma decode_encode_slot s rest : slot_ranges s -> decode_slot (encode_slot s ++ rest) = s.
Proof.
  intros [Ho Hk Hu]. unfold decode_slot, encode_slot. rewrite <- !app_assoc.
  at_field. at_field. at_field.
  rewrite !le_value_bytes by (try apply bitfield_range; lia).
  rewrite !bitfield_low, !bitfield_high by lia. by destruct s.
Qed.

Lemma decode_encode_header h rest :
  header_ranges h -> decode_header (encode_header h ++ rest) = h.
Proof.
  intros [Ht Hty Hc Hs Hd]. unfold decode_header, encode_header. rewrite <- !app_assoc.
  at_field. at_field. at_field. at_field.
  rewrite !le_value_bytes; try lia.
  2: { change (256 ^ Z.of_nat 2) with (2 ^ 16). apply Z.mod_pos_bound. lia. }
  replace ((node_type h + 4 * hcount h) mod 4) with (node_type h).
  2: { rewrite (Z.mul_comm 4), Z_mod_plus_full. symmetry. by apply Z.mod_small. }
  replace ((node_type h + 4 * hcount h) / 4) with (hcount h).
  2: { rewrite (Z.mul_comm 4), Z.div_add, Z.div_small by lia. lia. }
  replace (i16 (u16 (data_offset h))) with (data_offset h); [by destruct h|].
  unfold i16, u16. rewrite Zplus_mod_idemp_l, Z.mod_small by lia. lia.
Qed.

Record meta_ranges (m : MetaStruct) : Prop := {
  mr_sign : 0 <= m_sign m < 2 ^ 32;
  mr_page_size : 0 <= m_page_size m < 2 ^ 16;
  mr_min_version : 0 <= m_min_version m < 2 ^ 32;
  mr_page_count : 0 <= m_page_count m < 2 ^ 32;
  mr_user_root : 0 <= m_user_root m < 2 ^ 32;
  mr_free_list_pgid : 0 <= m_free_list_pgid m < 2 ^ 32;
  mr_free_pair_count : 0 <= m_free_pair_count m < 2 ^ 32;
  mr_free_list_page_count : 0 <= m_free_list_page_count m < 2 ^ 32;
  mr_txid : 0 <= m_txid m < 2 ^ 64;
  mr_crc32 : 0 <= m_crc32 m < 2 ^ 32;
}.

Lemma decode_encode_meta m rest :
  meta_ranges m -> decode_meta (encode_meta m ++ rest) = m.
Proof.
  intros []. unfold decode_meta, encode_meta. rewrite <- !app_assoc.
  do 10 at_field. rewrite !le_value_bytes by lia. by destruct m.
Qed.

Lemma length_concat_slots (l : list Slot) :
  length (concat (encode_slot <$> l)) = (8 * length l)%nat.
Proof.
  induction l as [|s l IH]; cbn [fmap list_fmap concat]; [done|].
  rewrite length_app, length_encode_slot, IH. simpl. lia.
Qed.

Lemma decode_slots_concat (l : list Slot) n rest :
  Forall slot_ranges l -> (length l <= n)%nat ->
  take (length l) (decode_slots n (concat (encode_slot <$> l) ++ rest)) = l.
Proof.
  intros Hl. revert n. induction Hl as [|s l Hs Hl IH]; intros n Hn; [done|].
  destruct n as [|n]; [simpl in Hn; lia|].
  cbn [fmap list_fmap concat decode_slots length take]. rewrite <- app_assoc.
  rewrite (take_app_length' (encode_slot s)) by done.
  rewrite (drop_app_length' (encode_slot s)) by done.
  rewrite IH by (simpl in Hn; lia).
  f_equal. pose proof (decode_encode_slot s [] Hs) as E. by rewrite app_nil_r in E.
Qed.

(** Two node views of one page agree on what a node's code can reach: header,
    tail child, live slots, and the record area from [data_offset] on. *)
Definition node_equiv (a b : NodeData) : Prop :=
  header a = header b /\ tail_child a = tail_child b /\
  live_slots a = live_slots b /\
  drop (Z.to_nat (data_offset (header a))) (payload a) =
  drop (Z.to_nat (data_offset (header a))) (payload b).

#[export] Instance node_equiv_equivalence : Equivalence node_equiv.
Proof.
  unfold node_equiv. split.
  - intros a. repeat split.
  - intros a b (Hh & Ht & Hs & Hp). rewrite Hh in Hp. repeat split; congruence.
  - intros a b c (Hh & Ht & Hs & Hp) (Hh' & Ht' & Hs' & Hp').
    rewrite <- Hh in Hp'. repeat split; congruence.
Qed.

Lemma length_page_image nd :
  (18 + 8 * length (live_slots nd) <= length (payload nd))%nat ->
  length (page_image nd) = length (payload nd).
Proof.
  intros H. unfold page_image.
  rewrite !length_app, length_drop, ?length_app, length_encode_header, length_le_bytes,
    length_concat_slots. lia.
Qed.

Lemma decode_page_image nd :
  header_ranges (header nd) -> 0 <= tail_child nd < 2 ^ 32 ->
  Forall slot_ranges (live_slots nd) ->
  length (live_slots nd) = Z.to_nat (hcount (header nd)) ->
  18 + 8 * hcount (header nd) <= data_offset (header nd) ->
  data_offset (header nd) <= Z.of_nat (length (payload nd)) ->
  node_equiv (decode_node (page_image nd)) nd.
Proof.
  intros Hh Ht Hs Hn Hspace Hend. destruct Hh as [Htx Hty Hc Hsp Ho].
  assert (Hlen : length (page_image nd) = length (payload nd)).
  { apply length_page_image. lia. }
  assert (Hdh : decode_header (page_image nd) = header nd).
  { unfold page_image. rewrite <- !app_assoc. by apply decode_encode_header. }
  unfold node_equiv, decode_node; cbn [header tail_child slots payload].
  rewrite Hdh. split_and!.
  - done.
  - unfold page_image. rewrite <- !app_assoc.
    rewrite slice_app_skip by (rewrite length_encode_header; lia).
    rewrite length_encode_header, slice_app_here by (rewrite length_le_bytes; lia).
    apply le_value_bytes. lia.
  - unfold live_slots at 1. cbn [header slots]. rewrite <- Hn.
    unfold page_image at 2. rewrite <- !app_assoc, app_assoc.
    rewrite drop_app_length' by (by rewrite length_app, length_encode_header, length_le_bytes).
    apply decode_slots_concat; [done|].
    rewrite Hlen. apply Nat.div_le_lower_bound; lia.
  - unfold page_image. rewrite drop_app_ge.
    + rewrite drop_drop. f_equal.
      rewrite !length_app, length_encode_header, length_le_bytes, length_concat_slots. lia.
    + rewrite !length_app, length_encode_header, length_le_bytes, length_concat_slots. lia.
Qed.
