(* ===== verification/Comparator.v ===== *)
(** Key comparators: [include/atomkv/comparator.h].  A comparator returns
    [None] where its [assert] fails; [comparison] is [std::strong_ordering].
    [KeyOrder] is what the tree asks of a comparator: a strict total order on
    the keys it accepts.  The byte-array and 32-bit comparators discharge it. *)
From S2P Require Import Prelude Format.

Definition comparator : Type := list byte -> list byte -> option comparison.

(** [std::memcmp(a, b, n)]: the sign of the first difference in [n] bytes. *)
Fixpoint memcmp (a b : list byte) (n : nat) : Z :=
  match n, a, b with
  | S n, x :: a, y :: b =>
      match Z_of_byte x ?= Z_of_byte y with
      | Eq => memcmp a b n
      | Lt => -1
      | Gt => 1
      end
  | _, _, _ => 0
  end.

Definition ByteArrayCompFunc (key1 key2 : list byte) : option comparison :=
  let size1 := Z.of_nat (length key1) in
  let size2 := Z.of_nat (length key2) in
  let res := memcmp key1 key2 (Nat.min (length key1) (length key2)) in
  if res =? 0 then
    if size1 =? size2 then Some Eq
    else if i64 (u64 (size1 - size2)) <? 0 then Some Lt else Some Gt
  else if res <? 0 then Some Lt else Some Gt.

Definition UInt32CompFunc (key1 key2 : list byte) : option comparison :=
  if ((length key1 =? 4) && (length key2 =? 4))%nat
  then Some (le_value key1 ?= le_value key2) else None.

Definition UInt64CompFunc (key1 key2 : list byte) : option comparison :=
  if ((length key1 =? 8) && (length key2 =? 8))%nat
  then Some (le_value key1 ?= le_value key2) else None.

Definition ByteArrayComparator : comparator := ByteArrayCompFunc.
Definition UInt32Comparator : comparator := UInt32CompFunc.
(** The source binds the 64-bit comparator to the 32-bit function. *)
Definition UInt64Comparator : comparator := UInt32CompFunc.

(** ** What the tree relies on *)
Class KeyOrder (cmp : comparator) (key_ok : list byte -> Prop) : Prop := {
  ko_total a b : key_ok a -> key_ok b -> exists c, cmp a b = Some c;
  ko_eq a b : key_ok a -> key_ok b -> cmp a b = Some Eq <-> a = b;
  ko_antisym a b c :
    key_ok a -> key_ok b -> cmp a b = Some c -> cmp b a = Some (CompOpp c);
  ko_trans a b c :
    key_ok a -> key_ok b -> key_ok c ->
    cmp a b = Some Lt -> cmp b c = Some Lt -> cmp a c = Some Lt;
}.

(** ** The lexicographic order *)
Fixpoint lex_compare (a b : list byte) : comparison :=
  match a, b with
  | [], [] => Eq
  | [], _ :: _ => Lt
  | _ :: _, [] => Gt
  | x :: a, y :: b =>
      match Z_of_byte x ?= Z_of_byte y with
      | Eq => lex_compare a b
      | c => c
      end
  end.

Lemma lex_compare_refl a : lex_compare a a = Eq.
Proof. induction a as [|x a IH]; simpl; [done|]. by rewrite Z.compare_refl. Qed.

Lemma lex_compare_eq a b : lex_compare a b = Eq <-> a = b.
Proof.
  split; [|intros ->; apply lex_compare_refl].
  revert b. induction a as [|x a IH]; intros [|y b] H; simpl in H; try done.
  destruct (Z_of_byte x ?= Z_of_byte y) eqn:E; try done.
  apply Z.compare_eq_iff, Z_of_byte_inj in E as ->. by rewrite (IH b H).
Qed.

Lemma lex_compare_antisym a b : lex_compare b a = CompOpp (lex_compare a b).
Proof.
  revert b. induction a as [|x a IH]; intros [|y b]; simpl; try done.
  rewrite (Z.compare_antisym (Z_of_byte x)).
  destruct (Z_of_byte x ?= Z_of_byte y); simpl; auto.
Qed.

Lemma lex_compare_trans a b c :
  lex_compare a b = Lt -> lex_compare b c = Lt -> lex_compare a c = Lt.
Proof.
  revert b c. induction a as [|x a IH]; intros [|y b] [|z c]; simpl; try done.
  destruct (Z.compare_spec (Z_of_byte x) (Z_of_byte y)) as [Exy|Exy|Exy]; try done;
  destruct (Z.compare_spec (Z_of_byte y) (Z_of_byte z)) as [Eyz|Eyz|Eyz]; try done;
  intros H1 H2;
  destruct (Z.compare_spec (Z_of_byte x) (Z_of_byte z)); try lia; eauto.
Qed.

Lemma memcmp_lex a b :
  lex_compare a b =
  let res := memcmp a b (Nat.min (length a) (length b)) in
  if res =? 0 then Nat.compare (length a) (length b)
  else if res <? 0 then Lt else Gt.
Proof.
  revert b. induction a as [|x a IH]; intros [|y b]; simpl; try done.
  rewrite IH. by destruct (Z_of_byte x ?= Z_of_byte y).
Qed.

Lemma ByteArrayCompFunc_lex a b :
  Z.of_nat (length a) < 2 ^ 63 -> Z.of_nat (length b) < 2 ^ 63 ->
  ByteArrayCompFunc a b = Some (lex_compare a b).
Proof.
  intros Ha Hb. unfold ByteArrayCompFunc. rewrite memcmp_lex. cbv zeta.
  case_match; [|by case_match].
  destruct (Nat.compare_spec (length a) (length b)) as [E|E|E].
  - by rewrite E, Z.eqb_refl.
  - rewrite (proj2 (Z.eqb_neq _ _)) by lia.
    replace (i64 _) with (Z.of_nat (length a) - Z.of_nat (length b)).
    { rewrite (proj2 (Z.ltb_lt _ _)) by lia. done. }
    unfold i64, u64. rewrite Zplus_mod_idemp_l, Z.mod_small; lia.
  - rewrite (proj2 (Z.eqb_neq _ _)) by lia.
    replace (i64 _) with (Z.of_nat (length a) - Z.of_nat (length b)).
    { rewrite (proj2 (Z.ltb_ge _ _)) by lia. done. }
    unfold i64, u64. rewrite Zplus_mod_idemp_l, Z.mod_small; lia.
Qed.

(** Keys a record can hold: [key_size] is a 15-bit field. *)
Definition short_key (k : list byte) : Prop := Z.of_nat (length k) <= kKeyMaxSize.

#[export] Instance ByteArrayComparator_order : KeyOrder ByteArrayComparator short_key.
Proof.
  unfold short_key, kKeyMaxSize, ByteArrayComparator.
  split; intros; rewrite ?ByteArrayCompFunc_lex in * by lia.
  - eauto.
  - rewrite <- lex_compare_eq. split; [by intros [= ?]|by intros ->].
  - rewrite lex_compare_antisym. by simplify_eq.
  - simplify_eq. f_equal. eauto using lex_compare_trans.
Qed.

Definition four_bytes (k : list byte) : Prop := length k = 4%nat.

#[export] Instance UInt32Comparator_order : KeyOrder UInt32Comparator four_bytes.
Proof.
  unfold four_bytes, UInt32Comparator.
  assert (E : forall a b, length a = 4%nat -> length b = 4%nat ->
            UInt32CompFunc a b = Some (le_value a ?= le_value b)).
  { intros a b Ha Hb. unfold UInt32CompFunc. by rewrite Ha, Hb. }
  split; intros; rewrite ?E in * by done.
  - eauto.
  - split; [|intros ->; by rewrite Z.compare_refl].
    intros [= Hc]. apply Z.compare_eq_iff in Hc.
    rewrite <- (le_bytes_value a), <- (le_bytes_value b). congruence.
  - simplify_eq. by rewrite (Z.compare_antisym (le_value a)).
  - simplify_eq. f_equal. rewrite Z.compare_lt_iff in *. lia.
Qed.
