(* ===== verification/State.v ===== *)
(** The database object: [DBImpl] of [src/db_impl.h] with the parts it owns
    ([Pager] of [src/pager.h], [TxManager] of [src/tx_manager.h], [TxImpl] of
    [include/atomkv/tx_impl.h], [BucketImpl] of [include/atomkv/bucket_impl.h],
    [Meta] of [src/meta.h], [Logger] of [src/logger.h]), and the mapped file.

    An object that C++ reaches through a pointer to its owner ([db_->...]) is
    reached here through the one state; the setters below replace one part. *)
From S2P Require Import Prelude Format Comparator.

(** ** The mapped file.  A page of the file is seen as a node or as raw bytes;
    [raw_bytes] and [page_node] are the casts between the views.  A page never
    written is zero (the file grows by [resize]). *)
Inductive Page : Type :=
| NodePage (nd : NodeData)
| RawPage (bs : list byte).

Record Mapping := mkMapping {
  file_pages : gmap Z Page;
  map_size : Z;
}.

Definition raw_bytes (p : Page) : list byte :=
  match p with NodePage nd => page_image nd | RawPage bs => bs end.
Definition page_node (p : Page) : NodeData :=
  match p with NodePage nd => nd | RawPage bs => decode_node bs end.

(** ** pager.h *)
Record Pager := mkPager {
  pending_map : list (Z * list (Z * Z));   (* std::map<TxId, vector<PagePair>> *)
  free_map : list (Z * Z);                 (* std::map<PageId, PageCount> *)
  alloc_records : list (Z * Z);
  debug_free_set : gset Z;
}.

Definition set_free_map (v : list (Z * Z)) (p : Pager) : Pager :=
  mkPager (pending_map p) v (alloc_records p) (debug_free_set p).
Definition set_pending_map (v : list (Z * list (Z * Z))) (p : Pager) : Pager :=
  mkPager v (free_map p) (alloc_records p) (debug_free_set p).
Definition set_alloc_records (v : list (Z * Z)) (p : Pager) : Pager :=
  mkPager (pending_map p) (free_map p) v (debug_free_set p).
Definition set_debug_free_set (v : gset Z) (p : Pager) : Pager :=
  mkPager (pending_map p) (free_map p) (alloc_records p) v.

(** ** bucket_impl.h and tx_impl.h.  [sub_bucket_map] is a
    [std::map<std::string, pair<BucketId, PageId>>], kept in key order.  A
    bucket's tree holds a reference [PageId&]: the user bucket's is a field of
    the transaction's meta, a sub bucket's is the [PageId] of its entry in the
    parent's [sub_bucket_map]. *)
Inductive RootRef : Type :=
| UserRoot
| EntryOf (parent : Z) (key : list byte).

Record BucketImpl := mkBucket {
  bucket_id : Z;
  b_writable : bool;
  b_root : RootRef;
  sub_bucket_map : option (list (list byte * (Z * Z)));
}.

Record TxImpl := mkTx {
  meta_format : MetaStruct;
  tx_writable : bool;
  user_bucket : BucketImpl;
  sub_bucket_cache : list (option BucketImpl);
}.

Definition set_meta_format (v : MetaStruct) (t : TxImpl) : TxImpl :=
  mkTx v (tx_writable t) (user_bucket t) (sub_bucket_cache t).

(** ** tx_manager.h *)
Record TxManager := mkTxManager {
  persisted_txid : Z;
  update_tx : option TxImpl;
  view_tx_map : list (Z * Z);     (* std::map<TxId, uint32_t> *)
  min_view_txid : Z;
}.

Definition set_update_tx (v : option TxImpl) (t : TxManager) : TxManager :=
  mkTxManager (persisted_txid t) v (view_tx_map t) (min_view_txid t).
Definition set_persisted_txid (v : Z) (t : TxManager) : TxManager :=
  mkTxManager v (update_tx t) (view_tx_map t) (min_view_txid t).
Definition set_view_tx_map (v : list (Z * Z)) (t : TxManager) : TxManager :=
  mkTxManager (persisted_txid t) (update_tx t) v (min_view_txid t).
Definition set_min_view_txid (v : Z) (t : TxManager) : TxManager :=
  mkTxManager (persisted_txid t) (update_tx t) (view_tx_map t) v.

(** ** logger.h.  The WAL writer ([wal::Writer]) is a library outside the
    repository; the logger's part of the state is the history of the calls it
    has made on it. *)
Inductive WalCall : Type :=
| AppendRecordToBuffer (bs : list byte)
| FlushBuffer
| Sync
| Close
| Open.

Record Logger := mkLogger {
  writer_calls : list WalCall;
  disable_writing : bool;
  checkpoint_needed : bool;
}.

(** ** options.h *)
Record Options := mkOptions {
  opt_page_size : Z;
  opt_comparator : comparator;
  opt_read_only : bool;
  opt_sync : bool;
  opt_mode : DbMode;
  opt_max_wal_size : Z;
}.

(** Requests the database makes of the file it maps, in order: [mmap.sync],
    the write of a meta record at a file offset, and [file.sync]. *)
Inductive IoEvent : Type :=
| MmapSync
| MetaWrite (offset : Z) (bs : list byte)
| FileSync.

(** ** db_impl.h.  [io_trace] is the history of those requests, newest last;
    [shm_meta] is [Shm::meta_struct()], which [Meta] works on; [update_lock]
    says that [Shm::update_lock()] is held; [db_mmap_pending] counts the old
    mappings kept alive.  [view_txs] are the [TxImpl]s inside the [ViewTx]
    objects handed out, by order of creation, [None] once destroyed. *)
Record DBImpl := mkDB {
  options : Options;
  db_map : Mapping;
  db_mmap_pending : nat;
  io_trace : list IoEvent;
  shm_meta : MetaStruct;
  update_lock : bool;
  cur_meta_index : Z;
  pager : Pager;
  tx_manager : TxManager;
  view_txs : list (option TxImpl);
  logger : Logger;
}.

Definition page_size (d : DBImpl) : Z := opt_page_size (options d).

Definition set_db_map (v : Mapping) (d : DBImpl) : DBImpl :=
  mkDB (options d) v (db_mmap_pending d) (io_trace d) (shm_meta d) (update_lock d) (cur_meta_index d)
    (pager d) (tx_manager d) (view_txs d) (logger d).
Definition set_db_mmap_pending (v : nat) (d : DBImpl) : DBImpl :=
  mkDB (options d) (db_map d) v (io_trace d) (shm_meta d) (update_lock d) (cur_meta_index d)
    (pager d) (tx_manager d) (view_txs d) (logger d).
Definition log_io (e : IoEvent) (d : DBImpl) : DBImpl :=
  mkDB (options d) (db_map d) (db_mmap_pending d) (io_trace d ++ [e]) (shm_meta d) (update_lock d)
    (cur_meta_index d) (pager d) (tx_manager d) (view_txs d) (logger d).
Definition set_shm_meta (v : MetaStruct) (d : DBImpl) : DBImpl :=
  mkDB (options d) (db_map d) (db_mmap_pending d) (io_trace d) v (update_lock d) (cur_meta_index d)
    (pager d) (tx_manager d) (view_txs d) (logger d).
Definition set_update_lock (v : bool) (d : DBImpl) : DBImpl :=
  mkDB (options d) (db_map d) (db_mmap_pending d) (io_trace d) (shm_meta d) v (cur_meta_index d)
    (pager d) (tx_manager d) (view_txs d) (logger d).
Definition set_cur_meta_index (v : Z) (d : DBImpl) : DBImpl :=
  mkDB (options d) (db_map d) (db_mmap_pending d) (io_trace d) (shm_meta d) (update_lock d) v
    (pager d) (tx_manager d) (view_txs d) (logger d).
Definition set_pager (v : Pager) (d : DBImpl) : DBImpl :=
  mkDB (options d) (db_map d) (db_mmap_pending d) (io_trace d) (shm_meta d) (update_lock d)
    (cur_meta_index d) v (tx_manager d) (view_txs d) (logger d).
Definition set_tx_manager (v : TxManager) (d : DBImpl) : DBImpl :=
  mkDB (options d) (db_map d) (db_mmap_pending d) (io_trace d) (shm_meta d) (update_lock d)
    (cur_meta_index d) (pager d) v (view_txs d) (logger d).
Definition set_view_txs (v : list (option TxImpl)) (d : DBImpl) : DBImpl :=
  mkDB (options d) (db_map d) (db_mmap_pending d) (io_trace d) (shm_meta d) (update_lock d)
    (cur_meta_index d) (pager d) (tx_manager d) v (logger d).
Definition set_logger (v : Logger) (d : DBImpl) : DBImpl :=
  mkDB (options d) (db_map d) (db_mmap_pending d) (io_trace d) (shm_meta d) (update_lock d)
    (cur_meta_index d) (pager d) (tx_manager d) (view_txs d) v.

Definition pager_lens : lens DBImpl Pager := mkLens pager set_pager.
Definition tx_manager_lens : lens DBImpl TxManager := mkLens tx_manager set_tx_manager.

(** [TxManager::update_tx()]: asserts that a write transaction is open. *)
Definition get_update_tx : M DBImpl TxImpl := fun d =>
  match update_tx (tx_manager d) with
  | Some t => Ok t d
  | None => Fault Assertion
  end.
Definition put_update_tx (t : TxImpl) : M DBImpl unit :=
  modify (fun d => set_tx_manager (set_update_tx (Some t) (tx_manager d)) d).

(** The transaction id of the open write transaction, if one is open. *)
Definition update_txid (d : DBImpl) : option Z :=
  (fun t => m_txid (meta_format t)) <$> update_tx (tx_manager d).
