(* ===== verification/Memory.v ===== *)
(** Access to the mapped file: page addresses ([Pager::GetPtr],
    [GetPageIdByPtr], [GetPageCount], [Reference], [WriteByBytes] of
    [src/pager.cpp]) and [std::memcpy] through the mapping.

    A pointer into the mapping is its byte offset from [mmap.data()]; an access
    that leaves the mapping faults. *)
From S2P Require Import Prelude Format State.

(** ** Page addresses *)

(** [GetPtr(pgid, offset)] as an offset into the mapping.  [pgid] is a
    [uint32_t] and [page_size_] promotes to [int], so the product is taken
    modulo 2^32. *)
Definition GetPtr (ps pgid offset : Z) : Z := u32 (pgid * ps) + offset.

(** [GetPageIdByPtr] on a pointer given as an offset into the mapping. *)
Definition GetPageIdByPtr (ps ptr : Z) : Z := u32 (ptr / ps).

Definition GetPageCount (ps bytes : Z) : Z :=
  let page_count := u32 (bytes / ps) in
  if bytes mod ps =? 0 then page_count else u32 (page_count + 1).

(** ** Memory access through the mapping *)
Definition zero_page (ps : Z) : list byte := replicate (Z.to_nat ps) x00.

Definition page_at (ps : Z) (m : gmap Z Page) (i : Z) : Page :=
  default (RawPage (zero_page ps)) (m !! i).

(** Write [buf] at offset [off] of page [i], running on into the next pages. *)
Fixpoint write_pages (ps : Z) (fuel : nat) (i off : Z) (buf : list byte)
    (m : gmap Z Page) : gmap Z Page :=
  match fuel, buf with
  | O, _ | _, [] => m
  | S fuel, _ =>
      let n := Z.to_nat (ps - off) in
      write_pages ps fuel (i + 1) 0 (drop n buf)
        (<[i := RawPage (splice off (take n buf) (raw_bytes (page_at ps m i)))]> m)
  end.

(** Read [n] bytes at offset [off] of page [i], running on into the next pages. *)
Fixpoint read_pages (ps : Z) (fuel : nat) (i off n : Z) (m : gmap Z Page) : list byte :=
  match fuel with
  | O => []
  | S fuel =>
      if n <=? 0 then []
      else let k := Z.min n (ps - off) in
           slice off k (raw_bytes (page_at ps m i)) ++ read_pages ps fuel (i + 1) 0 (n - k) m
  end.

(** [std::memcpy] to and from the mapping at a byte offset; an access past the
    end of the mapping faults. *)
Definition write_at (ptr : Z) (buf : list byte) : M DBImpl unit := fun d =>
  let ps := page_size d in
  let mp := db_map d in
  if (0 <=? ptr) && (ptr + Z.of_nat (length buf) <=? map_size mp) then
    Ok tt (set_db_map (mkMapping
      (write_pages ps (length buf) (ptr / ps) (ptr mod ps) buf (file_pages mp))
      (map_size mp)) d)
  else Fault OutOfBounds.

Definition peek_at (d : DBImpl) (ptr n : Z) : list byte :=
  read_pages (page_size d) (Z.to_nat n) (ptr / page_size d) (ptr mod page_size d) n
    (file_pages (db_map d)).

Definition read_at (ptr n : Z) : M DBImpl (list byte) := fun d =>
  if (0 <=? ptr) && (ptr + n <=? map_size (db_map d)) then Ok (peek_at d ptr n) d
  else Fault OutOfBounds.

Definition WriteByBytes (pgid offset : Z) (buf : list byte) : M DBImpl unit := fun d =>
  write_at (GetPtr (page_size d) pgid offset) buf d.

(** [Reference(pgid, dirty)] and the cast to [NodeData] of the page it yields:
    reading, and the node's writes through the pointer. *)
Definition Reference (pgid : Z) : M DBImpl NodeData := fun d =>
  let ps := page_size d in
  if negb (pgid =? kPageInvalidId) && (pgid <? kPageMaxCount) then
    let ptr := GetPtr ps pgid 0 in
    if ptr + ps <=? map_size (db_map d)
    then Ok (page_node (page_at ps (file_pages (db_map d)) (ptr / ps))) d
    else Fault OutOfBounds
  else Fault Assertion.

Definition store_node (pgid : Z) (nd : NodeData) : M DBImpl unit :=
  modify (fun d =>
    let mp := db_map d in
    set_db_map (mkMapping
      (<[GetPtr (page_size d) pgid 0 / page_size d := NodePage nd]> (file_pages mp))
      (map_size mp)) d).


(** ** Page sizes: the powers of two from [kPageMinSize] for which
    [data_offset], an [int16_t], can hold the page size. *)
Definition page_size_ok (ps : Z) : Prop :=
  ps ∈ [256; 512; 1024; 2048; 4096; 8192; 16384].

Lemma page_size_bounds ps : page_size_ok ps -> 256 <= ps <= 16384 /\ ps mod 8 = 0.
Proof.
  unfold page_size_ok. rewrite !elem_of_cons, elem_of_nil.
  intros [->|[->|[->|[->|[->|[->|[->|[]]]]]]]]; (split; [lia|reflexivity]).
Qed.

Lemma page_size_pow2 ps : page_size_ok ps -> exists j, 8 <= j <= 14 /\ ps = 2 ^ j.
Proof.
  unfold page_size_ok. rewrite !elem_of_cons, elem_of_nil.
  intros [->|[->|[->|[->|[->|[->|[->|[]]]]]]]];
    [exists 8|exists 9|exists 10|exists 11|exists 12|exists 13|exists 14]; (split; [lia|reflexivity]).
Qed.

(** ** Addresses *)
Lemma GetPtr_exact ps pgid off :
  0 <= pgid -> 0 < ps -> pgid * ps < 2 ^ 32 -> GetPtr ps pgid off = pgid * ps + off.
Proof. intros. unfold GetPtr. rewrite u32_small; nia. Qed.

Lemma GetPtr_page ps pgid :
  0 <= pgid -> 0 < ps -> pgid * ps < 2 ^ 32 -> GetPtr ps pgid 0 / ps = pgid.
Proof. intros. rewrite GetPtr_exact by lia. rewrite Z.add_0_r. apply Z.div_mul. lia. Qed.

Lemma GetPageIdByPtr_GetPtr ps pgid :
  0 <= pgid -> 0 < ps -> pgid * ps < 2 ^ 32 -> GetPageIdByPtr ps (GetPtr ps pgid 0) = pgid.
Proof.
  intros. unfold GetPageIdByPtr. rewrite GetPtr_page by lia. apply u32_small. nia.
Qed.

(** From 4 GiB on, page addresses repeat: the product is a [uint32_t]. *)
Lemma GetPtr_wraps ps pgid off :
  page_size_ok ps -> GetPtr ps (pgid + 2 ^ 32 / ps) off = GetPtr ps pgid off.
Proof.
  intros Hps. destruct (page_size_pow2 _ Hps) as (j & Hj & ->).
  unfold GetPtr, u32. f_equal.
  replace (2 ^ 32) with (2 ^ (32 - j) * 2 ^ j) at 1.
  2: { rewrite <- Z.pow_add_r by lia. f_equal. lia. }
  rewrite Z.div_mul by (apply Z.pow_nonzero; lia).
  rewrite Z.mul_add_distr_r, <- (Z.pow_add_r 2 (32 - j)) by lia.
  replace (32 - j + j) with 32 by lia.
  by rewrite <- (Z.mul_1_l (2 ^ 32)) at 1; rewrite Z_mod_plus_full.
Qed.

Lemma GetPageCount_spec ps bytes :
  page_size_ok ps -> 0 <= bytes < 2 ^ 32 ->
  0 <= GetPageCount ps bytes /\ bytes <= GetPageCount ps bytes * ps < bytes + ps.
Proof.
  intros Hps Hb. destruct (page_size_bounds _ Hps) as [Hr _]. unfold GetPageCount.
  pose proof (Z.div_mod bytes ps ltac:(lia)). pose proof (Z.mod_pos_bound bytes ps ltac:(lia)).
  assert (0 <= bytes / ps < 2 ^ 31).
  { split; [apply Z.div_pos; lia|]. apply Z.div_lt_upper_bound; lia. }
  rewrite (u32_small (bytes / ps)) by lia.
  destruct (Z.eqb_spec (bytes mod ps) 0); [|rewrite u32_small by lia]; nia.
Qed.
