(* ===== verification/FreeMap.v ===== *)
(** The free map of the pager: [Pager::AllocFromMap] and [Pager::FreeToMap] of
    [src/pager.cpp].

    [free_map_] and [pending_map_] are [std::map]s, kept as association lists
    in key order; an iterator is a position in the list, [length] being
    [end()].  The [NDEBUG]-guarded [debug_free_set_] is modelled too, so every
    [assert] of these functions is a check the program makes. *)
From S2P Require Import Prelude Format State.

(** ** std::map over integer keys *)
Section ordered_map.
Context {V : Type}.
Implicit Types m : list (Z * V).

(** Position of [lower_bound(k)]: how many keys are below [k]. *)
Fixpoint map_lower_bound (k : Z) m : nat :=
  match m with
  | (k', _) :: m => if k' <? k then S (map_lower_bound k m) else O
  | [] => O
  end.

(** [insert({k, v})]: nothing happens when the key is present. *)
Fixpoint map_insert (k : Z) (v : V) m : list (Z * V) :=
  match m with
  | (k', v') :: m' =>
      if k' <? k then (k', v') :: map_insert k v m'
      else if k' =? k then m
      else (k, v) :: m
  | [] => [(k, v)]
  end.

Fixpoint map_find (k : Z) m : option V :=
  match m with
  | (k', v') :: m' => if k' =? k then Some v' else map_find k m'
  | [] => None
  end.

(** Assign to the value of a present key. *)
Fixpoint map_assign (k : Z) (v : V) m : list (Z * V) :=
  match m with
  | (k', v') :: m' => if k' =? k then (k', v) :: m' else (k', v') :: map_assign k v m'
  | [] => []
  end.

Fixpoint map_erase (k : Z) m : list (Z * V) :=
  match m with
  | (k', v') :: m' => if k' =? k then m' else (k', v') :: map_erase k m'
  | [] => []
  end.
End ordered_map.

(** ** The debug free set *)

(** Insertions and erasures of the debug build, page by page. *)
Fixpoint debug_insert (pgid : Z) (n : nat) : M Pager unit :=
  match n with
  | O => ret tt
  | S n =>
      let* s := gets debug_free_set in
      assertM (bool_decide (u32 pgid ∉ s)) ;;;
      modify (set_debug_free_set ({[u32 pgid]} ∪ s)) ;;;
      debug_insert (pgid + 1) n
  end.

Fixpoint debug_erase (pgid : Z) (n : nat) : M Pager unit :=
  match n with
  | O => ret tt
  | S n =>
      let* s := gets debug_free_set in
      assertM (bool_decide (u32 pgid ∈ s)) ;;;
      modify (set_debug_free_set (s ∖ {[u32 pgid]})) ;;;
      debug_erase (pgid + 1) n
  end.

(** ** FreeToMap *)

(** The iterator part on a free map: the new map, or [None] where
    [erase(tmp_iter--)] decrements [begin()]. *)
Definition free_to_map (pgid count : Z) (fm : list (Z * Z)) : option (list (Z * Z)) :=
  let next_pgid := u32 (pgid + count) in
  let i := map_lower_bound pgid fm in
  '(tmp, count, fm) ←
    match fm !! i with
    | Some (f, c) =>
        if f =? next_pgid then
          match i with
          | O => None
          | S j => Some (j, u32 (count + c), delete i fm)
          end
        else Some (i, count, fm)
    | None => Some (match fm with [] => O | _ => pred (length fm) end, count, fm)
    end;
  Some (match fm !! tmp with
        | Some (f, c) =>
            if u32 (f + c) =? pgid then <[tmp := (f, u32 (c + count))]> fm
            else map_insert pgid count fm
        | None => map_insert pgid count fm
        end).

Definition FreeToMap (pgid count : Z) : M Pager unit :=
  debug_insert pgid (Z.to_nat count) ;;;
  fun p => match free_to_map pgid count (free_map p) with
           | Some fm => Ok tt (set_free_map fm p)
           | None => Fault BadIterator
           end.

(** ** AllocFromMap *)

(** The search loop: the position of the first entry of at least [count]
    pages, [end()] if there is none; [None] if [assert(free_count > 0)] fails
    on the way. *)
Fixpoint alloc_pos (count : Z) (fm : list (Z * Z)) : option nat :=
  match fm with
  | [] => Some O
  | (_, c) :: fm =>
      if 0 <? c then if c <? count then S <$> alloc_pos count fm else Some O
      else None
  end.

Definition AllocFromMap (count : Z) : M Pager Z :=
  let* fm := gets free_map in
  match alloc_pos count fm with
  | None => stuck Assertion
  | Some i =>
      match fm !! i with
      | None => ret kPageInvalidId
      | Some (pgid, free_count) =>
          modify (set_free_map (delete i fm)) ;;;
          (if count <? free_count then
             let free_pgid := u32 (pgid + count) in
             assertM (bool_decide (map_find free_pgid (delete i fm) = None)) ;;;
             modify (set_free_map (map_insert free_pgid (u32 (free_count - count)) (delete i fm)))
           else ret tt) ;;;
          modify (fun p => set_alloc_records (alloc_records p ++ [(pgid, count)]) p) ;;;
          (if pgid =? kPageInvalidId then ret tt else debug_erase pgid (Z.to_nat count)) ;;;
          ret pgid
      end
  end.

(** ** Pages a free map holds, and its invariant *)
Definition in_range (p : Z) (e : Z * Z) : Prop := e.1 <= p < e.1 + e.2.
Definition covers (fm : list (Z * Z)) (p : Z) : Prop := Exists (in_range p) fm.

Definition pair_pages (fm : list (Z * Z)) : list Z := fm ≫= (fun e => seqZ e.1 e.2).

(** Entries are non-empty, in address order, disjoint, and below
    [kPageInvalidId]; [lo] is a lower bound of the first. *)
Fixpoint wf_from (lo : Z) (fm : list (Z * Z)) : Prop :=
  match fm with
  | [] => True
  | (f, c) :: fm => lo <= f /\ 0 < c /\ f + c <= kPageInvalidId /\ wf_from (f + c) fm
  end.
Definition fm_wf (fm : list (Z * Z)) : Prop := wf_from 0 fm.

(** The debug set is exactly what the free map covers. *)
Definition free_wf (p : Pager) : Prop :=
  fm_wf (free_map p) /\ forall q, q ∈ debug_free_set p <-> covers (free_map p) q.

(** ** Lemmas *)
Lemma covers_nil p : covers [] p <-> False.
Proof. apply Exists_nil. Qed.
Lemma covers_cons f c fm p : covers ((f, c) :: fm) p <-> f <= p < f + c \/ covers fm p.
Proof. apply Exists_cons. Qed.
Lemma covers_app l1 l2 p : covers (l1 ++ l2) p <-> covers l1 p \/ covers l2 p.
Proof. apply Exists_app. Qed.

Lemma elem_of_pair_pages fm p : p ∈ pair_pages fm <-> covers fm p.
Proof.
  unfold pair_pages, covers. rewrite list_elem_of_bind, Exists_exists. unfold in_range. setoid_rewrite elem_of_seqZ.
  by split; intros (e & H1 & H2); exists e.
Qed.

Create Rewrite HintDb freemap.
#[export] Hint Rewrite covers_nil covers_cons covers_app : freemap.

Definition end_of (lo : Z) (fm : list (Z * Z)) : Z :=
  foldl (fun _ e => e.1 + e.2) lo fm.

Lemma end_of_app lo l1 l2 : end_of lo (l1 ++ l2) = end_of (end_of lo l1) l2.
Proof. apply foldl_app. Qed.

Lemma wf_from_app lo l1 l2 :
  wf_from lo (l1 ++ l2) <-> wf_from lo l1 /\ wf_from (end_of lo l1) l2.
Proof.
  revert lo. induction l1 as [|[f c] l1 IH]; intros lo; simpl; [tauto|].
  rewrite IH. tauto.
Qed.

Lemma wf_from_weaken lo lo' fm : lo' <= lo -> wf_from lo fm -> wf_from lo' fm.
Proof. destruct fm as [|[f c] fm]; simpl; [done|]. intuition lia. Qed.

Lemma covers_ge lo fm p : wf_from lo fm -> covers fm p -> lo <= p.
Proof.
  revert lo. induction fm as [|[f c] fm IH]; intros lo Hwf H;
    autorewrite with freemap in H; [done|].
  simpl in Hwf. destruct H as [H|H]; [lia|]. apply (IH (f + c)) in H; [lia|tauto].
Qed.

Lemma covers_lt_end lo fm p : wf_from lo fm -> covers fm p -> p < end_of lo fm.
Proof.
  intros Hwf Hp. induction fm as [|[g d] fm IH] using rev_ind; [by apply covers_nil in Hp|].
  apply wf_from_app in Hwf as [Hwf1 Hwf2]. simpl in Hwf2.
  rewrite end_of_app. simpl. autorewrite with freemap in Hp.
  destruct Hp as [Hp|[Hp|[]]]; [|lia]. specialize (IH Hwf1 Hp). lia.
Qed.

Lemma end_of_ge lo fm : wf_from lo fm -> lo <= end_of lo fm.
Proof.
  induction fm as [|[g d] fm IH] using rev_ind; [simpl; lia|].
  rewrite wf_from_app, end_of_app. simpl. intuition lia.
Qed.

(** Where [lower_bound] splits the map. *)
Lemma lower_bound_split {V} (k : Z) (fm : list (Z * V)) :
  exists l1 l2, fm = l1 ++ l2 /\ map_lower_bound k fm = length l1 /\
    Forall (fun e => e.1 < k) l1 /\ (forall e, head l2 = Some e -> k <= e.1).
Proof.
  induction fm as [|[f c] fm (l1 & l2 & -> & Hlb & H1 & H2)].
  - exists [], []. split_and!; done.
  - simpl. destruct (Z.ltb_spec f k).
    + exists ((f, c) :: l1), l2. split_and!; [done|simpl; by rewrite Hlb|by constructor|done].
    + exists [], ((f, c) :: l1 ++ l2). split_and!; [done..|]. intros e [= <-]. done.
Qed.

Lemma map_insert_mid {V} k (v : V) l1 l2 :
  Forall (fun e => e.1 < k) l1 -> (forall e, head l2 = Some e -> k < e.1) ->
  map_insert k v (l1 ++ l2) = l1 ++ (k, v) :: l2.
Proof.
  intros H1 H2. induction H1 as [|[f c] l1 Hf H1 IH]; simpl in *.
  - destruct l2 as [|[f c] l2]; [done|]. simpl. specialize (H2 (f, c) eq_refl). simpl in H2.
    rewrite (proj2 (Z.ltb_ge f k)), (proj2 (Z.eqb_neq f k)) by lia. done.
  - rewrite (proj2 (Z.ltb_lt f k)) by lia. by rewrite IH.
Qed.

Lemma lookup_mid {A} (l1 l2 : list A) : (l1 ++ l2) !! length l1 = head l2.
Proof. rewrite lookup_app_r, Nat.sub_diag by lia. by destruct l2. Qed.

(** A range not covered starts at or after every entry that begins before it. *)
Lemma end_before lo l1 pgid count :
  wf_from lo l1 -> lo <= pgid -> 0 < count -> Forall (fun e => e.1 < pgid) l1 ->
  (forall q, pgid <= q < pgid + count -> ~ covers l1 q) -> end_of lo l1 <= pgid.
Proof.
  intros Hwf Hlo Hc Hlt Hd. destruct l1 as [|[g d] l1 _] using rev_ind; [simpl; lia|].
  rewrite end_of_app. simpl. apply Forall_app in Hlt as [_ Hlt].
  apply Forall_cons in Hlt as [Hlt _]. simpl in Hlt.
  destruct (Z_le_gt_dec (g + d) pgid); [done|]. exfalso.
  apply (Hd pgid); [lia|]. autorewrite with freemap. right. left. lia.
Qed.

(** ** FreeToMap adds exactly the given range *)
Lemma insert_range pgid count l1 l2 :
  wf_from 0 l1 -> end_of 0 l1 <= pgid -> 0 < count ->
  pgid + count <= kPageInvalidId -> wf_from (pgid + count) l2 ->
  Forall (fun e => e.1 < pgid) l1 ->
  map_insert pgid count (l1 ++ l2) = l1 ++ (pgid, count) :: l2 /\
  fm_wf (l1 ++ (pgid, count) :: l2).
Proof.
  intros H1 He Hc Hlim H2 Hl1. split.
  - apply map_insert_mid; [done|]. intros e He2.
    destruct l2 as [|[f c] l2]; [done|]. injection He2 as <-. simpl in *. lia.
  - apply wf_from_app. simpl. auto.
Qed.

Lemma join_last pgid count l1 g d l2 fm' :
  wf_from 0 (l1 ++ [(g, d)]) -> g + d <= pgid -> 0 < count ->
  pgid + count <= kPageInvalidId -> wf_from (pgid + count) l2 ->
  Forall (fun e => e.1 < pgid) (l1 ++ [(g, d)]) ->
  fm' = (if u32 (g + d) =? pgid
         then <[length l1 := (g, u32 (d + count))]> (l1 ++ (g, d) :: l2)
         else map_insert pgid count (l1 ++ (g, d) :: l2)) ->
  fm_wf fm' /\ forall q, covers fm' q <->
    covers (l1 ++ (g, d) :: l2) q \/ pgid <= q < pgid + count.
Proof.
  unfold kPageInvalidId. intros Hwf Hgd Hc Hlim H2 Hlt ->.
  pose proof Hwf as Hwf'. apply wf_from_app in Hwf' as [Hw1 Hw2]. simpl in Hw2.
  unfold kPageInvalidId in Hw2. pose proof (end_of_ge _ _ Hw1).
  rewrite u32_small by lia.
  destruct (Z.eqb_spec (g + d) pgid) as [<-|Hne].
  - rewrite u32_small by lia. rewrite insert_app_r_alt, Nat.sub_diag by lia. simpl. split.
    + apply wf_from_app. simpl. split; [done|]. unfold kPageInvalidId.
      split_and!; try lia. replace (g + (d + count)) with (g + d + count) by lia. done.
    + intros q. autorewrite with freemap.
      assert (g <= q < g + (d + count) <-> g <= q < g + d \/ g + d <= q < g + d + count) by lia.
      tauto.
  - change ((g, d) :: l2) with ([(g, d)] ++ l2). rewrite app_assoc.
    edestruct (insert_range pgid count (l1 ++ [(g, d)]) l2) as [-> Hwf']; try done.
    { rewrite end_of_app. simpl. lia. }
    split; [done|]. intros q. autorewrite with freemap. tauto.
Qed.

Lemma free_to_map_spec pgid count fm :
  fm_wf fm -> 0 <= pgid -> 0 < count -> pgid + count <= kPageInvalidId ->
  (forall q, pgid <= q < pgid + count -> ~ covers fm q) ->
  match free_to_map pgid count fm with
  | None => exists c fm', fm = (pgid + count, c) :: fm'
  | Some fm' => (forall c fm0, fm <> (pgid + count, c) :: fm0) /\ fm_wf fm' /\
      forall q, covers fm' q <-> covers fm q \/ pgid <= q < pgid + count
  end.
Proof.
  intros Hwf Hp Hc Hlim Hdis. pose proof Hlim as Hlim'. unfold kPageInvalidId in Hlim'.
  destruct (lower_bound_split pgid fm) as (l1 & l2 & -> & Hlb & Hl1 & Hl2).
  unfold free_to_map. rewrite Hlb, lookup_mid, (u32_small (pgid + count)) by lia.
  apply wf_from_app in Hwf as [Hwf1 Hwf2].
  assert (Hend : end_of 0 l1 <= pgid).
  { apply (end_before _ _ _ count); try done. intros q Hq Hcov.
    apply (Hdis q Hq). rewrite covers_app. auto. }
  assert (Hhead : l1 <> [] -> forall c fm0, l1 ++ l2 <> (pgid + count, c) :: fm0).
  { intros Hne c fm0 E. destruct l1 as [|[g d] l1]; [done|].
    injection E as -> -> _. apply Forall_cons in Hl1 as [Hl1 _]. simpl in Hl1. lia. }
  destruct l2 as [|[f c] l2]; cbn [hd_error].
  - rewrite app_nil_r in *. destruct l1 as [|[g d] l1 _] using rev_ind.
    + simpl. split; [done|]. split; [by repeat split|]. intros q. autorewrite with freemap. tauto.
    + rewrite end_of_app in Hend. simpl in Hend.
      destruct (l1 ++ [(g, d)]) as [|e l0] eqn:El; [by destruct l1|].
      cbn [mbind option_bind]. rewrite <- El, length_app. cbn [length].
      rewrite Nat.add_1_r. cbn [pred]. rewrite lookup_mid. cbn [hd_error].
      rewrite <- El in Hhead, Hwf1, Hl1.
      split; [apply Hhead; by destruct l1|].
      by apply (join_last pgid count l1 g d []).
  - specialize (Hl2 _ eq_refl). simpl in Hl2, Hwf2. destruct Hwf2 as (Hf & Hc0 & Hfc & Hwf2).
    unfold kPageInvalidId in Hfc.
    assert (Hnext : pgid + count <= f).
    { destruct (Z_le_gt_dec (pgid + count) f); [done|]. exfalso.
      apply (Hdis f); [lia|]. autorewrite with freemap. right. left. lia. }
    destruct (Z.eqb_spec f (pgid + count)) as [->|Hne].
    + destruct l1 as [|[g d] l1 _] using rev_ind; [simpl; eauto|].
      destruct (length (l1 ++ [(g, d)])) as [|j] eqn:Ej; rewrite length_app in Ej; simpl in Ej; [lia|].
      assert (j = length l1) as -> by lia.
      replace (S (length l1)) with (length (l1 ++ [(g, d)])) by (rewrite length_app; simpl; lia).
      rewrite delete_middle. cbn [mbind option_bind].
      replace ((l1 ++ [(g, d)]) ++ l2) with (l1 ++ (g, d) :: l2) by by rewrite <- app_assoc.
      rewrite lookup_mid. cbn [hd_error].
      split; [apply Hhead; by destruct l1|].
      rewrite end_of_app in Hend. simpl in Hend.
      edestruct (join_last pgid (count + c) l1 g d l2) as [Hwf' Hcov]; try done; try lia.
      { unfold kPageInvalidId. lia. }
      { by replace (pgid + (count + c)) with (pgid + count + c) by lia. }
      rewrite (u32_small (count + c)) by lia. split; [done|].
      intros q. rewrite Hcov. autorewrite with freemap.
      assert (pgid <= q < pgid + (count + c) <->
              pgid <= q < pgid + count \/ pgid + count <= q < pgid + count + c) by lia.
      tauto.
    + cbn [mbind option_bind]. rewrite lookup_mid. cbn [hd_error].
      rewrite u32_small, (proj2 (Z.eqb_neq (f + c) pgid)) by lia.
      destruct (insert_range pgid count l1 ((f, c) :: l2)) as [-> Hwf']; try done.
      split_and!; [|done|intros q; autorewrite with freemap; tauto].
      intros c' fm0 E. destruct l1 as [|[g d] l1]; [by injection E as -> -> ->|].
      by apply (Hhead ltac:(done) c' fm0).
Qed.

(** ** The debug set *)
Definition page_range (pgid count : Z) : gset Z := list_to_set (seqZ pgid count).

Lemma elem_of_page_range q pgid count : q ∈ page_range pgid count <-> pgid <= q < pgid + count.
Proof. unfold page_range. rewrite elem_of_list_to_set, elem_of_seqZ. done. Qed.

Lemma set_debug_id p : set_debug_free_set (debug_free_set p) p = p.
Proof. by destruct p. Qed.

Lemma debug_insert_ok pgid n p :
  0 <= pgid -> pgid + Z.of_nat n <= 2 ^ 32 ->
  (forall q, pgid <= q < pgid + Z.of_nat n -> q ∉ debug_free_set p) ->
  debug_insert pgid n p =
    Ok tt (set_debug_free_set (page_range pgid (Z.of_nat n) ∪ debug_free_set p) p).
Proof.
  revert pgid p. induction n as [|n IH]; intros pgid p Hp Hb Hd.
  - cbn [debug_insert]. unfold ret, page_range. f_equal.
    change (seqZ pgid (Z.of_nat 0)) with (@nil Z). cbn [list_to_set].
    by rewrite union_empty_l_L, set_debug_id.
  - cbn [debug_insert]. unfold bind, gets, modify. rewrite u32_small by lia.
    rewrite bool_decide_eq_true_2 by (apply Hd; lia). cbn [assertM ret].
    rewrite IH; [|lia..|].
    + f_equal. unfold set_debug_free_set. cbn. f_equal. apply set_eq. intros q.
      rewrite !elem_of_union, !elem_of_page_range, elem_of_singleton.
      assert (pgid <= q < pgid + Z.of_nat (S n) <->
              q = pgid \/ pgid + 1 <= q < pgid + 1 + Z.of_nat n) by lia. tauto.
    + intros q Hq. cbn. rewrite elem_of_union, elem_of_singleton.
      intros [->|H]; [lia|]. apply (Hd q); [lia|done].
Qed.

Lemma debug_erase_ok pgid n p :
  0 <= pgid -> pgid + Z.of_nat n <= 2 ^ 32 ->
  (forall q, pgid <= q < pgid + Z.of_nat n -> q ∈ debug_free_set p) ->
  debug_erase pgid n p =
    Ok tt (set_debug_free_set (debug_free_set p ∖ page_range pgid (Z.of_nat n)) p).
Proof.
  revert pgid p. induction n as [|n IH]; intros pgid p Hp Hb Hd.
  - cbn [debug_erase]. unfold ret, page_range. f_equal.
    change (seqZ pgid (Z.of_nat 0)) with (@nil Z). cbn [list_to_set].
    by rewrite difference_empty_L, set_debug_id.
  - cbn [debug_erase]. unfold bind, gets, modify. rewrite u32_small by lia.
    rewrite bool_decide_eq_true_2 by (apply Hd; lia). cbn [assertM ret].
    rewrite IH; [|lia..|].
    + f_equal. unfold set_debug_free_set. cbn. f_equal. apply set_eq. intros q.
      rewrite !elem_of_difference, !elem_of_page_range, elem_of_singleton.
      assert (pgid <= q < pgid + Z.of_nat (S n) <->
              q = pgid \/ pgid + 1 <= q < pgid + 1 + Z.of_nat n) by lia. tauto.
    + intros q Hq. cbn. rewrite elem_of_difference, elem_of_singleton.
      split; [apply Hd; lia|lia].
Qed.

(** ** FreeToMap on the pager *)
Lemma FreeToMap_spec pgid count p :
  free_wf p -> 0 <= pgid -> 0 < count -> pgid + count <= kPageInvalidId ->
  (forall q, pgid <= q < pgid + count -> ~ covers (free_map p) q) ->
  match FreeToMap pgid count p with
  | Ok _ p' => free_wf p' /\ pending_map p' = pending_map p /\
      alloc_records p' = alloc_records p /\
      forall q, covers (free_map p') q <-> covers (free_map p) q \/ pgid <= q < pgid + count
  | Throw _ _ => False
  | Fault w => w = BadIterator /\ exists c fm, free_map p = (pgid + count, c) :: fm
  end.
Proof.
  intros [Hwf Hdbg] Hp Hc Hlim Hdis. pose proof Hlim as Hlim'. unfold kPageInvalidId in Hlim'.
  unfold FreeToMap. erewrite bind_ok.
  2: { apply debug_insert_ok; [lia..|]. intros q Hq. rewrite Hdbg. apply Hdis. lia. }
  cbn. pose proof (free_to_map_spec pgid count (free_map p) Hwf Hp Hc Hlim Hdis) as Hspec.
  destruct (free_to_map pgid count (free_map p)) as [fm'|]; [|done].
  destruct Hspec as (_ & Hwf' & Hcov). cbn. split_and!; try done.
  split; [done|]. intros q. cbn. rewrite elem_of_union, elem_of_page_range, Hdbg, Hcov.
  rewrite Z2Nat.id by lia. tauto.
Qed.

(** ** AllocFromMap removes exactly the range it returns *)
Lemma alloc_pos_spec count lo fm :
  wf_from lo fm ->
  exists l1 l2, fm = l1 ++ l2 /\ alloc_pos count fm = Some (length l1) /\
    Forall (fun e => e.2 < count) l1 /\ (forall e, head l2 = Some e -> count <= e.2).
Proof.
  revert lo. induction fm as [|[f c] fm IH]; intros lo Hwf.
  - exists [], []. split_and!; done.
  - simpl in Hwf. destruct Hwf as (_ & Hc & _ & Hwf). simpl.
    rewrite (proj2 (Z.ltb_lt 0 c)) by lia.
    destruct (Z.ltb_spec c count).
    + destruct (IH _ Hwf) as (l1 & l2 & -> & -> & H1 & H2).
      exists ((f, c) :: l1), l2. split_and!; [done|done|by constructor|done].
    + exists [], ((f, c) :: fm). split_and!; [done..|]. intros e [= <-]. done.
Qed.

Lemma map_find_none lo (fm : list (Z * Z)) k :
  wf_from lo fm -> k < lo -> map_find k fm = None.
Proof.
  revert lo. induction fm as [|[f c] fm IH]; intros lo Hwf Hk; simpl in *; [done|].
  rewrite (proj2 (Z.eqb_neq f k)) by lia. apply (IH (f + c)); [tauto|lia].
Qed.

Lemma map_find_app {V} (l1 l2 : list (Z * V)) k :
  Forall (fun e => e.1 <> k) l1 -> map_find k (l1 ++ l2) = map_find k l2.
Proof.
  induction 1 as [|[f v] l1 Hf H IH]; simpl in *; [done|].
  by rewrite (proj2 (Z.eqb_neq f k)) by lia.
Qed.

Lemma starts_before_end lo l1 : wf_from lo l1 -> Forall (fun e => e.1 < end_of lo l1) l1.
Proof.
  intros Hwf. apply Forall_forall. intros [f c] Hin.
  apply list_elem_of_split in Hin as (a & b & ->).
  apply wf_from_app in Hwf as [_ Hwf]. simpl in Hwf.
  rewrite end_of_app. simpl. destruct Hwf as (_ & Hc & _ & Hwf).
  apply end_of_ge in Hwf. lia.
Qed.

Lemma alloc_entry_spec count pgid c l1 l2 :
  fm_wf (l1 ++ (pgid, c) :: l2) -> 0 < count -> count <= c ->
  (count < c -> map_find (u32 (pgid + count)) (l1 ++ l2) = None) /\
  let fm' := if count <? c
             then map_insert (u32 (pgid + count)) (u32 (c - count)) (l1 ++ l2)
             else l1 ++ l2 in
  fm_wf fm' /\
  (forall q, covers (l1 ++ (pgid, c) :: l2) q <-> covers fm' q \/ pgid <= q < pgid + count) /\
  (forall q, pgid <= q < pgid + count -> ~ covers fm' q).
Proof.
  unfold fm_wf. intros Hwf Hc Hle. apply wf_from_app in Hwf as [Hw1 Hw2].
  cbn [wf_from] in Hw2. destruct Hw2 as (Hf & Hc0 & Hfc & Hw2). unfold kPageInvalidId in Hfc.
  pose proof (end_of_ge _ _ Hw1). rewrite u32_small by lia.
  assert (Hl1 : Forall (fun e => e.1 < pgid) l1).
  { eapply Forall_impl; [by apply starts_before_end|]. intros e He. cbn in He. lia. }
  assert (Hn1 : forall q, pgid <= q -> ~ covers l1 q).
  { intros q Hq Hcov. pose proof (covers_lt_end _ _ _ Hw1 Hcov). lia. }
  assert (Hn2 : forall q, q < pgid + c -> ~ covers l2 q).
  { intros q Hq Hcov. pose proof (covers_ge _ _ _ Hw2 Hcov). lia. }
  cbv zeta. destruct (Z.ltb_spec count c) as [Hlt|Hge].
  - split.
    + intros _. rewrite map_find_app; [by apply (map_find_none _ _ _ Hw2); lia|].
      eapply Forall_impl; [exact Hl1|]. intros e He. cbn in He. lia.
    + rewrite (u32_small (c - count)) by lia. rewrite map_insert_mid.
      * split_and!.
        -- apply wf_from_app. cbn [wf_from]. unfold kPageInvalidId.
           replace (pgid + count + (c - count)) with (pgid + c) by lia. split_and!; auto; lia.
        -- intros q. autorewrite with freemap.
           assert (pgid <= q < pgid + c <->
             pgid <= q < pgid + count \/ pgid + count <= q < pgid + count + (c - count)) by lia.
           tauto.
        -- intros q Hq. autorewrite with freemap. intros [H'|[H'|H']]; [|lia|].
           ++ by apply (Hn1 q); [lia|].
           ++ by apply (Hn2 q); [lia|].
      * eapply Forall_impl; [exact Hl1|]. intros e He. cbn in He. lia.
      * intros e He. destruct l2 as [|[f' c'] l2]; [done|]. injection He as <-.
        cbn in *. lia.
  - assert (count = c) as -> by lia. split_and!.
    + lia.
    + apply wf_from_app. split; [done|]. eapply wf_from_weaken; [|exact Hw2]. lia.
    + intros q. autorewrite with freemap. tauto.
    + intros q Hq. autorewrite with freemap. intros [H'|H'].
      * by apply (Hn1 q); [lia|].
      * by apply (Hn2 q); [lia|].
Qed.

Lemma AllocFromMap_spec count p :
  free_wf p -> 0 < count ->
  match AllocFromMap count p with
  | Ok pgid p' =>
      if pgid =? kPageInvalidId
      then p' = p /\ Forall (fun e => e.2 < count) (free_map p)
      else free_wf p' /\ pending_map p' = pending_map p /\
           alloc_records p' = alloc_records p ++ [(pgid, count)] /\
           0 <= pgid /\ pgid + count <= kPageInvalidId /\
           (forall q, covers (free_map p) q <->
              covers (free_map p') q \/ pgid <= q < pgid + count) /\
           (forall q, pgid <= q < pgid + count -> ~ covers (free_map p') q)
  | _ => False
  end.
Proof.
  intros [Hwf Hdbg] Hc. unfold AllocFromMap, bind at 1, gets.
  destruct (alloc_pos_spec count 0 (free_map p) Hwf) as (l1 & l2 & Hfm & -> & Hl1 & Hl2).
  rewrite Hfm, lookup_mid. destruct l2 as [|[pgid c] l2]; cbn [hd_error].
  { unfold ret. cbn. rewrite app_nil_r. split; [done|]. done. }
  specialize (Hl2 _ eq_refl). cbn in Hl2. rewrite delete_middle. rewrite Hfm in Hwf, Hdbg.
  destruct (alloc_entry_spec count pgid c l1 l2 Hwf Hc Hl2) as (Hfind & Hwf' & Hcov & Hdis).
  apply wf_from_app in Hwf as [Hw1 Hw2]. apply end_of_ge in Hw1. cbn [wf_from] in Hw2.
  pose proof Hw2 as Hb. unfold kPageInvalidId in Hb.
  set (fm' := if count <? c then _ else _) in *.
  set (p1 := set_alloc_records (alloc_records p ++ [(pgid, count)]) (set_free_map fm' p)).
  assert (Herase : debug_erase pgid (Z.to_nat count) p1 =
    Ok tt (set_debug_free_set (debug_free_set p ∖ page_range pgid count) p1)).
  { pose proof (debug_erase_ok pgid (Z.to_nat count) p1) as E.
    rewrite !Z2Nat.id in E by lia. apply E; [lia..|].
    intros q Hq. cbn. rewrite Hdbg, Hcov. right. lia. }
  assert (Hne : (pgid =? kPageInvalidId) = false).
  { apply Z.eqb_neq. unfold kPageInvalidId. lia. }
  replace (bind _ _ p) with
    (Ok pgid (set_debug_free_set (debug_free_set p ∖ page_range pgid count) p1)).
  - rewrite Hne. cbn. split_and!; try done; try lia.
    split; [done|]. intros q. cbn. rewrite elem_of_difference, elem_of_page_range, Hdbg, Hcov.
    specialize (Hdis q). tauto.
  - unfold bind, modify. rewrite Hne. subst fm' p1.
    unfold set_alloc_records, set_free_map in Herase |- *. cbn in Herase |- *.
    destruct (Z.ltb_spec count c).
    + rewrite (Hfind ltac:(lia)), bool_decide_eq_true_2 by done. cbn. by rewrite Herase.
    + cbn. by rewrite Herase.
Qed.
