(* ===== verification/Pager.v ===== *)
(** The pager: [src/pager.cpp], with the mapping growth of
    [DBImpl::Remmap] ([src/db_impl.cpp]) that [Pager::Alloc] calls. *)
From S2P Require Import Prelude Format State Memory FreeMap.

(** ** DBImpl::Remmap *)

(** The doubling loop: at most [n] doublings, stopping above [new_size]. *)
Fixpoint double_above (n : nat) (map_size new_size : Z) : Z :=
  match n with
  | O => map_size
  | S n =>
      let map_size := u64 (map_size * 2) in
      if new_size <? map_size then map_size else double_above n map_size new_size
  end.

Definition max_expand_size : Z := 1024 * 1024 * 1024.

Definition remap_size (new_size : Z) : Z :=
  if new_size <=? max_expand_size then double_above 31 1 new_size
  else u64 (new_size + new_size mod max_expand_size).

Definition Remmap (new_size : Z) : M DBImpl unit :=
  let* ps := gets page_size in
  let size := remap_size new_size in
  assertM (size mod ps =? 0) ;;;
  modify (fun d => set_db_mmap_pending (S (db_mmap_pending d))
    (set_db_map (mkMapping (file_pages (db_map d)) size) d)).

(** ** Allocation *)
Definition set_page_count (v : Z) (m : MetaStruct) : MetaStruct :=
  mkMeta (m_sign m) (m_page_size m) (m_min_version m) v (m_user_root m)
    (m_free_list_pgid m) (m_free_pair_count m) (m_free_list_page_count m)
    (m_txid m) (m_crc32 m).
Definition set_free_list (pgid pairs pages : Z) (m : MetaStruct) : MetaStruct :=
  mkMeta (m_sign m) (m_page_size m) (m_min_version m) (m_page_count m) (m_user_root m)
    pgid pairs pages (m_txid m) (m_crc32 m).

Definition Alloc (count : Z) : M DBImpl Z :=
  let* tx := get_update_tx in
  let* pgid := zoom pager_lens (AllocFromMap count) in
  if pgid =? kPageInvalidId then
    let page_count := m_page_count (meta_format tx) in
    if u32 (page_count + count) <? page_count then
      throw (RuntimeError "Page allocation failed, there are not enough available pages.")
    else
      let page_count' := u32 (page_count + count) in
      put_update_tx (set_meta_format (set_page_count page_count' (meta_format tx)) tx) ;;;
      let* ps := gets page_size in
      let* size := gets (fun d => map_size (db_map d)) in
      let min_size := u32 (page_count' * ps) in
      (if size <? min_size then Remmap min_size else ret tt) ;;;
      ret page_count
  else ret pgid.

(** [pending_map_[txid].push_back(pair)], creating the entry if need be. *)
Definition pending_push (txid : Z) (e : Z * Z) (m : list (Z * list (Z * Z)))
    : list (Z * list (Z * Z)) :=
  match map_find txid m with
  | Some v => map_assign txid (v ++ [e]) m
  | None => map_insert txid [e] m
  end.

Definition Free (free_pgid free_count : Z) : M DBImpl unit :=
  assertM (negb (free_pgid =? kPageInvalidId)) ;;;
  let* tx := get_update_tx in
  zoom pager_lens (modify (fun p =>
    set_pending_map (pending_push (m_txid (meta_format tx)) (free_pgid, free_count)
      (pending_map p)) p)).

(** [Copy(const Page&)]: the new page's id, as [GetPageIdByPtr] computes it. *)
Definition Copy (pgid : Z) : M DBImpl Z :=
  let* new_pgid := Alloc 1 in
  let* nd := Reference pgid in
  let* _ := Reference new_pgid in
  store_node new_pgid nd ;;;
  Free pgid 1 ;;;
  let* ps := gets page_size in
  ret (GetPageIdByPtr ps (GetPtr ps new_pgid 0)).

(** ** Giving pages back *)
Fixpoint free_pairs (l : list (Z * Z)) : M Pager unit :=
  match l with
  | [] => ret tt
  | (pgid, count) :: l => FreeToMap pgid count ;;; free_pairs l
  end.

(** The loop of [Release] over [pending_map_] from its first entry. *)
Fixpoint release_loop (releasable_txid : Z) (m : list (Z * list (Z * Z))) : M Pager unit :=
  match m with
  | [] => ret tt
  | (txid, pairs) :: m =>
      if releasable_txid <=? txid then ret tt
      else free_pairs pairs ;;;
           modify (set_pending_map m) ;;;
           release_loop releasable_txid m
  end.

Definition Release (releasable_txid : Z) : M Pager unit :=
  modify (set_alloc_records []) ;;;
  let* m := gets pending_map in
  release_loop releasable_txid m.

Definition PagerRollback : M DBImpl unit :=
  let* tx := get_update_tx in
  zoom pager_lens (
    modify (fun p => set_pending_map (map_erase (m_txid (meta_format tx)) (pending_map p)) p) ;;;
    let* records := gets alloc_records in
    free_pairs records ;;;
    modify (set_alloc_records [])).

Definition WriteAllDirtyPages : M DBImpl unit := modify (log_io MmapSync).

(** ** The saved free list: an array of [PagePair]s, 8 bytes each *)
Definition sizeof_PagePair : Z := 8.

Definition encode_pair (e : Z * Z) : list byte := le_bytes 4 e.1 ++ le_bytes 4 e.2.
Definition decode_pair (bs : list byte) : Z * Z :=
  (le_value (slice 0 4 bs), le_value (slice 4 4 bs)).

Fixpoint decode_pairs (n : nat) (bs : list byte) : list (Z * Z) :=
  match n with
  | O => []
  | S n => decode_pair (take 8 bs) :: decode_pairs n (drop 8 bs)
  end.

(** The loop of [LoadFreeList]: pairs with no pages are skipped. *)
Fixpoint load_pairs (l : list (Z * Z)) : M Pager unit :=
  match l with
  | [] => ret tt
  | (pgid, count) :: l =>
      (if count =? 0 then ret tt else FreeToMap pgid count) ;;; load_pairs l
  end.

Definition LoadFreeList : M DBImpl unit :=
  let* meta := gets shm_meta in
  if m_free_list_pgid meta =? kPageInvalidId then ret tt
  else
    let* ps := gets page_size in
    let* bs := read_at (GetPtr ps (m_free_list_pgid meta) 0)
                 (m_free_pair_count meta * sizeof_PagePair) in
    zoom pager_lens (load_pairs (decode_pairs (Z.to_nat (m_free_pair_count meta)) bs)).

Definition SaveFreeList : M DBImpl unit :=
  let* tx := get_update_tx in
  let meta := meta_format tx in
  (if m_free_list_pgid meta =? kPageInvalidId then ret tt
   else Free (m_free_list_pgid meta) (m_free_list_page_count meta)) ;;;
  let* p := gets pager in
  let pair_count := u32 (Z.of_nat (length (free_map p)) +
    foldr (fun e n => Z.of_nat (length e.2) + n) 0 (pending_map p)) in
  let bytes := pair_count * sizeof_PagePair in
  let* ps := gets page_size in
  let page_count := GetPageCount ps bytes in
  put_update_tx (set_meta_format (set_free_list (m_free_list_pgid meta)
    (m_free_pair_count meta) page_count meta) tx) ;;;
  let* pgid := Alloc page_count in
  let* p := gets pager in
  let pairs := free_map p ++ concat (snd <$> pending_map p) in
  let i := u32 (Z.of_nat (length pairs)) in
  let* tx := get_update_tx in
  put_update_tx (set_meta_format (set_free_list pgid i page_count (meta_format tx)) tx) ;;;
  WriteByBytes pgid 0 (concat (encode_pair <$> pairs)).

(** ** Remmap *)
Lemma double_above_spec n a new_size :
  0 <= a -> a + Z.of_nat n <= 40 -> 2 ^ a <= new_size -> new_size < 2 ^ (a + Z.of_nat n) ->
  exists b, double_above n (2 ^ a) new_size = 2 ^ b /\ a < b /\
    new_size < 2 ^ b /\ 2 ^ b <= 2 * new_size.
Proof.
  revert a. induction n as [|n IH]; intros a Ha Han Hle Hlt.
  - rewrite Z.add_0_r in Hlt. lia.
  - cbn [double_above].
    assert (Hpow : 2 ^ a * 2 = 2 ^ (a + 1)) by (rewrite Z.pow_add_r; lia).
    assert (Hlim : 2 ^ (a + 1) <= 2 ^ 40) by (apply Z.pow_le_mono_r; lia).
    assert (0 < 2 ^ (a + 1)) by (apply Z.pow_pos_nonneg; lia).
    rewrite Hpow, u64_small by lia.
    destruct (Z.ltb_spec new_size (2 ^ (a + 1))).
    + exists (a + 1). rewrite <- Hpow. split_and!; lia.
    + replace (a + Z.of_nat (S n)) with (a + 1 + Z.of_nat n) in * by lia.
      destruct (IH (a + 1)) as (b & -> & Hb & Hb1 & Hb2); [lia..|].
      exists b. split_and!; try done; lia.
Qed.

Lemma pow2_divides j b : 0 <= j <= b -> 2 ^ b mod 2 ^ j = 0.
Proof.
  intros. replace b with ((b - j) + j) by lia. rewrite Z.pow_add_r by lia.
  apply Z_mod_mult.
Qed.

Lemma remap_size_spec ps new_size :
  page_size_ok ps -> ps <= new_size < 2 ^ 32 -> new_size mod ps = 0 ->
  new_size <= remap_size new_size /\ remap_size new_size mod ps = 0 /\
  remap_size new_size <= 2 * new_size.
Proof.
  intros Hps Hn Hmod. destruct (page_size_pow2 _ Hps) as (j & Hj & ->).
  pose proof (Z.pow_pos_nonneg 2 j ltac:(lia) ltac:(lia)) as Hpos.
  unfold remap_size. destruct (Z.leb_spec new_size max_expand_size) as [Hle|Hgt].
  - change max_expand_size with (2 ^ 30) in Hle.
    destruct (double_above_spec 31 0 new_size) as (b & Hb & Hb0 & Hlo & Hhi);
      [lia|lia|change (2 ^ 0) with 1; lia|change (2 ^ (0 + Z.of_nat 31)) with (2 ^ 31); lia|].
    change (2 ^ 0) with 1 in Hb. rewrite Hb. split_and!; [lia| |lia].
    apply pow2_divides. split; [lia|]. apply Z.lt_le_incl, (Z.pow_lt_mono_r_iff 2); lia.
  - change max_expand_size with (2 ^ 30) in *.
    pose proof (Z.mod_pos_bound new_size (2 ^ 30) ltac:(lia)).
    rewrite u64_small by lia. split_and!; [lia| |].
    + rewrite <- Z.add_mod_idemp_l, Hmod, Z.add_0_l by lia.
      rewrite Z.mod_mod_divide; [done|].
      exists (2 ^ (30 - j)). rewrite <- Z.pow_add_r by lia. f_equal. lia.
    + lia.
Qed.

(** ** Lists of page ranges held together *)
Fixpoint disjoint_pairs (l : list (Z * Z)) : Prop :=
  match l with
  | [] => True
  | (f, c) :: l =>
      0 <= f /\ 0 < c /\ f + c <= kPageInvalidId /\
      (forall q, f <= q < f + c -> ~ covers l q) /\ disjoint_pairs l
  end.

Lemma disjoint_pairs_app l1 l2 :
  disjoint_pairs (l1 ++ l2) <->
  disjoint_pairs l1 /\ disjoint_pairs l2 /\ forall q, covers l1 q -> ~ covers l2 q.
Proof.
  induction l1 as [|[f c] l1 IH]; cbn [app disjoint_pairs].
  - split; [|tauto]. intros H. split_and!; [done..|]. intros q Hq. by apply covers_nil in Hq.
  - rewrite IH. setoid_rewrite covers_app. setoid_rewrite covers_cons. split.
    + intros (Hf & Hc0 & Hfc & Hd & H1 & H2 & H12). split_and!; try done.
      * intros q Hq Hc. by apply (Hd q Hq); left.
      * intros q [Hq|Hq] Hc; [by apply (Hd q Hq); right|by apply (H12 q Hq)].
    + intros ((Hf & Hc0 & Hfc & Hd & H1) & H2 & H12). split_and!; try done.
      * intros q Hq [Hc|Hc]; [by apply (Hd q Hq)|by apply (H12 q ltac:(auto))].
      * intros q Hq. apply H12. auto.
Qed.

(** The pages [base] were free when the transaction began, and are now in the
    free map or among the transaction's allocations. *)
Definition tx_allocs (base : Z -> Prop) (p : Pager) : Prop :=
  free_wf p /\ disjoint_pairs (alloc_records p) /\
  (forall q, covers (alloc_records p) q -> ~ covers (free_map p) q) /\
  (forall q, base q <-> covers (free_map p) q \/ covers (alloc_records p) q).

Lemma tx_allocs_start p : free_wf p -> alloc_records p = [] -> tx_allocs (covers (free_map p)) p.
Proof.
  intros Hwf Hr. unfold tx_allocs. rewrite Hr. split_and!; try done.
  - intros q Hq. by apply covers_nil in Hq.
  - intros q. autorewrite with freemap. tauto.
Qed.

Lemma tx_allocs_alloc base count p pgid p' :
  tx_allocs base p -> 0 < count -> AllocFromMap count p = Ok pgid p' ->
  tx_allocs base p' /\ pending_map p' = pending_map p.
Proof.
  intros (Hwf & Hd & Hn & Hb) Hc HA.
  pose proof (AllocFromMap_spec count p Hwf Hc) as H. rewrite HA in H.
  destruct (Z.eqb_spec pgid kPageInvalidId); [by destruct H as [-> _]|].
  destruct H as (Hwf' & Hp' & Ha' & Hp0 & Hp1 & Hcov & Hdis).
  split; [|done]. unfold tx_allocs. rewrite Ha'. split_and!; [done| | |].
  - apply disjoint_pairs_app. split_and!; [done| |].
    + cbn. split_and!; try done. intros q _ Hq. by apply covers_nil in Hq.
    + intros q Hq Hq1. autorewrite with freemap in Hq1. destruct Hq1 as [Hq1|[]].
      apply (Hn q Hq). apply Hcov. auto.
  - intros q Hq. autorewrite with freemap in Hq. destruct Hq as [Hq|[Hq|[]]]; [|auto].
    intros Hq1. apply (Hn q Hq), Hcov. auto.
  - intros q. rewrite Hb, Hcov. autorewrite with freemap. tauto.
Qed.

(** Those pages, and that the allocations are apart from the free map. *)
Definition tx_pages (p : Pager) : gset Z := list_to_set (pair_pages (free_map p ++ alloc_records p)).
Definition records_ok (p : Pager) : Prop :=
  disjoint_pairs (alloc_records p) /\ forall q, covers (alloc_records p) q -> ~ covers (free_map p) q.

Lemma elem_of_tx_pages p q : q ∈ tx_pages p <-> covers (free_map p) q \/ covers (alloc_records p) q.
Proof. unfold tx_pages. by rewrite elem_of_list_to_set, elem_of_pair_pages, covers_app. Qed.

Lemma tx_allocs_pages p : free_wf p -> records_ok p -> tx_allocs (fun q => q ∈ tx_pages p) p.
Proof. intros Hwf [Hd Hn]. split_and!; try done. intros q. apply elem_of_tx_pages. Qed.
Lemma tx_allocs_same base p p' : tx_allocs base p -> tx_allocs base p' -> records_ok p' /\ tx_pages p' = tx_pages p.
Proof.
  intros (_ & _ & _ & Hb) (_ & Hd' & Hn' & Hb'). split; [done|]. apply set_eq. intros q.
  by rewrite !elem_of_tx_pages, <- Hb, <- Hb'.
Qed.

(** ** The pager's invariant inside a write transaction [tx]: the pages that are
    free, or were when it began, are pages of the file past the two meta pages,
    and every page counted by the transaction lies in the mapping. *)
Record alloc_wf (d : DBImpl) (tx : TxImpl) : Prop := {
  aw_tx : update_tx (tx_manager d) = Some tx;
  aw_ps : page_size_ok (page_size d);
  aw_free : free_wf (pager d);
  aw_count : 2 <= m_page_count (meta_format tx);
  aw_base q : q ∈ tx_pages (pager d) -> 2 <= q < m_page_count (meta_format tx);
  aw_map : m_page_count (meta_format tx) * page_size d <= map_size (db_map d);
  aw_addr : m_page_count (meta_format tx) * page_size d <= 2 ^ 32;
  aw_records : records_ok (pager d);
}.

Lemma aw_bound d tx q : alloc_wf d tx -> covers (free_map (pager d)) q -> 2 <= q < m_page_count (meta_format tx).
Proof. intros Hw Hq. apply (aw_base _ _ Hw), elem_of_tx_pages. by left. Qed.

(** Pages handed out (meta pages included) and not in the free map. *)
Definition in_use (d : DBImpl) (tx : TxImpl) (q : Z) : Prop :=
  0 <= q < m_page_count (meta_format tx) /\ ~ covers (free_map (pager d)) q.

(** What an allocation leaves alone. *)
Record alloc_frame (d : DBImpl) (tx : TxImpl) (d' : DBImpl) (tx' : TxImpl) : Prop := {
  af_rest : d' = set_db_mmap_pending (db_mmap_pending d') (set_db_map (db_map d')
              (set_pager (pager d') (set_tx_manager (tx_manager d') d)));
  af_pages : file_pages (db_map d') = file_pages (db_map d);
  af_map : map_size (db_map d) <= map_size (db_map d');
  af_pending : pending_map (pager d') = pending_map (pager d);
  af_taken : tx_pages (pager d') = tx_pages (pager d);
  af_txm : tx_manager d' = set_update_tx (Some tx') (tx_manager d);
  af_tx : exists n, m_page_count (meta_format tx) <= n /\
    tx' = set_meta_format (set_page_count n (meta_format tx)) tx;
}.

Lemma af_options d tx d' tx' : alloc_frame d tx d' tx' -> options d' = options d.
Proof. intros [-> _ _ _ _ _ _]. done. Qed.

Lemma set_page_count_id m : set_page_count (m_page_count m) m = m.
Proof. by destruct m. Qed.
Lemma set_meta_format_id t : set_meta_format (meta_format t) t = t.
Proof. by destruct t. Qed.
Lemma set_update_tx_id t : set_update_tx (update_tx t) t = t.
Proof. by destruct t. Qed.

Lemma page_count_lt ps n : page_size_ok ps -> n * ps <= 2 ^ 32 -> n <= 2 ^ 24.
Proof. intros Hps. destruct (page_size_bounds _ Hps). nia. Qed.

(** Growing the mapping so that [n] pages fit. *)
Lemma grow_ok (d : DBImpl) n :
  page_size_ok (page_size d) -> 0 < n -> n * page_size d < 2 ^ 32 ->
  exists k size,
    (if map_size (db_map d) <? u32 (n * page_size d)
     then Remmap (u32 (n * page_size d)) else ret tt) d =
    Ok tt (set_db_mmap_pending k (set_db_map (mkMapping (file_pages (db_map d)) size) d)) /\
    map_size (db_map d) <= size /\ n * page_size d <= size.
Proof.
  intros Hps Hn Hlim. destruct (page_size_bounds _ Hps) as [Hr _].
  rewrite u32_small by nia. destruct (Z.ltb_spec (map_size (db_map d)) (n * page_size d)).
  - destruct (remap_size_spec (page_size d) (n * page_size d) Hps) as (Hge & Hmod & _).
    { nia. } { apply Z_mod_mult. }
    eexists _, _. split; [|split; [|exact Hge]; lia].
    unfold Remmap, bind, gets. rewrite Hmod. reflexivity.
  - exists (db_mmap_pending d), (map_size (db_map d)). split; [|lia].
    unfold ret. by destruct d as [? [] ? ? ? ? ? ? ? ? ?].
Qed.

Lemma Alloc_spec d tx count :
  alloc_wf d tx -> 0 < count ->
  (m_page_count (meta_format tx) + count) * page_size d < 2 ^ 32 ->
  exists pgid d' tx',
    Alloc count d = Ok pgid d' /\ alloc_wf d' tx' /\ alloc_frame d tx d' tx' /\
    2 <= pgid /\ pgid + count <= m_page_count (meta_format tx') /\
    m_page_count (meta_format tx') <= m_page_count (meta_format tx) + count /\
    (forall q, pgid <= q < pgid + count -> ~ in_use d tx q) /\
    (forall q, in_use d' tx' q <-> in_use d tx q \/ pgid <= q < pgid + count).
Proof.
  intros Hwf Hc Hlim. pose proof (fun q => aw_bound d tx q Hwf) as Hbound. destruct Hwf as [Htx Hps Hfree Hpc Hbase Hmap Haddr Hrec].
  pose proof (fun base => tx_allocs_alloc base count (pager d)) as Halloc.
  pose proof (tx_allocs_pages _ Hfree Hrec) as Hall.
  destruct (page_size_bounds _ Hps) as [Hr _].
  pose proof (page_count_lt (page_size d) (m_page_count (meta_format tx) + count) Hps ltac:(lia)).
  unfold Alloc. rewrite (bind_ok _ _ d tx d) by (unfold get_update_tx; by rewrite Htx).
  pose proof (AllocFromMap_spec count (pager d) Hfree Hc) as Hspec.
  unfold bind at 1, zoom. cbn [lget lset pager_lens].
  destruct (AllocFromMap count (pager d)) as [pgid p'| |]; [|done|done].
  destruct (Halloc _ pgid p' Hall Hc eq_refl) as [Hall' _].
  destruct (tx_allocs_same _ _ _ Hall Hall') as [Hrec' Htaken].
  destruct (Z.eqb_spec pgid kPageInvalidId) as [->|Hne].
  - destruct Hspec as [-> _].
    set (pc := m_page_count (meta_format tx)) in *.
    rewrite u32_small, (proj2 (Z.ltb_ge (pc + count) pc)) by lia.
    set (tx' := set_meta_format (set_page_count (pc + count) (meta_format tx)) tx).
    set (d1 := set_tx_manager (set_update_tx (Some tx') (tx_manager d)) (set_pager (pager d) d)).
    destruct (grow_ok d1 (pc + count)) as (k & size & Hgrow & Hs1 & Hs2); [done|lia|exact Hlim|].
    set (d' := set_db_mmap_pending k _) in Hgrow.
    exists pc, d', tx'. split.
    { change (put_update_tx tx' (set_pager (pager d) d)) with (@Ok DBImpl unit tt d1).
      rewrite (bind_ok _ _ _ tt d1) by done.
      rewrite (bind_ok _ _ _ (page_size d1) d1) by done.
      rewrite (bind_ok _ _ _ (map_size (db_map d1)) d1) by done.
      by rewrite (bind_ok _ _ _ tt d' Hgrow). }
    split_and!; try done.
    + change (page_size d1) with (page_size d) in Hs2.
      split; try change (page_size d') with (page_size d); try done; cbn; try lia.
      intros q Hq. apply Hbase in Hq. lia.
    + split; try done. exists (pc + count). split; [fold pc; lia|done].
    + intros q Hq [Hq' _]. fold pc in Hq'. lia.
    + intros q. unfold in_use. cbn. fold pc. split.
      * intros [Hq Hn]. destruct (Z_lt_le_dec q pc); [left|right]; auto with lia.
      * intros [[Hq Hn]|Hq]; split; try done; try lia.
        intros Hcov. apply Hbound in Hcov. fold pc in Hcov. lia.
  - destruct Hspec as (Hfree' & Hpend & _ & Hp0 & Hp1 & Hcov & Hdis).
    assert (Hin : forall q, pgid <= q < pgid + count -> covers (free_map (pager d)) q).
    { intros q Hq. apply Hcov. auto. }
    exists pgid, (set_pager p' d), tx. split; [done|].
    pose proof (Hbound _ (Hin pgid ltac:(lia))).
    pose proof (Hbound _ (Hin (pgid + count - 1) ltac:(lia))).
    split_and!; try lia.
    + split; try done. intros q Hq. apply Hbase. by rewrite <- Htaken.
    + split; try done.
      * cbn. rewrite <- Htx. by rewrite set_update_tx_id.
      * exists (m_page_count (meta_format tx)). split; [lia|].
        by rewrite set_page_count_id, set_meta_format_id.
    + intros q Hq [_ Hn]. by apply Hn, Hin.
    + intros q. unfold in_use. cbn. rewrite Hcov. specialize (Hdis q). split.
      * intros [Hq Hn]. destruct (decide (pgid <= q < pgid + count)); tauto.
      * intros [[Hq Hn]|Hq]; [tauto|]. split; [lia|]. auto.
Qed.

Lemma free_pairs_spec l p :
  free_wf p -> disjoint_pairs l -> (forall q, covers l q -> ~ covers (free_map p) q) ->
  match free_pairs l p with
  | Ok _ p' => free_wf p' /\ pending_map p' = pending_map p /\
      alloc_records p' = alloc_records p /\
      forall q, covers (free_map p') q <-> covers (free_map p) q \/ covers l q
  | Throw _ _ => False
  | Fault w => w = BadIterator
  end.
Proof.
  revert p. induction l as [|[f c] l IH]; intros p Hwf Hd Hn.
  - cbn [free_pairs ret]. split_and!; try done. intros q. autorewrite with freemap. tauto.
  - destruct Hd as (Hf & Hc & Hlim & Hd & Hl). cbn [free_pairs]. unfold bind.
    pose proof (FreeToMap_spec f c p Hwf Hf Hc Hlim) as H1.
    destruct (FreeToMap f c p) as [[] p1| |w].
    + destruct H1 as (Hwf1 & Hp1 & Ha1 & Hc1).
      { intros q Hq. apply Hn. autorewrite with freemap. auto. }
      assert (Hn1 : forall q, covers l q -> ~ covers (free_map p1) q).
      { intros q Hq Hq1. apply Hc1 in Hq1 as [Hq1|Hq1]; [|by apply (Hd q)].
        apply (Hn q); [|done]. autorewrite with freemap. auto. }
      specialize (IH p1 Hwf1 Hl Hn1). destruct (free_pairs l p1) as [[] p2| |w2]; try done.
      destruct IH as (Hwf2 & Hp2 & Ha2 & Hc2).
      split_and!; [done|congruence..|].
      intros q. rewrite Hc2, Hc1. autorewrite with freemap. tauto.
    + apply H1. intros q Hq. apply Hn. autorewrite with freemap. auto.
    + apply H1. intros q Hq. apply Hn. autorewrite with freemap. auto.
Qed.

(** ** Release *)
Fixpoint released (t : Z) (m : list (Z * list (Z * Z))) : list (Z * Z) :=
  match m with
  | [] => []
  | (txid, pairs) :: m => if t <=? txid then [] else pairs ++ released t m
  end.
Fixpoint kept (t : Z) (m : list (Z * list (Z * Z))) : list (Z * list (Z * Z)) :=
  match m with
  | [] => []
  | (txid, pairs) :: m' => if t <=? txid then m else kept t m'
  end.

Lemma release_loop_spec t m p :
  free_wf p -> pending_map p = m -> disjoint_pairs (released t m) ->
  (forall q, covers (released t m) q -> ~ covers (free_map p) q) ->
  match release_loop t m p with
  | Ok _ p' => free_wf p' /\ pending_map p' = kept t m /\
      alloc_records p' = alloc_records p /\
      forall q, covers (free_map p') q <-> covers (free_map p) q \/ covers (released t m) q
  | Throw _ _ => False
  | Fault w => w = BadIterator
  end.
Proof.
  revert p. induction m as [|[txid pairs] m IH]; intros p Hwf Hm Hd Hn;
    cbn [release_loop released kept] in *.
  - split_and!; try done. intros q. autorewrite with freemap. tauto.
  - destruct (Z.leb_spec t txid) as [Hle|Hlt].
    { split_and!; try done. intros q. autorewrite with freemap. tauto. }
    apply disjoint_pairs_app in Hd as (Hd1 & Hd2 & Hd12).
    unfold bind, modify. pose proof (free_pairs_spec pairs p Hwf Hd1) as H1.
    destruct (free_pairs pairs p) as [[] p1| |w]; [|by apply H1; intros q ?; apply Hn; autorewrite with freemap; auto..].
    destruct H1 as (Hwf1 & Hp1 & Ha1 & Hc1).
    { intros q Hq. apply Hn. autorewrite with freemap. auto. }
    specialize (IH (set_pending_map m p1) Hwf1 eq_refl Hd2).
    destruct (release_loop t m (set_pending_map m p1)) as [[] p2| |w2].
    + destruct IH as (Hwf2 & Hp2 & Ha2 & Hc2).
      { intros q Hq Hq1. apply Hc1 in Hq1 as [Hq1|Hq1]; [|by apply (Hd12 q)].
        apply (Hn q); [|done]. autorewrite with freemap. auto. }
      split_and!; [done..| |]; [by rewrite Ha2|].
      intros q. rewrite Hc2. cbn. rewrite Hc1. autorewrite with freemap. tauto.
    + apply IH. intros q Hq Hq1. apply Hc1 in Hq1 as [Hq1|Hq1]; [|by apply (Hd12 q)].
      apply (Hn q); [|done]. autorewrite with freemap. auto.
    + apply IH. intros q Hq Hq1. apply Hc1 in Hq1 as [Hq1|Hq1]; [|by apply (Hd12 q)].
      apply (Hn q); [|done]. autorewrite with freemap. auto.
Qed.

Lemma Release_spec t p :
  free_wf p -> disjoint_pairs (released t (pending_map p)) ->
  (forall q, covers (released t (pending_map p)) q -> ~ covers (free_map p) q) ->
  match Release t p with
  | Ok _ p' => free_wf p' /\ pending_map p' = kept t (pending_map p) /\
      alloc_records p' = [] /\
      forall q, covers (free_map p') q <->
        covers (free_map p) q \/ covers (released t (pending_map p)) q
  | Throw _ _ => False
  | Fault w => w = BadIterator
  end.
Proof.
  intros Hwf Hd Hn. unfold Release, bind at 1, modify, bind, gets.
  pose proof (release_loop_spec t (pending_map p) (set_alloc_records [] p) Hwf eq_refl Hd Hn) as H.
  exact H.
Qed.

(** ** The step before [begin()] *)

(** [n] is the lowest page of a set. *)
Definition lowest (pages : Z -> Prop) (n : Z) : Prop := pages n /\ forall q, q < n -> ~ pages q.

(** Giving back the ranges [l] one after the other, on top of the free pages
    [free], meets a range that ends where the lowest page free by then starts:
    the iterator is then stepped before [begin()]. *)
Fixpoint runs_into (free : Z -> Prop) (l : list (Z * Z)) : Prop :=
  match l with
  | [] => False
  | (f, c) :: l => lowest free (f + c) \/ runs_into (fun q => free q \/ f <= q < f + c) l
  end.

Lemma runs_into_ext l : forall free free', (forall q, free q <-> free' q) -> runs_into free l <-> runs_into free' l.
Proof.
  induction l as [|[f c] l IH]; intros free free' H; [done|]. cbn. unfold lowest.
  rewrite (IH (fun q => free q \/ f <= q < f + c) (fun q => free' q \/ f <= q < f + c)) by (intros q; by rewrite H).
  setoid_rewrite H. done.
Qed.

Lemma runs_into_app l1 l2 : forall free,
  runs_into free (l1 ++ l2) <-> runs_into free l1 \/ runs_into (fun q => free q \/ covers l1 q) l2.
Proof.
  induction l1 as [|[f c] l1 IH]; intros free; cbn.
  - rewrite (runs_into_ext l2 free (fun q => free q \/ covers [] q)); [tauto|].
    intros q. autorewrite with freemap. tauto.
  - rewrite IH, (runs_into_ext l2 (fun q => (free q \/ f <= q < f + c) \/ covers l1 q)
      (fun q => free q \/ covers ((f, c) :: l1) q)); [tauto|].
    intros q. autorewrite with freemap. tauto.
Qed.

(** The lowest free page is where the first range of the map starts. *)
Lemma lowest_first fm n : fm_wf fm -> lowest (covers fm) n <-> exists c fm', fm = (n, c) :: fm'.
Proof.
  intros Hwf. destruct fm as [|[f c] fm].
  - split; [intros [H _]; by apply covers_nil in H|intros (? & ? & ?); done].
  - destruct Hwf as (Hf & Hc & _ & Hwf).
    assert (Hl : lowest (covers ((f, c) :: fm)) f).
    { split; [autorewrite with freemap; lia|]. intros q Hq. autorewrite with freemap.
      intros [?|Hcov]; [lia|]. pose proof (covers_ge _ _ _ Hwf Hcov). lia. }
    split; [|by intros (? & ? & [= -> -> ->])]. intros [H1 H2]. exists c, fm. f_equal. f_equal.
    destruct Hl as [H3 H4]. destruct (Z.lt_trichotomy n f) as [?|[?|?]]; [by destruct (H4 n)|done|by destruct (H2 f)].
Qed.

Lemma FreeToMap_fault pgid n p :
  free_wf p -> 0 <= pgid -> 0 < n -> pgid + n <= kPageInvalidId ->
  (forall q, pgid <= q < pgid + n -> ~ covers (free_map p) q) ->
  FreeToMap pgid n p = Fault BadIterator <-> lowest (covers (free_map p)) (pgid + n).
Proof.
  intros Hwf Hp Hn Hlim Hdis. rewrite lowest_first by apply Hwf.
  pose proof (FreeToMap_spec pgid n p Hwf Hp Hn Hlim Hdis) as H.
  split; [intros E; rewrite E in H; apply H|]. intros (c & fm & E).
  pose proof Hlim as Hlim'. unfold kPageInvalidId in Hlim'. destruct Hwf as [_ Hdbg].
  unfold FreeToMap. erewrite bind_ok.
  2: { apply debug_insert_ok; [lia..|]. intros q Hq. rewrite Hdbg. apply Hdis. lia. }
  cbn. rewrite E. unfold free_to_map. cbn [map_lower_bound]. rewrite (proj2 (Z.ltb_ge _ _)) by lia.
  cbn. rewrite u32_small, Z.eqb_refl by lia. done.
Qed.

Lemma free_pairs_fault l p :
  free_wf p -> disjoint_pairs l -> (forall q, covers l q -> ~ covers (free_map p) q) ->
  free_pairs l p = Fault BadIterator <-> runs_into (covers (free_map p)) l.
Proof.
  revert p. induction l as [|[f c] l IH]; intros p Hwf Hd Hn; [done|].
  destruct Hd as (Hf & Hc & Hlim & Hd & Hl). cbn [free_pairs runs_into]. unfold bind.
  assert (Hdis : forall q, f <= q < f + c -> ~ covers (free_map p) q).
  { intros q Hq. apply Hn. autorewrite with freemap. auto. }
  pose proof (FreeToMap_spec f c p Hwf Hf Hc Hlim Hdis) as H1.
  rewrite <- (FreeToMap_fault f c p Hwf Hf Hc Hlim Hdis).
  destruct (FreeToMap f c p) as [[] p1| |w]; [|done|destruct H1 as [-> _]; tauto].
  destruct H1 as (Hwf1 & _ & _ & Hc1).
  rewrite (IH p1 Hwf1 Hl), (runs_into_ext l _ _ Hc1); [by intuition|].
  intros q Hq Hq1. apply Hc1 in Hq1 as [Hq1|Hq1]; [|by apply (Hd q)].
  apply (Hn q); [|done]. autorewrite with freemap. auto.
Qed.

Lemma release_loop_fault t m p :
  free_wf p -> pending_map p = m -> disjoint_pairs (released t m) ->
  (forall q, covers (released t m) q -> ~ covers (free_map p) q) ->
  release_loop t m p = Fault BadIterator <-> runs_into (covers (free_map p)) (released t m).
Proof.
  revert p. induction m as [|[txid pairs] m IH]; intros p Hwf Hm Hd Hn; cbn [release_loop released] in *; [done|].
  destruct (Z.leb_spec t txid) as [Hle|Hlt]; [done|].
  apply disjoint_pairs_app in Hd as (Hd1 & Hd2 & Hd12).
  assert (Hn1 : forall q, covers pairs q -> ~ covers (free_map p) q) by (intros q ?; apply Hn; autorewrite with freemap; auto).
  pose proof (free_pairs_spec pairs p Hwf Hd1 Hn1) as H1. rewrite runs_into_app, <- (free_pairs_fault pairs p Hwf Hd1 Hn1).
  unfold bind, modify. destruct (free_pairs pairs p) as [[] p1| |w]; [|done|subst w; tauto].
  destruct H1 as (Hwf1 & _ & _ & Hc1).
  rewrite (IH (set_pending_map m p1) Hwf1 eq_refl Hd2).
  - rewrite (runs_into_ext _ (covers (free_map (set_pending_map m p1))) _ Hc1). by intuition.
  - intros q Hq Hq1. apply Hc1 in Hq1 as [Hq1|Hq1]; [|by apply (Hd12 q)].
    apply (Hn q); [|done]. autorewrite with freemap. auto.
Qed.

Lemma Release_fault t p :
  free_wf p -> disjoint_pairs (released t (pending_map p)) ->
  (forall q, covers (released t (pending_map p)) q -> ~ covers (free_map p) q) ->
  Release t p = Fault BadIterator <-> runs_into (covers (free_map p)) (released t (pending_map p)).
Proof.
  intros Hwf Hd Hn. exact (release_loop_fault t (pending_map p) (set_alloc_records [] p) Hwf eq_refl Hd Hn).
Qed.

(** ** Rollback *)

