(* ===== verification/PagerI.v ===== *)
(** What a node asks of the pager ([btree_->bucket().pager()] in
    [src/node.cpp]), as an interface: the operations, and the laws the node's
    theorems rely on.  [PagerInst.v] gives the database's own instance. *)
From S2P Require Import Prelude Format.

(** The operations.  [pg_read pgid n] reads [n] bytes at [GetPtr(pgid, 0)];
    [pg_txid] is [btree_->bucket().tx().txid()]. *)
Class PagerOps (St : Type) := {
  pg_page_size : St -> Z;
  pg_txid : M St Z;
  pg_Alloc : Z -> M St Z;
  pg_Free : Z -> Z -> M St unit;
  pg_WriteByBytes : Z -> Z -> list byte -> M St unit;
  pg_read : Z -> Z -> M St (list byte);
}.

(** [n] bytes of a memory from address [a]. *)
Definition mem_read (m : Z -> byte) (a n : Z) : list byte := m <$> seqZ a n.

Lemma length_mem_read m a n : length (mem_read m a n) = Z.to_nat n.
Proof. unfold mem_read. by rewrite length_fmap, length_seqZ. Qed.

Lemma mem_read_ext m m' a n :
  (forall b, a <= b < a + n -> m b = m' b) -> mem_read m a n = mem_read m' a n.
Proof.
  intros H. unfold mem_read. apply list_fmap_ext. intros i b Hb.
  apply lookup_seqZ in Hb. apply H. lia.
Qed.

Lemma mem_read_app m a n k :
  0 <= n -> 0 <= k -> mem_read m a (n + k) = mem_read m a n ++ mem_read m (a + n) k.
Proof. intros. unfold mem_read. rewrite seqZ_app by lia. by rewrite fmap_app. Qed.

(** The laws.  [pg_inv] is the pager's invariant, [pg_used] the pages in use,
    [pg_space] how many more pages can be addressed, [pg_mem] the bytes of the
    file, page [q] being at addresses [q * page_size ..], [pg_node] the pages
    seen as nodes, [pg_env] what no operation of the pager changes, and
    [pg_freed] what the transaction has given up so far, as first pages and
    counts. *)
Class PagerLaws (St : Type) {ops : PagerOps St} := {
  pg_inv : St -> Prop;
  pg_used : St -> Z -> Prop;
  pg_space : St -> Z;
  pg_mem : St -> Z -> byte;
  pg_node : St -> Z -> NodeData;
  pg_env : St -> St;
  pg_cur_txid : St -> Z;
  pg_freed : St -> list (Z * Z);
  pg_txid_ok s : pg_inv s -> pg_txid s = Ok (pg_cur_txid s) s;
  pg_used_range s q : pg_inv s -> pg_used s q -> 0 <= q < 2 ^ 32 - 1;
  pg_Alloc_ok s n : pg_inv s -> 0 < n -> n <= pg_space s ->
    exists g s', pg_Alloc n s = Ok g s' /\ pg_inv s' /\
      pg_page_size s' = pg_page_size s /\ pg_cur_txid s' = pg_cur_txid s /\ pg_env s' = pg_env s /\
      (forall q, g <= q < g + n -> ~ pg_used s q) /\
      (forall q, pg_used s' q <-> pg_used s q \/ g <= q < g + n) /\
      pg_space s - n <= pg_space s' /\
      (forall a, pg_mem s' a = pg_mem s a) /\ (forall q, pg_node s' q = pg_node s q);
  pg_Free_ok s g n : pg_inv s -> 0 <= g < 2 ^ 32 - 1 ->
    exists s', pg_Free g n s = Ok tt s' /\ pg_inv s' /\
      pg_page_size s' = pg_page_size s /\ pg_cur_txid s' = pg_cur_txid s /\ pg_env s' = pg_env s /\
      (forall q, pg_used s' q <-> pg_used s q) /\ pg_space s' = pg_space s /\
      (forall a, pg_mem s' a = pg_mem s a) /\ (forall q, pg_node s' q = pg_node s q) /\
      pg_freed s' = pg_freed s ++ [(g, n)];
  pg_Write_ok s g off bs : pg_inv s -> 0 <= off <= pg_page_size s -> pg_used s g ->
    let a := g * pg_page_size s + off in
    (forall b, a <= b < a + Z.of_nat (length bs) -> pg_used s (b / pg_page_size s)) ->
    exists s', pg_WriteByBytes g off bs s = Ok tt s' /\ pg_inv s' /\
      pg_page_size s' = pg_page_size s /\ pg_cur_txid s' = pg_cur_txid s /\ pg_env s' = pg_env s /\
      (forall q, pg_used s' q <-> pg_used s q) /\ pg_space s' = pg_space s /\
      mem_read (pg_mem s') a (Z.of_nat (length bs)) = bs /\
      (forall b, ~ (a <= b < a + Z.of_nat (length bs)) -> pg_mem s' b = pg_mem s b) /\
      (forall q, (forall b, a <= b < a + Z.of_nat (length bs) -> b / pg_page_size s <> q) ->
         pg_node s' q = pg_node s q);
  pg_read_ok s g n : pg_inv s -> 0 <= n -> pg_used s g ->
    let a := g * pg_page_size s in
    (forall b, a <= b < a + n -> pg_used s (b / pg_page_size s)) ->
    pg_read g n s = Ok (mem_read (pg_mem s) a n) s;
}.

(** What survives from one pager state to a later one: the pages in use stay
    in use, with their bytes. *)
Record pg_extends `{PagerLaws St} (s s' : St) : Prop := {
  pe_ps : pg_page_size s' = pg_page_size s;
  pe_txid : pg_cur_txid s' = pg_cur_txid s;
  pe_env : pg_env s' = pg_env s;
  pe_used q : pg_used s q -> pg_used s' q;
  pe_mem a : pg_used s (a / pg_page_size s) -> pg_mem s' a = pg_mem s a;
  pe_node q : pg_used s q -> pg_node s' q = pg_node s q;
}.

#[export] Instance pg_extends_preorder `{PagerLaws St} : PreOrder pg_extends.
Proof.
  split.
  - intros s. by split.
  - intros s1 s2 s3 [P1 T1 E1 U1 M1 N1] [P2 T2 E2 U2 M2 N2]. split; [congruence..|auto| |].
    + intros a Ha. rewrite M2; [auto|]. rewrite P1. auto.
    + intros q Hq. rewrite N2; auto.
Qed.
