(* ===== verification/PagerInst.v ===== *)
(** The database's pager discharges the interface of [PagerI.v]: the file seen
    as one memory of bytes, what [memcpy] through the mapping does to it, and
    the [PagerLaws] instance of [DBImpl]. *)
From S2P Require Import Prelude Format State Memory FreeMap Pager PagerI.

(** ** The file as a memory *)
Definition page_mem (ps : Z) (m : gmap Z Page) (a : Z) : byte :=
  default x00 (raw_bytes (page_at ps m (a / ps)) !! Z.to_nat (a mod ps)).

(** A page holds [ps] bytes, as a node its slots and its record area too. *)
Definition node_room (ps : Z) (nd : NodeData) : Prop :=
  Z.of_nat (length (slots nd)) = (ps - 18) / 8 /\ Z.of_nat (length (payload nd)) = ps.
Definition page_ok (ps : Z) (p : Page) : Prop :=
  Z.of_nat (length (raw_bytes p)) = ps /\ match p with NodePage nd => node_room ps nd | RawPage _ => True end.
Definition pages_ok (ps : Z) (m : gmap Z Page) : Prop :=
  forall q p, m !! q = Some p -> page_ok ps p.

Lemma length_page_at ps m q :
  0 < ps -> pages_ok ps m -> Z.of_nat (length (raw_bytes (page_at ps m q))) = ps.
Proof.
  intros Hps Hok. unfold page_at. destruct (m !! q) as [p|] eqn:E; [by apply (Hok q)|].
  cbn. unfold zero_page. rewrite length_replicate. lia.
Qed.

Lemma mem_slice ps m q o n :
  0 < ps -> pages_ok ps m -> 0 <= o -> 0 <= n -> o + n <= ps ->
  slice o n (raw_bytes (page_at ps m q)) = mem_read (page_mem ps m) (q * ps + o) n.
Proof.
  intros Hps Hok Ho Hn Hle. pose proof (length_page_at ps m q Hps Hok) as Hlen.
  apply list_eq_same_length with (Z.to_nat n).
  - by rewrite length_mem_read.
  - apply length_slice; lia.
  - intros i x y Hi Hx Hy. unfold slice in Hx. unfold mem_read in Hy.
    rewrite lookup_take_lt, lookup_drop in Hx by lia.
    rewrite list_lookup_fmap in Hy. rewrite lookup_seqZ_lt in Hy by lia. cbn in Hy.
    injection Hy as <-. unfold page_mem.
    replace ((q * ps + o + Z.of_nat i) / ps) with q
      by (apply (Z.div_unique _ _ _ (o + Z.of_nat i)); lia).
    replace ((q * ps + o + Z.of_nat i) mod ps) with (o + Z.of_nat i)
      by (apply (Z.mod_unique _ _ q); lia).
    replace (Z.to_nat (o + Z.of_nat i)) with (Z.to_nat o + i)%nat by lia. by rewrite Hx.
Qed.

Lemma read_pages_ok ps m fuel : forall i off n,
  0 < ps -> pages_ok ps m -> 0 <= off < ps -> n <= Z.of_nat fuel ->
  read_pages ps fuel i off n m = mem_read (page_mem ps m) (i * ps + off) n.
Proof.
  induction fuel as [|fuel IH]; intros i off n Hps Hok Hoff Hn; cbn [read_pages].
  - unfold mem_read. by rewrite seqZ_nil by lia.
  - destruct (Z.leb_spec n 0); [unfold mem_read; by rewrite seqZ_nil by lia|].
    set (k := Z.min n (ps - off)). rewrite mem_slice by (done || lia).
    replace n with (k + (n - k)) at 2 by lia. rewrite (mem_read_app _ _ k) by lia. f_equal.
    destruct (Z.eq_dec k n) as [E|E].
    + rewrite E, Z.sub_diag. destruct fuel; cbn [read_pages]; unfold mem_read; by rewrite seqZ_nil by lia.
    + rewrite IH by (done || lia). f_equal. lia.
Qed.

Lemma pages_ok_insert ps m q p :
  pages_ok ps m -> page_ok ps p -> pages_ok ps (<[q := p]> m).
Proof.
  intros Hok Hp q' p'. destruct (decide (q = q')) as [<-|Hne].
  - rewrite lookup_insert_eq. by intros [= <-].
  - rewrite lookup_insert_ne by done. apply Hok.
Qed.

Lemma length_decode_slots n bs : length (decode_slots n bs) = n.
Proof. revert bs. induction n as [|n IH]; intros bs; [done|]. cbn. by rewrite IH. Qed.

(** Any page seen as a node has that room. *)
Lemma page_node_room ps m q : 18 <= ps -> pages_ok ps m -> node_room ps (page_node (page_at ps m q)).
Proof.
  intros Hps Hok. assert (Hp : page_ok ps (page_at ps m q)).
  { unfold page_at. destruct (m !! q) as [p|] eqn:E; [by apply (Hok q)|]. cbn. split; [|done].
    unfold zero_page. cbn. rewrite length_replicate. lia. }
  destruct (page_at ps m q) as [nd|bs]; [apply Hp|]. destruct Hp as [Hl _]. cbn in Hl. split; [|exact Hl].
  change (slots (page_node (RawPage bs))) with (decode_slots ((length bs - 18) / 8) (drop 18 bs)).
  rewrite length_decode_slots, Nat2Z.inj_div. f_equal. lia.
Qed.

(** One page rewritten from [off]. *)
Lemma splice_page_mem ps m i off bs a :
  0 < ps -> pages_ok ps m -> 0 <= off -> off + Z.of_nat (length bs) <= ps ->
  page_mem ps (<[i := RawPage (splice off bs (raw_bytes (page_at ps m i)))]> m) a =
  if decide (i * ps + off <= a < i * ps + off + Z.of_nat (length bs))
  then default x00 (bs !! Z.to_nat (a - (i * ps + off))) else page_mem ps m a.
Proof.
  intros Hps Hok Hoff Hle. pose proof (length_page_at ps m i Hps Hok) as Hlen.
  pose proof (Z.div_mod a ps ltac:(lia)) as Hdm. pose proof (Z.mod_pos_bound a ps Hps) as Hmb.
  unfold page_mem. unfold page_at at 1. destruct (decide (a / ps = i)) as [E|E].
  - rewrite E, lookup_insert_eq. cbn [default from_option id raw_bytes].
    set (l := raw_bytes (page_at ps m i)) in *. unfold splice.
    assert (Ht : length (take (Z.to_nat off) l) = Z.to_nat off) by (rewrite length_take; lia).
    case_decide as Hin.
    + rewrite lookup_app_r by lia. rewrite lookup_app_l by lia. do 3 f_equal. rewrite Ht. nia.
    + destruct (Z_lt_le_dec (a mod ps) off).
      * rewrite lookup_app_l by lia. by rewrite lookup_take_lt by lia.
      * assert (off + Z.of_nat (length bs) <= a mod ps) by nia.
        rewrite lookup_app_r by lia. rewrite lookup_app_r by lia.
        rewrite lookup_drop. do 2 f_equal. lia.
  - rewrite lookup_insert_ne by done. case_decide as Hin; [|done]. exfalso. apply E.
    symmetry. apply (Z.div_unique a ps i (a - i * ps)); nia.
Qed.

Lemma write_pages_ok ps fuel : forall i off buf m,
  0 < ps -> pages_ok ps m -> 0 <= off < ps -> (length buf <= fuel)%nat ->
  pages_ok ps (write_pages ps fuel i off buf m) /\
  forall a, page_mem ps (write_pages ps fuel i off buf m) a =
    if decide (i * ps + off <= a < i * ps + off + Z.of_nat (length buf))
    then default x00 (buf !! Z.to_nat (a - (i * ps + off))) else page_mem ps m a.
Proof.
  induction fuel as [|fuel IH]; intros i off buf m Hps Hok Hoff Hn.
  - destruct buf; [|cbn in Hn; lia]. split; [done|]. intros a. cbn [write_pages length].
    case_decide; [lia|done].
  - destruct buf as [|b buf].
    { split; [done|]. intros a. cbn [write_pages length]. case_decide; [lia|done]. }
    cbn [write_pages]. set (n := Z.to_nat (ps - off)). set (full := b :: buf) in *.
    set (m1 := <[i := _]> m).
    assert (Htk : (length (take n full) <= n)%nat) by (rewrite length_take; lia).
    assert (Hok1 : pages_ok ps m1).
    { apply pages_ok_insert; [done|]. split; [|done]. cbn. pose proof (length_page_at ps m i Hps Hok).
      rewrite length_splice; lia. }
    destruct (IH (i + 1) 0 (drop n full) m1 Hps Hok1) as [Hok2 Hmem];
      [lia|rewrite length_drop; cbn in *; lia|].
    split; [done|]. intros a. rewrite Hmem. subst m1.
    rewrite (splice_page_mem ps m i off (take n full) a Hps Hok) by lia.
    rewrite length_drop, length_take.
    replace ((i + 1) * ps + 0) with (i * ps + off + Z.of_nat n) by lia.
    rewrite lookup_drop.
    repeat case_decide; try lia; [| |done].
    + do 2 f_equal. lia.
    + rewrite lookup_take_lt by lia. done.
Qed.

(** Pages outside the range written are left alone. *)
Lemma write_pages_lookup ps fuel : forall i off buf m q,
  0 < ps -> 0 <= off < ps ->
  (forall b, i * ps + off <= b < i * ps + off + Z.of_nat (length buf) -> b / ps <> q) ->
  write_pages ps fuel i off buf m !! q = m !! q.
Proof.
  induction fuel as [|fuel IH]; intros i off buf m q Hps Hoff Hq; [done|].
  destruct buf as [|b buf]; [done|]. cbn [write_pages]. set (full := b :: buf) in *.
  assert (Hne : i <> q).
  { intros ->. apply (Hq (q * ps + off)); [cbn; lia|].
    symmetry. apply (Z.div_unique _ _ _ off); lia. }
  rewrite IH; [by rewrite lookup_insert_ne|done|lia|].
  intros c Hc. rewrite length_drop in Hc. apply Hq. lia.
Qed.

(** ** Access through the mapping *)
Lemma peek_at_ok d ptr n :
  page_size_ok (page_size d) -> pages_ok (page_size d) (file_pages (db_map d)) -> 0 <= n ->
  peek_at d ptr n = mem_read (page_mem (page_size d) (file_pages (db_map d))) ptr n.
Proof.
  intros Hps Hok Hn. destruct (page_size_bounds _ Hps) as [Hr _].
  unfold peek_at. pose proof (Z.mod_pos_bound ptr (page_size d) ltac:(lia)).
  rewrite read_pages_ok by (try done; lia). f_equal.
  pose proof (Z.div_mod ptr (page_size d) ltac:(lia)). lia.
Qed.

Lemma write_at_ok d ptr buf :
  page_size_ok (page_size d) -> pages_ok (page_size d) (file_pages (db_map d)) ->
  0 <= ptr -> ptr + Z.of_nat (length buf) <= map_size (db_map d) ->
  exists m', write_at ptr buf d = Ok tt (set_db_map (mkMapping m' (map_size (db_map d))) d) /\
    pages_ok (page_size d) m' /\
    mem_read (page_mem (page_size d) m') ptr (Z.of_nat (length buf)) = buf /\
    (forall a, ~ (ptr <= a < ptr + Z.of_nat (length buf)) ->
      page_mem (page_size d) m' a = page_mem (page_size d) (file_pages (db_map d)) a) /\
    forall q, (forall b, ptr <= b < ptr + Z.of_nat (length buf) -> b / page_size d <> q) ->
      m' !! q = file_pages (db_map d) !! q.
Proof.
  intros Hps Hok Hp Hb. destruct (page_size_bounds _ Hps) as [Hr _].
  pose proof (Z.mod_pos_bound ptr (page_size d) ltac:(lia)).
  pose proof (Z.div_mod ptr (page_size d) ltac:(lia)) as Hdm.
  destruct (write_pages_ok (page_size d) (length buf) (ptr / page_size d) (ptr mod page_size d) buf
    (file_pages (db_map d))) as [Hok' Hmem]; [lia|done|lia|done|].
  replace (ptr / page_size d * page_size d + ptr mod page_size d) with ptr in Hmem by lia.
  eexists. split; [|split; [exact Hok'|split; [|split]]].
  - unfold write_at. by rewrite !(proj2 (Z.leb_le _ _)) by lia.
  - apply list_eq_same_length with (length buf); [done|rewrite length_mem_read; lia|].
    intros i x y Hi Hx Hy. unfold mem_read in Hx.
    rewrite list_lookup_fmap, lookup_seqZ_lt in Hx by lia. cbn in Hx. injection Hx as <-.
    rewrite Hmem. case_decide; [|lia].
    replace (Z.to_nat (ptr + Z.of_nat i - ptr)) with i by lia. by rewrite Hy.
  - intros a Ha. rewrite Hmem. by case_decide.
  - intros q Hq. apply write_pages_lookup; [lia|lia|]. intros b0 Hb0. apply Hq. lia.
Qed.

(** ** The instance *)
#[export] Instance DB_PagerOps : PagerOps DBImpl := {
  pg_page_size := page_size;
  pg_txid := let* tx := get_update_tx in ret (m_txid (meta_format tx));
  pg_Alloc := Alloc;
  pg_Free := Free;
  pg_WriteByBytes := WriteByBytes;
  pg_read := fun pgid n => let* ps := gets page_size in read_at (GetPtr ps pgid 0) n;
}.

Definition db_inv (d : DBImpl) : Prop :=
  (exists tx, alloc_wf d tx) /\ pages_ok (page_size d) (file_pages (db_map d)).
Definition db_used (d : DBImpl) (q : Z) : Prop :=
  exists tx, update_tx (tx_manager d) = Some tx /\ in_use d tx q.
(** How many more pages have an address below 4 GiB. *)
Definition db_space (d : DBImpl) : Z :=
  (2 ^ 32 - 1) / page_size d -
  match update_tx (tx_manager d) with Some tx => m_page_count (meta_format tx) | None => 0 end.
Definition db_node (d : DBImpl) (q : Z) : NodeData :=
  page_node (page_at (page_size d) (file_pages (db_map d)) q).
Definition db_txid (d : DBImpl) : Z := default 0 (update_txid d).
(** What the open write transaction has freed, in order, and what the
    transactions before it have. *)
Definition db_freed (d : DBImpl) : list (Z * Z) := default [] (map_find (db_txid d) (pending_map (pager d))).
Definition db_pending (d : DBImpl) : list (Z * list (Z * Z)) := map_erase (db_txid d) (pending_map (pager d)).

(** What no operation of the transaction on pages changes: the database but
    its mapping and the count of pages, and of the pager what the others have
    freed and the pages it started from. *)
Definition forget_pages (m : TxManager) : TxManager :=
  set_update_tx ((fun t => set_meta_format (set_page_count 0 (meta_format t)) t) <$> update_tx m) m.
Definition db_env (d : DBImpl) : DBImpl :=
  set_db_map (mkMapping ∅ 0) (set_db_mmap_pending 0 (set_pager (mkPager (db_pending d) [] [] (tx_pages (pager d)))
    (set_tx_manager (forget_pages (tx_manager d)) d))).
Definition db_mem (d : DBImpl) : Z -> byte := page_mem (page_size d) (file_pages (db_map d)).
Lemma find_push t e m : map_find t (pending_push t e m) = Some (default [] (map_find t m) ++ [e]).
Proof.
  unfold pending_push. destruct (map_find t m) as [v|] eqn:E; cbn [default from_option id].
  - generalize (v ++ [e]) as w. intros w. induction m as [|[k' v'] m IH]; [done|]. cbn in *. destruct (k' =? t) eqn:Ek; cbn; rewrite Ek; auto.
  - induction m as [|[k' v'] m IH]; cbn in *; [by rewrite Z.eqb_refl|]. destruct (k' =? t) eqn:Ek; [done|].
    destruct (k' <? t); cbn; rewrite ?Ek, ?Z.eqb_refl; auto.
Qed.

Lemma erase_absent {V} t (m : list (Z * V)) : map_find t m = None -> map_erase t m = m.
Proof.
  induction m as [|[k w] m IH]; [done|]. cbn. destruct (k =? t); [done|]. intros H. by rewrite IH.
Qed.

Lemma erase_push t e m : map_erase t (pending_push t e m) = map_erase t m.
Proof.
  unfold pending_push. destruct (map_find t m) as [v|] eqn:E.
  - generalize (v ++ [e]) as v'. intros v'. induction m as [|[k w] m IH]; [done|]. cbn in *.
    destruct (k =? t) eqn:Ek; cbn; rewrite Ek; [done|]. by rewrite IH.
  - induction m as [|[k w] m IH]; cbn in *; [by rewrite Z.eqb_refl|].
    destruct (k =? t) eqn:Ek; [done|]. destruct (k <? t); cbn; rewrite Ek; [by rewrite IH|].
    by rewrite Z.eqb_refl, erase_absent.
Qed.

Lemma db_used_tx d tx q : update_tx (tx_manager d) = Some tx -> db_used d q <-> in_use d tx q.
Proof.
  intros Htx. unfold db_used. rewrite Htx. split; [by intros (? & [= <-] & ?)|eauto].
Qed.

Lemma Free_ok d tx g n :
  update_tx (tx_manager d) = Some tx -> g <> kPageInvalidId ->
  Free g n d = Ok tt (set_pager (set_pending_map (pending_push (m_txid (meta_format tx)) (g, n)
    (pending_map (pager d))) (pager d)) d).
Proof.
  intros Htx Hg. unfold Free. rewrite bind_assert by (by apply negb_true_iff, Z.eqb_neq).
  rewrite (bind_ok _ _ d tx d) by (unfold get_update_tx; by rewrite Htx). done.
Qed.

Lemma used_address d tx q b :
  alloc_wf d tx -> in_use d tx q -> q * page_size d <= b < q * page_size d + page_size d ->
  0 <= q * page_size d < 2 ^ 32 /\ 0 <= b < map_size (db_map d).
Proof.
  intros [_ Hps _ _ _ Hmap Haddr] [Hq _] Hb. destruct (page_size_bounds _ Hps) as [Hr _]. nia.
Qed.

Lemma in_page ps b : 0 < ps -> b / ps * ps <= b < b / ps * ps + ps.
Proof.
  intros. pose proof (Z.div_mod b ps ltac:(lia)). pose proof (Z.mod_pos_bound b ps ltac:(lia)). lia.
Qed.

(** A range of used bytes lies in the mapping. *)
Lemma used_range_mapped d tx g n a :
  alloc_wf d tx -> in_use d tx g -> 0 <= n -> g * page_size d <= a <= g * page_size d + page_size d ->
  (forall b, a <= b < a + n -> in_use d tx (b / page_size d)) -> 0 <= a /\ a + n <= map_size (db_map d).
Proof.
  intros Hwf Hg Hn Ha Hb. destruct (page_size_bounds _ (aw_ps _ _ Hwf)) as [Hr _].
  destruct (used_address d tx g (g * page_size d) Hwf Hg) as [Hg0 Hg1]; [lia|].
  destruct (used_address d tx g (g * page_size d + page_size d - 1) Hwf Hg) as [_ Hg2]; [lia|].
  split; [lia|]. destruct (Z.eq_dec n 0) as [->|Hne]; [lia|].
  destruct (used_address d tx ((a + n - 1) / page_size d) (a + n - 1) Hwf) as [_ H2];
    [apply Hb; lia|apply in_page; lia|]. lia.
Qed.

#[export] Program Instance DB_PagerLaws : PagerLaws DBImpl := {
  pg_inv := db_inv;
  pg_used := db_used;
  pg_space := db_space;
  pg_mem := db_mem;
  pg_node := db_node;
  pg_env := db_env;
  pg_cur_txid := db_txid;
  pg_freed := db_freed;
}.
Next Obligation.
  intros d [(tx & Hwf) _]. pose proof (aw_tx _ _ Hwf) as Htx. cbn.
  rewrite (bind_ok _ _ d tx d) by (unfold get_update_tx; by rewrite Htx).
  unfold db_txid, update_txid. by rewrite Htx.
Qed.
Next Obligation.
  intros d q [(tx & Hwf) _]. rewrite (db_used_tx d tx) by apply Hwf. intros [Hq _].
  destruct Hwf as [_ Hps _ _ _ _ Haddr]. pose proof (page_count_lt _ _ Hps Haddr). lia.
Qed.
Next Obligation.
  intros d n [(tx & Hwf) Hok] Hn Hroom. cbn.
  pose proof (aw_tx _ _ Hwf) as Htx. unfold db_space in Hroom. rewrite Htx in Hroom.
  assert (Hlim : (m_page_count (meta_format tx) + n) * page_size d < 2 ^ 32).
  { destruct (page_size_bounds _ (aw_ps _ _ Hwf)) as [Hr _].
    pose proof (Z.mul_div_le (2 ^ 32 - 1) (page_size d) ltac:(lia)). nia. }
  destruct (Alloc_spec d tx n Hwf Hn Hlim) as (g & d' & tx' & HA & Hwf' & Hfr & Hg & _ & Hpc & Hfresh & Hused).
  pose proof (aw_tx _ _ Hwf') as Htx'.
  assert (Hps : page_size d' = page_size d) by (unfold page_size; by rewrite (af_options _ _ _ _ Hfr)).
  assert (Htid : db_txid d' = db_txid d).
  { unfold db_txid, update_txid. rewrite Htx, Htx'. cbn. destruct (af_tx _ _ _ _ Hfr) as (m & _ & ->). done. }
  assert (Hpend : db_pending d' = db_pending d) by (unfold db_pending; by rewrite Htid, (af_pending _ _ _ _ Hfr)).
  exists g, d'. split_and!; try done.
  - split; [by exists tx'|]. by rewrite Hps, (af_pages _ _ _ _ Hfr).
  - unfold db_env. rewrite Hpend, (af_taken _ _ _ _ Hfr), (af_rest _ _ _ _ Hfr), (af_txm _ _ _ _ Hfr). unfold forget_pages. cbn. rewrite Htx.
    destruct (af_tx _ _ _ _ Hfr) as (m & _ & ->). done.
  - intros q Hq. rewrite (db_used_tx d tx) by done. by apply Hfresh.
  - intros q. rewrite (db_used_tx d tx), (db_used_tx d' tx') by done. apply Hused.
  - unfold db_space. rewrite Htx, Htx', Hps. lia.
  - intros a. unfold db_mem. by rewrite Hps, (af_pages _ _ _ _ Hfr).
  - intros q. unfold db_node. by rewrite Hps, (af_pages _ _ _ _ Hfr).
Qed.
Next Obligation.
  intros d g n [(tx & Hwf) Hok] Hg. pose proof (aw_tx _ _ Hwf) as Htx. cbn.
  rewrite (Free_ok d tx) by (done || unfold kPageInvalidId; lia).
  set (d' := set_pager _ d). exists d'.
  assert (Ht : db_txid d' = m_txid (meta_format tx)) by (unfold db_txid, update_txid; cbn; by rewrite Htx).
  assert (Hpend : db_pending d' = db_pending d).
  { unfold db_pending. rewrite Ht. change (db_txid d) with (db_txid d'). rewrite Ht. apply erase_push. }
  split_and!; try done.
  - split; [|done]. exists tx. destruct Hwf. by split.
  - unfold db_env. by rewrite Hpend.
  - unfold db_freed, db_txid, update_txid. cbn. rewrite Htx. cbn. by rewrite find_push.
Qed.
Next Obligation.
  intros d g off bs [(tx & Hwf) Hok] Hoff Hg a Hb. cbn in *. pose proof (aw_tx _ _ Hwf) as Htx.
  rewrite (db_used_tx d tx) in Hg by done.
  assert (Hb' : forall b, a <= b < a + Z.of_nat (length bs) -> in_use d tx (b / page_size d)).
  { intros b ?. rewrite <- (db_used_tx d tx) by done. by apply Hb. }
  destruct (page_size_bounds _ (aw_ps _ _ Hwf)) as [Hr _].
  destruct (used_address d tx g (g * page_size d) Hwf Hg) as [Hga _]; [lia|].
  destruct (used_range_mapped d tx g (Z.of_nat (length bs)) a Hwf Hg) as [Ha Hal]; [lia|lia|done|].
  assert (Hptr : GetPtr (page_size d) g off = a).
  { unfold GetPtr. rewrite u32_small by lia. done. }
  destruct (write_at_ok d a bs (aw_ps _ _ Hwf) Hok Ha Hal) as (m' & Hw & Hok' & Hrd & Hfr & Hlk).
  eexists. split; [unfold WriteByBytes; rewrite Hptr; exact Hw|].
  set (d' := set_db_map _ d). split_and!; try done.
  - split; [|done]. exists tx. destruct Hwf. by split.
  - intros q Hq. unfold db_node, page_at. cbn. by rewrite Hlk.
Qed.
Next Obligation.
  intros d g n [(tx & Hwf) Hok] Hn Hg a Hb. cbn in *. pose proof (aw_tx _ _ Hwf) as Htx.
  rewrite (db_used_tx d tx) in Hg by done.
  destruct (page_size_bounds _ (aw_ps _ _ Hwf)) as [Hr _].
  destruct (used_address d tx g (g * page_size d) Hwf Hg) as [Hga _]; [lia|].
  destruct (used_range_mapped d tx g n a Hwf Hg) as [Ha Hal]; [lia|lia| |].
  { intros b ?. rewrite <- (db_used_tx d tx) by done. by apply Hb. }
  unfold bind, gets. assert (Hptr : GetPtr (page_size d) g 0 = a).
  { unfold GetPtr. rewrite u32_small by lia. lia. }
  rewrite Hptr. unfold read_at. rewrite !(proj2 (Z.leb_le _ _)) by lia. cbn [andb].
  f_equal. apply peek_at_ok; [apply Hwf|done|done].
Qed.
