(* ===== verification/Node.v ===== *)
(** Slotted pages: [Node], [LeafNode] and [BranchNode] of [src/node.cpp].

    A node operation runs on the node's data ([data_]) and the state [St] of
    the pager it reaches through [btree_].  A [SlotId] is a [Z]; an access
    outside the slot array or the record area faults. *)
From S2P Require Import Prelude Format Comparator State Memory PagerI.

(** ** Field updates of NodeData *)
Definition set_header (h : NodeHeader) (nd : NodeData) : NodeData :=
  mkNode h (tail_child nd) (slots nd) (payload nd).
Definition set_tail_child (v : Z) (nd : NodeData) : NodeData :=
  mkNode (header nd) v (slots nd) (payload nd).
Definition set_slots (l : list Slot) (nd : NodeData) : NodeData :=
  mkNode (header nd) (tail_child nd) l (payload nd).
Definition set_payload (bs : list byte) (nd : NodeData) : NodeData :=
  mkNode (header nd) (tail_child nd) (slots nd) bs.

Definition set_hcount (v : Z) (nd : NodeData) : NodeData :=
  let h := header nd in
  set_header (mkHeader (last_modified_txid h) (node_type h) (u14 v) (space_used h)
    (data_offset h)) nd.
Definition set_space_used (v : Z) (nd : NodeData) : NodeData :=
  let h := header nd in
  set_header (mkHeader (last_modified_txid h) (node_type h) (hcount h) (u16 v)
    (data_offset h)) nd.
Definition set_data_offset (v : Z) (nd : NodeData) : NodeData :=
  let h := header nd in
  set_header (mkHeader (last_modified_txid h) (node_type h) (hcount h) (space_used h)
    (i16 v)) nd.
Definition set_last_modified_txid (v : Z) (nd : NodeData) : NodeData :=
  let h := header nd in
  set_header (mkHeader v (node_type h) (hcount h) (space_used h) (data_offset h)) nd.
Definition set_node_type (v : Z) (nd : NodeData) : NodeData :=
  let h := header nd in
  set_header (mkHeader (last_modified_txid h) v (hcount h) (space_used h) (data_offset h)) nd.

(** ** Reading *)
Definition IsLeaf (nd : NodeData) : bool := node_type (header nd) =? kLeaf.
Definition IsBranch (nd : NodeData) : bool := node_type (header nd) =? kBranch.
Definition count (nd : NodeData) : Z := hcount (header nd).

(** [data_->slots[i]]: the array runs to the end of the page. *)
Definition nth_slot (i : Z) (nd : NodeData) : option Slot :=
  if 0 <=? i then slots nd !! Z.to_nat i else None.

(** The denominator of [GetFillRate].  The quotient is kept exact; the
    source's comparisons, with 0.4 and 0.5, give the same answer on the rounded
    one, both operands being below 2^16. *)
Definition max_space (ps : Z) : Z := ps - sizeof_NodeHeader - sizeof_padding.

(** ** A key passed as a [std::span]: bytes outside the node, or a window of
    the node itself (a key obtained from [GetKey] on the same page). *)
Inductive span : Type :=
| Ext (bs : list byte)
| Own (off len : Z).

Definition span_size (k : span) : Z :=
  match k with Ext bs => Z.of_nat (length bs) | Own _ len => len end.
Definition span_bytes (nd : NodeData) (k : span) : list byte :=
  match k with Ext bs => bs | Own off len => slice off len (payload nd) end.
(** Whether the window meets [n] bytes at [off]. *)
Definition span_overlaps (k : span) (off n : Z) : bool :=
  match k with
  | Ext _ => false
  | Own o len => (o <? off + n) && (off <? o + len)
  end.

Section node.
Context {St : Type} `{PagerOps St}.

Definition NodeM (A : Type) : Type := M (NodeData * St) A.

Definition data : NodeM NodeData := gets fst.
Definition on_data (f : NodeData -> NodeData) : NodeM unit :=
  modify (fun x => (f x.1, x.2)).
Definition on_pager {A} (m : M St A) : NodeM A :=
  zoom (mkLens snd (fun s x => (x.1, s))) m.
Definition node_page_size : NodeM Z := gets (fun x => pg_page_size x.2).

Definition get_slot (i : Z) : NodeM Slot := fun x =>
  match nth_slot i x.1 with Some s => Ok s x | None => Fault OutOfBounds end.
Definition on_slot (i : Z) (f : Slot -> Slot) : NodeM unit :=
  let* s := get_slot i in
  on_data (fun nd => set_slots (<[Z.to_nat i := f s]> (slots nd)) nd).

(** [memmove] of [n] slots inside the slot array. *)
Definition move_slots (dst src n : Z) : NodeM unit := fun x =>
  let l := slots x.1 in
  let len := Z.of_nat (length l) in
  if (0 <=? dst) && (0 <=? src) && (0 <=? n) && (dst + n <=? len) && (src + n <=? len)
  then Ok tt (set_slots (splice dst (slice src n l) l) x.1, x.2)
  else Fault OutOfBounds.

(** [memcpy] of [bs] to, and from, offset [off] of the page. *)
Definition write_record (off : Z) (bs : list byte) : NodeM unit := fun x =>
  if (0 <=? off) && (off + Z.of_nat (length bs) <=? Z.of_nat (length (payload x.1)))
  then Ok tt (set_payload (splice off bs (payload x.1)) x.1, x.2)
  else Fault OutOfBounds.
Definition read_record (off n : Z) : NodeM (list byte) := fun x =>
  if (0 <=? off) && (off + n <=? Z.of_nat (length (payload x.1)))
  then Ok (slice off n (payload x.1)) x
  else Fault OutOfBounds.
(** [memcpy] of a key to offset [off]; overlapping regions are undefined. *)
Definition write_key (off : Z) (k : span) : NodeM unit :=
  if span_overlaps k off (span_size k) then stuck OverlappingCopy
  else let* nd := data in write_record off (span_bytes nd k).

(** ** Space accounting *)
Definition MaxInlineRecordSize : NodeM Z :=
  let* ps := node_page_size in
  let max_size := u16 (u16 (ps - sizeof_NodeHeader - sizeof_padding) - sizeof_Slot * 2) in
  assertM (max_size mod 2 =? 0) ;;;
  ret (max_size / 2).

Definition SpaceNeeded (record_size : Z) (slot_needed : bool) : Z :=
  if negb slot_needed then record_size else record_size + sizeof_Slot.

Definition SlotSpace : NodeM Z :=
  let* nd := data in
  let slot_space := sizeof_NodeHeader + sizeof_padding + sizeof_Slot * count nd in
  let* ps := node_page_size in
  assertM (slot_space <? ps) ;;;
  ret (u16 slot_space).

Definition FreeSpace : NodeM Z :=
  let* ss := SlotSpace in
  let* nd := data in
  assertM (ss <=? data_offset (header nd)) ;;;
  let free_space := data_offset (header nd) - ss in
  let* ps := node_page_size in
  assertM (free_space <? ps) ;;;
  ret (u16 free_space).

Definition FreeSpaceAfterCompaction : NodeM Z :=
  let* ss := SlotSpace in
  let* nd := data in
  let* ps := node_page_size in
  assertM (ss + space_used (header nd) <=? ps) ;;;
  let free_space := u16 (ps - ss - space_used (header nd)) in
  assertM (free_space <? ps) ;;;
  ret free_space.

(** [assert(SlotSpace() + FreeSpace() == data_->header.data_offset)] *)
Definition check_space : NodeM unit :=
  let* ss := SlotSpace in
  let* free := FreeSpace in
  let* nd := data in
  assertM (ss + free =? data_offset (header nd)).

(** The numerator of [GetFillRate]; its denominator is [max_space]. *)
Definition GetFillRate : NodeM Z :=
  let* ps := node_page_size in
  let* free := FreeSpaceAfterCompaction in
  ret (max_space ps - free).

(** ** Records *)
Definition GetRawRecordPtr (slot_id : Z) : NodeM Z :=
  let* slot := get_slot slot_id in
  let* nd := data in
  assertM (slot_id <? count nd) ;;;
  ret (record_offset slot).

Definition sizeof_record (nd : NodeData) (s : Slot) : Z :=
  if is_overflow_pages s then sizeof_OverflowRecord
  else key_size s + (if IsLeaf nd then value_size s else 0).

(** The loop of [CopyRecordRange] from slot [i], [n] slots to go; [dst] is
    the temporary node's data. *)
Fixpoint copy_record_range (n : nat) (i : Z) (dst : NodeData) : NodeM NodeData :=
  match n with
  | O => ret dst
  | S n =>
      let* slot := get_slot i in
      let* nd := data in
      let size := sizeof_record nd slot in
      let dst := set_space_used (space_used (header dst) + size)
                   (set_data_offset (data_offset (header dst) - size) dst) in
      let* raw := GetRawRecordPtr i in
      let* bs := read_record raw size in
      let off := data_offset (header dst) in
      if (0 <=? off) && (off + size <=? Z.of_nat (length (payload dst))) then
        on_slot i (set_record_offset off) ;;;
        copy_record_range n (i + 1) (set_payload (splice off bs (payload dst)) dst)
      else stuck OutOfBounds
  end.
Definition CopyRecordRange (dst : NodeData) : NodeM NodeData :=
  let* nd := data in copy_record_range (Z.to_nat (count nd)) 0 dst.

(** The pager's [tmp_page] with its header cleared. *)
Definition tmp_node (ps : Z) : NodeData :=
  mkNode (mkHeader 0 kInvalid 0 0 (i16 ps)) 0 [] (replicate (Z.to_nat ps) x00).

Definition Compactify : NodeM unit :=
  let* ps := node_page_size in
  let* tmp := CopyRecordRange (tmp_node ps) in
  let* nd := data in
  assertM (space_used (header nd) =? space_used (header tmp)) ;;;
  on_data (set_data_offset (data_offset (header tmp))) ;;;
  let off := data_offset (header tmp) in
  write_record off (slice off (space_used (header tmp)) (payload tmp)).

Definition RequestSpaceFor (key_len value_len : Z) (slot_needed : bool) : NodeM bool :=
  let size := key_len + value_len in
  let* max_inline := MaxInlineRecordSize in
  let space_needed :=
    if max_inline <? size then SpaceNeeded sizeof_OverflowRecord slot_needed
    else SpaceNeeded size slot_needed in
  let* free := FreeSpace in
  if space_needed <=? free then ret true
  else
    let* free := FreeSpaceAfterCompaction in
    if space_needed <=? free then Compactify ;;; ret true else ret false.

Definition StoreRecordToOverflowPages (key : span) (value : list byte) : NodeM Z :=
  let* ps := node_page_size in
  let size := span_size key + Z.of_nat (length value) in
  let* pgid := on_pager (pg_Alloc (GetPageCount ps size)) in
  let* nd := data in
  on_pager (pg_WriteByBytes pgid 0 (span_bytes nd key)) ;;;
  match value with
  | [] => ret tt
  | _ =>
      let key_page_count := u32 (span_size key / ps) in
      on_pager (pg_WriteByBytes (u32 (pgid + key_page_count)) (span_size key mod ps) value)
  end ;;;
  ret pgid.

(** Take [size] bytes off the record area: [data_offset -= size;
    space_used += size], after the assertion that compares [data_offset],
    converted to [size_t], with [size]. *)
Definition take_space (size : Z) : NodeM unit :=
  let* nd := data in
  assertM (size <=? u64 (data_offset (header nd))) ;;;
  on_data (fun nd => set_data_offset (data_offset (header nd) - size) nd) ;;;
  on_data (fun nd => set_space_used (space_used (header nd) + size) nd).

Definition StoreRecord (slot_id : Z) (key : span) (value : list byte) : NodeM unit :=
  let* ps := node_page_size in
  if (ps <? span_size key) || (kKeyMaxSize <? span_size key) then
    throw (InvalidArgument "Key size exceeds the limit.")
  else if kValueMaxSize <? Z.of_nat (length value) then
    throw (InvalidArgument "Value size exceeds the limit.")
  else
  let size := span_size key + Z.of_nat (length value) in
  on_slot slot_id (set_key_size (span_size key)) ;;;
  let* nd := data in
  (if IsLeaf nd then on_slot slot_id (set_slot_u (Z.of_nat (length value))) else ret tt) ;;;
  let* max_inline := MaxInlineRecordSize in
  (if max_inline <? size then
     let* pgid := StoreRecordToOverflowPages key value in
     take_space sizeof_OverflowRecord ;;;
     let* nd := data in
     on_slot slot_id (set_record_offset (data_offset (header nd))) ;;;
     on_slot slot_id (set_is_overflow_pages true) ;;;
     let* raw := GetRawRecordPtr slot_id in
     write_record raw (le_bytes 4 pgid)
   else
     take_space size ;;;
     let* nd := data in
     on_slot slot_id (set_record_offset (data_offset (header nd))) ;;;
     on_slot slot_id (set_is_overflow_pages false) ;;;
     let* raw := GetRawRecordPtr slot_id in
     write_key raw key ;;;
     match value with
     | [] => ret tt
     | _ => let* raw := GetRawRecordPtr slot_id in write_record (raw + span_size key) value
     end) ;;;
  check_space.

Definition DeleteRecord (slot_id : Z) : NodeM unit :=
  let* nd := data in
  assertM (slot_id <? count nd) ;;;
  let* slot := get_slot slot_id in
  if is_overflow_pages slot then
    on_data (fun nd => set_space_used (space_used (header nd) - sizeof_OverflowRecord) nd)
  else
    on_data (fun nd => set_space_used (space_used (header nd) - key_size slot) nd) ;;;
    on_slot slot_id (set_key_size 0) ;;;
    if IsLeaf nd then
      on_data (fun nd => set_space_used (space_used (header nd) - value_size slot) nd) ;;;
      on_slot slot_id (set_slot_u 0)
    else ret tt.

Definition RestoreRecord (slot_id : Z) (saved_slot : Slot) : NodeM unit :=
  let* nd := data in
  assertM (slot_id <? count nd) ;;;
  if is_overflow_pages saved_slot then
    on_data (fun nd => set_space_used (space_used (header nd) + sizeof_OverflowRecord) nd)
  else
    on_slot slot_id (set_key_size (key_size saved_slot)) ;;;
    on_data (fun nd => set_space_used (space_used (header nd) + key_size saved_slot) nd) ;;;
    if IsLeaf nd then
      on_slot slot_id (set_slot_u (value_size saved_slot)) ;;;
      on_data (fun nd => set_space_used (space_used (header nd) + value_size saved_slot) nd)
    else ret tt.

(** [{ GetRecordPtr(slot_id) + off, len }]: a window of the page, or bytes of
    the overflow pages the record points to. *)
Definition record_span (slot_id off len : Z) : NodeM span :=
  let* raw := GetRawRecordPtr slot_id in
  let* slot := get_slot slot_id in
  if negb (is_overflow_pages slot) then ret (Own (raw + off) len)
  else
    let* rec := read_record raw sizeof_OverflowRecord in
    let* bs := on_pager (pg_read (le_value rec) (off + len)) in
    ret (Ext (slice off len bs)).

Definition GetKey (slot_id : Z) : NodeM span :=
  let* nd := data in
  assertM (slot_id <? count nd) ;;;
  let* slot := get_slot slot_id in
  record_span slot_id 0 (key_size slot).

(** The bytes a span of this node denotes now. *)
Definition load_span (k : span) : NodeM (list byte) :=
  match k with
  | Ext bs => ret bs
  | Own off len => read_record off len
  end.
Definition key_at (slot_id : Z) : NodeM (list byte) :=
  let* k := GetKey slot_id in load_span k.

(** ** Node::LowerBound: [std::lower_bound] over the slots, with the flag the
    comparison sets when it meets an equal key. *)
Section lower_bound.
Context (cmp : comparator).

(** The halving loop on [len] slots from [first]. *)
Fixpoint lower_bound_loop (fuel : nat) (first len : Z) (key : list byte) (eq : bool)
    : NodeM (Z * bool) :=
  match fuel with
  | O => ret (first, eq)
  | S fuel =>
      if len <=? 0 then ret (first, eq)
      else
        let half := len / 2 in
        let* slot_key := key_at (first + half) in
        match cmp slot_key key with
        | None => stuck Assertion
        | Some Lt => lower_bound_loop fuel (first + half + 1) (len - half - 1) key eq
        | Some Eq => lower_bound_loop fuel first half key true
        | Some Gt => lower_bound_loop fuel first half key eq
        end
  end.

Definition Node_LowerBound (key : list byte) : NodeM (Z * bool) :=
  let* nd := data in
  lower_bound_loop (S (Z.to_nat (count nd))) 0 (count nd) key false.
End lower_bound.

(** ** LeafNode *)
Definition Leaf_Build : NodeM unit :=
  let* ps := node_page_size in
  on_data (set_node_type kLeaf) ;;;
  on_data (set_hcount 0) ;;;
  on_data (set_data_offset ps) ;;;
  on_data (set_space_used 0) ;;;
  let* txid := on_pager pg_txid in
  on_data (set_last_modified_txid txid).

Definition IsBucket (slot_id : Z) : NodeM bool :=
  let* nd := data in
  assertM (slot_id <? count nd) ;;;
  let* slot := get_slot slot_id in
  ret (is_bucket slot).

Definition SetIsBucket (slot_id : Z) (b : bool) : NodeM unit :=
  let* nd := data in
  assertM (slot_id <? count nd) ;;;
  on_slot slot_id (set_is_bucket b).

Definition GetValue (slot_id : Z) : NodeM span :=
  let* nd := data in
  assertM (slot_id <? count nd) ;;;
  let* slot := get_slot slot_id in
  record_span slot_id (key_size slot) (value_size slot).
Definition value_at (slot_id : Z) : NodeM (list byte) :=
  let* v := GetValue slot_id in load_span v.

Definition Leaf_Update (slot_id : Z) (key : span) (value : list byte) : NodeM bool :=
  let* nd := data in
  assertM (slot_id <? count nd) ;;;
  let* saved_slot := get_slot slot_id in
  DeleteRecord slot_id ;;;
  let* ok := RequestSpaceFor (span_size key) (Z.of_nat (length value)) false in
  if negb ok then RestoreRecord slot_id saved_slot ;;; ret false
  else
    StoreRecord slot_id key value ;;;
    check_space ;;;
    ret true.

Definition Leaf_Insert (slot_id : Z) (key : span) (value : list byte) : NodeM bool :=
  let* nd := data in
  assertM (slot_id <=? count nd) ;;;
  let* ok := RequestSpaceFor (span_size key) (Z.of_nat (length value)) true in
  if negb ok then ret false
  else
    let* nd := data in
    move_slots (slot_id + 1) slot_id (count nd - slot_id) ;;;
    on_data (fun nd => set_hcount (count nd + 1) nd) ;;;
    StoreRecord slot_id key value ;;;
    ret true.

Definition Leaf_Append (key : span) (value : list byte) : NodeM bool :=
  let* nd := data in Leaf_Insert (count nd) key value.

Definition Leaf_Delete (slot_id : Z) : NodeM unit :=
  let* nd := data in
  assertM (slot_id <? count nd) ;;;
  let* slot := get_slot slot_id in
  let size := u32 (key_size slot + value_size slot) in
  (if is_overflow_pages slot then
     on_data (fun nd => set_space_used (space_used (header nd) - sizeof_OverflowRecord) nd) ;;;
     let* raw := GetRawRecordPtr slot_id in
     let* rec := read_record raw sizeof_OverflowRecord in
     on_slot slot_id (set_is_overflow_pages false) ;;;
     let* ps := node_page_size in
     on_pager (pg_Free (le_value rec) (GetPageCount ps size))
   else on_data (fun nd => set_space_used (space_used (header nd) - size) nd)) ;;;
  move_slots slot_id (slot_id + 1) (count nd - slot_id - 1) ;;;
  on_data (fun nd => set_hcount (count nd - 1) nd) ;;;
  check_space.

Definition Leaf_Pop : NodeM unit := let* nd := data in Leaf_Delete (count nd - 1).

(** ** BranchNode *)
Definition Branch_Build (tail : Z) : NodeM unit :=
  let* ps := node_page_size in
  on_data (set_node_type kBranch) ;;;
  on_data (set_hcount 0) ;;;
  on_data (set_data_offset ps) ;;;
  on_data (set_space_used 0) ;;;
  on_data (set_tail_child tail) ;;;
  let* txid := on_pager pg_txid in
  on_data (set_last_modified_txid txid).

Definition GetTailChild : NodeM Z := let* nd := data in ret (tail_child nd).
Definition SetTailChild (child : Z) : NodeM unit := on_data (set_tail_child child).

Definition GetLeftChild (slot_id : Z) : NodeM Z :=
  let* nd := data in
  assertM (slot_id <=? count nd) ;;;
  if slot_id =? count nd then GetTailChild
  else let* slot := get_slot slot_id in ret (left_child slot).

Definition SetLeftChild (slot_id child : Z) : NodeM unit :=
  let* nd := data in
  assertM (slot_id <=? count nd) ;;;
  if slot_id =? count nd then SetTailChild child
  else on_slot slot_id (set_slot_u child).

Definition GetRightChild (slot_id : Z) : NodeM Z :=
  let* nd := data in
  assertM (slot_id <? count nd) ;;;
  if slot_id =? count nd - 1 then GetTailChild
  else let* slot := get_slot (slot_id + 1) in ret (left_child slot).

Definition SetRightChild (slot_id child : Z) : NodeM unit :=
  let* nd := data in
  assertM (slot_id <? count nd) ;;;
  if slot_id =? count nd - 1 then SetTailChild child
  else on_slot (slot_id + 1) (set_slot_u child).

(** [BranchNode::Update(slot_id, key)] *)
Definition Branch_UpdateKey (slot_id : Z) (key : span) : NodeM bool :=
  let* nd := data in
  assertM (slot_id <? count nd) ;;;
  let* saved_slot := get_slot slot_id in
  DeleteRecord slot_id ;;;
  let* ok := RequestSpaceFor (span_size key) 0 false in
  if negb ok then RestoreRecord slot_id saved_slot ;;; ret false
  else
    let* slot := get_slot slot_id in
    on_data (fun nd => set_space_used (space_used (header nd) - key_size slot) nd) ;;;
    StoreRecord slot_id key [] ;;;
    check_space ;;;
    ret true.

Definition Branch_Update (slot_id : Z) (key : span) (child : Z) (is_right_child : bool)
    : NodeM bool :=
  let* nd := data in
  assertM (slot_id <? count nd) ;;;
  let* ok := Branch_UpdateKey slot_id key in
  if negb ok then ret false
  else
    let* nd := data in
    (if is_right_child then
       if slot_id =? count nd - 1 then on_data (set_tail_child child)
       else on_slot (slot_id + 1) (set_slot_u child)
     else on_slot slot_id (set_slot_u child)) ;;;
    ret true.

Definition Branch_Insert (slot_id : Z) (key : span) (child : Z) (is_right_child : bool)
    : NodeM bool :=
  let* nd := data in
  assertM (slot_id <=? count nd) ;;;
  let* ok := RequestSpaceFor (span_size key) 0 true in
  if negb ok then ret false
  else
    let* nd := data in
    move_slots (slot_id + 1) slot_id (count nd - slot_id) ;;;
    (if is_right_child then
       if slot_id =? count nd then
         on_slot slot_id (set_slot_u (tail_child nd)) ;;;
         on_data (set_tail_child child)
       else
         let* next := get_slot (slot_id + 1) in
         on_slot slot_id (set_slot_u (left_child next)) ;;;
         on_slot (slot_id + 1) (set_slot_u child)
     else on_slot slot_id (set_slot_u child)) ;;;
    on_data (fun nd => set_hcount (count nd + 1) nd) ;;;
    StoreRecord slot_id key [] ;;;
    ret true.

Definition Branch_Append (key : span) (child : Z) (is_right_child : bool) : NodeM bool :=
  let* nd := data in Branch_Insert (count nd) key child is_right_child.

Definition Branch_Delete (slot_id : Z) (right_child : bool) : NodeM unit :=
  let* nd := data in
  assertM (slot_id <? count nd) ;;;
  let* slot := get_slot slot_id in
  (if is_overflow_pages slot then
     on_data (fun nd => set_space_used (space_used (header nd) - sizeof_OverflowRecord) nd) ;;;
     let* raw := GetRawRecordPtr slot_id in
     let* rec := read_record raw sizeof_OverflowRecord in
     on_slot slot_id (set_is_overflow_pages false) ;;;
     let* ps := node_page_size in
     on_pager (pg_Free (le_value rec) (GetPageCount ps (key_size slot)))
   else on_data (fun nd => set_space_used (space_used (header nd) - key_size slot) nd)) ;;;
  (if right_child then
     (if slot_id + 1 <? count nd then
        let* slot := get_slot slot_id in
        on_slot (slot_id + 1) (set_slot_u (left_child slot)) ;;;
        let* next := get_slot (slot_id + 1) in
        on_slot slot_id (fun _ => next)
      else
        let* last := get_slot (count nd - 1) in
        on_data (set_tail_child (left_child last))) ;;;
     if 1 <? count nd - slot_id
     then move_slots (slot_id + 1) (slot_id + 2) (count nd - slot_id - 2)
     else ret tt
   else move_slots slot_id (slot_id + 1) (count nd - slot_id - 1)) ;;;
  on_data (fun nd => set_hcount (count nd - 1) nd) ;;;
  check_space.

Definition Branch_Pop (right_child : bool) : NodeM unit :=
  let* nd := data in Branch_Delete (count nd - 1) right_child.
End node.
