(* ===== verification/NodeWf.v ===== *)
(** The invariant of a slotted page and what its space accounting, compaction
    and record storage do ([src/node.cpp]): the lemmas under the node
    operations' specifications of [NodeSpec.v]. *)
From S2P Require Import Prelude Format State Memory PagerI Node.

(** ** Views of a node *)

(** A live record: its slot without the offset, and its bytes. *)
Record Rec := mkRec {
  r_overflow : bool;
  r_key : Z;
  r_bucket : bool;
  r_u : Z;
  r_bytes : list byte;
}.

Definition rec_of (nd : NodeData) (s : Slot) : Rec :=
  mkRec (is_overflow_pages s) (key_size s) (is_bucket s) (slot_u s)
    (slice (record_offset s) (sizeof_record nd s) (payload nd)).
Definition recs (nd : NodeData) : list Rec := rec_of nd <$> live_slots nd.

Definition sizes (nd : NodeData) (l : list Slot) : Z :=
  foldr (fun s n => sizeof_record nd s + n) 0 l.

(** ** Invariants *)
Record slot_ok (ps : Z) (nd : NodeData) (s : Slot) : Prop := {
  so_key : 0 <= key_size s < 2 ^ 15;
  so_u : 0 <= slot_u s < 2 ^ 32;
  so_low : data_offset (header nd) <= record_offset s;
  so_high : record_offset s + sizeof_record nd s <= ps;
}.

(** The slot array and the record area fit the page and do not meet. *)
Record space_wf (ps : Z) (nd : NodeData) : Prop := {
  sw_ps : page_size_ok ps;
  sw_count : 0 <= count nd;
  sw_low : 18 + 8 * count nd <= data_offset (header nd);
  sw_used : 0 <= space_used (header nd);
  sw_top : data_offset (header nd) + space_used (header nd) <= ps;
  sw_slots : Z.of_nat (length (slots nd)) = (ps - 18) / 8;
  sw_payload : Z.of_nat (length (payload nd)) = ps;
}.

Record node_wf (ps : Z) (nd : NodeData) : Prop := {
  nw_space :> space_wf ps nd;
  nw_used : space_used (header nd) = sizes nd (live_slots nd);
  nw_live : Forall (slot_ok ps nd) (live_slots nd);
}.

(** ** List facts *)
Lemma sizeof_record_nonneg ps nd s : slot_ok ps nd s -> 0 <= sizeof_record nd s.
Proof.
  intros []. unfold sizeof_record, sizeof_OverflowRecord.
  destruct (is_overflow_pages s), (IsLeaf nd); lia.
Qed.

Lemma sizes_app nd l1 l2 : sizes nd (l1 ++ l2) = sizes nd l1 + sizes nd l2.
Proof. induction l1 as [|s l IH]; simpl; [done|]. rewrite IH. lia. Qed.

Lemma sizes_cons nd s l : sizes nd (s :: l) = sizeof_record nd s + sizes nd l.
Proof. done. Qed.

Lemma sizes_sum_nonneg nd l : Forall (fun s => 0 <= sizeof_record nd s) l -> 0 <= sizes nd l.
Proof. induction 1 as [|s l Hs Hl IH]; [done|]. rewrite sizes_cons. lia. Qed.

Lemma sizes_nonneg ps nd l : Forall (slot_ok ps nd) l -> 0 <= sizes nd l.
Proof.
  intros Hl. apply sizes_sum_nonneg. eapply Forall_impl; [exact Hl|].
  intros s. apply sizeof_record_nonneg.
Qed.

Lemma sizeof_record_ext nd nd' s :
  node_type (header nd') = node_type (header nd) -> sizeof_record nd' s = sizeof_record nd s.
Proof. intros E. unfold sizeof_record, IsLeaf. by rewrite E. Qed.

Lemma sizes_ext nd nd' l :
  node_type (header nd') = node_type (header nd) -> sizes nd' l = sizes nd l.
Proof.
  intros E. induction l as [|s l IH]; simpl; [done|].
  by rewrite IH, (sizeof_record_ext nd nd' s E).
Qed.

Lemma rec_of_ext nd nd' s :
  node_type (header nd') = node_type (header nd) ->
  (forall o n, data_offset (header nd) <= o -> slice o n (payload nd') = slice o n (payload nd)) ->
  data_offset (header nd) <= record_offset s ->
  rec_of nd' s = rec_of nd s.
Proof.
  intros E Hp Ho. unfold rec_of. rewrite (sizeof_record_ext nd nd' s E), Hp by done. done.
Qed.

Lemma space_bounds ps nd :
  space_wf ps nd -> 256 <= ps <= 16384 /\ ps mod 8 = 0 /\ 18 + 8 * count nd < ps /\
    count nd < Z.of_nat (length (slots nd)) + 1.
Proof.
  intros []. destruct (page_size_bounds _ sw_ps0). split_and!; try lia.
  - assert (18 + 8 * count nd <> ps); [|lia]. intros E. rewrite <- E in *.
    rewrite (Z.mul_comm 8) in *. rewrite Z_mod_plus_full in *. done.
  - rewrite sw_slots0. assert (count nd <= (ps - 18) / 8); [|lia].
    apply Z.div_le_lower_bound; lia.
Qed.

(** The slot array is the live slots, then dead ones. *)
Lemma slots_split ps nd :
  space_wf ps nd -> exists dead, slots nd = live_slots nd ++ dead /\
    Z.of_nat (length (live_slots nd)) = count nd /\
    Z.of_nat (length dead) = (ps - 18) / 8 - count nd.
Proof.
  intros H. pose proof (space_bounds _ _ H) as (_ & _ & _ & Hc). destruct H.
  exists (drop (Z.to_nat (count nd)) (slots nd)). unfold live_slots.
  change (hcount (header nd)) with (count nd). rewrite take_drop.
  rewrite length_take, length_drop. split_and!; [done|lia|lia].
Qed.

Lemma live_slots_eq nd l dead :
  slots nd = l ++ dead -> count nd = Z.of_nat (length l) -> live_slots nd = l.
Proof.
  intros Hs Hc. unfold live_slots. change (hcount (header nd)) with (count nd).
  by rewrite Hs, Hc, Nat2Z.id, take_app_length.
Qed.

(** ** Running the accounting functions *)
Section space.
Context {St : Type} `{PagerOps St}.
Implicit Types (nd : NodeData) (s : St).

Lemma data_ok nd s : data (nd, s) = Ok nd (nd, s).
Proof. done. Qed.

Lemma page_size_run nd s : node_page_size (nd, s) = Ok (pg_page_size s) (nd, s).
Proof. done. Qed.

Lemma MaxInline_ok nd s :
  page_size_ok (pg_page_size s) ->
  MaxInlineRecordSize (nd, s) = Ok ((pg_page_size s - 34) / 2) (nd, s).
Proof.
  intros Hps. unfold MaxInlineRecordSize. run_step (page_size_run nd s).
  unfold sizeof_NodeHeader, sizeof_padding, sizeof_Slot.
  destruct (page_size_bounds _ Hps) as [Hr Hm]. unwrap_all.
  replace (pg_page_size s - 14 - 4 - 8 * 2) with (pg_page_size s - 34) by lia.
  replace ((pg_page_size s - 34) mod 2 =? 0) with true; [done|].
  symmetry. apply Z.eqb_eq. apply Z.mod_divide in Hm as [k ->]; [|lia].
  replace (k * 8 - 34) with ((k * 4 - 17) * 2) by lia. apply Z_mod_mult.
Qed.

Lemma SlotSpace_ok nd s :
  space_wf (pg_page_size s) nd -> SlotSpace (nd, s) = Ok (18 + 8 * count nd) (nd, s).
Proof.
  intros Hw. pose proof (space_bounds _ _ Hw). destruct Hw.
  unfold SlotSpace, sizeof_NodeHeader, sizeof_padding, sizeof_Slot.
  run_step (data_ok nd s). run_step (page_size_run nd s).
  rewrite bind_assert by (apply Z.ltb_lt; lia). unwrap_all. done.
Qed.

Lemma FreeSpace_ok nd s :
  space_wf (pg_page_size s) nd ->
  FreeSpace (nd, s) = Ok (data_offset (header nd) - (18 + 8 * count nd)) (nd, s).
Proof.
  intros Hw. pose proof (space_bounds _ _ Hw).
  unfold FreeSpace. run_step (SlotSpace_ok nd s Hw). destruct Hw.
  run_step (data_ok nd s). rewrite bind_assert by (apply Z.leb_le; lia).
  run_step (page_size_run nd s).
  rewrite bind_assert by (apply Z.ltb_lt; lia). unwrap_all. done.
Qed.

Lemma FreeSpaceAfterCompaction_ok nd s :
  space_wf (pg_page_size s) nd ->
  FreeSpaceAfterCompaction (nd, s) =
    Ok (pg_page_size s - (18 + 8 * count nd) - space_used (header nd)) (nd, s).
Proof.
  intros Hw. pose proof (space_bounds _ _ Hw).
  unfold FreeSpaceAfterCompaction. run_step (SlotSpace_ok nd s Hw). destruct Hw.
  run_step (data_ok nd s). run_step (page_size_run nd s).
  rewrite bind_assert by (apply Z.leb_le; lia). unwrap_all.
  rewrite bind_assert by (apply Z.ltb_lt; lia). done.
Qed.

Lemma check_space_ok nd s : space_wf (pg_page_size s) nd -> check_space (nd, s) = Ok tt (nd, s).
Proof.
  intros Hw. unfold check_space. run_step (SlotSpace_ok nd s Hw).
  run_step (FreeSpace_ok nd s Hw). run_step (data_ok nd s).
  unfold assertM. by rewrite (proj2 (Z.eqb_eq _ _)) by lia.
Qed.

Lemma GetFillRate_ok nd s :
  space_wf (pg_page_size s) nd ->
  GetFillRate (nd, s) = Ok (8 * count nd + space_used (header nd)) (nd, s).
Proof.
  intros Hw. unfold GetFillRate. run_step (page_size_run nd s).
  run_step (FreeSpaceAfterCompaction_ok nd s Hw). unfold ret, max_space. f_equal.
  unfold sizeof_NodeHeader, sizeof_padding. lia.
Qed.

(** ** Slots *)
Lemma nth_slot_mid nd l1 x l2 i :
  slots nd = l1 ++ x :: l2 -> i = Z.of_nat (length l1) -> nth_slot i nd = Some x.
Proof.
  intros Hs ->. unfold nth_slot. rewrite (proj2 (Z.leb_le 0 _)) by lia.
  by rewrite Hs, Nat2Z.id, list_lookup_middle.
Qed.

Lemma get_slot_ok nd s l1 x l2 i :
  slots nd = l1 ++ x :: l2 -> i = Z.of_nat (length l1) -> get_slot i (nd, s) = Ok x (nd, s).
Proof. intros Hs Hi. unfold get_slot. cbn. by rewrite (nth_slot_mid _ _ _ _ _ Hs Hi). Qed.

Lemma on_slot_ok nd s l1 x l2 i f :
  slots nd = l1 ++ x :: l2 -> i = Z.of_nat (length l1) ->
  on_slot i f (nd, s) = Ok tt (set_slots (l1 ++ f x :: l2) nd, s).
Proof.
  intros Hs Hi. unfold on_slot. rewrite (bind_ok _ _ _ _ _ (get_slot_ok nd s l1 x l2 i Hs Hi)).
  unfold on_data, modify. cbn. subst i. rewrite Hs, Nat2Z.id.
  by rewrite insert_app_r_alt, Nat.sub_diag by lia.
Qed.

Lemma GetRawRecordPtr_ok nd s l1 x l2 i :
  slots nd = l1 ++ x :: l2 -> i = Z.of_nat (length l1) -> i < count nd ->
  GetRawRecordPtr i (nd, s) = Ok (record_offset x) (nd, s).
Proof.
  intros Hs Hi Hc. unfold GetRawRecordPtr. run_step (get_slot_ok nd s l1 x l2 i Hs Hi).
  run_step (data_ok nd s). by rewrite bind_assert by (apply Z.ltb_lt; lia).
Qed.

Lemma read_record_ok nd s off n :
  0 <= off -> off + n <= Z.of_nat (length (payload nd)) ->
  read_record off n (nd, s) = Ok (slice off n (payload nd)) (nd, s).
Proof.
  intros. unfold read_record. cbn.
  by rewrite (proj2 (Z.leb_le 0 off)), (proj2 (Z.leb_le (off + n) _)) by lia.
Qed.

Lemma write_record_ok nd s off bs :
  0 <= off -> off + Z.of_nat (length bs) <= Z.of_nat (length (payload nd)) ->
  write_record off bs (nd, s) = Ok tt (set_payload (splice off bs (payload nd)) nd, s).
Proof.
  intros. unfold write_record. cbn.
  by rewrite (proj2 (Z.leb_le 0 off)), (proj2 (Z.leb_le (off + _) _)) by lia.
Qed.

(** Making room for a slot, and closing the gap of one. *)
Lemma move_slots_up nd s l1 l2 y dead c i :
  slots nd = l1 ++ l2 ++ y :: dead -> i = Z.of_nat (length l1) ->
  c = i + Z.of_nat (length l2) ->
  exists x, head (l2 ++ [y]) = Some x /\
    move_slots (i + 1) i (c - i) (nd, s) = Ok tt (set_slots (l1 ++ x :: l2 ++ dead) nd, s).
Proof.
  intros Hs -> ->. assert (Hl := f_equal length Hs).
  rewrite !length_app in Hl. cbn [length] in Hl.
  exists (default y (head l2)). split; [by destruct l2|].
  unfold move_slots. cbn [fst snd].
  rewrite !(proj2 (Z.leb_le _ _)) by lia. cbn [andb]. do 3 f_equal.
  rewrite Hs. unfold splice, slice.
  replace (Z.to_nat (Z.of_nat (length l1) + 1)) with (S (length l1)) by lia.
  replace (Z.to_nat (Z.of_nat (length l1) + Z.of_nat (length l2) - Z.of_nat (length l1)))
    with (length l2) by lia.
  rewrite Nat2Z.id, drop_app_length, take_app_length.
  destruct l2 as [|z l2]; cbn [app default hd_error length].
  - rewrite Nat.add_0_r. cbn [app].
    replace (l1 ++ y :: dead) with ((l1 ++ [y]) ++ dead) by by rewrite <- app_assoc.
    rewrite take_app_length', drop_app_length' by (rewrite length_app; cbn; lia).
    by rewrite <- app_assoc.
  - replace (l1 ++ z :: l2 ++ y :: dead) with ((l1 ++ [z]) ++ l2 ++ y :: dead)
      by by rewrite <- app_assoc.
    rewrite take_app_length' by (rewrite length_app; cbn; lia).
    rewrite drop_app_ge by (rewrite length_app; cbn; lia).
    rewrite length_app. cbn [length].
    replace (S (length l1) + S (length l2) - (length l1 + 1))%nat
      with (S (length l2)) by lia.
    replace (l2 ++ y :: dead) with ((l2 ++ [y]) ++ dead) by by rewrite <- app_assoc.
    rewrite drop_app_length' by (rewrite length_app; cbn; lia).
    by rewrite <- !app_assoc.
Qed.

Lemma move_slots_down nd s l1 x l2 dead c i :
  slots nd = l1 ++ x :: l2 ++ dead -> i = Z.of_nat (length l1) ->
  c = i + 1 + Z.of_nat (length l2) ->
  exists y, move_slots i (i + 1) (c - i - 1) (nd, s) =
    Ok tt (set_slots (l1 ++ l2 ++ y :: dead) nd, s).
Proof.
  intros Hs -> ->. assert (Hl := f_equal length Hs).
  rewrite length_app in Hl. cbn [length] in Hl. rewrite length_app in Hl.
  exists (default x (last l2)).
  unfold move_slots. cbn [fst snd].
  rewrite !(proj2 (Z.leb_le _ _)) by lia. cbn [andb]. do 3 f_equal.
  rewrite Hs. unfold splice, slice.
  replace (Z.to_nat (Z.of_nat (length l1) + 1)) with (S (length l1)) by lia.
  replace (Z.to_nat (Z.of_nat (length l1) + 1 + Z.of_nat (length l2) -
    Z.of_nat (length l1) - 1)) with (length l2) by lia.
  rewrite Nat2Z.id, take_app_length.
  replace (l1 ++ x :: l2 ++ dead) with ((l1 ++ [x]) ++ l2 ++ dead) by by rewrite <- app_assoc.
  rewrite drop_app_length' by (rewrite length_app; cbn; lia).
  rewrite take_app_length. f_equal. f_equal.
  rewrite <- app_assoc, drop_app_add. cbn [app].
  destruct l2 as [|z l2 _] using rev_ind; [done|].
  rewrite last_snoc, length_app, Nat.add_comm. cbn [length default Nat.add drop].
  by rewrite <- app_assoc, drop_app_length.
Qed.
End space.

(** ** Compactify *)
Section compactify.
Context {St : Type} `{PagerOps St}.
Implicit Types (nd dst : NodeData) (s : St).

(** The slot of a record moved to [dst]: only its offset differs. *)
Definition moved ps nd dst hi (x x' : Slot) : Prop :=
  x' = set_record_offset (record_offset x') x /\ 0 <= record_offset x' < 2 ^ 15 /\
  data_offset (header dst) <= record_offset x' /\
  record_offset x' + sizeof_record nd x <= hi /\ hi <= ps /\
  slice (record_offset x') (sizeof_record nd x) (payload dst) =
  slice (record_offset x) (sizeof_record nd x) (payload nd).

Lemma moved_weaken ps nd dst dst' hi hi' x x' :
  moved ps nd dst hi x x' -> hi <= hi' <= ps ->
  data_offset (header dst') <= data_offset (header dst) ->
  (forall o n, data_offset (header dst) <= o ->
     slice o n (payload dst') = slice o n (payload dst)) ->
  moved ps nd dst' hi' x x'.
Proof.
  intros (E & Hr & Hlo & Hhi & Hps & Hb) Hh Hd Hs. unfold moved.
  rewrite Hs by lia. split_and!; try done; lia.
Qed.

Lemma set_slots_data nd l :
  header (set_slots l nd) = header nd /\ payload (set_slots l nd) = payload nd.
Proof. done. Qed.

Lemma copy_record_range_ok ps (s : St) nd :
  page_size_ok ps -> Z.of_nat (length (payload nd)) = ps ->
  forall todo done dead dst,
  count nd = Z.of_nat (length done + length todo) ->
  Forall (fun x => 0 <= record_offset x /\ 0 <= sizeof_record nd x /\
                   record_offset x + sizeof_record nd x <= ps) todo ->
  Z.of_nat (length (payload dst)) = ps ->
  sizes nd todo <= data_offset (header dst) <= ps ->
  0 <= space_used (header dst) -> space_used (header dst) + sizes nd todo <= ps ->
  exists todo' dst',
    copy_record_range (length todo) (Z.of_nat (length done)) dst
      (set_slots (done ++ todo ++ dead) nd, s) =
      Ok dst' (set_slots (done ++ todo' ++ dead) nd, s) /\
    data_offset (header dst') = data_offset (header dst) - sizes nd todo /\
    space_used (header dst') = space_used (header dst) + sizes nd todo /\
    Z.of_nat (length (payload dst')) = ps /\
    (forall o n, data_offset (header dst) <= o ->
       slice o n (payload dst') = slice o n (payload dst)) /\
    Forall2 (moved ps nd dst' (data_offset (header dst))) todo todo'.
Proof.
  intros Hps Hlen. destruct (page_size_bounds _ Hps) as [Hr _].
  induction todo as [|x todo IH]; intros done dead dst Hc Hok Hld Hd Hu0 Hu.
  - exists [], dst. cbn [length copy_record_range]. change (sizes nd []) with 0.
    split_and!; try done; lia.
  - apply Forall_cons in Hok as ((Ho & Hsz & Hhi) & Hok).
    assert (0 <= sizes nd todo).
    { apply sizes_sum_nonneg. eapply Forall_impl; [exact Hok|]. intros y (? & ? & ?). done. }
    rewrite sizes_cons in *.
    set (sz := sizeof_record nd x) in *. cbn [length copy_record_range].
    set (nd1 := set_slots (done ++ (x :: todo) ++ dead) nd).
    assert (Hs1 : slots nd1 = done ++ x :: (todo ++ dead)) by done.
    run_step (get_slot_ok nd1 s done x (todo ++ dead) _ Hs1 eq_refl).
    run_step (data_ok nd1 s). change (sizeof_record nd1 x) with sz.
    set (off := data_offset (header dst) - sz).
    set (dst1 := set_space_used _ _).
    assert (Hoff : data_offset (header dst1) = off).
    { cbn. apply i16_small. lia. }
    assert (Hsu : space_used (header dst1) = space_used (header dst) + sz).
    { cbn. apply u16_small. lia. }
    rewrite (bind_ok _ _ _ _ _ (GetRawRecordPtr_ok nd1 s done x (todo ++ dead) _ Hs1 eq_refl
      ltac:(change (count nd1) with (count nd); rewrite Hc; cbn [length]; lia))).
    rewrite (bind_ok _ _ _ _ _ (read_record_ok nd1 s (record_offset x) sz Ho
      ltac:(change (payload nd1) with (payload nd); lia))).
    rewrite Hoff. change (payload dst1) with (payload dst).
    rewrite !(proj2 (Z.leb_le _ _)) by lia. cbn [andb].
    run_step (on_slot_ok nd1 s done x (todo ++ dead) _ (set_record_offset off) Hs1 eq_refl).
    set (bs := slice (record_offset x) sz (payload nd1)).
    assert (Hbs : Z.of_nat (length bs) = sz).
    { subst bs. rewrite length_slice; [lia..|]. change (payload nd1) with (payload nd). lia. }
    set (x' := set_record_offset off x).
    replace (Z.of_nat (length done) + 1) with (Z.of_nat (length (done ++ [x'])))
      by (rewrite length_app; cbn; lia).
    set (dst2 := set_payload (splice off bs (payload dst)) dst1).
    assert (Hsp : forall o n, data_offset (header dst) <= o ->
      slice o n (payload dst2) = slice o n (payload dst)).
    { intros o n Hon. cbn. apply slice_splice_above; lia. }
    destruct (IH (done ++ [x']) dead dst2) as (todo' & dst' & Hrun & Hd' & Hu' & Hl' & Hsl & Hf).
    { rewrite Hc, length_app. cbn [length]. lia. }
    { done. }
    { cbn. rewrite length_splice; lia. }
    { change (header dst2) with (header dst1). rewrite Hoff. lia. }
    { change (header dst2) with (header dst1). rewrite Hsu. lia. }
    { change (header dst2) with (header dst1). rewrite Hsu. lia. }
    change (header dst2) with (header dst1) in *. rewrite Hoff in *. rewrite Hsu in *.
    replace (set_slots (done ++ x' :: todo ++ dead) nd1)
      with (set_slots ((done ++ [x']) ++ todo ++ dead) nd) by (unfold set_slots; by rewrite <- app_assoc).
    exists (x' :: todo'), dst'. rewrite Hrun. split_and!.
    + do 3 f_equal. by rewrite <- app_assoc.
    + lia.
    + lia.
    + done.
    + intros o n Hon. rewrite Hsl by lia. by apply Hsp.
    + assert (Hx' : record_offset x' = off) by (cbn; apply u15_small; lia).
      constructor.
      * unfold moved. rewrite Hx'. split_and!; try lia; [done|].
        fold sz. rewrite Hsl by lia. cbn [dst2 payload set_payload].
        transitivity bs; [|done]. rewrite <- Hbs at 1.
        apply slice_splice_same; subst off; lia.
      * eapply Forall2_impl; [exact Hf|]. intros y y' Hy.
        eapply moved_weaken; [exact Hy|lia|lia|done].
Qed.

Lemma live_readable ps nd :
  node_wf ps nd ->
  Forall (fun x => 0 <= record_offset x /\ 0 <= sizeof_record nd x /\
                   record_offset x + sizeof_record nd x <= ps) (live_slots nd).
Proof.
  intros [Hsp _ Hl]. eapply Forall_impl; [exact Hl|]. intros x Hx.
  pose proof (sizeof_record_nonneg _ _ _ Hx). destruct Hx, Hsp. lia.
Qed.

(** What compaction keeps. *)
Record compacted (nd nd' : NodeData) : Prop := {
  cp_recs : recs nd' = recs nd;
  cp_type : node_type (header nd') = node_type (header nd);
  cp_txid : last_modified_txid (header nd') = last_modified_txid (header nd);
  cp_count : count nd' = count nd;
  cp_used : space_used (header nd') = space_used (header nd);
  cp_tail : tail_child nd' = tail_child nd;
}.

(** The slots after compaction, one by one. *)
Definition same_slot (x x' : Slot) : Prop := x' = set_record_offset (record_offset x') x.

Lemma same_slot_rec nd nd' x x' :
  same_slot x x' ->
  node_type (header nd') = node_type (header nd) ->
  slice (record_offset x') (sizeof_record nd x) (payload nd') =
  slice (record_offset x) (sizeof_record nd x) (payload nd) ->
  rec_of nd' x' = rec_of nd x.
Proof.
  intros -> E Hb. unfold rec_of. rewrite (sizeof_record_ext nd nd' _ E).
  change (sizeof_record nd (set_record_offset (record_offset x') x)) with (sizeof_record nd x).
  cbn in Hb |- *. by rewrite Hb.
Qed.

(** The copy of the live records into the cleared temporary page. *)
Lemma CopyRecordRange_ok nd s :
  space_wf (pg_page_size s) nd ->
  Forall (fun x => 0 <= record_offset x /\ 0 <= sizeof_record nd x /\
    record_offset x + sizeof_record nd x <= pg_page_size s) (live_slots nd) ->
  sizes nd (live_slots nd) <= pg_page_size s ->
  exists live' dead dst,
    CopyRecordRange (tmp_node (pg_page_size s)) (nd, s) =
      Ok dst (set_slots (live' ++ dead) nd, s) /\
    slots nd = live_slots nd ++ dead /\
    data_offset (header dst) = pg_page_size s - sizes nd (live_slots nd) /\
    space_used (header dst) = sizes nd (live_slots nd) /\
    Z.of_nat (length (payload dst)) = pg_page_size s /\
    Forall2 (moved (pg_page_size s) nd dst (pg_page_size s)) (live_slots nd) live'.
Proof.
  intros Hwf Hrd Hsz. pose proof (space_bounds _ _ Hwf) as (Hr & _).
  destruct (slots_split _ _ Hwf) as (dead & Hs & Hlen & _).
  assert (Hnn : 0 <= sizes nd (live_slots nd)).
  { apply sizes_sum_nonneg. eapply Forall_impl; [exact Hrd|]. intros x (? & ? & ?). done. }
  set (ps := pg_page_size s) in *.
  assert (Htmp : data_offset (header (tmp_node ps)) = ps) by (cbn; apply i16_small; lia).
  destruct (copy_record_range_ok ps s nd (sw_ps _ _ Hwf) (sw_payload _ _ Hwf) (live_slots nd) []
    dead (tmp_node ps)) as (live' & dst & Hrun & Hd & Hu & Hl & _ & Hf).
  { cbn. lia. } { done. } { cbn. rewrite length_replicate. lia. }
  { rewrite Htmp. lia. } { cbn. lia. } { cbn. lia. }
  rewrite Htmp in *. exists live', dead, dst. split_and!; try done.
  unfold CopyRecordRange. run_step (data_ok nd s). cbn in Hrun. rewrite <- Hs in Hrun.
  rewrite <- Hlen, Nat2Z.id, <- Hrun. do 2 f_equal. by destruct nd.
Qed.

(** Compaction of a node whose accounting is wrong stops at the assertion. *)
Lemma Compactify_mismatch nd s :
  space_wf (pg_page_size s) nd ->
  Forall (fun x => 0 <= record_offset x /\ 0 <= sizeof_record nd x /\
    record_offset x + sizeof_record nd x <= pg_page_size s) (live_slots nd) ->
  sizes nd (live_slots nd) <= pg_page_size s ->
  space_used (header nd) <> sizes nd (live_slots nd) ->
  Compactify (nd, s) = Fault Assertion.
Proof.
  intros Hwf Hrd Hsz Hne. destruct (CopyRecordRange_ok nd s Hwf Hrd Hsz)
    as (live' & dead & dst & Hrun & _ & _ & Hu & _).
  unfold Compactify. run_step (page_size_run nd s). run_step Hrun. run_step (data_ok (set_slots (live' ++ dead) nd) s).
  change (header (set_slots _ nd)) with (header nd). rewrite Hu.
  by rewrite (proj2 (Z.eqb_neq _ _) Hne).
Qed.

Lemma Compactify_ok nd s :
  node_wf (pg_page_size s) nd ->
  exists nd', Compactify (nd, s) = Ok tt (nd', s) /\ node_wf (pg_page_size s) nd' /\
    compacted nd nd' /\ data_offset (header nd') = pg_page_size s - space_used (header nd) /\
    Forall2 same_slot (live_slots nd) (live_slots nd').
Proof.
  intros Hwf. pose proof (space_bounds _ _ Hwf) as (Hr & _).
  destruct (slots_split _ _ Hwf) as (_ & _ & Hlen & _).
  pose proof (sw_top _ _ Hwf) as Htop. pose proof (sw_low _ _ Hwf) as Hlow.
  pose proof (sw_count _ _ Hwf) as Hcnt. pose proof (nw_used _ _ Hwf) as Hused.
  pose proof (sw_payload _ _ Hwf) as Hpl. pose proof (sw_used _ _ Hwf) as Hu0.
  destruct (CopyRecordRange_ok nd s Hwf (live_readable _ _ Hwf))
    as (live' & dead & dst' & Hrun & Hs & Hd' & Hu' & Hl' & Hf); [lia|].
  rewrite <- Hused in Hu', Hd'. set (ps := pg_page_size s) in *.
  unfold Compactify. run_step (page_size_run nd s). run_step Hrun.
  set (nd1 := set_slots (live' ++ dead) nd).
  run_step (data_ok nd1 s). change (header nd1) with (header nd).
  rewrite bind_assert by (apply Z.eqb_eq; lia).
  unfold on_data at 1, modify at 1, bind at 1. cbn [fst snd].
  set (nd2 := set_data_offset (data_offset (header dst')) nd1).
  assert (Hoff2 : data_offset (header nd2) = ps - space_used (header nd)).
  { cbn. rewrite Hd'. apply i16_small. lia. }
  set (area := slice _ _ _).
  assert (Harea : Z.of_nat (length area) = space_used (header nd)).
  { subst area. rewrite length_slice; lia. }
  rewrite write_record_ok by (change (payload nd2) with (payload nd); lia).
  set (nd' := set_payload _ nd2).
  assert (Hslice : forall o n, data_offset (header dst') <= o -> 0 <= n -> o + n <= ps ->
    slice o n (payload nd') = slice o n (payload dst')).
  { intros o n Ho Hn Hon. cbn [nd' payload set_payload].
    rewrite slice_splice_inside by (try change (payload nd2) with (payload nd); lia).
    subst area. rewrite slice_slice_sub by lia. f_equal. lia. }
  assert (Hlen' : length live' = length (live_slots nd)) by (symmetry; eapply Forall2_length; exact Hf).
  assert (Hlive : live_slots nd' = live').
  { apply (live_slots_eq nd' live' dead); [done|]. change (count nd') with (count nd). lia. }
  assert (Hsame : Forall2 same_slot (live_slots nd) live').
  { eapply Forall2_impl; [exact Hf|]. intros x x' Hx. apply Hx. }
  assert (Hsizes : sizes nd live' = sizes nd (live_slots nd)).
  { clear -Hsame. induction Hsame as [|x x' l l' -> Hl IH]; [done|].
    rewrite !sizes_cons. by rewrite IH. }
  assert (Hs' : slots nd' = live' ++ dead) by done.
  assert (Hwf' : space_wf ps nd').
  { destruct (nw_space _ _ Hwf).
    split; try change (count nd') with (count nd);
      change (data_offset (header nd')) with (data_offset (header nd2));
      change (space_used (header nd')) with (space_used (header nd)); try done; try lia.
    - rewrite <- sw_slots0, Hs, Hs', !length_app. lia.
    - cbn. rewrite length_splice; lia. }
  exists nd'. rewrite Hlive. split_and!; try done.
  - split; [done|..]; rewrite Hlive.
    + change (space_used (header nd')) with (space_used (header nd)).
      rewrite (sizes_ext nd nd' _ eq_refl), Hsizes. done.
    + apply Forall_forall. intros x' Hx'. apply list_elem_of_lookup in Hx' as [i Hi].
      destruct (Forall2_lookup_r _ _ _ _ _ Hf Hi) as (x & Hxi & Hm).
      pose proof (Forall_lookup_1 _ _ _ _ (nw_live _ _ Hwf) Hxi) as [].
      destruct Hm as (E & Hro & Hm1 & Hm2 & _). split.
      * by rewrite E.
      * by rewrite E.
      * change (data_offset (header nd')) with (data_offset (header nd2)). lia.
      * change (sizeof_record nd' x') with (sizeof_record nd x'). rewrite E.
        cbn [record_offset set_record_offset]. rewrite u15_small by lia.
        change (sizeof_record nd (set_record_offset (record_offset x') x)) with (sizeof_record nd x). lia.
  - split; try done. unfold recs. rewrite Hlive.
    apply list_eq_Forall2, Forall2_fmap, Forall2_flip.
    eapply Forall2_impl.
    { apply Forall2_same_length_lookup_2; [done|]. intros i x x' Hx Hx'.
      pose proof (Forall2_lookup_lr _ _ _ _ _ _ Hf Hx Hx') as Hm.
      pose proof (Forall_lookup_1 _ _ _ _ (live_readable _ _ Hwf) Hx) as Hrx.
      exact (conj Hm Hrx). }
    intros x x' ((E & Hro & Hm1 & Hm2 & _ & Hm4) & Hx1 & Hx2 & Hx3).
    apply same_slot_rec; [done|done|].
    rewrite <- Hm4. apply Hslice; lia.
Qed.

Lemma slot_offset_range ps nd x :
  space_wf ps nd -> slot_ok ps nd x -> 0 <= record_offset x < 2 ^ 15.
Proof.
  intros Hsp Hx. pose proof (space_bounds _ _ Hsp).
  pose proof (sizeof_record_nonneg _ _ _ Hx). destruct Hx, Hsp. lia.
Qed.

Lemma same_slot_refl ps nd l :
  space_wf ps nd -> Forall (slot_ok ps nd) l -> Forall2 same_slot l l.
Proof.
  intros Hsp Hl. induction Hl as [|x l Hx Hl IH]; constructor; [|done].
  pose proof (slot_offset_range _ _ _ Hsp Hx).
  unfold same_slot, set_record_offset. rewrite u15_small by done. by destruct x.
Qed.

Lemma compacted_refl nd : compacted nd nd.
Proof. by split. Qed.

(** The space a record takes: [SpaceNeeded] after the choice between inline
    and overflow storage. *)
Definition record_need ps (size : Z) (slot_needed : bool) : Z :=
  (if (ps - 34) / 2 <? size then 4 else size) + (if slot_needed then 8 else 0).

Lemma RequestSpaceFor_ok nd s klen vlen slot_needed :
  node_wf (pg_page_size s) nd ->
  let need := record_need (pg_page_size s) (klen + vlen) slot_needed in
  let ok := need <=? pg_page_size s - (18 + 8 * count nd) - space_used (header nd) in
  exists nd', RequestSpaceFor klen vlen slot_needed (nd, s) = Ok ok (nd', s) /\
    node_wf (pg_page_size s) nd' /\ compacted nd nd' /\
    Forall2 same_slot (live_slots nd) (live_slots nd') /\
    if ok then need <= data_offset (header nd') - (18 + 8 * count nd') else nd' = nd.
Proof.
  intros Hwf need ok. pose proof (sw_top _ _ Hwf).
  pose proof (same_slot_refl _ _ _ Hwf (nw_live _ _ Hwf)) as Hrefl.
  unfold RequestSpaceFor. run_step (MaxInline_ok nd s (sw_ps _ _ Hwf)).
  replace (if _ <? klen + vlen then _ else _) with need.
  2: { unfold need, record_need, SpaceNeeded, sizeof_OverflowRecord, sizeof_Slot.
       by destruct (_ <? _), slot_needed; cbn [negb]; lia. }
  run_step (FreeSpace_ok nd s Hwf).
  destruct (Z.leb_spec need (data_offset (header nd) - (18 + 8 * count nd))).
  - assert (ok = true) as -> by (apply Z.leb_le; lia). by exists nd.
  - run_step (FreeSpaceAfterCompaction_ok nd s Hwf). fold ok. destruct ok eqn:E.
    + apply Z.leb_le in E. destruct (Compactify_ok nd s Hwf) as (nd' & Hrun & Hwf' & Hcp & Hd & Hss).
      run_step Hrun. exists nd'. split_and!; try done. rewrite (cp_count _ _ Hcp). lia.
    + by exists nd.
Qed.
End compactify.

(** ** StoreRecord *)

(** A node whose live slot [x], between [l1] and [l2], has no record yet. *)
Record node_hole (ps : Z) (nd : NodeData) (l1 : list Slot) (x : Slot) (l2 dead : list Slot) : Prop := {
  nh_space :> space_wf ps nd;
  nh_slots : slots nd = l1 ++ x :: l2 ++ dead;
  nh_count : count nd = Z.of_nat (length l1 + S (length l2));
  nh_used : space_used (header nd) = sizes nd (l1 ++ l2);
  nh_live : Forall (slot_ok ps nd) (l1 ++ l2);
  nh_u : IsLeaf nd = false -> 0 <= slot_u x < 2 ^ 32;
}.

(** The node after [bs] is stored below the record area as slot [x]'s record. *)
Definition stored (nd : NodeData) (l1 : list Slot) (x : Slot) (l2 dead : list Slot)
    (overflow : bool) (klen u : Z) (bs : list byte) : NodeData :=
  let h := header nd in
  let off := data_offset h - Z.of_nat (length bs) in
  mkNode (mkHeader (last_modified_txid h) (node_type h) (hcount h)
            (space_used h + Z.of_nat (length bs)) off)
    (tail_child nd)
    (l1 ++ mkSlot off overflow klen (is_bucket x) u :: l2 ++ dead)
    (splice off bs (payload nd)).

Definition hole_room (nd : NodeData) : Z := data_offset (header nd) - (18 + 8 * count nd).

Lemma stored_wf ps nd l1 x l2 dead overflow klen u bs :
  node_hole ps nd l1 x l2 dead ->
  Z.of_nat (length bs) <= hole_room nd ->
  0 <= klen < 2 ^ 15 -> 0 <= u < 2 ^ 32 ->
  sizeof_record nd (mkSlot 0 overflow klen (is_bucket x) u) = Z.of_nat (length bs) ->
  let nd' := stored nd l1 x l2 dead overflow klen u bs in
  node_wf ps nd' /\
  recs nd' = (rec_of nd <$> l1) ++ mkRec overflow klen (is_bucket x) u bs :: (rec_of nd <$> l2).
Proof.
  intros Hh Hroom Hk Hu Hsz nd'. pose proof (space_bounds _ _ Hh) as (Hr & _ & _ & Hcs).
  destruct Hh as [[Hps Hc Hlow Hus Htop Hsl Hpl] Hs Hcnt Hused Hlive Hxu].
  unfold hole_room in Hroom.
  set (off := data_offset (header nd) - Z.of_nat (length bs)).
  set (x' := mkSlot off overflow klen (is_bucket x) u).
  assert (Hl : live_slots nd' = l1 ++ x' :: l2).
  { apply (live_slots_eq nd' _ dead); [cbn; by rewrite <- app_assoc|].
    change (count nd') with (count nd). rewrite length_app. cbn. lia. }
  assert (Hx' : sizeof_record nd' x' = Z.of_nat (length bs)) by exact Hsz.
  assert (Hext : forall y, slot_ok ps nd y -> rec_of nd' y = rec_of nd y).
  { intros y Hy. apply rec_of_ext; [done| |apply Hy]. intros o n Ho. cbn.
    apply slice_splice_above; lia. }
  split; [split|].
  - split; try done; cbn; unfold count in *; try lia.
    + rewrite <- Hsl, Hs, !length_app. done.
    + rewrite length_splice; lia.
  - rewrite Hl, sizes_app, sizes_cons, Hx', !(sizes_ext nd nd') by done.
    cbn. rewrite Hused, sizes_app. lia.
  - rewrite Hl. apply Forall_app in Hlive as [H1 H2].
    assert (Hkeep : forall y, slot_ok ps nd y -> slot_ok ps nd' y).
    { intros y []. split; try done. cbn. lia. }
    apply Forall_app. split; [by eapply Forall_impl|].
    constructor; [|by eapply Forall_impl].
    split; [done|done|cbn; lia|]. rewrite Hx'. cbn. lia.
  - unfold recs. rewrite Hl, fmap_app. cbn [fmap list_fmap].
    apply Forall_app in Hlive as [H1 H2]. f_equal; [|f_equal].
    + apply list_fmap_ext. intros i y Hy. apply Hext. exact (Forall_lookup_1 _ _ _ _ H1 Hy).
    + unfold rec_of. rewrite Hx'. subst x'. cbn. f_equal.
      apply slice_splice_same; lia.
    + apply list_fmap_ext. intros i y Hy. apply Hext. exact (Forall_lookup_1 _ _ _ _ H2 Hy).
Qed.

Section store.
Context {St : Type} `{PagerLaws St}.
Implicit Types (nd : NodeData) (s : St).

(** Keys a caller may pass: bytes of its own, or a window of this node's
    record area. *)
Definition span_ok ps nd (k : span) : Prop :=
  match k with
  | Ext _ => True
  | Own off len => 0 <= len /\ data_offset (header nd) <= off /\ off + len <= ps
  end.

Lemma span_bytes_length ps nd k :
  space_wf ps nd -> span_ok ps nd k -> Z.of_nat (length (span_bytes nd k)) = span_size k.
Proof.
  intros Hsp Hk. destruct k as [bs|off len]; [done|]. cbn in *.
  pose proof (space_bounds _ _ Hsp). destruct Hsp. rewrite length_slice; lia.
Qed.

(** The node between [take_space] and the copy of the record's bytes. *)
Definition reserved nd l1 x l2 dead overflow klen u size : NodeData :=
  let h := header nd in
  let off := data_offset h - size in
  mkNode (mkHeader (last_modified_txid h) (node_type h) (hcount h) (space_used h + size) off)
    (tail_child nd) (l1 ++ mkSlot off overflow klen (is_bucket x) u :: l2 ++ dead) (payload nd).

Lemma reserve_ok {A} (rest : NodeM A) nd s l1 x l2 dead overflow size i :
  node_hole (pg_page_size s) nd l1 x l2 dead ->
  0 <= size <= hole_room nd -> i = Z.of_nat (length l1) ->
  (take_space size ;;;
   let* nd := data in
   on_slot i (set_record_offset (data_offset (header nd))) ;;;
   on_slot i (set_is_overflow_pages overflow) ;;;
   rest) (nd, s) =
  rest (reserved nd l1 x l2 dead overflow (key_size x) (slot_u x) size, s).
Proof.
  intros Hh Hsize Hi. pose proof (space_bounds _ _ Hh) as (Hr & _).
  destruct Hh as [[Hps Hc Hlow Hus Htop Hsl Hpl] Hs Hcnt Hused Hlive Hxu].
  unfold hole_room in Hsize. unfold take_space.
  set (nd1 := set_space_used (space_used (header nd) + size)
                (set_data_offset (data_offset (header nd) - size) nd)).
  rewrite (bind_ok _ _ (nd, s) tt (nd1, s)).
  2: { run_step (data_ok nd s). rewrite u64_small by lia.
       by rewrite bind_assert by (apply Z.leb_le; lia). }
  run_step (data_ok nd1 s).
  run_step (on_slot_ok nd1 s l1 x (l2 ++ dead) i (set_record_offset (data_offset (header nd1))) Hs Hi).
  erewrite bind_ok; [|by eapply on_slot_ok; [reflexivity|exact Hi]]. do 2 f_equal. subst nd1.
  unfold reserved, set_slots, set_space_used, set_data_offset, set_header,
    set_is_overflow_pages, set_record_offset. cbn. unwrap_all. done.
Qed.

(** The node just before [StoreRecord]'s record is copied in: [x]'s sizes are
    set.  [leaf_u nd v u] is the value of the slot's union field then. *)
Definition leaf_u nd (vlen u : Z) : Z := if IsLeaf nd then vlen else u.

Lemma set_sizes_ok {A} (rest : NodeM A) nd s l1 x l2 dead i klen vlen :
  slots nd = l1 ++ x :: l2 ++ dead -> i = Z.of_nat (length l1) ->
  0 <= klen < 2 ^ 15 -> 0 <= vlen < 2 ^ 32 ->
  (on_slot i (set_key_size klen) ;;;
   let* nd := data in
   (if IsLeaf nd then on_slot i (set_slot_u vlen) else ret tt) ;;;
   rest) (nd, s) =
  rest (set_slots (l1 ++ mkSlot (record_offset x) (is_overflow_pages x) klen (is_bucket x)
                     (leaf_u nd vlen (slot_u x)) :: l2 ++ dead) nd, s).
Proof.
  intros Hs Hi Hk Hv. run_step (on_slot_ok nd s l1 x (l2 ++ dead) i (set_key_size klen) Hs Hi).
  rewrite (bind_ok _ _ _ _ _ (data_ok _ s)).
  unfold leaf_u, IsLeaf. cbn [header set_slots].
  destruct (node_type (header nd) =? kLeaf).
  - erewrite bind_ok; [|by eapply on_slot_ok; [reflexivity|exact Hi]].
    unfold set_slot_u, set_key_size. cbn. unwrap_all. done.
  - unfold set_key_size. by unwrap_all.
Qed.

Lemma hole_set_sizes ps nd l1 x l2 dead klen u :
  node_hole ps nd l1 x l2 dead -> 0 <= u < 2 ^ 32 ->
  let x' := mkSlot (record_offset x) (is_overflow_pages x) klen (is_bucket x) u in
  node_hole ps (set_slots (l1 ++ x' :: l2 ++ dead) nd) l1 x' l2 dead.
Proof.
  intros [[] Hs Hc Hused Hlive Hu] Hu'. split; try done.
  - split; try done. cbn. rewrite <- sw_slots0, Hs, !length_app. done.
  - eapply Forall_impl; [exact Hlive|]. intros y []. by split.
Qed.

(** [StoreRecord] of a record that fits inline. *)
Lemma StoreRecord_inline nd s l1 x l2 dead i k v :
  node_hole (pg_page_size s) nd l1 x l2 dead -> i = Z.of_nat (length l1) ->
  span_ok (pg_page_size s) nd k ->
  span_size k + Z.of_nat (length v) <= (pg_page_size s - 34) / 2 ->
  span_size k + Z.of_nat (length v) <= hole_room nd ->
  (IsLeaf nd = false -> v = []) ->
  let bs := span_bytes nd k ++ v in
  let nd' := stored nd l1 x l2 dead false (span_size k)
               (leaf_u nd (Z.of_nat (length v)) (slot_u x)) bs in
  StoreRecord i k v (nd, s) = Ok tt (nd', s) /\ node_wf (pg_page_size s) nd' /\
  recs nd' = (rec_of nd <$> l1) ++
    mkRec false (span_size k) (is_bucket x) (leaf_u nd (Z.of_nat (length v)) (slot_u x)) bs ::
    (rec_of nd <$> l2).
Proof.
  intros Hh Hi Hk Hin Hroom Hbr bs nd'.
  pose proof (span_bytes_length _ _ _ Hh Hk) as Hkl.
  pose proof (space_bounds _ _ Hh) as (Hr & _).
  assert (Hmax : (pg_page_size s - 34) / 2 < pg_page_size s).
  { apply Z.div_lt_upper_bound; lia. }
  assert (Hbs : Z.of_nat (length bs) = span_size k + Z.of_nat (length v)).
  { subst bs. rewrite length_app. lia. }
  destruct (stored_wf _ _ _ _ _ _ false (span_size k)
    (leaf_u nd (Z.of_nat (length v)) (slot_u x)) bs Hh) as [Hwf Hrecs].
  { lia. } { lia. } { unfold leaf_u. pose proof (nh_u _ _ _ _ _ _ Hh). destruct (IsLeaf nd); [lia|auto]. }
  { unfold sizeof_record, leaf_u. cbn. destruct (IsLeaf nd); [lia|].
    rewrite (Hbr eq_refl) in Hbs. cbn in Hbs. lia. }
  split; [|by split]. unfold StoreRecord.
  run_step (page_size_run nd s).
  rewrite (proj2 (Z.ltb_ge (pg_page_size s) _)), (proj2 (Z.ltb_ge kKeyMaxSize _)),
    (proj2 (Z.ltb_ge kValueMaxSize _)) by (unfold kKeyMaxSize, kValueMaxSize; lia).
  cbn [orb]. rewrite (set_sizes_ok _ nd s l1 x l2 dead i _ _ (nh_slots _ _ _ _ _ _ Hh) Hi) by lia.
  set (u := leaf_u nd (Z.of_nat (length v)) (slot_u x)) in *.
  set (x1 := mkSlot _ _ _ _ _). set (nd1 := set_slots _ nd).
  assert (Hh1 : node_hole (pg_page_size s) nd1 l1 x1 l2 dead).
  { apply hole_set_sizes; [done|]. subst u. unfold leaf_u. pose proof (nh_u _ _ _ _ _ _ Hh).
    destruct (IsLeaf nd); [lia|auto]. }
  run_step (MaxInline_ok nd1 s (sw_ps _ _ Hh)).
  rewrite (proj2 (Z.ltb_ge _ _) Hin).
  set (size := span_size k + Z.of_nat (length v)) in *.
  rewrite (bind_ok _ _ (nd1, s) tt (nd', s)); [apply (check_space_ok nd' s), Hwf|].
  rewrite (reserve_ok _ nd1 s l1 x1 l2 dead false size i Hh1)
    by first [exact Hi | change (hole_room nd1) with (hole_room nd); lia].
  set (nd2 := reserved _ _ _ _ _ _ _ _ _).
  set (x2 := mkSlot (data_offset (header nd1) - size) false (key_size x1) (is_bucket x1) (slot_u x1)).
  assert (Hs2 : slots nd2 = l1 ++ x2 :: (l2 ++ dead)) by done.
  assert (Hci : i < count nd2).
  { change (count nd2) with (count nd). rewrite (nh_count _ _ _ _ _ _ Hh). lia. }
  destruct (nh_space _ _ _ _ _ _ Hh) as [_ Hcnt Hlow Hus Htop _ Hpl].
  unfold hole_room in Hroom. change (count nd2) with (count nd) in Hci.
  run_step (GetRawRecordPtr_ok nd2 s l1 x2 (l2 ++ dead) i Hs2 Hi Hci).
  cbn [x2 record_offset]. change (data_offset (header nd1)) with (data_offset (header nd)).
  set (off := data_offset (header nd) - size).
  assert (Hoff : off = data_offset (header nd) - size) by done.
  assert (Hkb : span_bytes nd2 k = span_bytes nd k) by done.
  set (nd3 := set_payload (splice off (span_bytes nd k) (payload nd)) nd2).
  rewrite (bind_ok _ _ (nd2, s) tt (nd3, s)).
  2: { unfold write_key. replace (span_overlaps k off (span_size k)) with false.
       - run_step (data_ok nd2 s). rewrite Hkb.
         apply write_record_ok; change (payload nd2) with (payload nd); lia.
       - destruct k as [|o len]; [done|]. cbn in Hk |- *. symmetry.
         apply andb_false_iff. left. apply Z.ltb_ge. subst off size. cbn in *. lia. }
  assert (Hfin : forall p, payload nd' = p ->
    (set_payload p nd3, s) = (nd', s)).
  { intros p <-. f_equal. subst nd' nd3 nd2 x1 nd1 off. unfold stored, reserved, set_payload, set_slots.
    cbn. by rewrite Hbs. }
  destruct v as [|b v].
  - rewrite <- (Hfin (payload nd')) by done. unfold ret. do 2 f_equal.
    subst nd' bs nd3. unfold stored. cbn [payload set_payload]. unfold set_payload. cbn [header tail_child slots payload].
    rewrite app_nil_r. subst off size. cbn [length]. by rewrite <- Hkl, Z.add_0_r.
  - assert (Hs3 : slots nd3 = l1 ++ x2 :: (l2 ++ dead)) by done.
    run_step (GetRawRecordPtr_ok nd3 s l1 x2 (l2 ++ dead) i Hs3 Hi Hci).
    cbn [x2 record_offset]. change (data_offset (header nd1)) with (data_offset (header nd)). fold off.
    rewrite write_record_ok.
    2: { lia. }
    2: { cbn [nd3 payload set_payload]. rewrite length_splice; lia. }
    f_equal. apply Hfin. cbn [nd3 payload set_payload]. rewrite <- Hkl.
    rewrite splice_splice_next by lia. subst nd' bs. unfold stored. cbn [payload]. by rewrite Hbs.
Qed.

Lemma on_pager_ok {A} (m : M St A) nd s a s' :
  m s = Ok a s' -> on_pager m (nd, s) = Ok a (nd, s').
Proof. intros Hm. unfold on_pager, zoom. cbn. by rewrite Hm. Qed.

Lemma in_pages ps g n b :
  0 < ps -> g * ps <= b < g * ps + n * ps -> g <= b / ps < g + n.
Proof.
  intros Hps Hb. split; [apply Z.div_le_lower_bound; lia|apply Z.div_lt_upper_bound; lia].
Qed.

(** An overflow record: fresh pages that hold the key, then the value. *)
Lemma StoreOverflow_ok nd s k v :
  let ps := pg_page_size s in
  let size := span_size k + Z.of_nat (length v) in
  let n := GetPageCount ps size in
  pg_inv s -> space_wf ps nd -> span_ok ps nd k -> span_size k <= ps ->
  0 < size < 2 ^ 32 -> n <= pg_space s ->
  exists g s', StoreRecordToOverflowPages k v (nd, s) = Ok g (nd, s') /\
    pg_inv s' /\ pg_extends s s' /\ 0 <= g < 2 ^ 32 - 1 /\
    (forall q, pg_used s' q <-> pg_used s q \/ g <= q < g + n) /\
    (forall q, g <= q < g + n -> ~ pg_used s q) /\ pg_space s - n <= pg_space s' /\
    size <= n * ps /\ 0 < n /\
    mem_read (pg_mem s') (g * ps) size = span_bytes nd k ++ v.
Proof.
  intros ps size n Hinv Hsp Hk Hks Hsize Hroom.
  pose proof (space_bounds _ _ Hsp) as (Hr & _).
  pose proof (span_bytes_length _ _ _ Hsp Hk) as Hkl. fold ps in Hr, Hkl.
  destruct (GetPageCount_spec ps size (sw_ps _ _ Hsp)) as [Hn0 Hn]; [lia|]. fold n in Hn0, Hn.
  assert (Hnpos : 0 < n) by nia.
  destruct (pg_Alloc_ok s n Hinv Hnpos Hroom)
    as (g & s1 & HA & Hinv1 & Hps1 & Htx1 & Henv1 & Hfresh & Hused1 & Hsp1 & Hmem1 & Hnode1).
  assert (Hg : 0 <= g < 2 ^ 32 - 1).
  { apply (pg_used_range s1); [done|]. apply Hused1. right. lia. }
  fold ps in Hps1.
  assert (Hin1 : forall b, g * ps <= b < g * ps + size -> pg_used s1 (b / ps)).
  { intros b Hb. apply Hused1. right. apply in_pages; lia. }
  set (kb := span_bytes nd k) in *.
  destruct (pg_Write_ok s1 g 0 kb) as (s2 & HW & Hinv2 & Hps2 & Htx2 & Henv2 & Hused2 & Hsp2 & Hrd2 & Hfr2 & Hnode2).
  { done. } { rewrite Hps1. lia. } { apply Hused1. right. lia. }
  { rewrite Hps1. intros b Hb. apply Hin1. lia. }
  rewrite Hps1, Z.add_0_r in *.
  assert (Hdone : forall s3, pg_inv s3 -> pg_page_size s3 = ps -> pg_cur_txid s3 = pg_cur_txid s ->
    pg_env s3 = pg_env s ->
    (forall q, pg_used s3 q <-> pg_used s1 q) ->
    pg_space s3 = pg_space s1 ->
    (forall b, ~ (g * ps <= b < g * ps + size) -> pg_mem s3 b = pg_mem s b) ->
    (forall q, ~ (g <= q < g + n) -> pg_node s3 q = pg_node s q) ->
    mem_read (pg_mem s3) (g * ps) size = kb ++ v ->
    pg_inv s3 /\ pg_extends s s3 /\ 0 <= g < 2 ^ 32 - 1 /\
    (forall q, pg_used s3 q <-> pg_used s q \/ g <= q < g + n) /\
    (forall q, g <= q < g + n -> ~ pg_used s q) /\ pg_space s - n <= pg_space s3 /\
    size <= n * ps /\ 0 < n /\
    mem_read (pg_mem s3) (g * ps) size = kb ++ v).
  { intros s3 Hi Hp Ht He Hu Hs3 Hm Hnd Hrd. split_and!; try done; try lia.
    - split; try done.
      + intros q Hq. apply Hu, Hused1. auto.
      + intros a Ha. apply Hm. intros Hb. apply (Hfresh (a / ps)); [|done]. apply in_pages; lia.
      + intros q Hq. apply Hnd. intros Hb. by apply (Hfresh q).
    - intros q. by rewrite Hu, Hused1. }
  unfold StoreRecordToOverflowPages. run_step (page_size_run nd s).
  rewrite (bind_ok _ _ _ _ _ (on_pager_ok _ nd s g s1 HA)).
  run_step (data_ok nd s1). rewrite (bind_ok _ _ _ _ _ (on_pager_ok _ nd s1 tt s2 HW)).
  destruct v as [|b0 v].
  - exists g, s2. split; [done|]. cbn [length] in *.
    assert (size = Z.of_nat (length kb)) as E by lia.
    apply Hdone; try done; try congruence.
    + intros b Hb. rewrite Hfr2 by lia. apply Hmem1.
    + intros q Hq. rewrite Hnode2; [apply Hnode1|]. intros b Hb <-. apply Hq, in_pages; lia.
    + rewrite app_nil_r, E. done.
  - set (kc := span_size k / ps).
    pose proof (Z.div_mod (span_size k) ps ltac:(lia)) as Hdm. fold kc in Hdm.
    pose proof (Z.mod_pos_bound (span_size k) ps ltac:(lia)).
    assert (Hkc : 0 <= kc < n).
    { split; [apply Z.div_pos; lia|]. apply (Z.mul_lt_mono_pos_r ps); [lia|].
      subst size. cbn [length] in Hn. lia. }
    assert (Hgk : 0 <= g + kc < 2 ^ 32 - 1).
    { apply (pg_used_range s1); [done|]. apply Hused1. right. lia. }
    change (pg_page_size s) with ps. fold kc. unwrap_all.
    destruct (pg_Write_ok s2 (g + kc) (span_size k mod ps) (b0 :: v))
      as (s3 & HW3 & Hinv3 & Hps3 & Htx3 & Henv3 & Hused3 & Hsp3 & Hrd3 & Hfr3 & Hnode3).
    { done. } { rewrite Hps2. lia. } { apply Hused2, Hused1. right. lia. }
    { rewrite Hps2. intros b Hb. apply Hused2, Hin1. nia. }
    rewrite Hps2 in *. replace ((g + kc) * ps + span_size k mod ps)
      with (g * ps + span_size k) in * by nia.
    rewrite (bind_ok _ _ _ _ _ (on_pager_ok _ nd s2 tt s3 HW3)).
    exists g, s3. split; [done|]. apply Hdone; try done; try congruence.
    + intros q. by rewrite Hused3.
    + intros b Hb. rewrite Hfr3, Hfr2 by lia. apply Hmem1.
    + intros q Hq. rewrite Hnode3, Hnode2; [apply Hnode1|..]; intros b Hb <-; apply Hq, in_pages; lia.
    + subst size. rewrite mem_read_app by lia. rewrite Hrd3. f_equal.
      rewrite <- Hkl. rewrite <- Hrd2 at 2. apply mem_read_ext.
      intros b Hb. apply Hfr3. lia.
Qed.

(** [StoreRecord] of a record too large to be inline: the slot's record is
    the id of the first of the pages that hold it. *)
Lemma StoreRecord_overflow nd s l1 x l2 dead i k v :
  let ps := pg_page_size s in
  let size := span_size k + Z.of_nat (length v) in
  let n := GetPageCount ps size in
  node_hole ps nd l1 x l2 dead -> i = Z.of_nat (length l1) -> pg_inv s ->
  span_ok ps nd k -> span_size k <= ps -> (ps - 34) / 2 < size < 2 ^ 32 ->
  4 <= hole_room nd -> n <= pg_space s ->
  exists g s',
    let u := leaf_u nd (Z.of_nat (length v)) (slot_u x) in
    let nd' := stored nd l1 x l2 dead true (span_size k) u (le_bytes 4 g) in
    StoreRecord i k v (nd, s) = Ok tt (nd', s') /\
    pg_inv s' /\ pg_extends s s' /\ 0 <= g < 2 ^ 32 - 1 /\
    (forall q, pg_used s' q <-> pg_used s q \/ g <= q < g + n) /\
    (forall q, g <= q < g + n -> ~ pg_used s q) /\ pg_space s - n <= pg_space s' /\
    size <= n * ps /\ 0 < n /\
    mem_read (pg_mem s') (g * ps) size = span_bytes nd k ++ v /\
    node_wf ps nd' /\
    recs nd' = (rec_of nd <$> l1) ++
      mkRec true (span_size k) (is_bucket x) u (le_bytes 4 g) :: (rec_of nd <$> l2).
Proof.
  intros ps size n Hh Hi Hinv Hk Hks Hsz Hroom Hpr.
  pose proof (span_bytes_length _ _ _ Hh Hk) as Hkl.
  pose proof (space_bounds _ _ Hh) as (Hr & _). fold ps in Hr.
  assert (Hmid : 0 <= (ps - 34) / 2) by (apply Z.div_pos; lia).
  set (u := leaf_u nd (Z.of_nat (length v)) (slot_u x)).
  assert (Hu : 0 <= u < 2 ^ 32).
  { subst u. unfold leaf_u. pose proof (nh_u _ _ _ _ _ _ Hh). destruct (IsLeaf nd); [lia|auto]. }
  set (x1 := mkSlot (record_offset x) (is_overflow_pages x) (span_size k) (is_bucket x) u).
  set (nd1 := set_slots (l1 ++ x1 :: l2 ++ dead) nd).
  assert (Hh1 : node_hole ps nd1 l1 x1 l2 dead) by (by apply hole_set_sizes).
  destruct (StoreOverflow_ok nd1 s k v) as (g & s' & Hrun & Hinv' & Hext & Hg & Hused & Hfresh & Hspace & Hn & Hn0 & Hmem);
    try done; [apply Hh1|by fold size; lia|].
  fold ps size n in Hused, Hfresh, Hn, Hn0, Hmem.
  exists g, s'. cbv zeta. fold u.
  assert (Hlb : Z.of_nat (length (le_bytes 4 g)) = 4) by (by rewrite length_le_bytes).
  destruct (stored_wf _ _ _ _ _ _ true (span_size k) u (le_bytes 4 g) Hh) as [Hwf Hrecs];
    [by rewrite Hlb|lia|done|by rewrite Hlb|].
  split_and!; try done; try lia.
  unfold StoreRecord. run_step (page_size_run nd s). fold ps.
  rewrite (proj2 (Z.ltb_ge ps _)), (proj2 (Z.ltb_ge kKeyMaxSize _)),
    (proj2 (Z.ltb_ge kValueMaxSize _)) by (unfold kKeyMaxSize, kValueMaxSize; lia).
  cbn [orb]. rewrite (set_sizes_ok _ nd s l1 x l2 dead i _ _ (nh_slots _ _ _ _ _ _ Hh) Hi) by lia.
  fold u x1 nd1. run_step (MaxInline_ok nd1 s (sw_ps _ _ Hh)). fold ps size.
  rewrite (proj2 (Z.ltb_lt _ size)) by lia.
  set (nd' := stored _ _ _ _ _ _ _ _ _) in *.
  rewrite (bind_ok _ _ (nd1, s) tt (nd', s')).
  { apply (check_space_ok nd' s'). rewrite (pe_ps _ _ Hext). apply Hwf. }
  run_step Hrun. unfold sizeof_OverflowRecord.
  assert (Hh1' : node_hole (pg_page_size s') nd1 l1 x1 l2 dead) by (by rewrite (pe_ps _ _ Hext)).
  rewrite (reserve_ok _ nd1 s' l1 x1 l2 dead true 4 i Hh1')
    by first [exact Hi | change (hole_room nd1) with (hole_room nd); lia].
  set (nd2 := reserved _ _ _ _ _ _ _ _ _).
  set (x2 := mkSlot (data_offset (header nd1) - 4) true (key_size x1) (is_bucket x1) (slot_u x1)).
  assert (Hs2 : slots nd2 = l1 ++ x2 :: (l2 ++ dead)) by done.
  assert (Hci : i < count nd2).
  { change (count nd2) with (count nd). rewrite (nh_count _ _ _ _ _ _ Hh). lia. }
  run_step (GetRawRecordPtr_ok nd2 s' l1 x2 (l2 ++ dead) i Hs2 Hi Hci).
  destruct (nh_space _ _ _ _ _ _ Hh) as [_ Hcnt Hlow Hus Htop _ Hpl]. unfold hole_room in Hroom.
  cbn [x2 record_offset]. change (data_offset (header nd1)) with (data_offset (header nd)).
  rewrite write_record_ok by (try change (payload nd2) with (payload nd); lia).
  subst nd'. unfold stored. rewrite Hlb. reflexivity.
Qed.

Lemma StoreRecord_too_large nd s i k v :
  pg_page_size s < span_size k ->
  StoreRecord i k v (nd, s) = Throw (InvalidArgument "Key size exceeds the limit.") (nd, s).
Proof.
  intros Hk. unfold StoreRecord. run_step (page_size_run nd s).
  by rewrite (proj2 (Z.ltb_lt _ _) Hk).
Qed.
End store.
