(* ===== verification/NodeSpec.v ===== *)
(** What a leaf promises ([LeafNode] of [src/node.cpp]): a leaf is the list of
    its entries, and each operation is the list operation its name says, on
    every branch: enough room or not, inline or overflow record. *)
From S2P Require Import Prelude Format Comparator State Memory PagerI Node NodeWf.

(** ** Contents *)
Definition rec_total (leaf : bool) (r : Rec) : Z := r_key r + (if leaf then r_u r else 0).

(** The bytes of a record: in the page, or in the overflow pages. *)
Definition rec_content (m : Z -> byte) (ps : Z) (leaf : bool) (r : Rec) : list byte :=
  if r_overflow r then mem_read m (le_value (r_bytes r) * ps) (rec_total leaf r)
  else r_bytes r.

Record entry := mkEntry { e_key : list byte; e_value : list byte; e_bucket : bool }.

Definition rec_entry (m : Z -> byte) (ps : Z) (r : Rec) : entry :=
  let c := rec_content m ps true r in
  mkEntry (take (Z.to_nat (r_key r)) c) (drop (Z.to_nat (r_key r)) c) (r_bucket r).

Section leaf.
Context {St : Type} `{PagerLaws St}.
Implicit Types (nd : NodeData) (s : St).

(** The records too large for the page, and no others, are in overflow pages,
    and these are in use. *)
Definition rec_live (leaf : bool) s (r : Rec) : Prop :=
  r_overflow r = ((pg_page_size s - 34) / 2 <? rec_total leaf r) /\
  (r_overflow r = true ->
   let g := le_value (r_bytes r) in
   pg_used s g /\
   forall b, g * pg_page_size s <= b < g * pg_page_size s + rec_total leaf r ->
     pg_used s (b / pg_page_size s)).

Record node_ok s nd : Prop := {
  no_wf :> node_wf (pg_page_size s) nd;
  no_live : Forall (rec_live (IsLeaf nd) s) (recs nd);
}.
Record leaf_ok s nd : Prop := {
  lo_node :> node_ok s nd;
  lo_leaf : IsLeaf nd = true;
}.

(** The node's type and the mark of its transaction are kept. *)
Definition same_mark nd nd' : Prop :=
  last_modified_txid (header nd') = last_modified_txid (header nd) /\ node_type (header nd') = node_type (header nd).

Definition entries s nd : list entry :=
  rec_entry (pg_mem s) (pg_page_size s) <$> recs nd.

(** ** Frame: later pager states keep the contents *)
Lemma rec_live_extends leaf s s' r :
  pg_extends s s' -> rec_live leaf s r -> rec_live leaf s' r.
Proof.
  intros [Hps _ _ Hu _ _] [Ho Hr]. split; [by rewrite Hps|]. intros E. destruct (Hr E) as [Hg Hb].
  rewrite Hps. auto.
Qed.

Lemma rec_content_extends leaf s s' r :
  pg_extends s s' -> rec_live leaf s r ->
  rec_content (pg_mem s') (pg_page_size s') leaf r = rec_content (pg_mem s) (pg_page_size s) leaf r.
Proof.
  intros [Hps _ _ _ Hm _] [_ Hr]. unfold rec_content. destruct (r_overflow r) eqn:E; [|done].
  rewrite Hps. apply mem_read_ext. intros b Hb. apply Hm. by apply Hr.
Qed.

Lemma entries_extends s s' l :
  pg_extends s s' -> Forall (rec_live true s) l ->
  rec_entry (pg_mem s') (pg_page_size s') <$> l = rec_entry (pg_mem s) (pg_page_size s) <$> l.
Proof.
  intros Hext Hl. apply list_fmap_ext. intros i r Hr. unfold rec_entry.
  rewrite (rec_content_extends true s s') by (done || exact (Forall_lookup_1 _ _ _ _ Hl Hr)).
  done.
Qed.

Lemma compacted_entries s nd nd' : compacted nd nd' -> entries s nd' = entries s nd.
Proof. intros []. unfold entries. by rewrite cp_recs. Qed.

Lemma compacted_leaf nd nd' : compacted nd nd' -> IsLeaf nd' = IsLeaf nd.
Proof. intros []. unfold IsLeaf. by rewrite cp_type. Qed.

Lemma length_recs s nd : node_ok s nd -> Z.of_nat (length (recs nd)) = count nd.
Proof.
  intros Hok. destruct (slots_split _ _ Hok) as (_ & _ & Hl & _).
  unfold recs. by rewrite length_fmap.
Qed.

(** ** Reading *)
Lemma live_split s nd i r :
  node_ok s nd -> recs nd !! i = Some r ->
  exists l1 x l2 dead, slots nd = l1 ++ x :: l2 ++ dead /\ live_slots nd = l1 ++ x :: l2 /\
    i = length l1 /\ r = rec_of nd x /\ slot_ok (pg_page_size s) nd x /\
    count nd = Z.of_nat (length l1 + S (length l2)).
Proof.
  intros Hok Hi. destruct (slots_split _ _ Hok) as (dead & Hs & Hl & _).
  unfold recs in Hi. apply list_lookup_fmap_Some in Hi as (x & -> & Hx).
  pose proof (Forall_lookup_1 _ _ _ _ (nw_live _ _ Hok) Hx) as Hxok.
  pose proof (length_take_le (live_slots nd) i) as Hlt.
  apply lookup_lt_Some in Hx as Hlt'.
  exists (take i (live_slots nd)), x, (drop (S i) (live_slots nd)), dead.
  pose proof (take_drop_middle _ _ _ Hx) as Hmid. split_and!; try done.
  - rewrite Hs at 1. rewrite <- Hmid at 1. by rewrite <- app_assoc.
  - rewrite length_take. lia.
  - rewrite length_take, length_drop. lia.
Qed.

Lemma record_span_ok s nd i r off len :
  node_ok s nd -> pg_inv s -> recs nd !! i = Some r ->
  0 <= off -> 0 <= len -> off + len <= rec_total (IsLeaf nd) r ->
  exists k, record_span (Z.of_nat i) off len (nd, s) = Ok k (nd, s) /\
    span_size k = len /\ span_ok (pg_page_size s) nd k /\
    load_span k (nd, s) =
      Ok (slice off len (rec_content (pg_mem s) (pg_page_size s) (IsLeaf nd) r)) (nd, s).
Proof.
  intros Hok Hinv Hi Ho Hlen Htot.
  pose proof (Forall_lookup_1 _ _ _ _ (no_live _ _ Hok) Hi) as Hlive.
  destruct (live_split _ _ _ _ Hok Hi) as (l1 & x & l2 & dead & Hs & _ & -> & -> & Hx & Hc).
  pose proof (space_bounds _ _ Hok) as (Hr & _). pose proof (sw_low _ _ Hok).
  pose proof (sw_count _ _ Hok). pose proof (sw_payload _ _ Hok) as Hpl.
  pose proof (slot_offset_range _ _ _ Hok Hx) as Hro.
  unfold record_span.
  run_step (GetRawRecordPtr_ok nd s l1 x (l2 ++ dead) _ Hs eq_refl ltac:(lia)).
  run_step (get_slot_ok nd s l1 x (l2 ++ dead) _ Hs eq_refl).
  unfold rec_of, rec_total in *. cbn [r_overflow r_key r_u r_bytes] in *.
  unfold rec_content. cbn [r_overflow r_bytes].
  destruct Hx as [_ _ Hlow Hhigh]. unfold sizeof_record in Hhigh |- *.
  destruct (is_overflow_pages x) eqn:E; cbn [negb].
  - unfold sizeof_OverflowRecord in *. rewrite (bind_ok _ _ _ _ _ (read_record_ok nd s (record_offset x) 4 ltac:(lia) ltac:(lia))).
    destruct (proj2 Hlive eq_refl) as [Hg Hb]. unfold sizeof_record in Hg, Hb. rewrite E in Hg, Hb.
    cbn [r_bytes] in Hg, Hb. unfold sizeof_OverflowRecord, rec_total in Hg, Hb. cbn [r_key r_u] in Hb.
    set (g := le_value _) in *.
    assert (Hrd : pg_read g (off + len) s = Ok (mem_read (pg_mem s) (g * pg_page_size s) (off + len)) s).
    { apply pg_read_ok; try done; [lia|]. intros b Hb'. apply Hb. lia. }
    rewrite (bind_ok _ _ _ _ _ (on_pager_ok _ nd s _ s Hrd)).
    eexists. split; [done|]. cbn [span_size span_ok load_span]. split_and!; [|done|].
    + rewrite length_slice; rewrite ?length_mem_read; lia.
    + unfold ret. f_equal. unfold rec_total. cbn [r_key r_u].
      set (tot := key_size x + _) in *. replace tot with (off + len + (tot - (off + len))) by lia.
      rewrite (mem_read_app _ _ (off + len)) by lia.
      unfold slice. rewrite drop_app_le by (rewrite length_mem_read; lia).
      rewrite take_app_le; [done|]. rewrite length_drop, length_mem_read. lia.
  - eexists. split; [done|]. cbn [span_size span_ok load_span]. split_and!; [done|lia|lia|lia|].
    rewrite read_record_ok by lia. f_equal. rewrite slice_slice_sub by lia. done.
Qed.

Lemma rec_content_length s nd i r :
  node_ok s nd -> recs nd !! i = Some r -> 0 <= r_key r /\ 0 <= r_u r /\
  Z.of_nat (length (rec_content (pg_mem s) (pg_page_size s) (IsLeaf nd) r)) = rec_total (IsLeaf nd) r.
Proof.
  intros Hok Hi.
  destruct (live_split _ _ _ _ Hok Hi) as (l1 & x & l2 & dead & Hs & _ & -> & -> & Hx & Hc).
  pose proof (sizeof_record_nonneg _ _ _ Hx) as Hnn.
  pose proof (slot_offset_range _ _ _ Hok Hx). pose proof (sw_payload _ _ Hok).
  destruct Hx as [Hk Hu Hlow Hhigh]. unfold rec_content, rec_of, rec_total.
  cbn [r_overflow r_key r_u r_bytes]. split_and!; try lia.
  destruct (is_overflow_pages x) eqn:E.
  - rewrite length_mem_read. destruct (IsLeaf nd); lia.
  - rewrite length_slice by lia. unfold sizeof_record in *. rewrite E in *. lia.
Qed.

Lemma get_live_slot s nd i r :
  node_ok s nd -> recs nd !! i = Some r ->
  exists x, get_slot (Z.of_nat i) (nd, s) = Ok x (nd, s) /\ r = rec_of nd x /\
    Z.of_nat i < count nd.
Proof.
  intros Hok Hi.
  destruct (live_split _ _ _ _ Hok Hi) as (l1 & x & l2 & dead & Hs & _ & -> & -> & _ & Hc).
  exists x. split_and!; [|done|lia]. by eapply get_slot_ok.
Qed.

Lemma key_at_ok s nd i r :
  node_ok s nd -> pg_inv s -> recs nd !! i = Some r ->
  key_at (Z.of_nat i) (nd, s) =
    Ok (take (Z.to_nat (r_key r)) (rec_content (pg_mem s) (pg_page_size s) (IsLeaf nd) r)) (nd, s).
Proof.
  intros Hok Hinv Hi. destruct (rec_content_length _ _ _ _ Hok Hi) as (Hk & Hu & _).
  destruct (get_live_slot _ _ _ _ Hok Hi) as (x & Hx & Er & Hlt).
  destruct (record_span_ok s nd i r 0 (r_key r) Hok Hinv Hi) as (k & Hrun & _ & _ & Hload);
    [lia|lia|unfold rec_total; destruct (IsLeaf nd); lia|].
  unfold key_at, GetKey, bind at 1 2. cbn.
  rewrite (proj2 (Z.ltb_lt _ _) Hlt). cbn. run_step Hx. rewrite Er in Hrun at 1. cbn in Hrun.
  rewrite Hrun. exact Hload.
Qed.

Lemma value_at_ok s nd i r :
  leaf_ok s nd -> pg_inv s -> recs nd !! i = Some r ->
  value_at (Z.of_nat i) (nd, s) =
    Ok (drop (Z.to_nat (r_key r)) (rec_content (pg_mem s) (pg_page_size s) true r)) (nd, s).
Proof.
  intros [Hok Hleaf] Hinv Hi. destruct (rec_content_length _ _ _ _ Hok Hi) as (Hk & Hu & Hlen).
  destruct (get_live_slot _ _ _ _ Hok Hi) as (x & Hx & Er & Hlt).
  unfold rec_total in Hlen. rewrite Hleaf in *.
  destruct (record_span_ok s nd i r (r_key r) (r_u r) Hok Hinv Hi) as (k & Hrun & _ & _ & Hload);
    [lia|lia|unfold rec_total; rewrite Hleaf; lia|].
  unfold value_at, GetValue, bind at 1 2. cbn.
  rewrite (proj2 (Z.ltb_lt _ _) Hlt). cbn. run_step Hx. rewrite Er in Hrun at 1 2. cbn in Hrun.
  rewrite Hrun, Hload, Hleaf. f_equal. unfold slice. rewrite take_ge; [done|].
  rewrite length_drop. lia.
Qed.

(** ** Storing a record, inline or in overflow pages *)
Record holds leaf s (k v : list byte) (r : Rec) : Prop := {
  hd_key : r_key r = Z.of_nat (length k);
  hd_u : leaf = true -> r_u r = Z.of_nat (length v);
  hd_live : rec_live leaf s r;
  hd_content : rec_content (pg_mem s) (pg_page_size s) leaf r = k ++ v;
}.

(** The pages a record of [size] bytes takes, and an address for each. *)
Definition store_pages (ps size : Z) : Z := if (ps - 34) / 2 <? size then GetPageCount ps size else 0.
Definition store_room s (size : Z) : Prop :=
  (pg_page_size s - 34) / 2 < size ->
  size < 2 ^ 32 /\ store_pages (pg_page_size s) size <= pg_space s.

(** The pages a record occupies besides its node's. *)
Definition rec_page (ps : Z) (leaf : bool) (r : Rec) (q : Z) : Prop :=
  r_overflow r = true /\
  exists b, le_value (r_bytes r) * ps <= b < le_value (r_bytes r) * ps + rec_total leaf r /\ q = b / ps.

(** A record just stored: its content, in pages that were not in use. *)
Record new_record leaf s s' (k v : list byte) (r : Rec) : Prop := {
  nr_holds :> holds leaf s' k v r;
  nr_fresh q : rec_page (pg_page_size s) leaf r q -> ~ pg_used s q;
  nr_space : pg_space s - store_pages (pg_page_size s) (Z.of_nat (length k + length v)) <= pg_space s';
}.

Lemma StoreRecord_ok nd s l1 x l2 dead i k v :
  node_hole (pg_page_size s) nd l1 x l2 dead -> i = Z.of_nat (length l1) -> pg_inv s ->
  span_ok (pg_page_size s) nd k -> span_size k <= pg_page_size s ->
  (IsLeaf nd = false -> v = []) ->
  store_room s (span_size k + Z.of_nat (length v)) ->
  record_need (pg_page_size s) (span_size k + Z.of_nat (length v)) false <= hole_room nd ->
  exists nd' s' r, StoreRecord i k v (nd, s) = Ok tt (nd', s') /\
    pg_inv s' /\ pg_extends s s' /\ node_wf (pg_page_size s) nd' /\
    recs nd' = (rec_of nd <$> l1) ++ r :: (rec_of nd <$> l2) /\
    new_record (IsLeaf nd) s s' (span_bytes nd k) v r /\ r_bucket r = is_bucket x /\
    (IsLeaf nd = false -> r_u r = slot_u x) /\
    node_type (header nd') = node_type (header nd) /\
    last_modified_txid (header nd') = last_modified_txid (header nd) /\
    tail_child nd' = tail_child nd.
Proof.
  intros Hh Hi Hinv Hk Hks Hbr Hroom Hneed. unfold record_need in Hneed.
  set (size := span_size k + Z.of_nat (length v)) in *.
  pose proof (span_bytes_length _ _ _ Hh Hk) as Hkl.
  assert (Htot : forall o bs, rec_total (IsLeaf nd) (mkRec o (span_size k) (is_bucket x)
    (leaf_u nd (Z.of_nat (length v)) (slot_u x)) bs) = size).
  { intros o bs. unfold rec_total, leaf_u, size. cbn. destruct (IsLeaf nd); [done|]. by rewrite Hbr. }
  destruct (Z.ltb_spec ((pg_page_size s - 34) / 2) size) as [Hbig|Hsmall].
  - destruct (Hroom Hbig) as [Hlim Hpr]. assert (Hpages : store_pages (pg_page_size s) size = GetPageCount (pg_page_size s) size).
    { unfold store_pages. by rewrite (proj2 (Z.ltb_lt _ _) Hbig). }
    rewrite Hpages in Hpr.
    destruct (StoreRecord_overflow nd s l1 x l2 dead i k v Hh Hi Hinv Hk Hks (conj Hbig Hlim))
      as (g & s' & Hrun & Hinv' & Hext & Hg & Hused & Hfresh & Hspace & Hn & Hn0 & Hmem & Hwf & Hrecs);
      [lia|done|].
    fold size in Hused, Hfresh, Hspace, Hn, Hn0, Hmem.
    assert (Hv : le_value (le_bytes 4 g) = g) by (apply le_value_bytes; change (256 ^ Z.of_nat 4) with (2 ^ 32); lia).
    pose proof (Htot true (le_bytes 4 g)) as Htot'.
    pose proof (space_bounds _ _ Hh) as (Hr & _).
    eexists _, s', _. split_and!; try done; [|cbn; unfold leaf_u; by intros ->].
    assert (Hsz : Z.of_nat (length (span_bytes nd k) + length v) = size) by (subst size; lia).
    split; [|intros q (_ & b & Hb & ->); cbn [r_bytes] in Hb; rewrite Hv, Htot' in Hb; apply Hfresh, in_pages; lia
            |by rewrite Hsz, Hpages].
    split; [by cbn|cbn; unfold leaf_u; by intros ->| |].
    + unfold rec_live. rewrite (pe_ps _ _ Hext). split; [by rewrite Htot', (proj2 (Z.ltb_lt _ _) Hbig)|].
      intros _. cbn [r_bytes]. rewrite Hv, Htot'. split; [apply Hused; lia|].
      intros b Hb. apply Hused. right. apply in_pages; lia.
    + unfold rec_content. rewrite Htot'. cbn [r_overflow r_bytes]. by rewrite Hv, (pe_ps _ _ Hext).
  - destruct (StoreRecord_inline nd s l1 x l2 dead i k v Hh Hi Hk Hsmall) as (Hrun & Hwf & Hrecs);
      [lia|done|].
    eexists _, s, _. split_and!; try done; [|cbn; unfold leaf_u; by intros ->].
    split; [split; [by cbn|cbn; unfold leaf_u; by intros ->| |done]|by intros q [? _]|].
    { split; [|done]. by rewrite Htot, (proj2 (Z.ltb_ge _ _) Hsmall). }
    unfold store_pages. rewrite (proj2 (Z.ltb_ge _ _)); [lia|]. subst size. lia.
Qed.

(** ** Making a hole for a new slot *)
Lemma insert_split ps nd (i : nat) :
  node_wf ps nd -> Z.of_nat i <= count nd -> 18 + 8 * (count nd + 1) <= data_offset (header nd) ->
  exists l1 l2 y dead, slots nd = l1 ++ l2 ++ y :: dead /\ live_slots nd = l1 ++ l2 /\
    i = length l1 /\ count nd = Z.of_nat i + Z.of_nat (length l2).
Proof.
  intros Hwf Hi Hroom. destruct (slots_split _ _ Hwf) as (dead & Hs & Hl & Hd).
  pose proof (sw_top _ _ Hwf). pose proof (sw_used _ _ Hwf).
  destruct dead as [|y dead].
  { exfalso. cbn in Hd. assert (count nd + 1 <= (ps - 18) / 8); [|lia].
    apply Z.div_le_lower_bound; lia. }
  exists (take i (live_slots nd)), (drop i (live_slots nd)), y, dead.
  rewrite app_assoc, take_drop, length_take, length_drop. split_and!; try done; lia.
Qed.

Lemma insert_hole ps nd l1 l2 y dead x :
  node_wf ps nd -> slots nd = l1 ++ l2 ++ y :: dead -> live_slots nd = l1 ++ l2 ->
  count nd = Z.of_nat (length l1) + Z.of_nat (length l2) ->
  18 + 8 * (count nd + 1) <= data_offset (header nd) ->
  (IsLeaf nd = false -> 0 <= slot_u x < 2 ^ 32) ->
  node_hole ps (set_hcount (count nd + 1) (set_slots (l1 ++ x :: l2 ++ dead) nd)) l1 x l2 dead.
Proof.
  intros Hwf Hs Hl Hc Hroom Hu. pose proof (space_bounds _ _ Hwf) as (Hr & _).
  destruct Hwf as [[Hps Hc0 Hlow Hus Htop Hsl Hpl] Hused Hlive]. rewrite Hl in Hused, Hlive.
  assert (Hcnt : count (set_hcount (count nd + 1) (set_slots (l1 ++ x :: l2 ++ dead) nd)) = count nd + 1).
  { unfold count at 1. cbn. apply u14_small. lia. }
  split; [split| | | | |]; rewrite ?Hcnt; cbn; try done; try lia.
  - rewrite <- Hsl, Hs, !length_app. cbn. rewrite !length_app. cbn. lia.
  - eapply Forall_impl; [exact Hlive|]. intros z []. by split.
Qed.

Lemma fmap_mid nd l1 l2 r :
  live_slots nd = l1 ++ l2 ->
  (rec_of nd <$> l1) ++ r :: (rec_of nd <$> l2) =
  take (length l1) (recs nd) ++ r :: drop (length l1) (recs nd).
Proof.
  intros Hl. unfold recs. rewrite Hl, fmap_app.
  rewrite take_app_length', drop_app_length' by (by rewrite length_fmap). done.
Qed.

(** ** Insert *)
Lemma Leaf_Insert_recs nd s (i : nat) k v :
  leaf_ok s nd -> pg_inv s -> Z.of_nat i <= count nd ->
  Z.of_nat (length k) <= pg_page_size s -> store_room s (Z.of_nat (length k + length v)) ->
  let need := record_need (pg_page_size s) (Z.of_nat (length k + length v)) true in
  let ok := need <=? pg_page_size s - (18 + 8 * count nd) - space_used (header nd) in
  exists nd' s', Leaf_Insert (Z.of_nat i) (Ext k) v (nd, s) = Ok ok (nd', s') /\
    leaf_ok s' nd' /\ pg_inv s' /\ pg_extends s s' /\
    last_modified_txid (header nd') = last_modified_txid (header nd) /\
    if ok then exists r, recs nd' = take i (recs nd) ++ r :: drop i (recs nd) /\ new_record true s s' k v r
    else nd' = nd /\ s' = s.
Proof.
  intros [Hok Hleaf] Hinv Hi Hk Hroom need ok.
  unfold Leaf_Insert. run_step (data_ok nd s). rewrite bind_assert by (by apply Z.leb_le).
  destruct (RequestSpaceFor_ok nd s (Z.of_nat (length k)) (Z.of_nat (length v)) true Hok)
    as (nd1 & Hrun & Hwf1 & Hcp & _ & Hres).
  rewrite <- Nat2Z.inj_add in Hrun, Hres. fold need ok in Hrun, Hres.
  cbn [span_size]. run_step Hrun. destruct ok eqn:Eok; cbn [negb].
  2: { subst nd1. exists nd, s. split_and!; done. }
  run_step (data_ok nd1 s). pose proof (cp_count _ _ Hcp) as Hc1.
  assert (Hn : 8 + record_need (pg_page_size s) (Z.of_nat (length k + length v)) false = need).
  { subst need. unfold record_need. lia. }
  assert (Hnn : 0 <= record_need (pg_page_size s) (Z.of_nat (length k + length v)) false).
  { unfold record_need. destruct (_ <? _); lia. }
  destruct (insert_split _ nd1 i Hwf1) as (l1 & l2 & y & dead & Hs & Hl & -> & Hc); [lia..|].
  destruct (move_slots_up nd1 s l1 l2 y dead (count nd1) _ Hs eq_refl Hc) as (x & _ & Hmv).
  run_step Hmv. unfold on_data at 1, modify at 1, bind at 1. cbn [fst snd].
  change (count (set_slots (l1 ++ x :: l2 ++ dead) nd1)) with (count nd1).
  set (nd2 := set_hcount _ _).
  assert (Hleaf1 : IsLeaf nd2 = true).
  { change (IsLeaf nd2) with (IsLeaf nd1). by rewrite (compacted_leaf _ _ Hcp). }
  assert (Hh : node_hole (pg_page_size s) nd2 l1 x l2 dead).
  { apply (insert_hole _ _ _ _ y); try done; [lia|].
    change (IsLeaf nd1) with (IsLeaf nd2). by rewrite Hleaf1. }
  assert (Hcnt2 : count nd2 = count nd1 + 1).
  { rewrite (nh_count _ _ _ _ _ _ Hh). lia. }
  destruct (StoreRecord_ok nd2 s l1 x l2 dead _ (Ext k) v Hh eq_refl Hinv)
    as (nd3 & s' & r & Hst & Hinv' & Hext & Hwf3 & Hrecs & Hhold & _ & _ & Hty & Htx & _); try done.
  { by rewrite Hleaf1. }
  { cbn [span_size]. by rewrite <- Nat2Z.inj_add. }
  { cbn [span_size]. rewrite <- Nat2Z.inj_add. unfold hole_room.
    change (data_offset (header nd2)) with (data_offset (header nd1)). lia. }
  run_step Hst. rewrite Hleaf1 in Hhold. cbn [span_bytes] in Hhold.
  change (rec_of nd2) with (rec_of nd1) in Hrecs. rewrite (fmap_mid _ _ _ _ Hl), (cp_recs _ _ Hcp) in Hrecs.
  assert (Hl3 : IsLeaf nd3 = true) by (unfold IsLeaf in *; by rewrite Hty).
  exists nd3, s'. split_and!; try done.
  - split; [|done]. split; [by rewrite (pe_ps _ _ Hext)|]. rewrite Hrecs, Hl3.
    pose proof (no_live _ _ Hok) as Hlv. rewrite Hleaf in Hlv.
    assert (Hlv' : Forall (rec_live true s') (recs nd)).
    { eapply Forall_impl; [exact Hlv|]. intros z. by apply rec_live_extends. }
    rewrite <- (take_drop (length l1) (recs nd)) in Hlv'. apply Forall_app in Hlv' as [??].
    apply Forall_app. split; [done|]. constructor; [apply Hhold|done].
  - rewrite Htx. exact (cp_txid _ _ Hcp).
  - eauto.
Qed.

(** ** Delete *)
Lemma remove_wf ps nd l1 x l2 y dead :
  node_wf ps nd -> slots nd = l1 ++ x :: l2 ++ dead -> live_slots nd = l1 ++ x :: l2 ->
  count nd = Z.of_nat (length l1 + S (length l2)) ->
  let nd' := set_hcount (count nd - 1) (set_slots (l1 ++ l2 ++ y :: dead)
               (set_space_used (space_used (header nd) - sizeof_record nd x) nd)) in
  node_wf ps nd' /\ recs nd' = (rec_of nd <$> l1) ++ (rec_of nd <$> l2).
Proof.
  intros Hwf Hs Hl Hc nd'. pose proof (space_bounds _ _ Hwf) as (Hr & _).
  destruct Hwf as [[Hps Hc0 Hlow Hus Htop Hsl Hpl] Hused Hlive]. rewrite Hl in Hused, Hlive.
  rewrite sizes_app, sizes_cons in Hused.
  apply Forall_app in Hlive as [H1 Hl2]. apply Forall_cons in Hl2 as [Hx H2].
  pose proof (sizes_nonneg _ _ _ H1). pose proof (sizes_nonneg _ _ _ H2).
  pose proof (sizeof_record_nonneg _ _ _ Hx).
  assert (Hcnt : count nd' = count nd - 1) by (unfold count at 1; cbn; apply u14_small; lia).
  assert (Hsu : space_used (header nd') = space_used (header nd) - sizeof_record nd x).
  { cbn. apply u16_small. lia. }
  assert (Hlv : live_slots nd' = l1 ++ l2).
  { apply (live_slots_eq nd' _ (y :: dead)); [cbn; by rewrite app_assoc|].
    rewrite Hcnt, length_app. lia. }
  assert (Hd : data_offset (header nd') = data_offset (header nd)) by done.
  split; [split|].
  - split; rewrite ?Hcnt, ?Hsu, ?Hd; try done; try lia.
    cbn. rewrite <- Hsl, Hs, !length_app. cbn. rewrite !length_app. cbn. lia.
  - rewrite Hlv, Hsu, sizes_app, !(sizes_ext nd nd') by done. lia.
  - rewrite Hlv. apply Forall_app.
    split; (eapply Forall_impl; [eassumption|]; intros z []; by split).
  - unfold recs. by rewrite Hlv, fmap_app.
Qed.

Lemma fmap_del nd l1 x l2 :
  live_slots nd = l1 ++ x :: l2 ->
  (rec_of nd <$> l1) ++ (rec_of nd <$> l2) =
  take (length l1) (recs nd) ++ drop (S (length l1)) (recs nd).
Proof.
  intros Hl. unfold recs. rewrite Hl, fmap_app. cbn [fmap list_fmap].
  rewrite take_app_length' by (by rewrite length_fmap).
  rewrite drop_app_ge by (rewrite length_fmap; lia). rewrite length_fmap.
  by replace (S (length l1) - length l1)%nat with 1%nat by lia.
Qed.

Lemma set_on_data nd s f : on_data f (nd, s) = Ok tt (f nd, s).
Proof. done. Qed.

Lemma overflow_page s nd l1 x l2 dead :
  node_ok s nd -> pg_inv s -> slots nd = l1 ++ x :: l2 ++ dead -> live_slots nd = l1 ++ x :: l2 ->
  is_overflow_pages x = true ->
  0 <= record_offset x /\ record_offset x + 4 <= Z.of_nat (length (payload nd)) /\
  0 <= le_value (slice (record_offset x) 4 (payload nd)) < 2 ^ 32 - 1.
Proof.
  intros Hok Hinv Hs Hl E.
  assert (Hi : live_slots nd !! length l1 = Some x) by (rewrite Hl; apply list_lookup_middle; done).
  pose proof (Forall_lookup_1 _ _ _ _ (nw_live _ _ Hok) Hi) as Hx.
  pose proof (slot_offset_range _ _ _ Hok Hx). pose proof (sw_payload _ _ Hok) as Hpl.
  assert (Hr : recs nd !! length l1 = Some (rec_of nd x)).
  { unfold recs. by rewrite list_lookup_fmap, Hi. }
  pose proof (Forall_lookup_1 _ _ _ _ (no_live _ _ Hok) Hr) as Hlv.
  destruct (proj2 Hlv E) as [Hg _]. destruct Hx as [_ _ _ Hhi]. cbn [rec_of r_bytes] in Hg.
  unfold sizeof_record in Hg, Hhi. rewrite E in Hg, Hhi. unfold sizeof_OverflowRecord in Hg, Hhi.
  split_and!; try lia; apply (pg_used_range s _ Hinv Hg).
Qed.

Lemma pg_Free_extends s g n :
  pg_inv s -> 0 <= g < 2 ^ 32 - 1 ->
  exists s', pg_Free g n s = Ok tt s' /\ pg_inv s' /\ pg_extends s s' /\ pg_space s' = pg_space s /\
    pg_freed s' = pg_freed s ++ [(g, n)].
Proof.
  intros Hinv Hg. destruct (pg_Free_ok s g n Hinv Hg) as (s' & Hf & Hi & Hp & Ht & He & Hu & Hsp & Hm & Hn & Hfd).
  exists s'. split_and!; try done. split; auto. intros q Hq. by apply Hu.
Qed.

(** What deleting a record frees, as the pager notes it. *)
Definition rec_pairs (ps : Z) (leaf : bool) (r : Rec) : list (Z * Z) :=
  if r_overflow r then [(le_value (r_bytes r), GetPageCount ps (u32 (rec_total leaf r)))] else [].

Lemma Leaf_Delete_recs nd s (i : nat) r :
  leaf_ok s nd -> pg_inv s -> recs nd !! i = Some r ->
  exists nd' s', Leaf_Delete (Z.of_nat i) (nd, s) = Ok tt (nd', s') /\
    leaf_ok s' nd' /\ pg_inv s' /\ pg_extends s s' /\ pg_space s' = pg_space s /\
    last_modified_txid (header nd') = last_modified_txid (header nd) /\
    recs nd' = take i (recs nd) ++ drop (S i) (recs nd) /\
    pg_freed s' = pg_freed s ++ rec_pairs (pg_page_size s) true r.
Proof.
  intros [Hok Hleaf] Hinv Hi.
  destruct (live_split _ _ _ _ Hok Hi) as (l1 & x & l2 & dead & Hs & Hl & -> & -> & Hx & Hc).
  pose proof (sizeof_record_nonneg _ _ _ Hx) as Hnn. pose proof (space_bounds _ _ Hok) as (Hr & _).
  pose proof (sw_low _ _ Hok). pose proof (sw_count _ _ Hok).
  set (nd1 := set_space_used (space_used (header nd) - sizeof_record nd x) nd).
  assert (Hfree : exists x' s',
    (if is_overflow_pages x then
       on_data (fun nd => set_space_used (space_used (header nd) - sizeof_OverflowRecord) nd) ;;;
       let* raw := GetRawRecordPtr (Z.of_nat (length l1)) in
       let* rec := read_record raw sizeof_OverflowRecord in
       on_slot (Z.of_nat (length l1)) (set_is_overflow_pages false) ;;;
       let* ps := node_page_size in
       on_pager (pg_Free (le_value rec) (GetPageCount ps (u32 (key_size x + value_size x))))
     else on_data (fun nd => set_space_used
            (space_used (header nd) - u32 (key_size x + value_size x)) nd)) (nd, s) =
    Ok tt (set_slots (l1 ++ x' :: l2 ++ dead) nd1, s') /\ pg_inv s' /\ pg_extends s s' /\
    pg_space s' = pg_space s /\ pg_freed s' = pg_freed s ++ rec_pairs (pg_page_size s) true (rec_of nd x)).
  { destruct (is_overflow_pages x) eqn:E.
    - destruct (overflow_page s nd l1 x l2 dead Hok Hinv Hs Hl E) as (Ho & Ho4 & Hg).
      destruct (pg_Free_extends s _ (GetPageCount (pg_page_size s) (u32 (key_size x + value_size x)))
        Hinv Hg) as (s' & Hf & Hinv' & Hext & Hsp & Hfd).
      exists (set_is_overflow_pages false x), s'. split; [|split_and!; try done].
      2: { rewrite Hfd. unfold rec_pairs, rec_total. cbn [rec_of r_overflow r_key r_u r_bytes]. rewrite E. do 4 f_equal.
           unfold sizeof_record. by rewrite E. }
      assert (En : nd1 = set_space_used (space_used (header nd) - sizeof_OverflowRecord) nd).
      { subst nd1. unfold sizeof_record. by rewrite E. }
      rewrite (bind_ok _ _ (nd, s) tt (nd1, s)) by (by rewrite En).
      run_step (GetRawRecordPtr_ok nd1 s l1 x (l2 ++ dead) _ Hs eq_refl
        ltac:(change (count nd1) with (count nd); lia)).
      run_step (read_record_ok nd1 s _ 4 Ho Ho4).
      run_step (on_slot_ok nd1 s l1 x (l2 ++ dead) _ (set_is_overflow_pages false) Hs eq_refl).
      run_step (page_size_run (set_slots (l1 ++ set_is_overflow_pages false x :: l2 ++ dead) nd1) s).
      by apply on_pager_ok.
    - exists x, s. split; [|split_and!; try done; unfold rec_pairs; cbn [rec_of r_overflow]; by rewrite E, app_nil_r].
      rewrite set_on_data. destruct Hx as [Hk Hu Hlow Hhi]. unfold sizeof_record in Hnn, Hhi.
      rewrite E, Hleaf in *. pose proof (slot_offset_range _ _ _ Hok
        (Forall_lookup_1 _ _ _ _ (nw_live _ _ Hok) ltac:(rewrite Hl; by apply list_lookup_middle))).
      rewrite u32_small by lia. do 2 f_equal. subst nd1. unfold sizeof_record, set_slots, set_space_used, set_header.
      cbn. by rewrite Hs, E, Hleaf. }
  destruct Hfree as (x' & s' & Hfree & Hinv' & Hext & Hsp & Hfd).
  unfold Leaf_Delete. run_step (data_ok nd s). rewrite bind_assert by (apply Z.ltb_lt; lia).
  run_step (get_slot_ok nd s l1 x (l2 ++ dead) _ Hs eq_refl). run_step Hfree.
  set (nd2 := set_slots _ nd1).
  destruct (move_slots_down nd2 s' l1 x' l2 dead (count nd) _ eq_refl eq_refl ltac:(lia)) as (y & Hmv).
  run_step Hmv. unfold on_data at 1, modify at 1, bind at 1. cbn [fst snd].
  change (count (set_slots (l1 ++ l2 ++ y :: dead) nd2)) with (count nd).
  set (nd3 := set_hcount _ _).
  destruct (remove_wf _ nd l1 x l2 y dead (no_wf _ _ Hok) Hs Hl Hc) as [Hwf Hrecs].
  change (node_wf (pg_page_size s) nd3) in Hwf. change (recs nd3 = (rec_of nd <$> l1) ++ (rec_of nd <$> l2)) in Hrecs.
  rewrite (fmap_del _ _ _ _ Hl) in Hrecs.
  assert (Hwf' : node_wf (pg_page_size s') nd3) by (by rewrite (pe_ps _ _ Hext)).
  exists nd3, s'. rewrite (check_space_ok nd3 s' Hwf'). split_and!; try done.
  split; [|exact Hleaf]. split; [done|]. change (IsLeaf nd3) with (IsLeaf nd). rewrite Hrecs.
  assert (Hlv : Forall (rec_live (IsLeaf nd) s') (recs nd)).
  { eapply Forall_impl; [exact (no_live _ _ Hok)|]. intros z. by apply rec_live_extends. }
  apply Forall_app. split; [by apply Forall_take|by apply Forall_drop].
Qed.

(** ** Update *)

(** The node after [DeleteRecord] of an inline record: the slot has no bytes. *)
Definition erased nd l1 x l2 dead : NodeData :=
  set_slots (l1 ++ mkSlot (record_offset x) false 0 (is_bucket x) (leaf_u nd 0 (slot_u x)) :: l2 ++ dead)
    (set_space_used (space_used (header nd) - sizeof_record nd x) nd).

Lemma erased_wf ps nd l1 x l2 dead :
  node_wf ps nd -> slots nd = l1 ++ x :: l2 ++ dead -> live_slots nd = l1 ++ x :: l2 ->
  is_overflow_pages x = false ->
  let nd1 := erased nd l1 x l2 dead in
  let x0 := mkSlot (record_offset x) false 0 (is_bucket x) (leaf_u nd 0 (slot_u x)) in
  node_wf ps nd1 /\ live_slots nd1 = l1 ++ x0 :: l2 /\
  space_used (header nd1) = space_used (header nd) - sizeof_record nd x /\
  recs nd1 = (rec_of nd <$> l1) ++ rec_of nd1 x0 :: (rec_of nd <$> l2).
Proof.
  intros Hwf Hs Hl E nd1 x0. pose proof (space_bounds _ _ Hwf) as (Hr & _).
  destruct (slots_split _ _ Hwf) as (dead0 & _ & Hlen & _).
  destruct Hwf as [[Hps Hc0 Hlow Hus Htop Hsl Hpl] Hused Hlive]. rewrite Hl in Hused, Hlive, Hlen.
  rewrite sizes_app, sizes_cons in Hused.
  apply Forall_app in Hlive as [H1 Hl2]. apply Forall_cons in Hl2 as [Hx H2].
  pose proof (sizes_nonneg _ _ _ H1). pose proof (sizes_nonneg _ _ _ H2).
  pose proof (sizeof_record_nonneg _ _ _ Hx).
  assert (Hsu : space_used (header nd1) = space_used (header nd) - sizeof_record nd x).
  { cbn. apply u16_small. lia. }
  assert (Hsz : sizeof_record nd1 x0 = 0).
  { unfold sizeof_record, x0, leaf_u. cbn. change (IsLeaf nd1) with (IsLeaf nd).
    by destruct (IsLeaf nd). }
  assert (Hlv : live_slots nd1 = l1 ++ x0 :: l2).
  { apply (live_slots_eq nd1 _ dead); [cbn; by rewrite <- app_assoc|].
    change (count nd1) with (count nd). by rewrite <- Hlen, !length_app. }
  rewrite Hlv. split_and!; try done; [split; [split|..]|].
  - done. - done. - done. - rewrite Hsu. lia.
  - rewrite Hsu. change (data_offset (header nd1)) with (data_offset (header nd)). lia.
  - cbn. rewrite <- Hsl, Hs, !length_app. done.
  - done.
  - rewrite Hlv, Hsu, sizes_app, sizes_cons, Hsz, !(sizes_ext nd nd1) by done. lia.
  - rewrite Hlv. apply Forall_app. split; [|constructor];
      [eapply Forall_impl; [exact H1|]; intros z []; by split| |
       eapply Forall_impl; [exact H2|]; intros z []; by split].
    destruct Hx as [Hk Hu Hlo Hhi]. split; cbn [key_size slot_u x0]; [lia| |exact Hlo|].
    + unfold leaf_u. destruct (IsLeaf nd); lia.
    + rewrite Hsz. cbn. lia.
  - unfold recs. by rewrite Hlv, fmap_app.
Qed.

Lemma DeleteRecord_inline nd s l1 x l2 dead i :
  slots nd = l1 ++ x :: l2 ++ dead -> i = Z.of_nat (length l1) -> i < count nd ->
  is_overflow_pages x = false -> 0 <= space_used (header nd) - sizeof_record nd x < 2 ^ 16 ->
  0 <= key_size x -> 0 <= slot_u x -> 0 <= space_used (header nd) < 2 ^ 16 ->
  DeleteRecord i (nd, s) = Ok tt (erased nd l1 x l2 dead, s).
Proof.
  intros Hs Hi Hc E Hsz Hk Hu Hsu. unfold DeleteRecord. run_step (data_ok nd s).
  rewrite bind_assert by (by apply Z.ltb_lt).
  run_step (get_slot_ok nd s l1 x (l2 ++ dead) i Hs Hi). rewrite E.
  unfold sizeof_record in Hsz. rewrite E in Hsz.
  rewrite (bind_ok _ _ _ _ _ (set_on_data _ _ _)).
  set (nd1 := set_space_used _ nd).
  run_step (on_slot_ok nd1 s l1 x (l2 ++ dead) i (set_key_size 0) Hs Hi).
  unfold erased, sizeof_record, leaf_u. rewrite E. destruct (IsLeaf nd).
  - rewrite (bind_ok _ _ _ _ _ (set_on_data _ _ _)). erewrite on_slot_ok; [|reflexivity|exact Hi].
    unfold nd1, set_slots, set_space_used, set_header, set_key_size, set_slot_u. cbn.
    rewrite E. unwrap_all. rewrite <- Z.sub_add_distr. done.
  - unfold ret, nd1, set_slots, set_space_used, set_header, set_key_size. cbn.
    by rewrite E, Z.add_0_r.
Qed.

Lemma erased_hole ps nd l1 x l2 dead :
  node_wf ps nd -> slots nd = l1 ++ x :: l2 ++ dead -> live_slots nd = l1 ++ x :: l2 ->
  sizeof_record nd x = 0 -> node_hole ps nd l1 x l2 dead.
Proof.
  intros Hwf Hs Hl Hsz. destruct (slots_split _ _ Hwf) as (dead0 & _ & Hlen & _).
  destruct Hwf as [Hsp Hused Hlive]. rewrite Hl in *. apply Forall_app in Hlive as [H1 Hl2].
  apply Forall_cons in Hl2 as [[] H2]. split; try done.
  - rewrite length_app in Hlen. cbn in Hlen. lia.
  - rewrite Hused, !sizes_app, sizes_cons. lia.
  - by apply Forall_app.
Qed.

(** Putting back the sizes of an erased slot restores the node. *)
Lemma RestoreRecord_erased nd s l1 x l2 dead i :
  node_wf (pg_page_size s) nd -> slots nd = l1 ++ x :: l2 ++ dead ->
  live_slots nd = l1 ++ x :: l2 -> i = Z.of_nat (length l1) -> is_overflow_pages x = false ->
  RestoreRecord i x (erased nd l1 x l2 dead, s) = Ok tt (nd, s).
Proof.
  intros Hwf Hs Hl Hi E. pose proof (space_bounds _ _ Hwf) as (Hr & _).
  destruct (erased_wf _ _ _ _ _ _ Hwf Hs Hl E) as (Hwf1 & _ & Hsu1 & _).
  pose proof (sw_used _ _ (nw_space _ _ Hwf1)) as Hge. rewrite Hsu1 in Hge. clear Hwf1.
  destruct (slots_split _ _ Hwf) as (dead0 & _ & Hlen & _).
  pose proof (sw_used _ _ Hwf). pose proof (sw_top _ _ Hwf). pose proof (sw_low _ _ Hwf).
  pose proof (sw_count _ _ Hwf).
  assert (Hx : slot_ok (pg_page_size s) nd x).
  { eapply Forall_lookup_1; [apply Hwf|]. rewrite Hl. by apply list_lookup_middle. }
  destruct Hx as [Hk Hu _ _]. rewrite Hl, length_app in Hlen. cbn in Hlen.
  unfold RestoreRecord. rewrite (bind_ok _ _ _ _ _ (data_ok _ s)).
  set (nd1 := erased nd l1 x l2 dead) in *.
  rewrite bind_assert by (apply Z.ltb_lt; change (count nd1) with (count nd); lia). rewrite E.
  erewrite bind_ok; [|by eapply on_slot_ok; [reflexivity|exact Hi]].
  rewrite (bind_ok _ _ _ _ _ (set_on_data _ _ _)).
  change (IsLeaf nd1) with (IsLeaf nd).
  assert (Hfin : forall f, f = set_space_used (space_used (header nd)) (set_slots (l1 ++ x :: l2 ++ dead) nd) -> f = nd).
  { intros f ->. unfold set_space_used, set_slots, set_header. cbn. rewrite u16_small by lia.
    rewrite <- Hs. destruct nd as [[]]. done. }
  assert (Ex : x = mkSlot (record_offset x) false (key_size x) (is_bucket x) (slot_u x)).
  { destruct x. cbn in E. by subst. }
  assert (Esz : sizeof_record nd x = key_size x + (if IsLeaf nd then slot_u x else 0)).
  { unfold sizeof_record. by rewrite E. }
  rewrite Esz in Hge. rewrite Esz in Hsu1.
  unfold leaf_u in *. destruct (IsLeaf nd) eqn:Elf.
  - erewrite bind_ok; [|by eapply on_slot_ok; [reflexivity|exact Hi]].
    rewrite set_on_data. do 2 f_equal. apply Hfin.
    unfold set_space_used, set_slots, set_header, set_key_size, set_slot_u. cbn in Hsu1 |- *.
    rewrite Hsu1. unwrap_all. rewrite <- Ex.
    replace (_ + slot_u x) with (space_used (header nd)) by lia. by unwrap_all.
  - unfold ret. do 2 f_equal. apply Hfin.
    unfold set_space_used, set_slots, set_header, set_key_size. cbn in Hsu1 |- *.
    rewrite Hsu1. unwrap_all. rewrite <- Ex.
    replace (_ + key_size x) with (space_used (header nd)) by lia. by unwrap_all.
Qed.

Lemma same_slot_split nd l1 x l2 live' :
  Forall2 same_slot (l1 ++ x :: l2) live' ->
  exists l1' x' l2', live' = l1' ++ x' :: l2' /\ length l1' = length l1 /\ same_slot x x' /\
    sizeof_record nd x' = sizeof_record nd x.
Proof.
  intros Hf. apply Forall2_app_inv_l in Hf as (l1' & t & H1 & H2 & ->).
  apply Forall2_cons_inv_l in H2 as (x' & l2' & Hx & H2 & ->).
  exists l1', x', l2'. split_and!; try done.
  - symmetry. by eapply Forall2_length.
  - by rewrite Hx.
Qed.

Lemma fmap_replace nd l1 x l2 r :
  live_slots nd = l1 ++ x :: l2 ->
  (rec_of nd <$> l1) ++ r :: (rec_of nd <$> l2) = <[length l1 := r]> (recs nd).
Proof.
  intros Hl. unfold recs. rewrite Hl, fmap_app. cbn [fmap list_fmap].
  rewrite insert_app_r_alt by (rewrite length_fmap; lia).
  by rewrite length_fmap, Nat.sub_diag.
Qed.

(** The rest of [Update] once the old record is gone and there is room. *)
Lemma update_store nd s l1 x l2 dead k v :
  node_hole (pg_page_size s) nd l1 x l2 dead -> live_slots nd = l1 ++ x :: l2 -> pg_inv s ->
  IsLeaf nd = true -> Forall (rec_live true s) ((rec_of nd <$> l1) ++ (rec_of nd <$> l2)) ->
  Z.of_nat (length k) <= pg_page_size s -> store_room s (Z.of_nat (length k + length v)) ->
  record_need (pg_page_size s) (Z.of_nat (length k + length v)) false <= hole_room nd ->
  exists nd' s' r,
    (StoreRecord (Z.of_nat (length l1)) (Ext k) v ;;; check_space ;;; ret true) (nd, s) =
      Ok true (nd', s') /\
    leaf_ok s' nd' /\ pg_inv s' /\ pg_extends s s' /\
    last_modified_txid (header nd') = last_modified_txid (header nd) /\
    recs nd' = <[length l1 := r]> (recs nd) /\ new_record true s s' k v r /\
    r_bucket r = is_bucket x.
Proof.
  intros Hh Hl Hinv Hleaf Hlv Hk Hroom Hneed.
  destruct (StoreRecord_ok nd s l1 x l2 dead _ (Ext k) v Hh eq_refl Hinv)
    as (nd3 & s' & r & Hst & Hinv' & Hext & Hwf3 & Hrecs & Hhold & Hbk & _ & Hty & Htx & _); try done.
  { by rewrite Hleaf. }
  { cbn [span_size]. by rewrite <- Nat2Z.inj_add. }
  { cbn [span_size]. by rewrite <- Nat2Z.inj_add. }
  rewrite Hleaf in Hhold. cbn [span_bytes] in Hhold.
  run_step Hst. assert (Hwf' : node_wf (pg_page_size s') nd3) by (by rewrite (pe_ps _ _ Hext)).
  run_step (check_space_ok nd3 s' Hwf').
  assert (Hl3 : IsLeaf nd3 = true) by (unfold IsLeaf in *; by rewrite Hty).
  exists nd3, s', r. split_and!; try done.
  - split; [|done]. split; [done|]. rewrite Hrecs, Hl3.
    apply Forall_app in Hlv as [H1 H2]. apply Forall_app. split; [|constructor].
    + eapply Forall_impl; [exact H1|]. intros z. by apply rec_live_extends.
    + apply Hhold.
    + eapply Forall_impl; [exact H2|]. intros z. by apply rec_live_extends.
  - by rewrite Hrecs, (fmap_replace nd l1 x l2 r Hl).
Qed.

(** The first half of both [Update]s on an inline record: the record is taken
    out and room asked for the new one, which leaves a hole in its place; or
    the slot is put back as it was. *)
Lemma erase_request nd s (i : nat) r klen vlen :
  node_ok s nd -> recs nd !! i = Some r -> r_overflow r = false ->
  let need := record_need (pg_page_size s) (klen + vlen) false in
  let ok := need <=? pg_page_size s - (18 + 8 * count nd) -
              (space_used (header nd) - Z.of_nat (length (r_bytes r))) in
  exists x nd1 nd2, get_slot (Z.of_nat i) (nd, s) = Ok x (nd, s) /\
    DeleteRecord (Z.of_nat i) (nd, s) = Ok tt (nd1, s) /\
    RequestSpaceFor klen vlen false (nd1, s) = Ok ok (nd2, s) /\
    if ok then exists l1 x' l2 dead,
      node_hole (pg_page_size s) nd2 l1 x' l2 dead /\ live_slots nd2 = l1 ++ x' :: l2 /\
      slots nd2 = l1 ++ x' :: l2 ++ dead /\
      length l1 = i /\ key_size x' = 0 /\ is_bucket x' = r_bucket r /\
      (IsLeaf nd = false -> slot_u x' = r_u r) /\
      need <= hole_room nd2 /\ IsLeaf nd2 = IsLeaf nd /\ tail_child nd2 = tail_child nd /\
      same_mark nd nd2 /\
      (rec_of nd2 <$> l1) = take i (recs nd) /\ (rec_of nd2 <$> l2) = drop (S i) (recs nd)
    else RestoreRecord (Z.of_nat i) x (nd2, s) = Ok tt (nd, s).
Proof.
  intros Hok Hi E need ok. pose proof (space_bounds _ _ Hok) as (Hr & _).
  destruct (live_split _ _ _ _ Hok Hi) as (l1 & x & l2 & dead & Hs & Hl & -> & -> & Hx & Hc).
  cbn [rec_of r_overflow r_bytes r_bucket r_u] in *.
  pose proof (sizeof_record_nonneg _ _ _ Hx) as Hnn.
  pose proof (slot_offset_range _ _ _ Hok Hx). pose proof (sw_payload _ _ Hok).
  pose proof (sw_used _ _ Hok). pose proof (sw_top _ _ Hok). pose proof (sw_low _ _ Hok).
  pose proof (sw_count _ _ Hok).
  assert (Hlb : Z.of_nat (length (slice (record_offset x) (sizeof_record nd x) (payload nd))) =
            sizeof_record nd x).
  { pose proof (so_high _ _ _ Hx). rewrite length_slice by lia. lia. }
  unfold ok. rewrite Hlb. clear ok. clear Hlb.
  destruct (erased_wf _ _ _ _ _ _ Hok Hs Hl E) as (Hwf1 & Hl1 & Hsu1 & Hrecs1).
  pose proof (sw_used _ _ (nw_space _ _ Hwf1)) as Hge. rewrite Hsu1 in Hge.
  set (nd1 := erased nd l1 x l2 dead) in *. set (x0 := mkSlot _ _ _ _ _) in Hl1, Hrecs1.
  destruct (RequestSpaceFor_ok nd1 s klen vlen false Hwf1) as (nd2 & Hrun & Hwf2 & Hcp & Hss & Hres).
  rewrite Hsu1 in Hrun, Hres. change (count nd1) with (count nd) in Hrun, Hres.
  fold need in Hrun, Hres. set (ok := _ <=? _) in *.
  exists x, nd1, nd2. split_and!; [by apply (get_slot_ok nd s l1 x (l2 ++ dead))| |done|].
  { destruct Hx. apply DeleteRecord_inline; try done; lia. }
  destruct ok.
  2: { subst nd2. exact (RestoreRecord_erased nd s l1 x l2 dead _ (no_wf _ _ Hok) Hs Hl eq_refl E). }
  rewrite Hl1 in Hss.
  destruct (same_slot_split nd2 _ _ _ _ Hss) as (l1' & x' & l2' & Hl2 & Hlen & Hx' & Hsz).
  destruct (slots_split _ _ Hwf2) as (dead2 & Hs2 & _ & _). rewrite Hl2, <- app_assoc in Hs2.
  cbn [app] in Hs2.
  assert (Hlf : IsLeaf nd2 = IsLeaf nd) by exact (compacted_leaf _ _ Hcp).
  assert (Hrecs2 : recs nd2 = (rec_of nd <$> l1) ++ rec_of nd1 x0 :: (rec_of nd <$> l2)).
  { by rewrite (cp_recs _ _ Hcp). }
  unfold recs at 1 in Hrecs2. rewrite Hl2, fmap_app, fmap_cons in Hrecs2.
  apply app_inj_1 in Hrecs2 as [Hr1 Hr2]; [|by rewrite !length_fmap].
  apply (f_equal (drop 1)) in Hr2. cbn [drop] in Hr2. rewrite !drop_0 in Hr2.
  exists l1', x', l2', dead2. split_and!; try done.
  - apply erased_hole; try done. rewrite Hsz. unfold sizeof_record, x0, leaf_u. cbn.
    rewrite Hlf. by destruct (IsLeaf nd).
  - by rewrite Hx'.
  - by rewrite Hx'.
  - intros Hb. rewrite Hx'. unfold x0, leaf_u. cbn. by rewrite Hb.
  - exact (cp_tail _ _ Hcp).
  - split; [exact (cp_txid _ _ Hcp)|exact (cp_type _ _ Hcp)].
  - unfold recs. rewrite Hr1, Hl, fmap_app. by rewrite take_app_length' by (by rewrite length_fmap).
  - unfold recs. rewrite Hr2, Hl, fmap_app, fmap_cons.
    rewrite drop_app_ge by (rewrite length_fmap; lia). rewrite length_fmap.
    by replace (S (length l1) - length l1)%nat with 1%nat by lia.
Qed.

(** [Update] of an entry whose old record is inline. *)
Lemma Leaf_Update_inline nd s (i : nat) r k v :
  leaf_ok s nd -> pg_inv s -> recs nd !! i = Some r -> r_overflow r = false ->
  Z.of_nat (length k) <= pg_page_size s -> store_room s (Z.of_nat (length k + length v)) ->
  let need := record_need (pg_page_size s) (Z.of_nat (length k + length v)) false in
  let ok := need <=? pg_page_size s - (18 + 8 * count nd) -
              (space_used (header nd) - Z.of_nat (length (r_bytes r))) in
  exists nd' s', Leaf_Update (Z.of_nat i) (Ext k) v (nd, s) = Ok ok (nd', s') /\
    leaf_ok s' nd' /\ pg_inv s' /\ pg_extends s s' /\
    last_modified_txid (header nd') = last_modified_txid (header nd) /\
    if ok then exists r', recs nd' = <[i := r']> (recs nd) /\ new_record true s s' k v r' /\
                r_bucket r' = r_bucket r
    else nd' = nd /\ s' = s.
Proof.
  intros [Hok Hleaf] Hinv Hi E Hk Hroom need ok.
  pose proof (length_recs _ _ Hok) as Hlr. pose proof (lookup_lt_Some _ _ _ Hi).
  destruct (erase_request nd s i r (Z.of_nat (length k)) (Z.of_nat (length v)) Hok Hi E)
    as (x & nd1 & nd2 & Hget & Hdel & Hreq & Hres).
  rewrite <- Nat2Z.inj_add in Hreq, Hres. fold need ok in Hreq, Hres. clearbody ok.
  unfold Leaf_Update. run_step (data_ok nd s). rewrite bind_assert by (apply Z.ltb_lt; lia).
  run_step Hget. run_step Hdel. cbn [span_size]. run_step Hreq. destruct ok; cbn [negb].
  2: { run_step Hres. exists nd, s. split_and!; done. }
  destruct Hres as (l1 & x' & l2 & dead & Hh & Hl & _ & <- & _ & Hb & _ & Hneed & Hlf & _ & Htx & H1 & H2).
  rewrite Hleaf in Hlf. pose proof (no_live _ _ Hok) as Hlv. rewrite Hleaf in Hlv.
  destruct (update_store nd2 s l1 x' l2 dead k v Hh Hl Hinv Hlf)
    as (nd3 & s' & r' & Hst & Hok3 & Hinv3 & Hext & Htx3 & Hr3 & Hhold & Hbk); try done.
  { rewrite H1, H2. apply Forall_app. split; [by apply Forall_take|by apply Forall_drop]. }
  rewrite Hst. exists nd3, s'. split_and!; try done; [by rewrite Htx3; apply Htx|].
  exists r'. split_and!; [|done|by rewrite Hbk, Hb].
  rewrite Hr3. rewrite <- (fmap_replace nd2 l1 x' l2 r' Hl), H1, H2.
  symmetry. by apply insert_take_drop.
Qed.

(** ** Update of an overflow record *)

(** [DeleteRecord] of an overflow record takes the record out of the count but
    leaves the slot as it is. *)
Lemma DeleteRecord_overflow nd s l1 x l2 dead i :
  slots nd = l1 ++ x :: l2 ++ dead -> i = Z.of_nat (length l1) -> i < count nd ->
  is_overflow_pages x = true ->
  DeleteRecord i (nd, s) = Ok tt (set_space_used (space_used (header nd) - 4) nd, s).
Proof.
  intros Hs Hi Hc E. unfold DeleteRecord. run_step (data_ok nd s).
  rewrite bind_assert by (by apply Z.ltb_lt).
  run_step (get_slot_ok nd s l1 x (l2 ++ dead) i Hs Hi). by rewrite E.
Qed.

Lemma overflow_hole ps nd l1 x l2 dead :
  node_wf ps nd -> slots nd = l1 ++ x :: l2 ++ dead -> live_slots nd = l1 ++ x :: l2 ->
  is_overflow_pages x = true ->
  let nd1 := set_space_used (space_used (header nd) - 4) nd in
  space_used (header nd1) = space_used (header nd) - 4 /\ node_hole ps nd1 l1 x l2 dead.
Proof.
  intros Hwf Hs Hl E nd1. pose proof (space_bounds _ _ Hwf) as (Hr & _).
  destruct (slots_split _ _ Hwf) as (dead0 & _ & Hlen & _).
  destruct Hwf as [[Hps Hc0 Hlow Hus Htop Hsl Hpl] Hused Hlive]. rewrite Hl in Hused, Hlive, Hlen.
  rewrite sizes_app, sizes_cons in Hused.
  apply Forall_app in Hlive as [H1 Hl2]. apply Forall_cons in Hl2 as [Hx H2].
  pose proof (sizes_nonneg _ _ _ H1). pose proof (sizes_nonneg _ _ _ H2).
  assert (Esz : sizeof_record nd x = 4) by (unfold sizeof_record; by rewrite E). rewrite Esz in Hused.
  assert (Hsu : space_used (header nd1) = space_used (header nd) - 4) by (cbn; apply u16_small; lia).
  assert (Hd : data_offset (header nd1) = data_offset (header nd)) by done.
  split; [done|]. split; [split| | | | |]; rewrite ?Hsu, ?Hd; try done; try lia.
  - change (count nd1) with (count nd). rewrite length_app in Hlen. cbn in Hlen. lia.
  - rewrite sizes_app, !(sizes_ext nd nd1) by done. lia.
  - apply Forall_app. split; (eapply Forall_impl; [eassumption|]; intros z []; by split).
  - intros _. apply Hx.
Qed.

(** Enough room below the record area: the new record is stored. *)
Lemma Leaf_Update_overflow nd s (i : nat) r k v :
  leaf_ok s nd -> pg_inv s -> recs nd !! i = Some r -> r_overflow r = true ->
  Z.of_nat (length k) <= pg_page_size s -> store_room s (Z.of_nat (length k + length v)) ->
  record_need (pg_page_size s) (Z.of_nat (length k + length v)) false <= hole_room nd ->
  exists nd' s' r', Leaf_Update (Z.of_nat i) (Ext k) v (nd, s) = Ok true (nd', s') /\
    leaf_ok s' nd' /\ pg_inv s' /\ pg_extends s s' /\
    last_modified_txid (header nd') = last_modified_txid (header nd) /\
    recs nd' = <[i := r']> (recs nd) /\ new_record true s s' k v r' /\ r_bucket r' = r_bucket r.
Proof.
  intros [Hok Hleaf] Hinv Hi E Hk Hroom Hneed.
  destruct (live_split _ _ _ _ Hok Hi) as (l1 & x & l2 & dead & Hs & Hl & -> & -> & Hx & Hc).
  cbn [rec_of r_overflow r_bucket] in *.
  destruct (overflow_hole _ _ _ _ _ _ (no_wf _ _ Hok) Hs Hl E) as (Hsu & Hh).
  set (nd1 := set_space_used _ nd) in *. pose proof (sw_count _ _ Hok).
  unfold Leaf_Update. run_step (data_ok nd s). rewrite bind_assert by (apply Z.ltb_lt; lia).
  run_step (get_slot_ok nd s l1 x (l2 ++ dead) _ Hs eq_refl).
  run_step (DeleteRecord_overflow nd s l1 x l2 dead _ Hs eq_refl ltac:(lia) E). fold nd1.
  rewrite (bind_ok _ _ (nd1, s) true (nd1, s)).
  2: { unfold RequestSpaceFor. run_step (MaxInline_ok nd1 s (sw_ps _ _ Hh)).
       run_step (FreeSpace_ok nd1 s (nh_space _ _ _ _ _ _ Hh)). cbn [span_size].
       rewrite <- Nat2Z.inj_add. unfold record_need in Hneed.
       destruct (_ <? _); cbn [SpaceNeeded negb]; unfold sizeof_OverflowRecord;
         rewrite (proj2 (Z.leb_le _ _)); try done; unfold hole_room in Hneed;
         change (count nd1) with (count nd); change (data_offset (header nd1)) with (data_offset (header nd)); lia. }
  cbn [negb].
  destruct (update_store nd1 s l1 x l2 dead k v Hh Hl Hinv Hleaf)
    as (nd3 & s' & r & Hst & Hok3 & Hinv3 & Hext & Htx & Hr3 & Hhold & Hbk); try done.
  { change (rec_of nd1) with (rec_of nd). rewrite (fmap_del nd l1 x l2 Hl).
    pose proof (no_live _ _ Hok) as Hlv. rewrite Hleaf in Hlv.
    apply Forall_app. split; [by apply Forall_take|by apply Forall_drop]. }
  rewrite Hst. by exists nd3, s', r.
Qed.

(** Room only after compaction: [Compactify]'s assertion fails, since the old
    record is no longer counted and still copied. *)
Lemma Leaf_Update_overflow_stuck nd s (i : nat) r k v :
  leaf_ok s nd -> recs nd !! i = Some r -> r_overflow r = true ->
  let need := record_need (pg_page_size s) (Z.of_nat (length k + length v)) false in
  hole_room nd < need ->
  need <= pg_page_size s - (18 + 8 * count nd) - (space_used (header nd) - 4) ->
  Leaf_Update (Z.of_nat i) (Ext k) v (nd, s) = Fault Assertion.
Proof.
  intros [Hok Hleaf] Hi E need Hno Hyes.
  destruct (live_split _ _ _ _ Hok Hi) as (l1 & x & l2 & dead & Hs & Hl & -> & -> & Hx & Hc).
  cbn [rec_of r_overflow] in *.
  destruct (overflow_hole _ _ _ _ _ _ (no_wf _ _ Hok) Hs Hl E) as (Hsu & Hh).
  set (nd1 := set_space_used _ nd) in *. pose proof (sw_count _ _ Hok).
  unfold Leaf_Update. run_step (data_ok nd s). rewrite bind_assert by (apply Z.ltb_lt; lia).
  run_step (get_slot_ok nd s l1 x (l2 ++ dead) _ Hs eq_refl).
  run_step (DeleteRecord_overflow nd s l1 x l2 dead _ Hs eq_refl ltac:(lia) E). fold nd1.
  unfold bind at 1. replace (RequestSpaceFor _ _ _ _) with (@Fault (NodeData * St) bool Assertion); [done|].
  symmetry. unfold RequestSpaceFor. run_step (MaxInline_ok nd1 s (sw_ps _ _ Hh)).
  run_step (FreeSpace_ok nd1 s (nh_space _ _ _ _ _ _ Hh)). cbn [span_size].
  rewrite <- Nat2Z.inj_add. set (need' := if _ <? _ then _ else _).
  assert (need' = need) as ->.
  { subst need' need. unfold record_need. destruct (_ <? _); cbn; unfold sizeof_OverflowRecord; lia. }
  unfold hole_room in Hno.
  rewrite (proj2 (Z.leb_gt _ _)) by exact Hno.
  run_step (FreeSpaceAfterCompaction_ok nd1 s (nh_space _ _ _ _ _ _ Hh)). rewrite Hsu.
  rewrite (proj2 (Z.leb_le _ _)) by exact Hyes.
  unfold bind at 1. rewrite Compactify_mismatch; [done|apply Hh| | |].
  - change (live_slots nd1) with (live_slots nd). exact (live_readable _ _ (no_wf _ _ Hok)).
  - change (live_slots nd1) with (live_slots nd). rewrite (sizes_ext nd nd1) by done.
    rewrite <- (nw_used _ _ Hok). pose proof (sw_top _ _ Hok). pose proof (sw_low _ _ Hok). lia.
  - change (live_slots nd1) with (live_slots nd). rewrite (sizes_ext nd nd1) by done.
    rewrite <- (nw_used _ _ Hok), Hsu. lia.
Qed.

(** ** Build *)
Lemma Leaf_Build_ok nd s :
  page_size_ok (pg_page_size s) -> pg_inv s ->
  Z.of_nat (length (slots nd)) = (pg_page_size s - 18) / 8 ->
  Z.of_nat (length (payload nd)) = pg_page_size s ->
  exists nd', Leaf_Build (nd, s) = Ok tt (nd', s) /\ leaf_ok s nd' /\ recs nd' = [] /\
    last_modified_txid (header nd') = pg_cur_txid s.
Proof.
  intros Hps Hinv Hsl Hpl. destruct (page_size_bounds _ Hps) as [Hr _].
  unfold Leaf_Build. run_step (page_size_run nd s).
  repeat (rewrite (bind_ok _ _ _ _ _ (set_on_data _ _ _))).
  rewrite (bind_ok _ _ _ _ _ (on_pager_ok _ _ s _ s (pg_txid_ok s Hinv))), set_on_data.
  eexists. split; [done|]. split_and!; [|done|done].
  assert (Hd : i16 (pg_page_size s) = pg_page_size s) by (apply i16_small; lia).
  split; [|done]. split; [|by constructor]. split; [split|..]; unfold count; cbn;
    change (u14 0) with 0; change (u16 0) with 0; rewrite ?Hd; try done; lia.
Qed.
End leaf.
