(* ===== verification/Sample.v ===== *)
(** A small database inside a write transaction: the concrete state on which
    the theorems of the development are instantiated. *)
From S2P Require Import Prelude Format Comparator State Memory FreeMap Pager PagerI PagerInst.
From S2P Require Import Node NodeWf NodeSpec.

Definition sample_meta : MetaStruct := mkMeta ATOMKV_SIGN 256 1 4 3 kPageInvalidId 0 0 7 0.

Definition sample_tx : TxImpl :=
  mkTx sample_meta true (mkBucket kUserRootBucketId true UserRoot None) [].

(** Page size 256; pages 0 and 1 are the metas, page 2 is free. *)
Definition sample_db : DBImpl :=
  mkDB (mkOptions 256 ByteArrayComparator false true kUpdateInPlace 1024) (mkMapping ∅ 1024) 0 [] sample_meta true 0
    (mkPager [] [(2, 1)] [] {[2]}) (mkTxManager kTxInvalidId (Some sample_tx) [] 6)
    [] (mkLogger [] false false).

Lemma sample_alloc_wf : alloc_wf sample_db sample_tx.
Proof.
  split; try done.
  - unfold page_size_ok. set_solver.
  - split; [done|]. intros q. cbn. rewrite covers_cons, covers_nil, elem_of_singleton. lia.
  - intros q. rewrite elem_of_tx_pages. cbn. rewrite covers_cons, covers_nil. lia.
  - split; [done|]. intros q Hq. by apply covers_nil in Hq.
Qed.

Lemma sample_inv : db_inv sample_db.
Proof. split; [exists sample_tx; apply sample_alloc_wf|]. intros q p Hq. cbn in Hq. by rewrite lookup_empty in Hq. Qed.

(** An empty leaf and a leaf with one entry. *)
Definition blank_node : NodeData :=
  mkNode (mkHeader 0 kLeaf 0 0 256) 0 (replicate 29 (mkSlot 0 false 0 false 0)) (replicate 256 x00).

Lemma blank_leaf_ok : leaf_ok sample_db blank_node.
Proof.
  split; [|done]. split; [|by constructor]. split; [split|..]; try done.
  unfold page_size_ok. set_solver.
Qed.

Lemma sample_store_room (n : Z) : n <= 111 -> store_room sample_db n.
Proof. intros Hn Hbig. change ((pg_page_size sample_db - 34) / 2) with 111 in Hbig. lia. Qed.

(** The state an operation leaves, on the sample. *)
Definition after {A} (m : NodeM (St := DBImpl) A) (x : NodeData * DBImpl) : NodeData * DBImpl :=
  match m x with Ok _ x' => x' | _ => x end.

Definition sound (x : NodeData * DBImpl) : Prop :=
  leaf_ok x.2 x.1 /\ db_inv x.2 /\ page_size x.2 = 256.

Lemma blank_sound : sound (blank_node, sample_db).
Proof. split; [apply blank_leaf_ok|]. split; [apply sample_inv|done]. Qed.

(** Small insertions and deletions keep the sample sound. *)
Lemma insert_sound x (i : nat) k v :
  sound x -> (i <=? Z.to_nat (count x.1))%nat && (length k + length v <=? 111)%nat = true ->
  sound (after (Leaf_Insert (Z.of_nat i) (Ext k) v) x).
Proof.
  intros (Hok & Hinv & Hps) Hb. apply andb_true_iff in Hb as [Hi Hk].
  apply Nat.leb_le in Hi, Hk. destruct x as [nd d]. cbn [fst snd] in *.
  pose proof (sw_count _ _ Hok).
  assert (Hroom : store_room d (Z.of_nat (length k + length v))).
  { intros Hbig. change (pg_page_size d) with (page_size d) in Hbig. rewrite Hps in Hbig.
    change ((256 - 34) / 2) with 111 in Hbig. lia. }
  destruct (Leaf_Insert_recs nd d i k v Hok Hinv) as (nd' & d' & Hrun & Hok' & Hinv' & Hext & _);
    [lia|change (pg_page_size d) with (page_size d); lia|done|].
  unfold after. rewrite Hrun. split; [done|]. split; [done|].
  change (pg_page_size d' = 256). rewrite (pe_ps _ _ Hext). exact Hps.
Qed.

Lemma delete_sound x (i : nat) :
  sound x -> (i <? Z.to_nat (count x.1))%nat = true -> sound (after (Leaf_Delete (Z.of_nat i)) x).
Proof.
  intros (Hok & Hinv & Hps) Hi. apply Nat.ltb_lt in Hi. destruct x as [nd d]. cbn [fst snd] in *.
  pose proof (length_recs _ _ Hok) as Hl. pose proof (sw_count _ _ Hok).
  destruct (lookup_lt_is_Some_2 (recs nd) i) as [r Hr]; [lia|].
  destruct (Leaf_Delete_recs nd d i r Hok Hinv Hr) as (nd' & d' & Hrun & Hok' & Hinv' & Hext & _).
  unfold after. rewrite Hrun. split; [done|]. split; [done|].
  change (pg_page_size d' = 256). rewrite (pe_ps _ _ Hext). exact Hps.
Qed.

(** Two entries, inline. *)
Definition two_entries : NodeData * DBImpl :=
  after (Leaf_Insert 1 (Ext [x62]) [x02; x03]) (after (Leaf_Insert 0 (Ext [x61]) [x01]) (blank_node, sample_db)).

Lemma two_entries_sound : sound two_entries.
Proof.
  unfold two_entries. apply (insert_sound _ 1); [|by vm_compute].
  apply (insert_sound _ 0); [apply blank_sound|by vm_compute].
Qed.

(** An overflow entry of 200 bytes, an inline one, and the space of a third. *)
Definition big_value : list byte := replicate 200 x07.
Definition overflow_entry : NodeData * DBImpl :=
  after (Leaf_Insert 0 (Ext [x61]) big_value) (blank_node, sample_db).

Lemma overflow_entry_sound : sound overflow_entry.
Proof.
  destruct (Leaf_Insert_recs blank_node sample_db 0 [x61] big_value) as (nd & d & Hrun & Hok & Hinv & Hext & _).
  - apply blank_leaf_ok.
  - apply sample_inv.
  - vm_compute. discriminate.
  - vm_compute. discriminate.
  - intros _. split; [done|]. vm_compute. discriminate.
  - unfold overflow_entry, after. change 0 with (Z.of_nat 0). rewrite Hrun. split; [done|]. split; [done|].
    change (pg_page_size d = 256). by rewrite (pe_ps _ _ Hext).
Qed.

Definition crowded : NodeData * DBImpl :=
  after (Leaf_Delete 2) (after (Leaf_Insert 2 (Ext [x63]) (replicate 79 x01))
    (after (Leaf_Insert 1 (Ext [x62]) (replicate 99 x01)) overflow_entry)).

Lemma crowded_sound : sound crowded.
Proof.
  unfold crowded. apply (delete_sound _ 2); [|by vm_compute].
  apply (insert_sound _ 2); [|by vm_compute]. apply (insert_sound _ 1); [|by vm_compute].
  apply overflow_entry_sound.
Qed.
