(* ===== verification/LeafTheorems.v ===== *)
(** The properties of leaf nodes, stated on the entries they hold, with their
    instances on the database of [Sample.v]. *)
From S2P Require Import Prelude Format Comparator State Memory FreeMap Pager PagerI PagerInst.
From S2P Require Import Node NodeWf NodeSpec Sample.

Section leaf_theorems.
Context {St : Type} `{PagerLaws St}.
Implicit Types (nd : NodeData) (s : St).

Lemma holds_entry s k v r : holds true s k v r -> rec_entry (pg_mem s) (pg_page_size s) r = mkEntry k v (r_bucket r).
Proof.
  intros [Hk _ _ Hc]. unfold rec_entry. rewrite Hc, Hk, Nat2Z.id.
  by rewrite take_app_length, drop_app_length.
Qed.

Lemma leaf_entries_extends nd s s' :
  leaf_ok s nd -> pg_extends s s' ->
  rec_entry (pg_mem s') (pg_page_size s') <$> recs nd = entries s nd.
Proof.
  intros [Hok Hleaf] Hext. apply entries_extends; [done|].
  pose proof (no_live _ _ Hok) as Hlv. by rewrite Hleaf in Hlv.
Qed.

(** Entry [i] has its record in the page. *)
Definition inline_at nd (i : nat) : Prop := forall r, recs nd !! i = Some r -> r_overflow r = false.

(** C14: inserting into a leaf succeeds exactly when the record, inline or as
    an overflow reference, and its slot fit once the page is compacted; then
    the new entry stands at the given position and no other entry changes.
    Otherwise the leaf is untouched.  Pages in use keep their contents. *)
Theorem Leaf_Insert_spec nd s (i : nat) k v :
  leaf_ok s nd -> pg_inv s -> Z.of_nat i <= count nd ->
  Z.of_nat (length k) <= pg_page_size s -> store_room s (Z.of_nat (length k + length v)) ->
  let need := record_need (pg_page_size s) (Z.of_nat (length k + length v)) true in
  let ok := need <=? pg_page_size s - (18 + 8 * count nd) - space_used (header nd) in
  exists nd' s', Leaf_Insert (Z.of_nat i) (Ext k) v (nd, s) = Ok ok (nd', s') /\
    leaf_ok s' nd' /\ pg_inv s' /\ pg_extends s s' /\
    if ok then exists b,
      entries s' nd' = take i (entries s nd) ++ mkEntry k v b :: drop i (entries s nd)
    else nd' = nd /\ s' = s.
Proof.
  intros Hok Hinv Hi Hk Hroom need ok.
  destruct (Leaf_Insert_recs nd s i k v Hok Hinv Hi Hk Hroom)
    as (nd' & s' & Hrun & Hok' & Hinv' & Hext & _ & Hres).
  fold need ok in Hrun, Hres. exists nd', s'. split_and!; try done. destruct ok; [|done].
  destruct Hres as (r & Hrecs & Hhold). exists (r_bucket r).
  rewrite <- (holds_entry _ _ _ _ Hhold), <- (leaf_entries_extends nd s s' Hok Hext).
  unfold entries. by rewrite Hrecs, fmap_app, fmap_take, fmap_cons, fmap_drop.
Qed.
(** C15: overwriting the value of an entry with an inline record succeeds exactly
    when the new record fits in the page freed of the old one; then that entry,
    and no other, has the new value and keeps its bucket mark.  Otherwise the
    leaf is as it was: the deleted record is restored byte for byte. *)
Theorem Leaf_Update_spec nd s (i : nat) e k v :
  leaf_ok s nd -> pg_inv s -> entries s nd !! i = Some e -> inline_at nd i ->
  Z.of_nat (length k) <= pg_page_size s -> store_room s (Z.of_nat (length k + length v)) ->
  let need := record_need (pg_page_size s) (Z.of_nat (length k + length v)) false in
  let ok := need <=? pg_page_size s - (18 + 8 * count nd) -
              (space_used (header nd) - Z.of_nat (length (e_key e) + length (e_value e))) in
  exists nd' s', Leaf_Update (Z.of_nat i) (Ext k) v (nd, s) = Ok ok (nd', s') /\
    leaf_ok s' nd' /\ pg_inv s' /\ pg_extends s s' /\
    if ok then entries s' nd' = <[i := mkEntry k v (e_bucket e)]> (entries s nd)
    else nd' = nd /\ s' = s.
Proof.
  intros Hok Hinv He Hin Hk Hroom need ok.
  apply list_lookup_fmap_Some in He as (r & -> & Hr). specialize (Hin r Hr).
  destruct (Leaf_Update_inline nd s i r k v Hok Hinv Hr Hin Hk Hroom)
    as (nd' & s' & Hrun & Hok' & Hinv' & Hext & _ & Hres).
  assert (Hsz : (length (e_key (rec_entry (pg_mem s) (pg_page_size s) r)) +
                length (e_value (rec_entry (pg_mem s) (pg_page_size s) r)))%nat = length (r_bytes r)).
  { unfold rec_entry, rec_content. rewrite Hin. cbn. rewrite length_take, length_drop. lia. }
  rewrite <- Hsz in Hrun, Hres. fold need ok in Hrun, Hres. clear Hsz.
  exists nd', s'. split_and!; try done. destruct ok; [|done].
  destruct Hres as (r' & Hrecs & Hhold & Hb). cbn [rec_entry e_bucket]. rewrite <- Hb.
  rewrite <- (holds_entry _ _ _ _ Hhold), <- (leaf_entries_extends nd s s' Hok Hext).
  unfold entries. by rewrite Hrecs, list_fmap_insert.
Qed.

(** C37: overwriting an entry whose record is in overflow pages, when the new
    record fits only after compaction, stops at the assertion of [Compactify]:
    [DeleteRecord] has taken the old reference out of [space_used], and the
    copy still copies it. *)
Theorem Leaf_Update_overflow_fault nd s (i : nat) k v :
  leaf_ok s nd -> (i < length (entries s nd))%nat -> ~ inline_at nd i ->
  let need := record_need (pg_page_size s) (Z.of_nat (length k + length v)) false in
  data_offset (header nd) - (18 + 8 * count nd) < need ->
  need <= pg_page_size s - (18 + 8 * count nd) - (space_used (header nd) - 4) ->
  Leaf_Update (Z.of_nat i) (Ext k) v (nd, s) = Fault Assertion.
Proof.
  intros Hok Hi Hov need Hno Hyes. unfold entries in Hi. rewrite length_fmap in Hi.
  destruct (lookup_lt_is_Some_2 _ _ Hi) as [r Hr].
  apply (Leaf_Update_overflow_stuck nd s i r); try done.
  destruct (r_overflow r) eqn:E; [done|]. exfalso. apply Hov. intros r' Hr'.
  rewrite Hr in Hr'. by injection Hr' as <-.
Qed.

(** C16: deleting an entry removes that entry and no other, whether its record
    is inline or in overflow pages. *)
Theorem Leaf_Delete_spec nd s (i : nat) :
  leaf_ok s nd -> pg_inv s -> (i < length (entries s nd))%nat ->
  exists nd' s', Leaf_Delete (Z.of_nat i) (nd, s) = Ok tt (nd', s') /\
    leaf_ok s' nd' /\ pg_inv s' /\ pg_extends s s' /\
    entries s' nd' = delete i (entries s nd).
Proof.
  intros Hok Hinv Hi. unfold entries in Hi. rewrite length_fmap in Hi.
  destruct (lookup_lt_is_Some_2 _ _ Hi) as [r Hr].
  destruct (Leaf_Delete_recs nd s i r Hok Hinv Hr) as (nd' & s' & Hrun & Hok' & Hinv' & Hext & _ & _ & Hrecs & _).
  exists nd', s'. split_and!; try done.
  rewrite <- (leaf_entries_extends nd s s' Hok Hext). unfold entries.
  by rewrite Hrecs, fmap_app, fmap_take, fmap_drop, delete_take_drop.
Qed.

(** The key and the value read at a slot are those of the entry, from the
    page or from its overflow pages. *)
Theorem Leaf_read_spec nd s (i : nat) e :
  leaf_ok s nd -> pg_inv s -> entries s nd !! i = Some e ->
  key_at (Z.of_nat i) (nd, s) = Ok (e_key e) (nd, s) /\
  value_at (Z.of_nat i) (nd, s) = Ok (e_value e) (nd, s).
Proof.
  intros Hok Hinv He. apply list_lookup_fmap_Some in He as (r & -> & Hr). split.
  - rewrite (key_at_ok s nd i r Hok Hinv Hr). by rewrite (lo_leaf _ _ Hok).
  - by rewrite (value_at_ok s nd i r Hok Hinv Hr).
Qed.
End leaf_theorems.

Lemma Leaf_Insert_spec_witness :
  exists nd' s' b,
    Leaf_Insert 0 (Ext [x61; x62]) [x01] (blank_node, sample_db) = Ok true (nd', s') /\
    entries s' nd' = [mkEntry [x61; x62] [x01] b].
Proof.
  destruct (Leaf_Insert_spec blank_node sample_db 0 [x61; x62] [x01])
    as (nd' & s' & Hrun & _ & _ & _ & Hres).
  - apply blank_leaf_ok.
  - apply sample_inv.
  - vm_compute. discriminate.
  - vm_compute. discriminate.
  - apply sample_store_room. vm_compute. discriminate.
  - replace (_ <=? _) with true in Hrun, Hres by (vm_compute; reflexivity).
    destruct Hres as (b & He). exists nd', s', b. split; [exact Hrun|exact He].
Defined.

Lemma Leaf_Update_spec_witness :
  exists nd' s',
    Leaf_Update 1 (Ext [x62]) [x09] two_entries = Ok true (nd', s') /\
    entries s' nd' = [mkEntry [x61] [x01] false; mkEntry [x62] [x09] false].
Proof.
  destruct two_entries_sound as (Hok & Hinv & Hps). rewrite (surjective_pairing two_entries).
  destruct (Leaf_Update_spec two_entries.1 two_entries.2 1 (mkEntry [x62] [x02; x03] false) [x62] [x09])
    as (nd' & s' & Hrun & _ & _ & _ & Hres).
  - exact Hok.
  - exact Hinv.
  - vm_compute. reflexivity.
  - intros r Hr. vm_compute in Hr. injection Hr as <-. reflexivity.
  - vm_compute. discriminate.
  - intros Hbig. vm_compute in Hbig. discriminate.
  - replace (_ <=? _) with true in Hrun, Hres by (vm_compute; reflexivity).
    exists nd', s'. split; [exact Hrun|]. rewrite Hres. vm_compute. reflexivity.
Defined.

Lemma Leaf_Update_overflow_fault_witness :
  Leaf_Update 0 (Ext [x61]) (replicate 59 x05) crowded = Fault Assertion.
Proof.
  rewrite (surjective_pairing crowded). apply (Leaf_Update_overflow_fault crowded.1 crowded.2 0).
  - exact (proj1 crowded_sound).
  - vm_compute. repeat constructor.
  - intros H. specialize (H (mkRec true 1 false 200 [x02; x00; x00; x00]) ltac:(vm_compute; reflexivity)).
    discriminate H.
  - vm_compute. reflexivity.
  - vm_compute. discriminate.
Defined.

Lemma Leaf_Delete_spec_witness :
  exists nd' s',
    Leaf_Delete 0 two_entries = Ok tt (nd', s') /\
    entries s' nd' = [mkEntry [x62] [x02; x03] false].
Proof.
  destruct two_entries_sound as (Hok & Hinv & Hps). rewrite (surjective_pairing two_entries).
  destruct (Leaf_Delete_spec two_entries.1 two_entries.2 0) as (nd' & s' & Hrun & _ & _ & _ & Hres).
  - exact Hok.
  - exact Hinv.
  - vm_compute. repeat constructor.
  - exists nd', s'. split; [exact Hrun|]. rewrite Hres. vm_compute. reflexivity.
Defined.

Lemma Leaf_read_spec_witness :
  key_at 0 overflow_entry = Ok [x61] overflow_entry /\
  value_at 0 overflow_entry = Ok big_value overflow_entry.
Proof.
  destruct overflow_entry_sound as (Hok & Hinv & Hps). rewrite (surjective_pairing overflow_entry).
  apply (Leaf_read_spec overflow_entry.1 overflow_entry.2 0 (mkEntry [x61] big_value false)).
  - exact Hok.
  - exact Hinv.
  - vm_compute. reflexivity.
Defined.
