(* ===== verification/Search.v ===== *)
(** [Node::LowerBound] of [src/node.cpp]: the halving search over a node's
    slots is the search for the first key that is not below the given one, and
    its flag tells whether that key is the given one. *)
From S2P Require Import Prelude Format Comparator State Memory PagerI Node NodeWf NodeSpec.
From S2P Require Import PagerInst Sample.

Section search.
Context {St : Type} `{PagerLaws St}.
Implicit Types (nd : NodeData) (s : St) (key : list byte).

(** The keys of a node, leaf or branch. *)
Definition rec_key leaf s (r : Rec) : list byte :=
  take (Z.to_nat (r_key r)) (rec_content (pg_mem s) (pg_page_size s) leaf r).
Definition keys s nd : list (list byte) := rec_key (IsLeaf nd) s <$> recs nd.

Lemma key_at_keys s nd (i : nat) k :
  node_ok s nd -> pg_inv s -> keys s nd !! i = Some k -> key_at (Z.of_nat i) (nd, s) = Ok k (nd, s).
Proof.
  intros Hok Hinv Hk. apply list_lookup_fmap_Some in Hk as (r & -> & Hr). by apply key_at_ok.
Qed.

Lemma length_keys s nd : node_ok s nd -> Z.of_nat (length (keys s nd)) = count nd.
Proof. intros Hok. unfold keys. rewrite length_fmap. by apply (length_recs s). Qed.

(** [ks] is in order: no key is above a later one. *)
Definition in_order (cmp : comparator) (ks : list (list byte)) : Prop :=
  forall i j a b, (i < j)%nat -> ks !! i = Some a -> ks !! j = Some b ->
    cmp a b = Some Lt \/ cmp a b = Some Eq.

(** What the search returns: [p] keys are below [key], the others are not, and
    the flag tells whether key [p] is [key]. *)
Definition found (cmp : comparator) (ks : list (list byte)) key (p : nat) (eq : bool) : Prop :=
  (p <= length ks)%nat /\
  (forall j a, ks !! j = Some a -> (j < p)%nat <-> cmp a key = Some Lt) /\
  (eq = true <-> ks !! p = Some key).

Section order.
Context (cmp : comparator) (key_ok : list byte -> Prop) {HO : KeyOrder cmp key_ok}.

(** Comparisons with one key follow the order of the list. *)
Lemma order_below ks key i j a b :
  in_order cmp ks -> Forall key_ok ks -> key_ok key -> (i < j)%nat ->
  ks !! i = Some a -> ks !! j = Some b -> cmp b key = Some Lt -> cmp a key = Some Lt.
Proof.
  intros Ho Hks Hk Hij Ha Hb Hc.
  pose proof (Forall_lookup_1 _ _ _ _ Hks Ha). pose proof (Forall_lookup_1 _ _ _ _ Hks Hb).
  destruct (Ho i j a b Hij Ha Hb) as [Hab|Hab].
  - by apply (ko_trans a b key).
  - apply ko_eq in Hab; [|done..]. by subst.
Qed.

Lemma order_above ks key i j a b :
  in_order cmp ks -> Forall key_ok ks -> key_ok key -> (i < j)%nat ->
  ks !! i = Some a -> ks !! j = Some b -> cmp a key = Some Gt -> cmp b key = Some Gt.
Proof.
  intros Ho Hks Hk Hij Ha Hb Hc.
  pose proof (Forall_lookup_1 _ _ _ _ Hks Ha) as Hka. pose proof (Forall_lookup_1 _ _ _ _ Hks Hb) as Hkb.
  destruct (Ho i j a b Hij Ha Hb) as [Hab|Hab].
  - apply (ko_antisym _ _ _ Hka Hk) in Hc. cbn in Hc.
    pose proof (ko_trans key a b Hk Hka Hkb Hc Hab) as Hlt.
    by apply (ko_antisym _ _ _ Hk Hkb) in Hlt.
  - apply ko_eq in Hab; [|done..]. by subst.
Qed.

(** The halving loop, with [n] keys from [lo] left to examine. *)
Lemma lower_bound_loop_ok nd s key fuel : forall (lo n : nat) (eq : bool),
  node_ok s nd -> pg_inv s -> in_order cmp (keys s nd) -> Forall key_ok (keys s nd) -> key_ok key ->
  (n < fuel)%nat -> (lo + n <= length (keys s nd))%nat ->
  (forall j a, keys s nd !! j = Some a -> (j < lo)%nat -> cmp a key = Some Lt) ->
  (forall j a, keys s nd !! j = Some a -> (lo + n <= j)%nat -> cmp a key <> Some Lt) ->
  (eq = true <-> exists j, (lo + n <= j)%nat /\ keys s nd !! j = Some key) ->
  exists p eq', lower_bound_loop cmp fuel (Z.of_nat lo) (Z.of_nat n) key eq (nd, s) =
    Ok (Z.of_nat p, eq') (nd, s) /\ found cmp (keys s nd) key p eq'.
Proof.
  induction fuel as [|fuel IH]; intros lo n eq Hok Hinv Ho Hks Hk Hf Hn Hlo Hhi Heq; [lia|].
  cbn [lower_bound_loop]. destruct n as [|n].
  - exists lo, eq. split; [done|]. split; [lia|]. rewrite Nat.add_0_r in *. split.
    + intros j a Hj. split; [by apply Hlo|]. intros Hlt.
      destruct (decide (j < lo)%nat); [done|]. exfalso. apply (Hhi j a Hj); [lia|done].
    + rewrite Heq. split; [|by exists lo]. intros (j & Hle & Hj).
      destruct (decide (j = lo)) as [->|Hne]; [done|].
      apply lookup_lt_Some in Hj as Hlt. destruct (lookup_lt_is_Some_2 (keys s nd) lo) as [a Ha]; [lia|].
      pose proof (Forall_lookup_1 _ _ _ _ Hks Ha) as Hka.
      destruct (Ho lo j a key ltac:(lia) Ha Hj) as [Hc|Hc].
      * exfalso. apply (Hhi lo a Ha); [lia|done].
      * apply (ko_eq a key Hka Hk) in Hc. by subst.
  - rewrite (proj2 (Z.leb_gt _ _)) by lia.
    set (h := (S n / 2)%nat).
    assert (Hh : (h <= n)%nat) by (subst h; apply Nat.lt_succ_r, Nat.div_lt; lia).
    assert (Hz : Z.of_nat lo + Z.of_nat (S n) / 2 = Z.of_nat (lo + h)).
    { subst h. rewrite Nat2Z.inj_add, Nat2Z.inj_div. done. }
    replace (Z.of_nat (S n) / 2) with (Z.of_nat h) by lia.
    replace (Z.of_nat lo + Z.of_nat h) with (Z.of_nat (lo + h)) by lia.
    destruct (lookup_lt_is_Some_2 (keys s nd) (lo + h)) as [m Hm]; [lia|].
    pose proof (Forall_lookup_1 _ _ _ _ Hks Hm) as Hkm.
    run_step (key_at_keys s nd _ m Hok Hinv Hm).
    destruct (ko_total m key Hkm Hk) as (c & Hc). rewrite Hc.
    assert (Hup : c <> Lt -> forall j a, keys s nd !! j = Some a -> (lo + h <= j)%nat -> cmp a key <> Some Lt).
    { intros Hne j a Hj Hle Hlt. destruct (decide (j = lo + h)%nat) as [->|Hjne].
      - rewrite Hm in Hj. injection Hj as <-. rewrite Hc in Hlt. by injection Hlt.
      - pose proof (order_below (keys s nd) key (lo + h) j m a Ho Hks Hk ltac:(lia) Hm Hj Hlt).
        rewrite Hc in H0. by injection H0. }
    destruct c.
    + apply (IH lo h true); try done; try lia; [by apply Hup|].
      split; [|done]. intros _. apply (ko_eq m key Hkm Hk) in Hc as ->. by exists (lo + h)%nat.
    + replace (Z.of_nat (lo + h) + 1) with (Z.of_nat (lo + h + 1)) by lia.
      replace (Z.of_nat (S n) - Z.of_nat h - 1) with (Z.of_nat (n - h)) by lia.
      replace (lo + S n)%nat with (lo + h + 1 + (n - h))%nat in * by lia.
      apply IH; try done; try lia.
      intros j a Hj Hlt. destruct (decide (j = lo + h)%nat) as [->|Hjne].
      * rewrite Hm in Hj. by injection Hj as <-.
      * apply (order_below (keys s nd) key j (lo + h) a m); try done. lia.
    + apply (IH lo h eq); try done; try lia; [by apply Hup|].
      rewrite Heq. split; intros (j & Hle & Hj); exists j; (split; [|done]); [lia|].
      destruct (decide (lo + S n <= j)%nat) as [|Hlt]; [done|]. exfalso.
      destruct (decide (j = lo + h)%nat) as [->|Hjne].
      * rewrite Hm in Hj. injection Hj as ->.
        pose proof (proj2 (ko_eq key key Hk Hk) eq_refl) as He. by rewrite Hc in He.
      * pose proof (order_above (keys s nd) key (lo + h) j m key Ho Hks Hk ltac:(lia) Hm Hj Hc) as Hg.
        pose proof (proj2 (ko_eq key key Hk Hk) eq_refl) as He. by rewrite Hg in He.
Qed.
End order.

Lemma Node_LowerBound_ok (cmp : comparator) (key_ok : list byte -> Prop)
    `{KeyOrder cmp key_ok} nd s key :
  node_ok s nd -> pg_inv s -> in_order cmp (keys s nd) -> Forall key_ok (keys s nd) -> key_ok key ->
  exists p eq, Node_LowerBound cmp key (nd, s) = Ok (Z.of_nat p, eq) (nd, s) /\
    found cmp (keys s nd) key p eq.
Proof.
  intros Hok Hinv Ho Hks Hk. pose proof (length_keys s nd Hok) as Hl.
  unfold Node_LowerBound. run_step (data_ok nd s). rewrite <- Hl, Nat2Z.id.
  apply (lower_bound_loop_ok cmp key_ok nd s key _ 0 (length (keys s nd)) false); try done; try lia.
  - intros j a Hj Hle. apply lookup_lt_Some in Hj. lia.
  - split; [done|]. intros (j & Hle & Hj). apply lookup_lt_Some in Hj. lia.
Qed.

(** C17: [LowerBound] on a node whose keys are in order returns the position of
    the first key that is not below the given one ([count] if there is none),
    and reports equality exactly when that key is the given one; it never runs
    past its slots and leaves the node alone. *)
Theorem Node_LowerBound_spec (cmp : comparator) (key_ok : list byte -> Prop)
    `{KeyOrder cmp key_ok} nd s key :
  node_ok s nd -> pg_inv s -> in_order cmp (keys s nd) -> Forall key_ok (keys s nd) -> key_ok key ->
  exists p eq, Node_LowerBound cmp key (nd, s) = Ok (Z.of_nat p, eq) (nd, s) /\
    found cmp (keys s nd) key p eq.
Proof. apply (Node_LowerBound_ok cmp key_ok). Qed.
End search.

Lemma ab_in_order : in_order ByteArrayComparator [[x61]; [x62]].
Proof.
  intros [|[|i]] [|[|j]] a b Hij Ha Hb; try lia; cbn in Ha, Hb; try discriminate.
  injection Ha as <-. injection Hb as <-. left. reflexivity.
Qed.

Lemma Node_LowerBound_spec_witness :
  exists p eq, Node_LowerBound ByteArrayComparator [x62] two_entries = Ok (Z.of_nat p, eq) two_entries /\
    found ByteArrayComparator [[x61]; [x62]] [x62] p eq.
Proof.
  destruct two_entries_sound as (Hok & Hinv & Hps). rewrite (surjective_pairing two_entries).
  assert (Hkeys : keys two_entries.2 two_entries.1 = [[x61]; [x62]]) by (vm_compute; reflexivity).
  rewrite <- Hkeys.
  apply (Node_LowerBound_spec ByteArrayComparator short_key two_entries.1 two_entries.2 [x62]).
  - exact (lo_node _ _ Hok).
  - exact Hinv.
  - rewrite Hkeys. exact ab_in_order.
  - rewrite Hkeys. repeat constructor; vm_compute; discriminate.
  - vm_compute. discriminate.
Defined.
