(* ===== verification/BranchSpec.v ===== *)
(** What a branch promises ([BranchNode] of [src/node.cpp]): a branch is its
    list of [n] keys and its list of [n + 1] children, the last one being
    [tail_child]; each operation is the pair of list operations its name and
    its side argument say. *)
From S2P Require Import Prelude Format Comparator State Memory PagerI Node NodeWf NodeSpec Search.

Section branch.
Context {St : Type} `{PagerLaws St}.
Implicit Types (nd : NodeData) (s : St) (k : list byte).

Record branch_ok s nd : Prop := {
  bo_node :> node_ok s nd;
  bo_branch : IsLeaf nd = false;
  bo_tail : 0 <= tail_child nd < 2 ^ 32;
}.

Definition children nd : list Z := (r_u <$> recs nd) ++ [tail_child nd].

Lemma length_children s nd : node_ok s nd -> Z.of_nat (length (children nd)) = count nd + 1.
Proof.
  intros Hok. unfold children. rewrite length_app, length_fmap. cbn.
  pose proof (length_recs s nd Hok). lia.
Qed.

(** ** Keys under later pager states *)
Lemma rec_key_extends leaf s s' r :
  pg_extends s s' -> rec_live leaf s r -> rec_key leaf s' r = rec_key leaf s r.
Proof. intros Hext Hr. unfold rec_key. by rewrite (rec_content_extends leaf s s'). Qed.

Lemma keys_extends leaf s s' l :
  pg_extends s s' -> Forall (rec_live leaf s) l -> rec_key leaf s' <$> l = rec_key leaf s <$> l.
Proof.
  intros Hext Hl. apply list_fmap_ext. intros i r Hr.
  apply rec_key_extends; [done|]. exact (Forall_lookup_1 _ _ _ _ Hl Hr).
Qed.

Lemma live_extends leaf s s' l :
  pg_extends s s' -> Forall (rec_live leaf s) l -> Forall (rec_live leaf s') l.
Proof. intros Hext Hl. eapply Forall_impl; [exact Hl|]. intros r. by apply rec_live_extends. Qed.

Lemma holds_key s k r : holds false s k [] r -> rec_key false s r = k.
Proof.
  intros [Hk _ _ Hc]. unfold rec_key. rewrite Hc, Hk, Nat2Z.id, app_nil_r. apply firstn_all.
Qed.

(** A record with another child: key and liveness do not see it. *)
Definition set_r_u (u : Z) (r : Rec) : Rec := mkRec (r_overflow r) (r_key r) (r_bucket r) u (r_bytes r).

Lemma set_r_u_key s u r : rec_key false s (set_r_u u r) = rec_key false s r.
Proof. done. Qed.
Lemma set_r_u_live s u r : rec_live false s r -> rec_live false s (set_r_u u r).
Proof. done. Qed.

(** ** A hole whose right neighbour has a new child *)
Definition reslot (u : Z) (x : Slot) : Slot :=
  mkSlot (record_offset x) (is_overflow_pages x) (key_size x) (is_bucket x) u.

Lemma set_slot_u_reslot u x : 0 <= u < 2 ^ 32 -> set_slot_u u x = reslot u x.
Proof. intros. unfold set_slot_u. by rewrite u32_small. Qed.

Lemma rec_of_reslot nd u x : IsLeaf nd = false -> rec_of nd (reslot u x) = set_r_u u (rec_of nd x).
Proof. intros E. unfold rec_of, set_r_u, reslot, sizeof_record. cbn. by rewrite E. Qed.

Definition first_child (l : list Slot) (u : Z) : list Slot :=
  match l with z :: l => reslot u z :: l | [] => [] end.

Lemma first_child_sizes nd u l : IsLeaf nd = false -> sizes nd (first_child l u) = sizes nd l.
Proof. intros E. destruct l as [|z l]; [done|]. cbn. unfold sizeof_record. cbn. by rewrite E. Qed.

Lemma first_child_ok ps nd u l :
  IsLeaf nd = false -> 0 <= u < 2 ^ 32 -> Forall (slot_ok ps nd) l -> Forall (slot_ok ps nd) (first_child l u).
Proof.
  intros E Hu Hl. destruct Hl as [|z l [] Hl]; constructor; [|done].
  unfold sizeof_record in so_high. rewrite E in so_high.
  split; cbn; unfold sizeof_record; cbn; rewrite ?E; done.
Qed.

Lemma hole_child ps nd l1 x l2 dead u :
  node_hole ps nd l1 x l2 dead -> IsLeaf nd = false -> 0 <= u < 2 ^ 32 ->
  node_hole ps (set_slots (l1 ++ x :: first_child l2 u ++ dead) nd) l1 x (first_child l2 u) dead.
Proof.
  intros [Hsp Hs Hc Hused Hlive Hxu] E Hu.
  assert (Hlen : length (first_child l2 u) = length l2) by (by destruct l2).
  destruct Hsp as [Hps Hc0 Hlow Hus Htop Hsl Hpl].
  split; try done; [split; try done| | |].
  - cbn. rewrite <- Hsl, Hs, !length_app. cbn. rewrite !length_app. by rewrite Hlen.
  - change (count (set_slots _ nd)) with (count nd). by rewrite Hlen.
  - change (space_used (header (set_slots _ nd))) with (space_used (header nd)).
    rewrite Hused, (sizes_ext nd (set_slots _ nd)) by done.
    by rewrite !sizes_app, (first_child_sizes nd u l2 E).
  - apply Forall_app in Hlive as [H1 H2]. apply (Forall_app (slot_ok ps (set_slots _ nd))).
    apply (first_child_ok ps nd u l2 E Hu) in H2.
    split; (eapply Forall_impl; [eassumption|]; intros z []; by split).
Qed.

(** ** Insert *)

(** The slot's child fields after the moves of [Insert], before the count grows. *)
Definition insert_children nd l1 x l2 dead (child : Z) (right : bool) : NodeData :=
  if right then
    match l2 with
    | [] => set_tail_child child (set_slots (l1 ++ reslot (tail_child nd) x :: dead) nd)
    | z :: _ => set_slots (l1 ++ reslot (slot_u z) x :: first_child l2 child ++ dead) nd
    end
  else set_slots (l1 ++ reslot child x :: l2 ++ dead) nd.

Lemma insert_children_ok {A} (rest : NodeM A) nd s l1 x l2 dead child (right : bool) (c : Z) :
  slots nd = l1 ++ x :: l2 ++ dead -> 0 <= child < 2 ^ 32 -> 0 <= tail_child nd < 2 ^ 32 ->
  Forall (fun z => 0 <= slot_u z < 2 ^ 32) l2 ->
  c = Z.of_nat (length l1 + length l2) -> count nd = c ->
  ((if right then
      if Z.of_nat (length l1) =? c then
        on_slot (Z.of_nat (length l1)) (set_slot_u (tail_child nd)) ;;;
        on_data (set_tail_child child)
      else
        let* next := get_slot (Z.of_nat (length l1) + 1) in
        on_slot (Z.of_nat (length l1)) (set_slot_u (left_child next)) ;;;
        on_slot (Z.of_nat (length l1) + 1) (set_slot_u child)
    else on_slot (Z.of_nat (length l1)) (set_slot_u child)) ;;; rest) (nd, s) =
  rest (insert_children nd l1 x l2 dead child right, s).
Proof.
  intros Hs Hch Htl Hl2 Hc Hcnt. unfold insert_children. destruct right.
  - destruct l2 as [|z l2].
    + rewrite (proj2 (Z.eqb_eq _ _)) by (cbn in Hc; lia).
      rewrite (bind_ok _ _ (nd, s) tt (set_tail_child child (set_slots (l1 ++ reslot (tail_child nd) x :: dead) nd), s)); [done|].
      run_step (on_slot_ok nd s l1 x dead _ (set_slot_u (tail_child nd)) Hs eq_refl).
      by rewrite set_slot_u_reslot.
    + rewrite (proj2 (Z.eqb_neq _ _)) by (cbn in Hc; lia).
      apply Forall_cons in Hl2 as [Hz _].
      assert (Hs' : slots nd = (l1 ++ [x]) ++ z :: (l2 ++ dead)) by (by rewrite <- app_assoc).
      assert (Hi : Z.of_nat (length l1) + 1 = Z.of_nat (length (l1 ++ [x]))).
      { rewrite length_app. cbn. lia. }
      rewrite (bind_ok _ _ (nd, s) tt (set_slots (l1 ++ reslot (slot_u z) x :: first_child (z :: l2) child ++ dead) nd, s)); [done|].
      run_step (get_slot_ok nd s (l1 ++ [x]) z (l2 ++ dead) _ Hs' Hi).
      run_step (on_slot_ok nd s l1 x ((z :: l2) ++ dead) _ (set_slot_u (slot_u z)) Hs eq_refl).
      rewrite (set_slot_u_reslot (slot_u z)) by done.
      rewrite (on_slot_ok _ s (l1 ++ [reslot (slot_u z) x]) z (l2 ++ dead)).
      * rewrite set_slot_u_reslot by done. cbn [first_child]. rewrite <- app_assoc. done.
      * cbn. by rewrite <- app_assoc.
      * rewrite length_app. cbn. lia.
  - rewrite (bind_ok _ _ _ _ _ (on_slot_ok nd s l1 x (l2 ++ dead) _ (set_slot_u child) Hs eq_refl)).
    by rewrite set_slot_u_reslot.
Qed.

Lemma delete_app_add {A} (n : nat) (l1 l2 : list A) :
  delete (length l1 + n)%nat (l1 ++ l2) = l1 ++ delete n l2.
Proof.
  induction l1 as [|x l1 IH]; [done|].
  change (x :: delete (length l1 + n)%nat (l1 ++ l2) = x :: l1 ++ delete n l2). by rewrite IH.
Qed.

Definition insert_at {A} (p : nat) (x : A) (l : list A) : list A := take p l ++ x :: drop p l.

Lemma insert_at_app {A} (x : A) l1 l2 : insert_at (length l1) x (l1 ++ l2) = l1 ++ x :: l2.
Proof. unfold insert_at. by rewrite take_app_length, drop_app_length. Qed.

(** The hole of [Insert], with the children already in place. *)
Lemma insert_children_hole ps nd l1 l2 y dead x child right :
  node_wf ps nd -> IsLeaf nd = false -> slots nd = l1 ++ l2 ++ y :: dead -> live_slots nd = l1 ++ l2 ->
  count nd = Z.of_nat (length l1) + Z.of_nat (length l2) ->
  18 + 8 * (count nd + 1) <= data_offset (header nd) ->
  0 <= child < 2 ^ 32 -> 0 <= tail_child nd < 2 ^ 32 ->
  exists x' l2',
    let nd2 := set_hcount (count nd + 1)
      (insert_children (set_slots (l1 ++ x :: l2 ++ dead) nd) l1 x l2 dead child right) in
    node_hole ps nd2 l1 x' l2' dead /\
    header nd2 = header (set_hcount (count nd + 1) nd) /\ payload nd2 = payload nd /\
    0 <= tail_child nd2 < 2 ^ 32 /\
    (rec_of nd <$> l2') = (if right then match rec_of nd <$> l2 with
                            | r :: l => set_r_u child r :: l | [] => [] end
                          else rec_of nd <$> l2) /\
    (slot_u <$> l1) ++ slot_u x' :: (slot_u <$> l2') ++ [tail_child nd2] =
      insert_at (length l1 + if right then 1 else 0) child ((slot_u <$> l1 ++ l2) ++ [tail_child nd]).
Proof.
  intros Hwf E Hs Hl Hc Hroom Hch Htl.
  assert (Hu2 : Forall (fun z => 0 <= slot_u z < 2 ^ 32) l2).
  { pose proof (nw_live _ _ Hwf) as Hlv. rewrite Hl in Hlv. apply Forall_app in Hlv as [_ H2].
    eapply Forall_impl; [exact H2|]. intros z []. done. }
  assert (Hins : forall l p, (slot_u <$> l1) ++ l = insert_at (length l1 + p) child ((slot_u <$> l1 ++ l2) ++ [tail_child nd])
    <-> l = insert_at p child ((slot_u <$> l2) ++ [tail_child nd])).
  { intros l p. unfold insert_at. rewrite fmap_app, <- app_assoc.
    rewrite <- (length_fmap slot_u l1). rewrite take_app_add, drop_app_add, <- app_assoc.
    split; [apply app_inv_head|by intros ->]. }
  unfold insert_children. destruct right; [destruct l2 as [|z l2]|].
  - exists (reslot (tail_child nd) x), []. cbv zeta. split_and!; try done; try (cbn; lia).
    + destruct (insert_hole ps nd l1 [] y dead (reslot (tail_child nd) x)) as [Hsp ? ? ? ? ?]; try done.
      split; try done; first [destruct Hsp; by split |
        eapply Forall_impl; [eassumption|]; intros z []; by split].
    + by apply Hins.
  - apply Forall_cons in Hu2 as [Hz _].
    exists (reslot (slot_u z) x), (first_child (z :: l2) child). cbv zeta. split_and!; try done; try (cbn; lia).
    + apply (hole_child ps (set_hcount (count nd + 1) (set_slots (l1 ++ reslot (slot_u z) x :: (z :: l2) ++ dead) nd)));
        try done. by apply (insert_hole ps nd l1 (z :: l2) y dead (reslot (slot_u z) x)).
    + cbn [first_child fmap list_fmap]. by rewrite rec_of_reslot.
    + by apply Hins.
  - exists (reslot child x), l2. cbv zeta. split_and!; try done; try (cbn; lia).
    + by apply (insert_hole ps nd l1 l2 y dead (reslot child x)).
    + by apply Hins.
Qed.

Lemma fmap_r_u nd (l : list Slot) : r_u <$> (rec_of nd <$> l) = slot_u <$> l.
Proof. by rewrite <- list_fmap_compose. Qed.

Lemma Branch_Insert_recs nd s (i : nat) k child right :
  branch_ok s nd -> pg_inv s -> Z.of_nat i <= count nd -> 0 <= child < 2 ^ 32 ->
  Z.of_nat (length k) <= pg_page_size s -> store_room s (Z.of_nat (length k)) ->
  let need := record_need (pg_page_size s) (Z.of_nat (length k)) true in
  let ok := need <=? pg_page_size s - (18 + 8 * count nd) - space_used (header nd) in
  exists nd' s', Branch_Insert (Z.of_nat i) (Ext k) child right (nd, s) = Ok ok (nd', s') /\
    branch_ok s' nd' /\ pg_inv s' /\ pg_extends s s' /\
    same_mark nd nd' /\
    if ok then keys s' nd' = insert_at i k (keys s nd) /\
      children nd' = insert_at (i + if right then 1 else 0) child (children nd) /\
      pg_space s - store_pages (pg_page_size s) (Z.of_nat (length k)) <= pg_space s'
    else nd' = nd /\ s' = s.
Proof.
  intros [Hok E Htl] Hinv Hi Hch Hk Hroom need ok.
  unfold Branch_Insert. run_step (data_ok nd s). rewrite bind_assert by (by apply Z.leb_le).
  destruct (RequestSpaceFor_ok nd s (Z.of_nat (length k)) 0 true Hok) as (nd1 & Hrun & Hwf1 & Hcp & _ & Hres).
  rewrite Z.add_0_r in Hrun, Hres. fold need ok in Hrun, Hres.
  cbn [span_size]. run_step Hrun. destruct ok eqn:Eok; cbn [negb].
  2: { subst nd1. exists nd, s. split_and!; done. }
  run_step (data_ok nd1 s). pose proof (cp_count _ _ Hcp) as Hc1.
  assert (E1 : IsLeaf nd1 = false) by (by rewrite (compacted_leaf _ _ Hcp)).
  assert (Hn : 8 + record_need (pg_page_size s) (Z.of_nat (length k)) false = need).
  { subst need. unfold record_need. lia. }
  assert (Hnn : 0 <= record_need (pg_page_size s) (Z.of_nat (length k)) false).
  { unfold record_need. destruct (_ <? _); lia. }
  destruct (insert_split _ nd1 i Hwf1) as (l1 & l2 & y & dead & Hs & Hl & -> & Hc); [lia..|].
  destruct (move_slots_up nd1 s l1 l2 y dead (count nd1) _ Hs eq_refl Hc) as (x & _ & Hmv).
  run_step Hmv. pose proof (cp_tail _ _ Hcp) as Ht1.
  destruct (insert_children_hole _ nd1 l1 l2 y dead x child right Hwf1 E1 Hs Hl Hc)
    as (x' & l2' & Hh & Hhd & Hpl & Htl2 & Hr2 & Hcs); [lia|done|by rewrite Ht1|].
  set (nd1' := set_slots (l1 ++ x :: l2 ++ dead) nd1) in *.
  assert (Hu2 : Forall (fun z => 0 <= slot_u z < 2 ^ 32) l2).
  { pose proof (nw_live _ _ Hwf1) as Hlv. rewrite Hl in Hlv. apply Forall_app in Hlv as [_ H2].
    eapply Forall_impl; [exact H2|]. intros z []. done. }
  change (tail_child nd1) with (tail_child nd1').
  rewrite (insert_children_ok _ nd1' s l1 x l2 dead child right (count nd1));
    [|done|done|by change (tail_child nd1') with (tail_child nd1); rewrite Ht1|done|lia|done].
  set (nd2 := set_hcount _ _) in *.
  unfold on_data at 1, modify at 1, bind at 1. cbn [fst snd].
  replace (set_hcount (count (insert_children nd1' l1 x l2 dead child right) + 1) _) with nd2.
  2: { subst nd2. f_equal. f_equal. unfold insert_children. by destruct right, l2. }
  assert (Hty2 : IsLeaf nd2 = false) by (unfold IsLeaf; rewrite Hhd; exact E1).
  assert (Hcnt2 : count nd2 = count nd1 + 1).
  { unfold count at 1. rewrite Hhd. cbn. apply u14_small. pose proof (space_bounds _ _ Hwf1). lia. }
  destruct (StoreRecord_ok nd2 s l1 x' l2' dead _ (Ext k) [] Hh eq_refl Hinv)
    as (nd3 & s' & r & Hst & Hinv' & Hext & Hwf3 & Hrecs & Hhold & _ & Hru & Hty & Htx & Htl3); try done.
  { cbn [span_size length]. by rewrite Z.add_0_r. }
  { cbn [span_size length]. rewrite Z.add_0_r. unfold hole_room. rewrite Hcnt2, Hhd. cbn. lia. }
  run_step Hst. rewrite Hty2 in Hhold. specialize (Hru Hty2). cbn [span_bytes] in Hhold.
  assert (Hext2 : forall l : list Slot, rec_of nd2 <$> l = rec_of nd1 <$> l).
  { intros l. apply list_fmap_ext. intros j z _. unfold rec_of. rewrite Hpl.
    by rewrite (sizeof_record_ext nd1 nd2) by (by rewrite Hhd). }
  rewrite !Hext2 in Hrecs.
  assert (E3 : IsLeaf nd3 = false) by (unfold IsLeaf in *; by rewrite Hty).
  pose proof (no_live _ _ Hok) as Hlv. rewrite E, <- (cp_recs _ _ Hcp) in Hlv.
  unfold recs in Hlv. rewrite Hl, fmap_app in Hlv. apply Forall_app in Hlv as [Hlv1 Hlv2].
  assert (Hlv2' : Forall (rec_live false s) (rec_of nd1 <$> l2')).
  { rewrite Hr2. destruct right; [|done]. destruct Hlv2; [done|]. by constructor. }
  exists nd3, s'. split_and!; try done.
  - split; [|done|by rewrite Htl3]. split; [by rewrite (pe_ps _ _ Hext)|]. rewrite Hrecs, E3.
    apply Forall_app. split; [by apply (live_extends false s s')|].
    constructor; [apply Hhold|by apply (live_extends false s s')].
  - split; [rewrite Htx, Hhd; exact (cp_txid _ _ Hcp)|rewrite Hty, Hhd; exact (cp_type _ _ Hcp)].
  - { unfold keys at 1. rewrite Hrecs, E3, fmap_app, fmap_cons, (holds_key _ _ _ Hhold).
      rewrite !(keys_extends false s s') by done.
      unfold keys. rewrite E, <- (cp_recs _ _ Hcp). unfold recs. rewrite Hl, !fmap_app.
      rewrite <- (length_fmap (rec_of nd1) l1), <- (length_fmap (rec_key false s)), insert_at_app.
      do 2 f_equal. rewrite Hr2. destruct right; [|done]. by destruct l2. }
  - { unfold children. rewrite Hrecs, fmap_app, fmap_cons, !fmap_r_u, Hru, Htl3, <- app_assoc.
      cbn [app]. rewrite Hcs. rewrite <- (cp_recs _ _ Hcp), <- Ht1. unfold recs.
      by rewrite Hl, fmap_r_u. }
  - pose proof (nr_space _ _ _ _ _ _ Hhold) as Hspace. cbn [length] in Hspace. by rewrite Nat.add_0_r in Hspace.
Qed.

(** ** Delete *)
Lemma reslot_wf ps nd l1 z l2 dead u :
  node_wf ps nd -> IsLeaf nd = false -> slots nd = l1 ++ z :: l2 ++ dead ->
  live_slots nd = l1 ++ z :: l2 -> 0 <= u < 2 ^ 32 ->
  let nd' := set_slots (l1 ++ reslot u z :: l2 ++ dead) nd in
  node_wf ps nd' /\ recs nd' = (rec_of nd <$> l1) ++ set_r_u u (rec_of nd z) :: (rec_of nd <$> l2).
Proof.
  intros Hwf E Hs Hl Hu nd'. destruct (slots_split _ _ Hwf) as (dead0 & _ & Hlen & _).
  destruct Hwf as [[Hps Hc0 Hlow Hus Htop Hsl Hpl] Hused Hlive]. rewrite Hl in Hused, Hlive, Hlen.
  assert (Hlv : live_slots nd' = l1 ++ reslot u z :: l2).
  { apply (live_slots_eq nd' _ dead); [cbn; by rewrite <- app_assoc|].
    change (count nd') with (count nd). by rewrite <- Hlen, !length_app. }
  assert (Esz : sizeof_record nd (reslot u z) = sizeof_record nd z).
  { unfold sizeof_record. cbn. by rewrite E. }
  split; [split; [split; try done|..]|].
  - cbn. rewrite <- Hsl, Hs, !length_app. done.
  - rewrite Hlv, (sizes_ext nd nd') by done. change (space_used (header nd')) with (space_used (header nd)).
    by rewrite Hused, !sizes_app, !sizes_cons, Esz.
  - rewrite Hlv. apply Forall_app in Hlive as [H1 Hl2]. apply Forall_cons in Hl2 as [Hz H2].
    apply Forall_app. split; [|constructor].
    + eapply Forall_impl; [exact H1|]. intros y []. by split.
    + destruct Hz as [Hk _ Hlo Hhi]. split; try done.
      change (sizeof_record nd' (reslot u z)) with (sizeof_record nd (reslot u z)). by rewrite Esz.
    + eapply Forall_impl; [exact H2|]. intros y []. by split.
  - unfold recs. rewrite Hlv, fmap_app. cbn [fmap list_fmap]. by rewrite <- rec_of_reslot.
Qed.

(** The record's bytes and pages given up: the first half of [Delete]. *)
Lemma Branch_free_record nd s l1 x l2 dead :
  node_ok s nd -> IsLeaf nd = false -> pg_inv s -> slots nd = l1 ++ x :: l2 ++ dead ->
  live_slots nd = l1 ++ x :: l2 -> Z.of_nat (length l1) < count nd ->
  exists x' s', slot_u x' = slot_u x /\
    (if is_overflow_pages x then
       on_data (fun nd => set_space_used (space_used (header nd) - sizeof_OverflowRecord) nd) ;;;
       let* raw := GetRawRecordPtr (Z.of_nat (length l1)) in
       let* rec := read_record raw sizeof_OverflowRecord in
       on_slot (Z.of_nat (length l1)) (set_is_overflow_pages false) ;;;
       let* ps := node_page_size in
       on_pager (pg_Free (le_value rec) (GetPageCount ps (key_size x)))
     else on_data (fun nd => set_space_used (space_used (header nd) - key_size x) nd)) (nd, s) =
    Ok tt (set_slots (l1 ++ x' :: l2 ++ dead)
             (set_space_used (space_used (header nd) - sizeof_record nd x) nd), s') /\
    pg_inv s' /\ pg_extends s s' /\ pg_space s' = pg_space s /\
    pg_freed s' = pg_freed s ++ rec_pairs (pg_page_size s) false (rec_of nd x).
Proof.
  intros Hok E0 Hinv Hs Hl Hc. set (nd1 := set_space_used (_ - sizeof_record nd x) nd).
  destruct (is_overflow_pages x) eqn:E.
  - destruct (overflow_page s nd l1 x l2 dead Hok Hinv Hs Hl E) as (Ho & Ho4 & Hg).
    destruct (pg_Free_extends s _ (GetPageCount (pg_page_size s) (key_size x)) Hinv Hg) as (s' & Hf & Hinv' & Hext & Hsp & Hfd).
    exists (set_is_overflow_pages false x), s'. split; [done|]. split; [|split_and!; try done].
    2: { rewrite Hfd. unfold rec_pairs, rec_total. cbn [rec_of r_overflow r_key r_u r_bytes]. rewrite E, Z.add_0_r.
         assert (Hx : x ∈ live_slots nd) by (rewrite Hl, elem_of_app; right; left). pose proof (no_wf _ _ Hok) as [_ _ Hlv].
         rewrite Forall_forall in Hlv. destruct (Hlv x Hx) as [Hk _ _ _]. rewrite (u32_small (key_size x)) by lia. unfold sizeof_record. by rewrite E. }
    assert (En : nd1 = set_space_used (space_used (header nd) - sizeof_OverflowRecord) nd).
    { subst nd1. unfold sizeof_record. by rewrite E. }
    rewrite (bind_ok _ _ (nd, s) tt (nd1, s)) by (by rewrite En).
    run_step (GetRawRecordPtr_ok nd1 s l1 x (l2 ++ dead) _ Hs eq_refl Hc).
    run_step (read_record_ok nd1 s _ 4 Ho Ho4).
    run_step (on_slot_ok nd1 s l1 x (l2 ++ dead) _ (set_is_overflow_pages false) Hs eq_refl).
    run_step (page_size_run (set_slots (l1 ++ set_is_overflow_pages false x :: l2 ++ dead) nd1) s).
    by apply on_pager_ok.
  - exists x, s. split; [done|]. split; [|split_and!; try done; unfold rec_pairs; cbn [rec_of r_overflow]; by rewrite E, app_nil_r].
    rewrite set_on_data. do 2 f_equal.
    subst nd1. unfold sizeof_record, set_slots, set_space_used, set_header. cbn.
    by rewrite Hs, E, E0, Z.add_0_r.
Qed.

(** The children's moves of a right-child delete below the last slot: the next
    record takes the deleted one's left child and moves into its slot. *)
Lemma Branch_Delete_shift nd s l1 x z l2 dead :
  slots nd = l1 ++ x :: (z :: l2) ++ dead -> 0 <= slot_u x < 2 ^ 32 ->
  count nd = Z.of_nat (length l1 + S (S (length l2))) ->
  let i := Z.of_nat (length l1) in
  exists y,
  ((let* slot := get_slot i in
    on_slot (i + 1) (set_slot_u (left_child slot)) ;;;
    let* next := get_slot (i + 1) in
    on_slot i (fun _ => next)) ;;;
   move_slots (i + 1) (i + 2) (count nd - i - 2)) (nd, s) =
  Ok tt (set_slots (l1 ++ reslot (slot_u x) z :: l2 ++ y :: dead) nd, s).
Proof.
  intros Hs Hu Hc i. set (z1 := reslot (slot_u x) z).
  assert (Hi : forall w : Slot, i + 1 = Z.of_nat (length (l1 ++ [w]))).
  { intros w. rewrite length_app. cbn. lia. }
  assert (Hs1 : slots nd = (l1 ++ [x]) ++ z :: l2 ++ dead) by (by rewrite Hs, <- app_assoc).
  set (nd1 := set_slots ((l1 ++ [x]) ++ z1 :: l2 ++ dead) nd).
  assert (Hs2 : slots nd1 = l1 ++ x :: z1 :: l2 ++ dead) by (cbn; by rewrite <- app_assoc).
  set (nd2 := set_slots (l1 ++ z1 :: z1 :: l2 ++ dead) nd1).
  assert (Hs3 : slots nd2 = (l1 ++ [z1]) ++ z1 :: l2 ++ dead) by (cbn; by rewrite <- app_assoc).
  assert (Hmv2 : count nd = i + 1 + 1 + Z.of_nat (length l2)) by lia.
  destruct (move_slots_down nd2 s (l1 ++ [z1]) z1 l2 dead (count nd) _ Hs3 (Hi z1) Hmv2) as (y & Hmv).
  exists y. rewrite (bind_ok _ _ (nd, s) tt (nd2, s)).
  - replace (i + 2) with (i + 1 + 1) by lia.
    replace (count nd - i - 2) with (count nd - (i + 1) - 1) by lia.
    rewrite Hmv. unfold set_slots. cbn. by rewrite <- app_assoc.
  - run_step (get_slot_ok nd s l1 x (z :: l2 ++ dead) _ Hs eq_refl).
    run_step (on_slot_ok nd s (l1 ++ [x]) z (l2 ++ dead) _ (set_slot_u (slot_u x)) Hs1 (Hi x)).
    rewrite (set_slot_u_reslot _ z Hu). fold z1 nd1.
    run_step (get_slot_ok nd1 s (l1 ++ [x]) z1 (l2 ++ dead) _ eq_refl (Hi x)).
    exact (on_slot_ok nd1 s l1 x (z1 :: l2 ++ dead) _ (fun _ => z1) Hs2 eq_refl).
Qed.

Lemma Branch_Delete_recs nd s (i : nat) right :
  branch_ok s nd -> pg_inv s -> Z.of_nat i < count nd ->
  exists nd' s', Branch_Delete (Z.of_nat i) right (nd, s) = Ok tt (nd', s') /\
    branch_ok s' nd' /\ pg_inv s' /\ pg_extends s s' /\ pg_space s' = pg_space s /\
    same_mark nd nd' /\
    keys s' nd' = delete i (keys s nd) /\
    children nd' = delete (i + if right then 1 else 0)%nat (children nd) /\
    (forall r, recs nd !! i = Some r -> pg_freed s' = pg_freed s ++ rec_pairs (pg_page_size s) false r).
Proof.
  intros [Hok E Htl] Hinv Hi. pose proof (length_recs _ _ Hok) as Hlr.
  destruct (lookup_lt_is_Some_2 (recs nd) i) as [r Hr]; [lia|].
  destruct (live_split _ _ _ _ Hok Hr) as (l1 & x & l2 & dead & Hs & Hl & -> & -> & Hx & Hc).
  unfold Branch_Delete. run_step (data_ok nd s). rewrite bind_assert by (by apply Z.ltb_lt).
  run_step (get_slot_ok nd s l1 x (l2 ++ dead) _ Hs eq_refl).
  destruct (Branch_free_record nd s l1 x l2 dead Hok E Hinv Hs Hl Hi) as (x' & s' & Hu' & Hfree & Hinv' & Hext & Hsp & Hfd).
  assert (Hfr : forall r, recs nd !! length l1 = Some r -> pg_freed s' = pg_freed s ++ rec_pairs (pg_page_size s) false r).
  { intros r Hr'. rewrite Hr in Hr'. by injection Hr' as <-. }
  run_step Hfree. set (nd2 := set_slots (l1 ++ x' :: l2 ++ dead) _).
  pose proof (no_live _ _ Hok) as Hlv. rewrite E in Hlv. unfold recs in Hlv.
  rewrite Hl, fmap_app in Hlv. rewrite fmap_cons in Hlv.
  apply Forall_app in Hlv as [Hlv1 Hlv2]. apply Forall_cons in Hlv2 as [_ Hlv2].
  assert (Hslots : forall y l', live_slots nd = l1 ++ x :: l' -> l' = l2 -> node_wf (pg_page_size s)
    (set_hcount (count nd - 1) (set_slots (l1 ++ l' ++ y :: dead) nd2)) /\
    recs (set_hcount (count nd - 1) (set_slots (l1 ++ l' ++ y :: dead) nd2)) =
      (rec_of nd <$> l1) ++ (rec_of nd <$> l')).
  { intros y l' _ ->. exact (remove_wf _ nd l1 x l2 y dead (no_wf _ _ Hok) Hs Hl Hc). }
  set (fin := on_data (fun nd => set_hcount (count nd - 1) nd) ;;; check_space).
  assert (Hfin : forall nd3, count nd3 = count nd -> node_wf (pg_page_size s) (set_hcount (count nd - 1) nd3) ->
    fin (nd3, s') = Ok tt (set_hcount (count nd - 1) nd3, s')).
  { intros nd3 Hc3 Hwf3. unfold fin, on_data, modify, bind. cbn. rewrite Hc3.
    apply (check_space_ok _ s'). rewrite (pe_ps _ _ Hext). apply Hwf3. }
  assert (Hdone : forall nd3 l2', node_wf (pg_page_size s) nd3 -> header nd3 = header (set_hcount (count nd - 1) nd2) ->
    recs nd3 = (rec_of nd <$> l1) ++ l2' -> Forall (rec_live false s) l2' ->
    rec_key false s <$> l2' = rec_key false s <$> (rec_of nd <$> l2) -> 0 <= tail_child nd3 < 2 ^ 32 ->
    (r_u <$> l2') ++ [tail_child nd3] =
      delete (if right then 1 else 0)%nat (slot_u x :: (slot_u <$> l2) ++ [tail_child nd]) ->
    branch_ok s' nd3 /\ same_mark nd nd3 /\
    keys s' nd3 = delete (length l1) (keys s nd) /\
    children nd3 = delete (length l1 + if right then 1 else 0)%nat (children nd)).
  { intros nd3 l2' Hwf3 Hhd Hrecs Hl2' Hkeys Htl3 Hch.
    assert (E3 : IsLeaf nd3 = false) by (unfold IsLeaf; by rewrite Hhd).
    split_and!.
    - split; [|done|done]. split; [by rewrite (pe_ps _ _ Hext)|]. rewrite Hrecs, E3.
      apply (live_extends false s s' _ Hext). by apply Forall_app.
    - unfold same_mark. by rewrite Hhd.
    - unfold keys at 1. rewrite E3, Hrecs, fmap_app. rewrite !(keys_extends false s s') by done.
      unfold keys. rewrite E. unfold recs. rewrite Hl, Hkeys, !fmap_app. cbn [fmap list_fmap].
      rewrite <- (length_fmap (rec_of nd) l1), <- (length_fmap (rec_key false s)). by rewrite delete_middle.
    - unfold children. rewrite Hrecs. unfold recs at 1. rewrite Hl, !fmap_app. cbn [fmap list_fmap].
      rewrite !fmap_r_u, <- !app_assoc, Hch. cbn [app].
      rewrite <- (length_fmap slot_u l1). rewrite delete_app_add. done. }
  pose proof (so_u _ _ _ Hx) as Hxu.
  destruct right; [destruct l2 as [|z l2]|].
  - rewrite (proj2 (Z.ltb_ge _ _)) by (cbn in Hc; lia).
    rewrite (proj2 (Z.ltb_ge 1 _)) by (cbn in Hc; lia).
    assert (Hc1 : count nd - 1 = Z.of_nat (length l1)) by (cbn in Hc; lia).
    set (nd3 := set_tail_child (slot_u x) nd2).
    destruct (Hslots x' [] Hl eq_refl) as [Hwf3 Hrecs3].
    change (set_slots (l1 ++ [] ++ x' :: dead) nd2) with nd2 in Hwf3, Hrecs3.
    assert (Hwf3' : node_wf (pg_page_size s) (set_hcount (count nd - 1) nd3)).
    { destruct Hwf3 as [[] ? Hlv]. split; [by split|done|].
      eapply Forall_impl; [exact Hlv|]. intros y []. by split. }
    destruct (Hdone (set_hcount (count nd - 1) nd3) []) as (? & ? & ? & ?); try done.
    exists (set_hcount (count nd - 1) nd3), s'. split_and!; try done.
    rewrite (bind_ok _ _ (nd2, s') tt (nd3, s')); [by apply Hfin|].
    rewrite (bind_ok _ _ (nd2, s') tt (nd3, s')); [done|].
    run_step (get_slot_ok nd2 s' l1 x' dead (count nd - 1) eq_refl Hc1). by rewrite Hu'.
  - rewrite (proj2 (Z.ltb_lt _ _)) by (cbn in Hc; lia).
    rewrite (proj2 (Z.ltb_lt 1 _)) by (cbn in Hc; lia).
    destruct (Branch_Delete_shift nd2 s' l1 x' z l2 dead eq_refl
      ltac:(by rewrite Hu') Hc) as (y & Hmv).
    rewrite Hu' in Hmv. set (nd3 := set_slots (l1 ++ reslot (slot_u x) z :: l2 ++ y :: dead) nd2) in Hmv.
    destruct (Hslots y (z :: l2) Hl eq_refl) as [Hwf3 Hrecs3].
    set (nd4 := set_hcount (count nd - 1) (set_slots (l1 ++ (z :: l2) ++ y :: dead) nd2)) in *.
    assert (Hlv4 : live_slots nd4 = l1 ++ z :: l2).
    { apply (live_slots_eq nd4 _ (y :: dead)); [cbn; by rewrite <- app_assoc|].
      unfold count at 1. cbn. rewrite u14_small; [rewrite ?length_app; cbn in Hc |- *; lia|].
      pose proof (space_bounds _ _ (no_wf _ _ Hok)). cbn in Hc. lia. }
    destruct (reslot_wf _ nd4 l1 z l2 (y :: dead) (slot_u x) Hwf3 E eq_refl Hlv4 Hxu) as [Hwf5 Hrecs5].
    assert (E5 : set_hcount (count nd - 1) nd3 = set_slots (l1 ++ reslot (slot_u x) z :: l2 ++ y :: dead) nd4).
    { done. }
    rewrite <- E5 in Hwf5, Hrecs5. change (rec_of nd4) with (rec_of nd) in Hrecs5.
    apply Forall_cons in Hlv2 as [Hlz Hlv2].
    destruct (Hdone (set_hcount (count nd - 1) nd3) (set_r_u (slot_u x) (rec_of nd z) :: (rec_of nd <$> l2)))
      as (? & ? & ? & ?); try done; [by constructor|by rewrite !fmap_cons, fmap_r_u|].
    exists (set_hcount (count nd - 1) nd3), s'. split_and!; try done.
    rewrite (bind_ok _ _ (nd2, s') tt (nd3, s') Hmv). by apply Hfin.
  - destruct (move_slots_down nd2 s' l1 x' l2 dead (count nd) _ eq_refl eq_refl ltac:(lia)) as (y & Hmv).
    set (nd3 := set_slots (l1 ++ l2 ++ y :: dead) nd2) in Hmv.
    destruct (Hslots y l2 Hl eq_refl) as [Hwf3 Hrecs3]. fold nd3 in Hwf3, Hrecs3.
    destruct (Hdone (set_hcount (count nd - 1) nd3) (rec_of nd <$> l2)) as (? & ? & ? & ?); try done.
    { rewrite fmap_r_u. done. }
    exists (set_hcount (count nd - 1) nd3), s'. split_and!; try done.
    rewrite (bind_ok _ _ (nd2, s') tt (nd3, s') Hmv). by apply Hfin.
Qed.

(** ** Update of a key *)
Lemma Branch_UpdateKey_recs nd s (i : nat) r k :
  branch_ok s nd -> pg_inv s -> recs nd !! i = Some r -> r_overflow r = false ->
  Z.of_nat (length k) <= pg_page_size s -> store_room s (Z.of_nat (length k)) ->
  let need := record_need (pg_page_size s) (Z.of_nat (length k)) false in
  let ok := need <=? pg_page_size s - (18 + 8 * count nd) -
              (space_used (header nd) - Z.of_nat (length (r_bytes r))) in
  exists nd' s', Branch_UpdateKey (Z.of_nat i) (Ext k) (nd, s) = Ok ok (nd', s') /\
    branch_ok s' nd' /\ pg_inv s' /\ pg_extends s s' /\
    same_mark nd nd' /\
    if ok then keys s' nd' = <[i := k]> (keys s nd) /\ children nd' = children nd /\
      pg_space s - store_pages (pg_page_size s) (Z.of_nat (length k)) <= pg_space s'
    else nd' = nd /\ s' = s.
Proof.
  intros [Hok E0 Htl] Hinv Hi E Hk Hroom need ok.
  pose proof (length_recs _ _ Hok) as Hlr. pose proof (lookup_lt_Some _ _ _ Hi).
  destruct (erase_request nd s i r (Z.of_nat (length k)) 0 Hok Hi E)
    as (x & nd1 & nd2 & Hget & Hdel & Hreq & Hres).
  rewrite Z.add_0_r in Hreq, Hres. fold need ok in Hreq, Hres. clearbody ok.
  unfold Branch_UpdateKey. run_step (data_ok nd s). rewrite bind_assert by (apply Z.ltb_lt; lia).
  run_step Hget. run_step Hdel. cbn [span_size]. run_step Hreq. destruct ok; cbn [negb].
  2: { run_step Hres. exists nd, s. split_and!; done. }
  destruct Hres as (l1 & x' & l2 & dead & Hh & Hl & Hs & <- & Hk0 & Hb & Hu & Hneed & Hlf & Htl2 & Htx & H1 & H2).
  rewrite E0 in Hlf. specialize (Hu E0).
  run_step (get_slot_ok nd2 s l1 x' (l2 ++ dead) _ Hs eq_refl).
  rewrite Hk0, (bind_ok _ _ _ _ _ (set_on_data _ _ _)).
  replace (set_space_used _ nd2) with nd2.
  2: { unfold set_space_used, set_header. rewrite Z.sub_0_r, u16_small; [by destruct nd2 as [[]]|].
       pose proof (sw_used _ _ Hh). pose proof (sw_top _ _ Hh). pose proof (sw_low _ _ Hh).
       pose proof (sw_count _ _ Hh). destruct (page_size_bounds _ (sw_ps _ _ Hh)). lia. }
  destruct (StoreRecord_ok nd2 s l1 x' l2 dead _ (Ext k) [] Hh eq_refl Hinv)
    as (nd3 & s' & r' & Hst & Hinv' & Hext & Hwf3 & Hrecs & Hhold & _ & Hru & Hty & Htx3 & Htl3); try done.
  { cbn [span_size length]. by rewrite Z.add_0_r. }
  { cbn [span_size length]. by rewrite Z.add_0_r. }
  rewrite Hlf in Hhold. specialize (Hru Hlf). cbn [span_bytes] in Hhold.
  assert (Hwf' : node_wf (pg_page_size s') nd3) by (by rewrite (pe_ps _ _ Hext)).
  run_step Hst. run_step (check_space_ok nd3 s' Hwf').
  assert (E3 : IsLeaf nd3 = false) by (unfold IsLeaf in *; by rewrite Hty).
  pose proof (no_live _ _ Hok) as Hlv. rewrite E0 in Hlv.
  rewrite H1, H2 in Hrecs. rewrite <- (insert_take_drop _ _ r' ltac:(eassumption)) in Hrecs.
  exists nd3, s'. split_and!; try done.
  - split; [|done|by rewrite Htl3, Htl2]. split; [done|]. rewrite Hrecs, E3.
    apply Forall_insert; [by apply (live_extends false s s')|apply Hhold].
  - destruct Htx as [Htx Htyp]. split; [by rewrite Htx3|by rewrite Hty].
  - unfold keys. rewrite Hrecs, E3, E0, list_fmap_insert, (holds_key _ _ _ Hhold). f_equal.
    by apply keys_extends.
  - unfold children. rewrite Hrecs, Htl3, Htl2, list_fmap_insert. f_equal.
    rewrite Hru, Hu. apply list_insert_id. by rewrite list_lookup_fmap, Hi.
  - pose proof (nr_space _ _ _ _ _ _ Hhold) as Hspace. cbn [length] in Hspace. by rewrite Nat.add_0_r in Hspace.
Qed.

(** ** Build and the children's accessors *)
Lemma Branch_Build_ok nd s tail :
  page_size_ok (pg_page_size s) -> pg_inv s -> 0 <= tail < 2 ^ 32 ->
  Z.of_nat (length (slots nd)) = (pg_page_size s - 18) / 8 ->
  Z.of_nat (length (payload nd)) = pg_page_size s ->
  exists nd', Branch_Build tail (nd, s) = Ok tt (nd', s) /\ branch_ok s nd' /\
    recs nd' = [] /\ tail_child nd' = tail /\ last_modified_txid (header nd') = pg_cur_txid s /\ IsBranch nd' = true.
Proof.
  intros Hps Hinv Htl Hsl Hpl. destruct (page_size_bounds _ Hps) as [Hr _].
  unfold Branch_Build. run_step (page_size_run nd s).
  repeat (rewrite (bind_ok _ _ _ _ _ (set_on_data _ _ _))).
  rewrite (bind_ok _ _ _ _ _ (on_pager_ok _ _ s _ s (pg_txid_ok s Hinv))), set_on_data.
  eexists. split; [done|]. split_and!; [|done|done|done|done].
  assert (Hd : i16 (pg_page_size s) = pg_page_size s) by (apply i16_small; lia).
  split; [|done|done]. split; [|by constructor]. split; [split|..]; unfold count; cbn;
    change (u14 0) with 0; change (u16 0) with 0; rewrite ?Hd; try done; lia.
Qed.

Lemma GetLeftChild_ok nd s (i : nat) c :
  branch_ok s nd -> children nd !! i = Some c -> GetLeftChild (Z.of_nat i) (nd, s) = Ok c (nd, s).
Proof.
  intros [Hok E _] Hc. pose proof (length_recs _ _ Hok) as Hl.
  unfold children in Hc. unfold GetLeftChild. run_step (data_ok nd s).
  destruct (decide (i < length (recs nd))%nat) as [Hi|Hi].
  - rewrite lookup_app_l in Hc by (by rewrite length_fmap).
    apply list_lookup_fmap_Some in Hc as (r & -> & Hr).
    destruct (live_split _ _ _ _ Hok Hr) as (l1 & x & l2 & dead & Hs & _ & -> & -> & _).
    rewrite bind_assert by (apply Z.leb_le; lia). rewrite (proj2 (Z.eqb_neq _ _)) by lia.
    run_step (get_slot_ok nd s l1 x (l2 ++ dead) _ Hs eq_refl). done.
  - rewrite lookup_app_r in Hc by (rewrite length_fmap; lia). rewrite length_fmap in Hc.
    apply list_lookup_singleton_Some in Hc as [Hi' <-].
    rewrite bind_assert by (apply Z.leb_le; lia). rewrite (proj2 (Z.eqb_eq _ _)) by lia. done.
Qed.

Lemma GetRightChild_ok nd s (i : nat) c :
  branch_ok s nd -> Z.of_nat i < count nd -> children nd !! S i = Some c ->
  GetRightChild (Z.of_nat i) (nd, s) = Ok c (nd, s).
Proof.
  intros Hb Hi Hc. pose proof (GetLeftChild_ok nd s (S i) c Hb Hc) as HL.
  unfold GetLeftChild in HL. unfold GetRightChild.
  rewrite (bind_ok _ _ _ _ _ (data_ok nd s)) in HL. rewrite (bind_ok _ _ _ _ _ (data_ok nd s)).
  rewrite bind_assert in HL by (apply Z.leb_le; lia). rewrite bind_assert by (by apply Z.ltb_lt).
  destruct (Z.eqb_spec (Z.of_nat (S i)) (count nd)), (Z.eqb_spec (Z.of_nat i) (count nd - 1)); try lia; [done|].
  by replace (Z.of_nat i + 1) with (Z.of_nat (S i)) by lia.
Qed.

Lemma SetLeftChild_ok nd s (i : nat) c :
  branch_ok s nd -> Z.of_nat i <= count nd -> 0 <= c < 2 ^ 32 ->
  exists nd', SetLeftChild (Z.of_nat i) c (nd, s) = Ok tt (nd', s) /\ branch_ok s nd' /\
    header nd' = header nd /\ keys s nd' = keys s nd /\ children nd' = <[i := c]> (children nd) /\
    r_overflow <$> recs nd' = r_overflow <$> recs nd.
Proof.
  intros [Hok E Htl] Hi Hc. pose proof (length_recs _ _ Hok) as Hl.
  unfold SetLeftChild. run_step (data_ok nd s). rewrite bind_assert by (by apply Z.leb_le).
  destruct (Z.eqb_spec (Z.of_nat i) (count nd)).
  - exists (set_tail_child c nd). unfold SetTailChild. rewrite set_on_data. split_and!; try done.
    + destruct Hok as [[[] ? ?] ?]. split; [|done|done]. split; [|done].
      split; [by split|done|]. eapply Forall_impl; [eassumption|]. intros z []. by split.
    + unfold children. cbn.
      rewrite insert_app_r_alt by (rewrite length_fmap; lia). rewrite length_fmap.
      by replace (i - length (recs nd))%nat with 0%nat by lia.
  - destruct (lookup_lt_is_Some_2 (recs nd) i) as [r Hr]; [lia|].
    destruct (live_split _ _ _ _ Hok Hr) as (l1 & x & l2 & dead & Hs & Hlv & -> & -> & _).
    destruct (reslot_wf _ nd l1 x l2 dead c (no_wf _ _ Hok) E Hs Hlv Hc) as [Hwf' Hrecs'].
    exists (set_slots (l1 ++ reslot c x :: l2 ++ dead) nd).
    rewrite (on_slot_ok nd s l1 x (l2 ++ dead) _ (set_slot_u c) Hs eq_refl), set_slot_u_reslot by done.
    assert (Hrecs : recs (set_slots (l1 ++ reslot c x :: l2 ++ dead) nd) =
                    <[length l1 := set_r_u c (rec_of nd x)]> (recs nd)).
    { rewrite Hrecs'. by apply (fmap_replace nd l1 x l2). }
    split_and!; try done.
    + split; [|done|done]. split; [done|]. change (IsLeaf (set_slots _ nd)) with (IsLeaf nd).
      rewrite Hrecs. pose proof (no_live _ _ Hok) as Hlive. apply Forall_insert; [done|].
      rewrite E. apply set_r_u_live. rewrite E in Hlive. exact (Forall_lookup_1 _ _ _ _ Hlive Hr).
    + unfold keys. change (IsLeaf (set_slots _ nd)) with (IsLeaf nd). rewrite Hrecs, list_fmap_insert, E.
      rewrite set_r_u_key. apply list_insert_id. by rewrite list_lookup_fmap, Hr.
    + unfold children. rewrite Hrecs, list_fmap_insert.
      change (tail_child (set_slots _ nd)) with (tail_child nd).
      rewrite insert_app_l by (by rewrite length_fmap; apply lookup_lt_Some in Hr). done.
    + rewrite Hrecs, list_fmap_insert. apply list_insert_id. by rewrite list_lookup_fmap, Hr.
Qed.
End branch.
