(* ===== verification/BranchTheorems.v ===== *)
(** The properties of branch nodes, stated on their keys and children, with
    their instances on the database of [Sample.v]. *)
From S2P Require Import Prelude Format Comparator State Memory FreeMap Pager PagerI PagerInst.
From S2P Require Import Node NodeWf NodeSpec Sample Search BranchSpec.

Section branch_theorems.
Context {St : Type} `{PagerLaws St}.
Implicit Types (nd : NodeData) (s : St) (k : list byte).

(** C18: inserting into a branch succeeds exactly when the key and its slot fit
    once the page is compacted; then the key stands at the given position and
    the child next to it on the given side, no other key or child changing.
    Otherwise the branch is untouched. *)
Theorem Branch_Insert_spec nd s (i : nat) k child right :
  branch_ok s nd -> pg_inv s -> Z.of_nat i <= count nd -> 0 <= child < 2 ^ 32 ->
  Z.of_nat (length k) <= pg_page_size s -> store_room s (Z.of_nat (length k)) ->
  let need := record_need (pg_page_size s) (Z.of_nat (length k)) true in
  let ok := need <=? pg_page_size s - (18 + 8 * count nd) - space_used (header nd) in
  exists nd' s', Branch_Insert (Z.of_nat i) (Ext k) child right (nd, s) = Ok ok (nd', s') /\
    branch_ok s' nd' /\ pg_inv s' /\ pg_extends s s' /\
    if ok then
      keys s' nd' = take i (keys s nd) ++ k :: drop i (keys s nd) /\
      let j := if right then S i else i in
      children nd' = take j (children nd) ++ child :: drop j (children nd)
    else nd' = nd /\ s' = s.
Proof.
  intros Hok Hinv Hi Hc Hk Hroom need ok.
  destruct (Branch_Insert_recs nd s i k child right Hok Hinv Hi Hc Hk Hroom)
    as (nd' & s' & Hrun & Hok' & Hinv' & Hext & _ & Hres).
  fold need ok in Hrun, Hres. exists nd', s'. split_and!; try done. destruct ok; [|done].
  destruct Hres as (-> & -> & _). split; [done|].
  replace (i + (if right then 1 else 0))%nat with (if right then S i else i) by (destruct right; lia).
  done.
Qed.

(** C19: deleting slot [i] of a branch removes its key and the child on the
    given side of it, and nothing else. *)
Theorem Branch_Delete_spec nd s (i : nat) right :
  branch_ok s nd -> pg_inv s -> Z.of_nat i < count nd ->
  exists nd' s', Branch_Delete (Z.of_nat i) right (nd, s) = Ok tt (nd', s') /\
    branch_ok s' nd' /\ pg_inv s' /\ pg_extends s s' /\
    keys s' nd' = delete i (keys s nd) /\
    children nd' = delete (if right then S i else i) (children nd).
Proof.
  intros Hok Hinv Hi.
  destruct (Branch_Delete_recs nd s i right Hok Hinv Hi) as (nd' & s' & Hrun & Hok' & Hinv' & Hext & _ & _ & Hk & Hc & _).
  exists nd', s'. split_and!; try done. rewrite Hc. f_equal. destruct right; lia.
Qed.

(** The children's half of [Update] is [SetLeftChild] at the side's index. *)
Lemma Branch_set_child nd s (i : nat) child (right : bool) :
  Z.of_nat i < count nd ->
  (if right then
     if Z.of_nat i =? count nd - 1 then on_data (set_tail_child child)
     else on_slot (Z.of_nat i + 1) (set_slot_u child)
   else on_slot (Z.of_nat i) (set_slot_u child)) (nd, s) =
  SetLeftChild (Z.of_nat (if right then S i else i)) child (nd, s).
Proof.
  intros Hi. unfold SetLeftChild. run_step (data_ok nd s).
  rewrite bind_assert by (apply Z.leb_le; destruct right; lia). destruct right.
  - replace (Z.of_nat (S i)) with (Z.of_nat i + 1) by lia.
    destruct (Z.eqb_spec (Z.of_nat i) (count nd - 1)), (Z.eqb_spec (Z.of_nat i + 1) (count nd)); try lia; done.
  - by rewrite (proj2 (Z.eqb_neq _ _)) by lia.
Qed.

Lemma Branch_Update_recs nd s (i : nat) r k child right :
  branch_ok s nd -> pg_inv s -> recs nd !! i = Some r -> r_overflow r = false ->
  0 <= child < 2 ^ 32 ->
  Z.of_nat (length k) <= pg_page_size s -> store_room s (Z.of_nat (length k)) ->
  let need := record_need (pg_page_size s) (Z.of_nat (length k)) false in
  let ok := need <=? pg_page_size s - (18 + 8 * count nd) -
              (space_used (header nd) - Z.of_nat (length (r_bytes r))) in
  exists nd' s', Branch_Update (Z.of_nat i) (Ext k) child right (nd, s) = Ok ok (nd', s') /\
    branch_ok s' nd' /\ pg_inv s' /\ pg_extends s s' /\ same_mark nd nd' /\
    if ok then keys s' nd' = <[i := k]> (keys s nd) /\
               children nd' = <[(if right then S i else i) := child]> (children nd) /\
               pg_space s - store_pages (pg_page_size s) (Z.of_nat (length k)) <= pg_space s'
    else nd' = nd /\ s' = s.
Proof.
  intros Hok Hinv Hi E Hch Hk Hroom need ok.
  pose proof (length_recs _ _ Hok) as Hlr. pose proof (lookup_lt_Some _ _ _ Hi).
  destruct (Branch_UpdateKey_recs nd s i r k Hok Hinv Hi E Hk Hroom)
    as (nd1 & s1 & Hrun & Hok1 & Hinv1 & Hext & Hmk & Hres). fold need ok in Hrun, Hres.
  unfold Branch_Update. run_step (data_ok nd s). rewrite bind_assert by (apply Z.ltb_lt; lia).
  run_step Hrun. destruct ok; cbn [negb].
  2: { destruct Hres as [-> ->]. exists nd, s. split_and!; done. }
  destruct Hres as (Hks & Hcs & Hsp). run_step (data_ok nd1 s1).
  assert (Hc1 : count nd1 = count nd).
  { pose proof (length_children _ _ Hok). pose proof (length_children _ _ Hok1). rewrite Hcs in *. lia. }
  destruct (SetLeftChild_ok nd1 s1 (if right then S i else i) child Hok1)
    as (nd2 & Hset & Hok2 & Hh2 & Hk2 & Hc2 & _); [destruct right; lia|done|].
  rewrite <- Branch_set_child in Hset by lia. run_step Hset.
  exists nd2, s1. split_and!; try done; [unfold same_mark in *; by rewrite Hh2|by rewrite Hk2|by rewrite Hc2, Hcs].
Qed.

(** C20: overwriting the key of a slot whose record is inline, and the child on
    the given side of it, changes that key and that child only; it succeeds
    exactly when the new key fits in the page freed of the old one, and the
    branch is otherwise as it was. *)
Theorem Branch_Update_spec nd s (i : nat) r k child right :
  branch_ok s nd -> pg_inv s -> recs nd !! i = Some r -> r_overflow r = false ->
  0 <= child < 2 ^ 32 ->
  Z.of_nat (length k) <= pg_page_size s -> store_room s (Z.of_nat (length k)) ->
  let need := record_need (pg_page_size s) (Z.of_nat (length k)) false in
  let ok := need <=? pg_page_size s - (18 + 8 * count nd) -
              (space_used (header nd) - Z.of_nat (length (r_bytes r))) in
  exists nd' s', Branch_Update (Z.of_nat i) (Ext k) child right (nd, s) = Ok ok (nd', s') /\
    branch_ok s' nd' /\ pg_inv s' /\ pg_extends s s' /\
    if ok then keys s' nd' = <[i := k]> (keys s nd) /\
               children nd' = <[(if right then S i else i) := child]> (children nd)
    else nd' = nd /\ s' = s.
Proof.
  intros Hok Hinv Hi E Hch Hk Hroom need ok.
  destruct (Branch_Update_recs nd s i r k child right Hok Hinv Hi E Hch Hk Hroom)
    as (nd' & s' & Hrun & Hok' & Hinv' & Hext & _ & Hres). fold need ok in Hrun, Hres.
  exists nd', s'. do 4 (split; [done|]). destruct ok; [|done]. by destruct Hres as (? & ? & _).
Qed.
End branch_theorems.

(** A branch with one key and two children. *)
Definition blank_branch : NodeData := set_node_type kBranch (set_tail_child 4 blank_node).
Lemma blank_branch_ok : branch_ok sample_db blank_branch.
Proof.
  split; [|done|done]. split; [|by constructor]. split; [split|..]; try done.
  unfold page_size_ok. set_solver.
Qed.

Definition one_key : NodeData * DBImpl := after (Branch_Insert 0 (Ext [x6d]) 5 true) (blank_branch, sample_db).

Lemma one_key_ok : branch_ok one_key.2 one_key.1 /\ db_inv one_key.2.
Proof.
  destruct (Branch_Insert_recs blank_branch sample_db 0 [x6d] 5 true) as (nd & d & Hrun & Hok & Hinv & _).
  - apply blank_branch_ok.
  - apply sample_inv.
  - vm_compute. discriminate.
  - lia.
  - vm_compute. discriminate.
  - apply sample_store_room. vm_compute. discriminate.
  - unfold one_key, after. change 0 with (Z.of_nat 0). rewrite Hrun. by split.
Qed.

Lemma Branch_Insert_spec_witness :
  exists nd' s',
    Branch_Insert 0 (Ext [x6d]) 5 true (blank_branch, sample_db) = Ok true (nd', s') /\
    keys s' nd' = [[x6d]] /\ children nd' = [4; 5].
Proof.
  destruct (Branch_Insert_spec blank_branch sample_db 0 [x6d] 5 true) as (nd & d & Hrun & _ & _ & _ & Hres).
  - apply blank_branch_ok.
  - apply sample_inv.
  - vm_compute. discriminate.
  - lia.
  - vm_compute. discriminate.
  - apply sample_store_room. vm_compute. discriminate.
  - replace (_ <=? _) with true in Hrun, Hres by (vm_compute; reflexivity).
    exists nd, d. destruct Hres as [Hk Hc]. split; [exact Hrun|].
    rewrite Hk, Hc. split; reflexivity.
Defined.

Lemma Branch_Delete_spec_witness :
  exists nd' s',
    Branch_Delete 0 false one_key = Ok tt (nd', s') /\ keys s' nd' = [] /\ children nd' = [5].
Proof.
  destruct one_key_ok as [Hok Hinv]. rewrite (surjective_pairing one_key).
  destruct (Branch_Delete_spec one_key.1 one_key.2 0 false) as (nd & d & Hrun & _ & _ & _ & Hk & Hc).
  - exact Hok.
  - exact Hinv.
  - vm_compute. reflexivity.
  - exists nd, d. split; [exact Hrun|]. rewrite Hk, Hc. split; vm_compute; reflexivity.
Defined.

Lemma Branch_Update_spec_witness :
  exists nd' s',
    Branch_Update 0 (Ext [x6e; x6f]) 9 true one_key = Ok true (nd', s') /\
    keys s' nd' = [[x6e; x6f]] /\ children nd' = [4; 9].
Proof.
  destruct one_key_ok as [Hok Hinv]. rewrite (surjective_pairing one_key).
  destruct (Branch_Update_spec one_key.1 one_key.2 0 (mkRec false 1 false 4 [x6d]) [x6e; x6f] 9 true)
    as (nd & d & Hrun & _ & _ & _ & Hres).
  - exact Hok.
  - exact Hinv.
  - vm_compute. reflexivity.
  - reflexivity.
  - lia.
  - vm_compute. discriminate.
  - intros Hbig. vm_compute in Hbig. discriminate.
  - replace (_ <=? _) with true in Hrun, Hres by (vm_compute; reflexivity).
    exists nd, d. destruct Hres as [Hk Hc]. split; [exact Hrun|].
    rewrite Hk, Hc. split; vm_compute; reflexivity.
Defined.
