(* ===== verification/Tx.v ===== *)
(** Transactions as objects: [TxImpl] of [src/tx_impl.cpp] up to what the tree
    needs of it, the buckets a transaction holds, and the root references its
    trees read and write.

    Which [TxImpl] a bucket belongs to is a [TxRef]: the transaction inside
    [TxManager::update_tx_], or the one inside a [ViewTx]. *)
From S2P Require Import Prelude Format Comparator State.

Inductive TxRef : Type :=
| UpdateTxRef
| ViewTxRef (h : nat).
#[export] Instance TxRef_eq_dec : EqDecision TxRef.
Proof. solve_decision. Defined.
#[export] Instance RootRef_eq_dec : EqDecision RootRef.
Proof. solve_decision. Defined.

Definition txid (t : TxImpl) : Z := m_txid (meta_format t).
Definition set_user_root (v : Z) (m : MetaStruct) : MetaStruct :=
  mkMeta (m_sign m) (m_page_size m) (m_min_version m) (m_page_count m) v
    (m_free_list_pgid m) (m_free_pair_count m) (m_free_list_page_count m) (m_txid m) (m_crc32 m).
Definition set_txid (v : Z) (t : TxImpl) : TxImpl :=
  let m := meta_format t in
  set_meta_format (mkMeta (m_sign m) (m_page_size m) (m_min_version m) (m_page_count m) (m_user_root m)
    (m_free_list_pgid m) (m_free_pair_count m) (m_free_list_page_count m) v (m_crc32 m)) t.
Definition set_user_bucket (b : BucketImpl) (t : TxImpl) : TxImpl :=
  mkTx (meta_format t) (tx_writable t) b (sub_bucket_cache t).
Definition set_sub_bucket_cache (l : list (option BucketImpl)) (t : TxImpl) : TxImpl :=
  mkTx (meta_format t) (tx_writable t) (user_bucket t) l.
Definition set_sub_bucket_map (m : option (list (list byte * (Z * Z)))) (b : BucketImpl) : BucketImpl :=
  mkBucket (bucket_id b) (b_writable b) (b_root b) m.

(** ** The transaction behind a reference *)
Definition get_tx (r : TxRef) : M DBImpl TxImpl :=
  match r with
  | UpdateTxRef => get_update_tx
  | ViewTxRef h => fun d =>
      match view_txs d !! h with
      | Some (Some t) => Ok t d
      | _ => Fault OutOfBounds
      end
  end.

Definition put_tx (r : TxRef) (t : TxImpl) : M DBImpl unit :=
  match r with
  | UpdateTxRef => put_update_tx t
  | ViewTxRef h => modify (fun d => set_view_txs (<[h := Some t]> (view_txs d)) d)
  end.

(** ** TxImpl *)

(** The constructor: the meta block's own sign, page size, version and checksum
    are left unset ([CopyMetaInfo] does not copy them). *)
Definition blank_meta : MetaStruct := mkMeta 0 0 0 0 0 0 0 0 0 0.
Definition new_TxImpl (meta : MetaStruct) (writable : bool) : TxImpl :=
  mkTx (CopyMetaInfo blank_meta meta) writable (mkBucket kUserRootBucketId writable UserRoot None) [].

Definition find_bucket (t : TxImpl) (id : Z) : option BucketImpl :=
  if id =? kUserRootBucketId then Some (user_bucket t)
  else if 0 <=? id then mjoin (sub_bucket_cache t !! Z.to_nat id) else None.
Definition store_bucket (id : Z) (b : BucketImpl) (t : TxImpl) : TxImpl :=
  if id =? kUserRootBucketId then set_user_bucket b t
  else set_sub_bucket_cache (<[Z.to_nat id := Some b]> (sub_bucket_cache t)) t.

(** [NewSubBucket]: the new bucket's id is the size of the cache. *)
Definition NewSubBucket (r : TxRef) (root : RootRef) (writable : bool) : M DBImpl Z :=
  let* t := get_tx r in
  let new_bucket_id := u32 (Z.of_nat (length (sub_bucket_cache t))) in
  put_tx r (set_sub_bucket_cache
    (sub_bucket_cache t ++ [Some (mkBucket new_bucket_id writable root None)]) t) ;;;
  ret new_bucket_id.

(** [user_bucket()] or [AtSubBucket(bucket_id)]: a null pointer faults. *)
Definition at_bucket (r : TxRef) (id : Z) : M DBImpl BucketImpl :=
  let* t := get_tx r in
  match find_bucket t id with
  | Some b => ret b
  | None => stuck OutOfBounds
  end.
Definition put_bucket (r : TxRef) (id : Z) (b : BucketImpl) : M DBImpl unit :=
  let* t := get_tx r in put_tx r (store_bucket id b t).

(** [TxImpl::DeleteSubBucket] *)
Definition Tx_DeleteSubBucket (r : TxRef) (id : Z) : M DBImpl unit :=
  let* t := get_tx r in
  match mjoin (sub_bucket_cache t !! Z.to_nat id) with
  | Some _ => put_tx r (set_sub_bucket_cache (<[Z.to_nat id := None]> (sub_bucket_cache t)) t)
  | None => stuck Assertion
  end.

(** [TxManager::IsTxExpired] and [TxImpl::CopyNeeded] *)
Definition IsTxExpired (m : TxManager) (id : Z) : bool := id <? min_view_txid m.

Definition copy_needed (m : TxManager) (current_txid id : Z) : bool :=
  if IsTxExpired m id && (persisted_txid m <? id) then false else id <? current_txid.
Definition CopyNeeded (r : TxRef) (id : Z) : M DBImpl bool :=
  let* t := get_tx r in
  let* m := gets tx_manager in
  ret (copy_needed m (txid t) id).

(** ** [std::map<std::string, ...>]: entries in the order of their keys *)
Definition smap (A : Type) : Type := list (list byte * A).

Definition smap_find {A} (k : list byte) (m : smap A) : option A :=
  snd <$> find (fun e => bool_decide (e.1 = k)) m.
Fixpoint smap_insert {A} (k : list byte) (v : A) (m : smap A) : smap A :=
  match m with
  | [] => [(k, v)]
  | (k', v') :: m' =>
      match lex_compare k k' with
      | Lt => (k, v) :: m
      | Eq => m   (* [insert] leaves an existing entry alone *)
      | Gt => (k', v') :: smap_insert k v m'
      end
  end.
(** Assigning through an iterator to an existing entry. *)
Definition smap_assign {A} (k : list byte) (v : A) (m : smap A) : smap A :=
  (fun e => if bool_decide (e.1 = k) then (e.1, v) else e) <$> m.
Definition smap_erase {A} (k : list byte) (m : smap A) : smap A :=
  filter (fun e => e.1 <> k) m.

(** ** The tree's root, [PageId& root_pgid_] *)
Definition get_root (r : TxRef) (root : RootRef) : M DBImpl Z :=
  match root with
  | UserRoot => let* t := get_tx r in ret (m_user_root (meta_format t))
  | EntryOf parent key =>
      let* b := at_bucket r parent in
      match sub_bucket_map b ≫= smap_find key with
      | Some (_, pgid) => ret pgid
      | None => stuck OutOfBounds
      end
  end.

Definition set_root (r : TxRef) (root : RootRef) (pgid : Z) : M DBImpl unit :=
  match root with
  | UserRoot =>
      let* t := get_tx r in
      put_tx r (set_meta_format (set_user_root pgid (meta_format t)) t)
  | EntryOf parent key =>
      let* b := at_bucket r parent in
      match sub_bucket_map b, sub_bucket_map b ≫= smap_find key with
      | Some m, Some (id, _) =>
          put_bucket r parent (set_sub_bucket_map (Some (smap_assign key (id, pgid) m)) b)
      | _, _ => stuck OutOfBounds
      end
  end.
