(* ===== verification/Iterator.v ===== *)
(** The tree's iterator: [BTreeIterator] of [src/btree_iterator.cpp], over
    [detail::Stack] of [include/atomkv/stack.h], and the way a tree works on
    the nodes of the file.

    A method of the iterator is a program over the iterator and the database.
    A [Node] object is the id of its page: [new_node] is the reference its
    constructor takes, [on_node] a method that may write through [data_],
    [look] one that only reads. *)
From S2P Require Import Prelude Format Comparator State Memory Pager PagerI PagerInst Node Tx.

(** ** Nodes of the file *)
Definition new_node (pgid : Z) : M DBImpl unit := Reference pgid ;;; ret tt.

Definition look {A} (pgid : Z) (op : NodeM (St := DBImpl) A) : M DBImpl A := fun d =>
  match Reference pgid d with
  | Ok nd d1 =>
      match op (nd, d1) with
      | Ok a (_, d2) => Ok a d2
      | Throw e (_, d2) => Throw e d2
      | Fault w => Fault w
      end
  | Throw e d1 => Throw e d1
  | Fault w => Fault w
  end.

Definition on_node {A} (pgid : Z) (op : NodeM (St := DBImpl) A) : M DBImpl A := fun d =>
  match Reference pgid d with
  | Ok nd d1 =>
      match op (nd, d1) with
      | Ok a (nd', d2) => (store_node pgid nd' ;;; ret a) d2
      | Throw e (nd', d2) => (store_node pgid nd' ;;; throw e) d2
      | Fault w => Fault w
      end
  | Throw e d1 => Throw e d1
  | Fault w => Fault w
  end.

Definition node_is_leaf (pgid : Z) : M DBImpl bool := look pgid (gets (fun x => IsLeaf x.1)).
Definition node_is_branch (pgid : Z) : M DBImpl bool := look pgid (gets (fun x => IsBranch x.1)).
Definition node_count (pgid : Z) : M DBImpl Z := look pgid (gets (fun x => count x.1)).
Definition node_txid (pgid : Z) : M DBImpl Z :=
  look pgid (gets (fun x => last_modified_txid (header x.1))).

(** ** The tree object: the transaction it belongs to and the root it refers
    to; its comparator is the one of the options. *)
Record BTree := mkBTree { bt_tx : TxRef; bt_root : RootRef }.
#[export] Instance BTree_eq_dec : EqDecision BTree.
Proof. solve_decision. Defined.

Definition tree_root (bt : BTree) : M DBImpl Z := get_root (bt_tx bt) (bt_root bt).
Definition set_tree_root (bt : BTree) (pgid : Z) : M DBImpl unit :=
  set_root (bt_tx bt) (bt_root bt) pgid.

(** [Node::Copy]: the pager's copy, marked with the bucket's transaction. *)
Definition Node_Copy (bt : BTree) (pgid : Z) : M DBImpl Z :=
  let* new_pgid := Copy pgid in
  new_node new_pgid ;;;
  let* t := get_tx (bt_tx bt) in
  on_node new_pgid (on_data (set_last_modified_txid (txid t))) ;;;
  ret new_pgid.

(** ** The iterator.  [it_stack] has the top of the stack first;
    [it_cached] is the page id of [cached_node_]. *)
Inductive Status : Type := StInvalid | StEq | StNe | StIter.
#[export] Instance Status_eq_dec : EqDecision Status.
Proof. solve_decision. Defined.

Record BTreeIterator := mkIter {
  it_btree : BTree;
  it_stack : list (Z * Z);
  it_status : Status;
  it_cached : option Z;
}.

(** [Iterator(btree)], which is also [end()]. *)
Definition new_iterator (bt : BTree) : BTreeIterator := mkIter bt [] StInvalid None.

Definition IterM (A : Type) : Type := M (BTreeIterator * DBImpl) A.
Definition iter : IterM BTreeIterator := gets fst.
Definition on_iter (f : BTreeIterator -> BTreeIterator) : IterM unit :=
  modify (fun x => (f x.1, x.2)).
Definition on_db {A} (m : M DBImpl A) : IterM A := zoom (mkLens snd (fun d x => (x.1, d))) m.

(** Run a program on an iterator of its own. *)
Definition with_iterator {A} (it : BTreeIterator) (m : IterM A) : M DBImpl (A * BTreeIterator) := fun d =>
  match m (it, d) with
  | Ok a (it', d') => Ok (a, it') d'
  | Throw e (_, d') => Throw e d'
  | Fault w => Fault w
  end.

Definition set_stack (l : list (Z * Z)) (it : BTreeIterator) : BTreeIterator :=
  mkIter (it_btree it) l (it_status it) (it_cached it).
Definition set_status (s : Status) (it : BTreeIterator) : BTreeIterator :=
  mkIter (it_btree it) (it_stack it) s (it_cached it).
Definition set_cached (c : option Z) (it : BTreeIterator) : BTreeIterator :=
  mkIter (it_btree it) (it_stack it) (it_status it) c.

(** *** Stack *)
Definition kStackSize : nat := 32.

Definition Empty : IterM bool := let* it := iter in ret (bool_decide (it_stack it = [])).
(** [front()]: the mutable version asserts that the stack is not empty. *)
Definition Front : IterM (Z * Z) :=
  let* it := iter in
  match it_stack it with e :: _ => ret e | [] => stuck Assertion end.
Definition Push (e : Z * Z) : IterM unit :=
  let* it := iter in
  assertM (length (it_stack it) <? kStackSize)%nat ;;;
  on_iter (set_stack (e :: it_stack it)).
Definition Pop : IterM unit :=
  let* it := iter in
  match it_stack it with _ :: l => on_iter (set_stack l) | [] => stuck Assertion end.
(** Assigning to the slot of the top entry through [auto& [pgid, slot_id]]. *)
Definition set_front_slot (slot_id : Z) : IterM unit :=
  let* it := iter in
  match it_stack it with
  | (pgid, _) :: l => on_iter (set_stack ((pgid, slot_id) :: l))
  | [] => stuck Assertion
  end.

(** *** Comparison.  [Front] const reads below the array on an empty stack;
    both stacks are known not to be empty there. *)
Definition iter_eq (left right : BTreeIterator) : bool :=
  if negb (bool_decide (it_btree left = it_btree right)) then false
  else match it_stack left, it_stack right with
       | [], _ => bool_decide (it_status right = StInvalid)
       | _ :: _, [] => bool_decide (it_status left = StInvalid)
       | (pgid, index) :: _, (pgid2, index2) :: _ => (pgid =? pgid2) && (index =? index2)
       end.
Definition iter_end (it : BTreeIterator) : bool := iter_eq it (new_iterator (it_btree it)).

(** *** The current leaf *)
Definition GetLeafNode : IterM (Z * Z) :=
  let* it := iter in
  if iter_end it then throw (InvalidArgument "invalid iterator.")
  else
    match it_stack it with
    | [] => stuck OutOfBounds
    | (pgid, slot_id) :: _ =>
        (if bool_decide (it_cached it = Some pgid) then ret tt
         else on_db (new_node pgid) ;;; on_iter (set_cached (Some pgid))) ;;;
        let* leaf := on_db (node_is_leaf pgid) in
        assertM leaf ;;;
        ret (pgid, slot_id)
    end.

Definition iter_key : IterM (list byte) :=
  let* (pgid, slot_id) := GetLeafNode in on_db (look pgid (key_at slot_id)).
Definition iter_value : IterM (list byte) :=
  let* (pgid, slot_id) := GetLeafNode in on_db (look pgid (value_at slot_id)).
Definition iter_is_bucket : IterM bool :=
  let* (pgid, slot_id) := GetLeafNode in on_db (look pgid (IsBucket slot_id)).
(** [value<PageId>()] *)
Definition iter_value_pgid : IterM Z :=
  let* v := iter_value in
  if (length v =? 4)%nat then ret (le_value v)
  else throw (InvalidArgument "The size of the value does not match.").

(** *** Walking.  Each loop pushes a frame per level, and the stack takes at
    most [kStackSize]: the fuel is one more than that. *)
Definition depth_fuel : nat := S kStackSize.

Fixpoint First_loop (fuel : nat) (pgid : Z) : IterM unit :=
  match fuel with
  | O => stuck OutOfFuel
  | S fuel =>
      on_db (new_node pgid) ;;;
      let* leaf := on_db (node_is_leaf pgid) in
      let* count := on_db (node_count pgid) in
      if leaf then
        if count =? 0 then ret tt else Push (pgid, 0)
      else
        Push (pgid, 0) ;;;
        assertM (0 <? count) ;;;
        let* child := on_db (look pgid (GetLeftChild 0)) in
        First_loop fuel child
  end.

Definition First (pgid : Z) : IterM unit :=
  if pgid =? kPageInvalidId then ret tt
  else on_iter (set_status StIter) ;;; First_loop depth_fuel pgid.

Fixpoint Last_loop (fuel : nat) (pgid : Z) : IterM unit :=
  match fuel with
  | O => stuck OutOfFuel
  | S fuel =>
      on_db (new_node pgid) ;;;
      let* leaf := on_db (node_is_leaf pgid) in
      let* count := on_db (node_count pgid) in
      if leaf then
        if count =? 0 then ret tt
        else on_db (new_node pgid) ;;; Push (pgid, count - 1)
      else
        Push (pgid, count - 1) ;;;
        assertM (0 <? count) ;;;
        let* child := on_db (look pgid (GetLeftChild (count - 1))) in
        Last_loop fuel child
  end.

Definition Last (pgid : Z) : IterM unit :=
  on_iter (set_status StIter) ;;; Last_loop depth_fuel pgid.

(** The [do ... while (!Empty())] of [Next]: every turn but the last pops. *)
Fixpoint Next_loop (fuel : nat) : IterM unit :=
  match fuel with
  | O => stuck OutOfFuel
  | S fuel =>
      let* (pgid, slot_id) := Front in
      on_db (new_node pgid) ;;;
      let slot_id := slot_id + 1 in
      set_front_slot slot_id ;;;
      let* count := on_db (node_count pgid) in
      let* leaf := on_db (node_is_leaf pgid) in
      let* branch := on_db (node_is_branch pgid) in
      if slot_id <? count then
        if leaf then ret tt
        else let* child := on_db (look pgid (GetLeftChild slot_id)) in First child
      else if branch && (slot_id =? count) then
        let* child := on_db (look pgid GetTailChild) in First child
      else
        Pop ;;;
        let* empty := Empty in
        if empty then ret tt else Next_loop fuel
  end.

Definition Next : IterM unit :=
  let* it := iter in
  assertM (negb (bool_decide (it_stack it = []))) ;;;
  Next_loop (length (it_stack it)).

Fixpoint Prev_loop (fuel : nat) : IterM unit :=
  match fuel with
  | O => stuck OutOfFuel
  | S fuel =>
      let* (pgid, slot_id) := Front in
      on_db (new_node pgid) ;;;
      if 0 <? slot_id then
        set_front_slot (slot_id - 1) ;;;
        let* leaf := on_db (node_is_leaf pgid) in
        if leaf then ret tt
        else let* child := on_db (look pgid (GetLeftChild (slot_id - 1))) in Last child
      else
        Pop ;;;
        let* empty := Empty in
        if empty then ret tt else Prev_loop fuel
  end.

Definition Prev : IterM unit :=
  let* it := iter in
  if bool_decide (it_stack it = []) then
    let* root := on_db (tree_root (it_btree it)) in Last root
  else Prev_loop (length (it_stack it)).

(** [operator++(int)] and [operator--(int)] advance a copy and return it. *)
Definition on_copy (step : IterM unit) : IterM BTreeIterator :=
  let* it := iter in
  let* (_, tmp) := on_db (with_iterator it step) in
  ret tmp.
Definition PostIncrement : IterM BTreeIterator := on_copy Next.
Definition PostDecrement : IterM BTreeIterator := on_copy Prev.

(** *** Searching *)
Definition set_search_status (pgid slot_id count : Z) (eq : bool) : IterM unit :=
  let* leaf := on_db (node_is_leaf pgid) in
  if eq then on_iter (set_status StEq)
  else if (slot_id =? count) && leaf then on_iter (set_status StInvalid) else ret tt.

Definition Down (key : list byte) : IterM bool :=
  let* it := iter in
  let* child :=
    match it_stack it with
    | [] =>
        let* root := on_db (tree_root (it_btree it)) in
        ret (if root =? kPageInvalidId then None else Some root)
    | (parent_pgid, slot_id) :: _ =>
        match it_cached it with
        | None => stuck EmptyOptional
        | Some cached => assertM (cached =? parent_pgid)
        end ;;;
        let* leaf := on_db (node_is_leaf parent_pgid) in
        if leaf then ret None
        else let* pgid := on_db (look parent_pgid (GetLeftChild slot_id)) in ret (Some pgid)
    end in
  match child with
  | None => ret false
  | Some pgid =>
      on_db (new_node pgid) ;;;
      on_iter (set_cached (Some pgid)) ;;;
      on_iter (set_status StNe) ;;;
      let* count := on_db (node_count pgid) in
      let* cmp := on_db (gets (fun d => opt_comparator (options d))) in
      let* slot_id :=
        if 0 <? count then
          let* (slot_id, eq) := on_db (look pgid (Node_LowerBound cmp key)) in
          set_search_status pgid slot_id count eq ;;;
          let* branch := on_db (node_is_branch pgid) in
          ret (if eq && branch then slot_id + 1 else slot_id)
        else ret 0 in
      Push (pgid, slot_id) ;;;
      ret true
  end.

Definition Top (key : list byte) : IterM bool := Down key.

(** *** Copy on write along the path *)

(** The loop over the stack, from the leaf up: the new stack, and the copied
    root unless the loop stopped at a page that needs no copy. *)
Fixpoint copy_path (bt : BTree) (l : list (Z * Z)) (lower_pgid : Z)
    : M DBImpl (list (Z * Z) * option Z) :=
  match l with
  | [] => ret ([], Some lower_pgid)
  | (pgid, slot_id) :: l =>
      new_node pgid ;;;
      let* last := node_txid pgid in
      let* copy := CopyNeeded (bt_tx bt) last in
      if negb copy then
        let* branch := node_is_branch pgid in
        (if branch then
           assertM (negb (lower_pgid =? kPageInvalidId)) ;;;
           on_node pgid (SetLeftChild slot_id lower_pgid)
         else ret tt) ;;;
        ret ((pgid, slot_id) :: l, None)
      else
        let* new_pgid := Node_Copy bt pgid in
        let* branch := node_is_branch new_pgid in
        (if branch then
           assertM (negb (lower_pgid =? kPageInvalidId)) ;;;
           on_node new_pgid (SetLeftChild slot_id lower_pgid)
         else ret tt) ;;;
        let* (l, root) := copy_path bt l new_pgid in
        ret ((new_pgid, slot_id) :: l, root)
  end.

Definition CopyAllPagesByPath : IterM unit :=
  let* it := iter in
  match it_stack it with
  | [] => ret tt
  | l =>
      let* (l, root) := on_db (copy_path (it_btree it) l kPageInvalidId) in
      on_iter (set_stack l) ;;;
      match root with
      | None => ret tt
      | Some root => on_db (set_tree_root (it_btree it) root)
      end
  end.
