(* ===== verification/BTree.v ===== *)
(** The B+ tree: [BTree] of [src/btree.cpp].

    A [Node&&] argument is the id of its page; a key span taken from one node
    and given to another is the bytes it has when taken (no operation in
    between writes the record area it points into).  Recursion up the tree
    pops a frame of the iterator's stack per level: the fuel is its height. *)
From S2P Require Import Prelude Format Comparator State Memory Pager PagerI PagerInst Node Tx Iterator.

(** ** Fill rates, as exact comparisons of the quotient *)
Definition fill_rate (pgid : Z) : M DBImpl Z := look pgid GetFillRate.
(** [GetFillRate() >= 0.4] *)
Definition fill_at_least_40 (pgid : Z) : M DBImpl bool :=
  let* n := fill_rate pgid in
  let* ps := gets page_size in
  ret (4 * max_space ps <=? 10 * n).
(** [GetFillRate() > 0.5] *)
Definition fill_above_half (pgid : Z) : M DBImpl bool :=
  let* n := fill_rate pgid in
  let* ps := gets page_size in
  ret (max_space ps <? 2 * n).

Definition node_key (pgid slot_id : Z) : M DBImpl (list byte) := look pgid (key_at slot_id).
Definition node_value (pgid slot_id : Z) : M DBImpl (list byte) := look pgid (value_at slot_id).
Definition node_is_bucket (pgid slot_id : Z) : M DBImpl bool := look pgid (IsBucket slot_id).
Definition node_left_child (pgid slot_id : Z) : M DBImpl Z := look pgid (GetLeftChild slot_id).
Definition node_tail_child (pgid : Z) : M DBImpl Z := look pgid GetTailChild.

(** A call whose result the source asserts. *)
Definition must (m : M DBImpl bool) : M DBImpl unit := let* success := m in assertM success.

(** [std::reverse(slots, slots + count)] *)
Definition reverse_slots : NodeM (St := DBImpl) unit :=
  on_data (fun nd => set_slots (rev (live_slots nd) ++ drop (Z.to_nat (count nd)) (slots nd)) nd).

(** ** Leaves *)

(** Entry [i] of [src] appended to [dst], with its bucket mark. *)
Definition append_entry (dst src i : Z) : M DBImpl unit :=
  let* key := node_key src i in
  let* value := node_value src i in
  must (on_node dst (Leaf_Append (Ext key) value)) ;;;
  let* b := node_is_bucket src i in
  let* n := node_count dst in
  on_node dst (SetIsBucket (n - 1) b).

(** The loop of the leaf [Split], from slot [n - 1] down. *)
Fixpoint split_leaf_loop (left right : Z) (n : nat) : M DBImpl unit :=
  match n with
  | O => ret tt
  | S n =>
      append_entry right left (Z.of_nat n) ;;;
      on_node left Leaf_Pop ;;;
      let* above := fill_above_half left in
      if negb above then ret tt else split_leaf_loop left right n
  end.

(** The new entry of the leaf [Split] goes to the side its slot is on. *)
Definition split_leaf_insert (left right insert_slot_id : Z) (key value : list byte) (is_bucket : bool)
    : M DBImpl unit :=
  let* left_count := node_count left in
  if left_count <? insert_slot_id then
    assertM (negb (insert_slot_id =? left_count)) ;;;
    let* success := on_node right (Leaf_Insert (insert_slot_id - left_count) (Ext key) value) in
    (if success then ret tt
     else
       append_entry left right 0 ;;;
       on_node right (Leaf_Delete 0) ;;;
       let* left_count := node_count left in
       must (on_node right (Leaf_Insert (insert_slot_id - left_count) (Ext key) value))) ;;;
    let* left_count := node_count left in
    on_node right (SetIsBucket (insert_slot_id - left_count) is_bucket)
  else
    must (on_node left (Leaf_Insert insert_slot_id (Ext key) value)) ;;;
    on_node left (SetIsBucket insert_slot_id is_bucket).

Definition Leaf_Split (left insert_slot_id : Z) (key value : list byte) (is_bucket : bool) : M DBImpl Z :=
  let* left_count := node_count left in
  assertM (insert_slot_id <=? left_count) ;;;
  let* right_pgid := Alloc 1 in
  new_node right_pgid ;;;
  on_node right_pgid Leaf_Build ;;;
  assertM (2 <=? left_count) ;;;
  let* above := fill_above_half left in
  assertM above ;;;
  split_leaf_loop left right_pgid (Z.to_nat left_count) ;;;
  on_node right_pgid reverse_slots ;;;
  let* above := fill_above_half left in
  assertM (negb above) ;;;
  split_leaf_insert left right_pgid insert_slot_id key value is_bucket ;;;
  let* l := node_count left in
  let* r := node_count right_pgid in
  assertM (((1 <=? l) && (2 <=? r)) || ((2 <=? l) && (1 <=? r))) ;;;
  ret right_pgid.

(** The loop of the leaf [Merge]: [n] entries from slot [i] on. *)
Fixpoint merge_leaf_loop (left right : Z) (n : nat) (i : Z) : M DBImpl unit :=
  match n with
  | O => ret tt
  | S n => append_entry left right i ;;; merge_leaf_loop left right n (i + 1)
  end.
Definition Leaf_Merge (left right : Z) : M DBImpl unit :=
  let* n := node_count right in
  merge_leaf_loop left right (Z.to_nat n) 0 ;;;
  Free right 1.

(** ** Branches *)

(** The loop of the branch [Split]: keys and their left children. *)
Fixpoint split_branch_loop (left right : Z) (n : nat) : M DBImpl unit :=
  match n with
  | O => ret tt
  | S n =>
      let i := Z.of_nat n in
      let* key := node_key left i in
      let* child := node_left_child left i in
      must (on_node right (Branch_Append (Ext key) child false)) ;;;
      on_node left (Branch_Pop false) ;;;
      let* above := fill_above_half left in
      if negb above then ret tt else split_branch_loop left right n
  end.

Definition split_branch_insert (left right insert_slot_id : Z) (insert_key : list byte)
    (insert_left_child : Z) : M DBImpl unit :=
  let* left_count := node_count left in
  if left_count <? insert_slot_id then
    let* success := on_node right
      (Branch_Insert (insert_slot_id - left_count) (Ext insert_key) insert_left_child false) in
    if success then ret tt
    else
      let* key := node_key right 0 in
      let* child := node_left_child right 0 in
      must (on_node left (Branch_Append (Ext key) child true)) ;;;
      on_node right (Branch_Delete 0 false) ;;;
      let* left_count := node_count left in
      must (on_node right
        (Branch_Insert (insert_slot_id - left_count) (Ext insert_key) insert_left_child false))
  else must (on_node left (Branch_Insert insert_slot_id (Ext insert_key) insert_left_child false)).

(** The key that goes up: the last of the left node, or the first of the right. *)
Definition split_branch_up (left right : Z) : M DBImpl (list byte) :=
  let* l := node_count left in
  let* r := node_count right in
  if 2 <=? l then
    assertM (1 <=? r) ;;;
    let* up_key := node_key left (l - 1) in
    on_node left (Branch_Pop true) ;;;
    ret up_key
  else
    assertM (2 <=? r) ;;;
    let* up_key := node_key right 0 in
    let* left_child := node_left_child right 0 in
    on_node right (Branch_Delete 0 false) ;;;
    on_node left (SetTailChild left_child) ;;;
    ret up_key.

Definition Branch_Split (left insert_slot_id : Z) (insert_key : list byte) (insert_right_child : Z)
    : M DBImpl (list byte * Z) :=
  let* left_count := node_count left in
  assertM (insert_slot_id <=? left_count) ;;;
  let* right_pgid := Alloc 1 in
  new_node right_pgid ;;;
  on_node right_pgid (Branch_Build kPageInvalidId) ;;;
  assertM (2 <=? left_count) ;;;
  let* above := fill_above_half left in
  assertM above ;;;
  let* insert_left_child := node_left_child left insert_slot_id in
  on_node left (SetLeftChild insert_slot_id insert_right_child) ;;;
  split_branch_loop left right_pgid (Z.to_nat left_count) ;;;
  on_node right_pgid reverse_slots ;;;
  let* above := fill_above_half left in
  assertM (negb above) ;;;
  let* tail := node_tail_child left in
  on_node right_pgid (SetTailChild tail) ;;;
  split_branch_insert left right_pgid insert_slot_id insert_key insert_left_child ;;;
  let* up_key := split_branch_up left right_pgid in
  ret (up_key, right_pgid).

Fixpoint merge_branch_loop (left right : Z) (n : nat) (i : Z) : M DBImpl unit :=
  match n with
  | O => ret tt
  | S n =>
      let* key := node_key right i in
      let* child := node_left_child right i in
      must (on_node left (Branch_Append (Ext key) child false)) ;;;
      merge_branch_loop left right n (i + 1)
  end.
Definition Branch_Merge (left right : Z) (down_key : list byte) : M DBImpl unit :=
  must (on_node left (Branch_Append (Ext down_key) kPageInvalidId true)) ;;;
  let* n := node_count right in
  merge_branch_loop left right (Z.to_nat n) 0 ;;;
  let* tail := node_tail_child right in
  on_node left (SetTailChild tail) ;;;
  Free right 1.

(** ** Insertion *)

(** [Put(Iterator*, Node&&, Node&&, key)]: [key] and [right] go into the
    parent on the iterator's stack. *)
Fixpoint Put_up (fuel : nat) (left right : Z) (key : list byte) : IterM unit :=
  match fuel with
  | O => stuck OutOfFuel
  | S fuel =>
      let* it := iter in
      match it_stack it with
      | [] =>
          let* root := on_db (Alloc 1) in
          on_db (set_tree_root (it_btree it) root) ;;;
          on_db (new_node root) ;;;
          on_db (on_node root (Branch_Build left)) ;;;
          on_db (on_node root (Branch_Append (Ext key) right true)) ;;;
          ret tt
      | (pgid, slot_id) :: _ =>
          on_db (new_node pgid) ;;;
          let* success := on_db (on_node pgid (Branch_Insert slot_id (Ext key) right true)) in
          if success then ret tt
          else
            let* (branch_key, branch_right) := on_db (Branch_Split pgid slot_id key right) in
            Pop ;;;
            Put_up fuel pgid branch_right branch_key
      end
  end.
Definition Put_Branch (left right : Z) (key : list byte) : IterM unit :=
  let* it := iter in Put_up (S (length (it_stack it))) left right key.

(** [Put(Iterator*, key, value, insert_only, is_bucket)] *)
Definition Put_Leaf (key value : list byte) (insert_only is_bucket : bool) : IterM unit :=
  let* it := iter in
  match it_stack it with
  | [] =>
      let* root := on_db (Alloc 1) in
      on_db (set_tree_root (it_btree it) root) ;;;
      on_db (new_node root) ;;;
      on_db (on_node root Leaf_Build) ;;;
      on_db (must (on_node root (Leaf_Insert 0 (Ext key) value))) ;;;
      on_db (on_node root (SetIsBucket 0 is_bucket))
  | (pgid, slot_id) :: _ =>
      on_db (new_node pgid) ;;;
      if negb insert_only && bool_decide (it_status it = StEq) then
        let* b := iter_is_bucket in
        assertM (Bool.eqb b is_bucket) ;;;
        on_db (on_node pgid (Leaf_Update slot_id (Ext key) value)) ;;;
        on_db (on_node pgid (SetIsBucket slot_id is_bucket))
      else
        let* success := on_db (on_node pgid (Leaf_Insert slot_id (Ext key) value)) in
        if success then on_db (on_node pgid (SetIsBucket slot_id is_bucket))
        else
          let* right_pgid := on_db (Leaf_Split pgid slot_id key value is_bucket) in
          Pop ;;;
          let* up_key := on_db (node_key right_pgid 0) in
          Put_Branch pgid right_pgid up_key
  end.

(** ** Deletion *)

(** The parent on top of the stack, the slot in it, the sibling's page and
    whether it is the left one. *)
Definition GetSibling : IterM (Z * Z * Z * bool) :=
  let* (parent, parent_slot_id) := Front in
  on_db (new_node parent) ;;;
  let* n := on_db (node_count parent) in
  let* (left_sibling, sibling) :=
    if parent_slot_id =? n then
      let* s := on_db (node_left_child parent (parent_slot_id - 1)) in ret (true, s)
    else
      let* s := on_db (look parent (GetRightChild parent_slot_id)) in ret (false, s) in
  Pop ;;;
  ret (parent, parent_slot_id, sibling, left_sibling).

(** The sibling, copied if a reader may see it; [slot] is the slot of the
    parent's key between the two nodes. *)
Definition own_sibling (bt : BTree) (parent slot sibling : Z) (left_sibling : bool) : M DBImpl Z :=
  new_node sibling ;;;
  let* last := node_txid sibling in
  let* copy := CopyNeeded (bt_tx bt) last in
  if copy then
    let* new_sibling := Node_Copy bt sibling in
    (if left_sibling then on_node parent (SetLeftChild slot new_sibling)
     else on_node parent (SetLeftChild (slot + 1) new_sibling)) ;;;
    ret new_sibling
  else ret sibling.

Definition sibling_rich (sibling : Z) : M DBImpl bool :=
  let* above := fill_above_half sibling in
  let* n := node_count sibling in
  ret (above && (2 <=? n)).

(** After the entries moved: the parent's key was updated, or it is deleted
    and inserted again going up. *)
Definition replace_key (success : bool) (parent slot left right : Z) (new_key : list byte) : IterM unit :=
  if success then ret tt
  else
    on_db (on_node parent (Branch_Delete slot true)) ;;;
    Push (parent, slot) ;;;
    Put_Branch left right new_key.

(** One key through the parent, from the sibling branch to [node]. *)
Definition rotate_branch (node parent slot sibling : Z) (left_sibling : bool) : IterM unit :=
  let* new_key :=
    if left_sibling then
      let* down := on_db (node_key parent slot) in
      let* child := on_db (node_tail_child sibling) in
      on_db (must (on_node node (Branch_Insert 0 (Ext down) child false))) ;;;
      let* n := on_db (node_count sibling) in
      let* up := on_db (node_key sibling (n - 1)) in
      on_db (on_node sibling (Branch_Pop true)) ;;;
      ret up
    else
      on_db (on_node parent (SetLeftChild (slot + 1) sibling)) ;;;
      let* down := on_db (node_key parent slot) in
      let* child := on_db (node_left_child sibling 0) in
      on_db (must (on_node node (Branch_Append (Ext down) child true))) ;;;
      let* up := on_db (node_key sibling 0) in
      on_db (on_node sibling (Branch_Delete 0 false)) ;;;
      ret up in
  let* success := on_db (on_node parent (Branch_UpdateKey slot (Ext new_key))) in
  if left_sibling then replace_key success parent slot sibling node new_key
  else replace_key success parent slot node sibling new_key.

(** [Delete(Iterator*, BranchNode&&, left_del_slot_id)] *)
Fixpoint Delete_up (fuel : nat) (node left_del_slot_id : Z) : IterM unit :=
  match fuel with
  | O => stuck OutOfFuel
  | S fuel =>
      on_db (on_node node (Branch_Delete left_del_slot_id true)) ;;;
      let* it := iter in
      let bt := it_btree it in
      if bool_decide (it_stack it = []) then
        let* n := on_db (node_count node) in
        if n =? 0 then
          let* old_root := on_db (tree_root bt) in
          assertM (node =? old_root) ;;;
          let* tail := on_db (node_tail_child node) in
          on_db (set_tree_root bt tail) ;;;
          on_db (Free old_root 1)
        else ret tt
      else
        let* enough := on_db (fill_at_least_40 node) in
        if enough then ret tt
        else
          let* (parent, parent_slot_id, sibling, left_sibling) := GetSibling in
          let slot := if left_sibling then parent_slot_id - 1 else parent_slot_id in
          let* sibling := on_db (own_sibling bt parent slot sibling left_sibling) in
          let* rich := on_db (sibling_rich sibling) in
          if rich then rotate_branch node parent slot sibling left_sibling
          else
            let* down_key := on_db (node_key parent slot) in
            on_db (if left_sibling then Branch_Merge sibling node down_key
                   else Branch_Merge node sibling down_key) ;;;
            Delete_up fuel parent slot
  end.

(** One entry from the sibling leaf to [node]. *)
Definition rotate_leaf (node parent slot sibling : Z) (left_sibling : bool) : IterM unit :=
  let* new_key :=
    if left_sibling then
      let* n := on_db (node_count sibling) in
      let tail_slot_id := n - 1 in
      let* key := on_db (node_key sibling tail_slot_id) in
      let* value := on_db (node_value sibling tail_slot_id) in
      on_db (must (on_node node (Leaf_Insert 0 (Ext key) value))) ;;;
      let* b := on_db (node_is_bucket sibling tail_slot_id) in
      on_db (on_node node (SetIsBucket 0 b)) ;;;
      on_db (on_node sibling Leaf_Pop) ;;;
      on_db (node_key node 0)
    else
      on_db (append_entry node sibling 0) ;;;
      on_db (on_node sibling (Leaf_Delete 0)) ;;;
      on_db (node_key sibling 0) in
  let* child := on_db (node_left_child parent slot) in
  let* success := on_db (on_node parent (Branch_Update slot (Ext new_key) child false)) in
  if left_sibling then replace_key success parent slot sibling node new_key
  else replace_key success parent slot node sibling new_key.

(** [Delete], by iterator: the entry it stands on. *)
Definition Delete_iter : IterM unit :=
  let* b := iter_is_bucket in
  (if negb b then ret tt
   else let* pgid := iter_value_pgid in assertM (pgid =? kPageInvalidId)) ;;;
  let* (node, pos) := Front in
  on_db (new_node node) ;;;
  on_db (on_node node (Leaf_Delete pos)) ;;;
  let* enough := on_db (fill_at_least_40 node) in
  if enough then ret tt
  else
    Pop ;;;
    let* it := iter in
    let bt := it_btree it in
    if bool_decide (it_stack it = []) then ret tt
    else
      let* (parent, parent_slot_id, sibling, left_sibling) := GetSibling in
      let slot := if left_sibling then parent_slot_id - 1 else parent_slot_id in
      let* sibling := on_db (own_sibling bt parent slot sibling left_sibling) in
      let* rich := on_db (sibling_rich sibling) in
      if rich then rotate_leaf node parent slot sibling left_sibling
      else
        on_db (if left_sibling then Leaf_Merge sibling node else Leaf_Merge node sibling) ;;;
        let* it := iter in
        Delete_up (S (length (it_stack it))) parent slot.

(** ** The tree's operations *)
Fixpoint descend (fuel : nat) (key : list byte) : IterM unit :=
  match fuel with
  | O => stuck OutOfFuel
  | S fuel =>
      let* continue_ := Down key in
      if continue_ then descend fuel key else ret tt
  end.

Definition LowerBound (bt : BTree) (key : list byte) : M DBImpl BTreeIterator :=
  let* (_, it) := with_iterator (new_iterator bt)
    (let* continue_ := Top key in
     if continue_ then descend depth_fuel key else ret tt) in
  ret it.

Definition Get (bt : BTree) (key : list byte) : M DBImpl BTreeIterator :=
  let* it := LowerBound bt key in
  ret (if bool_decide (it_status it = StEq) then it else new_iterator bt).

Definition BTree_Empty (bt : BTree) : M DBImpl bool :=
  let* root := tree_root bt in ret (root =? kPageInvalidId).

Definition Insert (bt : BTree) (key value : list byte) (is_bucket : bool) : M DBImpl unit :=
  let* it := LowerBound bt key in
  with_iterator it (CopyAllPagesByPath ;;; Put_Leaf key value true is_bucket) ;;;
  ret tt.

Definition Put (bt : BTree) (key value : list byte) (is_bucket : bool) : M DBImpl unit :=
  let* it := LowerBound bt key in
  with_iterator it (CopyAllPagesByPath ;;; Put_Leaf key value false is_bucket) ;;;
  ret tt.

(** [Update(iter, value)]: the key passed on is a window of the same page. *)
Definition Update (value : list byte) : IterM unit :=
  let* (pgid, slot_id) := Front in
  on_db (new_node pgid) ;;;
  let* leaf := on_db (node_is_leaf pgid) in
  assertM leaf ;;;
  on_db (on_node pgid (let* key := GetKey slot_id in Leaf_Update slot_id key value)) ;;;
  ret tt.

Definition Delete (bt : BTree) (key : list byte) : M DBImpl bool :=
  let* it := LowerBound bt key in
  if negb (bool_decide (it_status it = StEq)) then ret false
  else with_iterator it (CopyAllPagesByPath ;;; Delete_iter) ;;; ret true.

Definition tree_begin (bt : BTree) : M DBImpl BTreeIterator :=
  let* root := tree_root bt in
  let* (_, it) := with_iterator (new_iterator bt) (First root) in
  ret it.
Definition tree_end (bt : BTree) : BTreeIterator := new_iterator bt.
