(* ===== verification/Trails.v ===== *)
(** Programs that move along a relation: [trails R m] says that the program [m],
    however it ends, leaves a database related by [R] to the one it started
    on.  The tactic [trails] proves it for the operations of nodes from what
    the pager's operations do. *)
From S2P Require Import Prelude Format Comparator State Memory FreeMap Pager PagerI PagerInst Node Tx Iterator.

(** ** Programs over a state *)
Section trails.
Context {S : Type} (R : S -> S -> Prop) {HR : PreOrder R}.

Definition trails {A} (m : M S A) : Prop := forall s,
  match m s with Ok _ s' | Throw _ s' => R s s' | Fault _ => True end.

Lemma trails_ok {A} (m : M S A) s a s' : trails m -> m s = Ok a s' -> R s s'.
Proof. intros Hm E. specialize (Hm s). by rewrite E in Hm. Qed.

Lemma trails_from {A} (m : M S A) s s1 : trails m -> R s s1 ->
  match m s1 with Ok _ s' | Throw _ s' => R s s' | Fault _ => True end.
Proof. intros Hm Hs. specialize (Hm s1). destruct (m s1); [by etrans|by etrans|done]. Qed.

Lemma trails_ret {A} (a : A) : trails (ret a).
Proof. intros s. cbn. reflexivity. Qed.
Lemma trails_gets {A} (g : S -> A) : trails (gets g).
Proof. intros s. cbn. reflexivity. Qed.
Lemma trails_throw {A} e : trails (throw (A := A) e).
Proof. intros s. cbn. reflexivity. Qed.
Lemma trails_stuck {A} w : trails (stuck (A := A) w).
Proof. done. Qed.
Lemma trails_assert b : trails (assertM b).
Proof. destruct b; [apply trails_ret|done]. Qed.
Lemma trails_bind {A B} (m : M S A) (k : A -> M S B) : trails m -> (forall a, trails (k a)) -> trails (bind m k).
Proof.
  intros Hm Hk s. unfold bind. specialize (Hm s). destruct (m s) as [a s1|e s1|]; [|done|done].
  specialize (Hk a s1). destruct (k a s1) as [b s2|e s2|]; [by etrans|by etrans|done].
Qed.
Lemma trails_modify f : (forall s, R s (f s)) -> trails (modify f).
Proof. intros Hf s. apply Hf. Qed.
End trails.
Arguments trails {S} R {A} m.

(** Programs over an object next to the database. *)
Definition beside_db {X} (R : DBImpl -> DBImpl -> Prop) (x y : X * DBImpl) : Prop := R x.2 y.2.
#[export] Instance beside_db_preorder {X} R {HR : PreOrder R} : PreOrder (beside_db (X := X) R).
Proof. split; [intros x; unfold beside_db; reflexivity|]. intros x y z Hxy Hyz. unfold beside_db in *. by etrans. Qed.
Abbreviation trails_on R m := (trails (beside_db R) m).

Section beside.
Context (R : DBImpl -> DBImpl -> Prop) {HR : PreOrder R}.

Lemma trails_on_ok {X A} (m : M (X * DBImpl) A) x d a x' d' : trails_on R m -> m (x, d) = Ok a (x', d') -> R d d'.
Proof. intros Hm E. exact (trails_ok _ m _ _ _ Hm E). Qed.

(** The object's own database. *)
Lemma trails_on_pager {A} (m : M DBImpl A) : trails R m -> trails_on R (on_pager m).
Proof. intros Hm [nd d]. unfold on_pager, zoom, beside_db. cbn. specialize (Hm d). by destruct (m d). Qed.
Lemma trails_on_db {A} (m : M DBImpl A) : trails R m -> trails_on R (on_db m).
Proof. intros Hm [it d]. unfold on_db, zoom, beside_db. cbn. specialize (Hm d). by destruct (m d). Qed.
Lemma trails_with_iterator {A} it (m : IterM A) : trails_on R m -> trails R (with_iterator it m).
Proof. intros Hm d. unfold with_iterator. specialize (Hm (it, d)). by destruct (m (it, d)) as [a [it' d']|e [it' d']|]. Qed.
End beside.

(** Related because the database is the same. *)
Ltac same_db := unfold beside_db; cbn; reflexivity.

Create HintDb trails.
#[export] Hint Resolve trails_stuck : trails.

(** One step of such a proof: take the program apart, or use what is known. *)
Ltac trails_step :=
  first
    [ assumption
    | solve [eauto 1 with trails]
    | solve [apply trails_ret; exact _ | apply trails_gets; exact _ | apply trails_throw; exact _ | apply trails_assert; exact _]
    | apply trails_bind; [exact _| |intros ?]
    | apply trails_on_pager
    | apply trails_on_db
    | match goal with |- trails _ (match ?x with _ => _ end) => destruct x end ].
Ltac trails := repeat trails_step.

(** ** The operations of nodes *)
Section nodes.
Context (R : DBImpl -> DBImpl -> Prop) {HR : PreOrder R}.
Context (R_map : forall mp d, R d (set_db_map mp d)) (R_alloc : forall n, trails R (Alloc n)).

Lemma trails_Write g o bs : trails R (WriteByBytes g o bs).
Proof. intros d. unfold WriteByBytes, write_at. destruct (_ && _); [apply R_map|done]. Qed.
Lemma trails_read g n : trails R (pg_read g n).
Proof. cbn. unfold gets, bind, read_at. intros d. destruct (_ && _); [same_db|done]. Qed.
Lemma trails_txid : trails R pg_txid.
Proof. intros d. cbn. unfold bind, get_update_tx. destruct (update_tx (tx_manager d)); [same_db|done]. Qed.
Lemma trails_pg_Alloc n : trails R (pg_Alloc n).
Proof. apply R_alloc. Qed.
Lemma trails_pg_Write g o bs : trails R (pg_WriteByBytes g o bs).
Proof. apply trails_Write. Qed.
#[local] Hint Resolve trails_read trails_txid trails_pg_Alloc trails_pg_Write : trails.

Abbreviation NodeOp A := (NodeM (St := DBImpl) A).

Lemma trails_get_slot i : trails_on R (get_slot i : NodeOp Slot).
Proof. intros x. unfold get_slot. destruct (nth_slot i x.1); [same_db|done]. Qed.
Lemma trails_move_slots a b n : trails_on R (move_slots a b n : NodeOp unit).
Proof. intros x. unfold move_slots. destruct (_ && _); [same_db|done]. Qed.
Lemma trails_write_record o bs : trails_on R (write_record o bs : NodeOp unit).
Proof. intros x. unfold write_record. destruct (_ && _); [same_db|done]. Qed.
Lemma trails_read_record o n : trails_on R (read_record o n : NodeOp (list byte)).
Proof. intros x. unfold read_record. destruct (_ && _); [same_db|done]. Qed.
Lemma trails_on_data f : trails_on R (on_data f : NodeOp unit).
Proof. intros x. same_db. Qed.
#[local] Hint Resolve trails_get_slot trails_move_slots trails_write_record trails_read_record trails_on_data : trails.

Lemma trails_on_slot i f : trails_on R (on_slot i f : NodeOp unit).
Proof. unfold on_slot. trails. Qed.
Lemma trails_write_key o k : trails_on R (write_key o k : NodeOp unit).
Proof. unfold write_key, data. trails. Qed.
#[local] Hint Resolve trails_on_slot trails_write_key : trails.

Lemma trails_space : trails_on R (SlotSpace : NodeOp Z) /\ trails_on R (FreeSpace : NodeOp Z) /\
  trails_on R (FreeSpaceAfterCompaction : NodeOp Z) /\ trails_on R (MaxInlineRecordSize : NodeOp Z).
Proof.
  assert (H1 : trails_on R (SlotSpace : NodeOp Z)) by (unfold SlotSpace, data, node_page_size; trails).
  split_and!; [done|unfold FreeSpace, data, node_page_size; trails|unfold FreeSpaceAfterCompaction, data, node_page_size; trails|].
  unfold MaxInlineRecordSize, node_page_size. trails.
Qed.
#[local] Hint Extern 1 (trails_on _ SlotSpace) => apply trails_space : trails.
#[local] Hint Extern 1 (trails_on _ FreeSpace) => apply trails_space : trails.
#[local] Hint Extern 1 (trails_on _ FreeSpaceAfterCompaction) => apply trails_space : trails.
#[local] Hint Extern 1 (trails_on _ MaxInlineRecordSize) => apply trails_space : trails.

Lemma trails_check_space : trails_on R (check_space : NodeOp unit).
Proof. unfold check_space, data. trails. Qed.
Lemma trails_GetFillRate : trails_on R (GetFillRate : NodeOp Z).
Proof. unfold GetFillRate, node_page_size. trails. Qed.
Lemma trails_GetRawRecordPtr i : trails_on R (GetRawRecordPtr i : NodeOp Z).
Proof. unfold GetRawRecordPtr, data. trails. Qed.
#[local] Hint Resolve trails_check_space trails_GetRawRecordPtr : trails.

Lemma trails_copy_record_range n : forall i dst, trails_on R (copy_record_range n i dst : NodeOp NodeData).
Proof. induction n as [|n IH]; intros i dst; cbn [copy_record_range]; unfold data; trails. Qed.
#[local] Hint Resolve trails_copy_record_range : trails.
Lemma trails_Compactify : trails_on R (Compactify : NodeOp unit).
Proof. unfold Compactify, CopyRecordRange, node_page_size, data. trails. Qed.
#[local] Hint Resolve trails_Compactify : trails.
Lemma trails_RequestSpaceFor a b c : trails_on R (RequestSpaceFor a b c : NodeOp bool).
Proof. unfold RequestSpaceFor. trails. Qed.
Lemma trails_StoreOverflow k v : trails_on R (StoreRecordToOverflowPages k v : NodeOp Z).
Proof. unfold StoreRecordToOverflowPages, node_page_size, data. trails. Qed.
Lemma trails_take_space n : trails_on R (take_space n : NodeOp unit).
Proof. unfold take_space, data. trails. Qed.
#[local] Hint Resolve trails_RequestSpaceFor trails_StoreOverflow trails_take_space : trails.
Lemma trails_StoreRecord i k v : trails_on R (StoreRecord i k v : NodeOp unit).
Proof. unfold StoreRecord, node_page_size, data. trails. Qed.
Lemma trails_DeleteRecord i : trails_on R (DeleteRecord i : NodeOp unit).
Proof. unfold DeleteRecord, data. trails. Qed.
Lemma trails_RestoreRecord i s : trails_on R (RestoreRecord i s : NodeOp unit).
Proof. unfold RestoreRecord, data. trails. Qed.
#[local] Hint Resolve trails_StoreRecord trails_DeleteRecord trails_RestoreRecord : trails.

Lemma trails_record_span i o n : trails_on R (record_span i o n : NodeOp span).
Proof. unfold record_span. trails. Qed.
Lemma trails_load_span k : trails_on R (load_span k : NodeOp (list byte)).
Proof. unfold load_span. trails. Qed.
#[local] Hint Resolve trails_record_span trails_load_span : trails.
Lemma trails_GetKey i : trails_on R (GetKey i : NodeOp span).
Proof. unfold GetKey, data. trails. Qed.
Lemma trails_GetValue i : trails_on R (GetValue i : NodeOp span).
Proof. unfold GetValue, data. trails. Qed.
#[local] Hint Resolve trails_GetKey trails_GetValue : trails.
Lemma trails_key_at i : trails_on R (key_at i : NodeOp (list byte)).
Proof. unfold key_at. trails. Qed.
Lemma trails_value_at i : trails_on R (value_at i : NodeOp (list byte)).
Proof. unfold value_at. trails. Qed.
#[local] Hint Resolve trails_key_at trails_value_at : trails.
Lemma trails_Node_LowerBound cmp k : trails_on R (Node_LowerBound cmp k : NodeOp (Z * bool)).
Proof.
  unfold Node_LowerBound, data. apply trails_bind; [exact _|trails|]. intros nd. generalize (S (Z.to_nat (count nd))) as n. intros n.
  generalize 0 (count nd) false. induction n as [|n IH]; intros a b eq; cbn [lower_bound_loop]; trails.
Qed.

Lemma trails_Leaf_Build : trails_on R (Leaf_Build : NodeOp unit).
Proof. unfold Leaf_Build, node_page_size. trails. Qed.
Lemma trails_Branch_Build t : trails_on R (Branch_Build t : NodeOp unit).
Proof. unfold Branch_Build, node_page_size. trails. Qed.
Lemma trails_IsBucket i : trails_on R (IsBucket i : NodeOp bool).
Proof. unfold IsBucket, data. trails. Qed.
Lemma trails_SetIsBucket i b : trails_on R (SetIsBucket i b : NodeOp unit).
Proof. unfold SetIsBucket, data. trails. Qed.
Lemma trails_Leaf_Update i k v : trails_on R (Leaf_Update i k v : NodeOp bool).
Proof. unfold Leaf_Update, data. trails. Qed.
Lemma trails_Leaf_Insert i k v : trails_on R (Leaf_Insert i k v : NodeOp bool).
Proof. unfold Leaf_Insert, data. trails. Qed.
#[local] Hint Resolve trails_Leaf_Insert : trails.
Lemma trails_Leaf_Append k v : trails_on R (Leaf_Append k v : NodeOp bool).
Proof. unfold Leaf_Append, data. trails. Qed.
Lemma trails_GetTailChild : trails_on R (GetTailChild : NodeOp Z).
Proof. unfold GetTailChild, data. trails. Qed.
Lemma trails_SetTailChild c : trails_on R (SetTailChild c : NodeOp unit).
Proof. unfold SetTailChild. trails. Qed.
#[local] Hint Resolve trails_GetTailChild trails_SetTailChild : trails.
Lemma trails_GetLeftChild i : trails_on R (GetLeftChild i : NodeOp Z).
Proof. unfold GetLeftChild, data. trails. Qed.
Lemma trails_SetLeftChild i c : trails_on R (SetLeftChild i c : NodeOp unit).
Proof. unfold SetLeftChild, data. trails. Qed.
Lemma trails_GetRightChild i : trails_on R (GetRightChild i : NodeOp Z).
Proof. unfold GetRightChild, data. trails. Qed.
Lemma trails_SetRightChild i c : trails_on R (SetRightChild i c : NodeOp unit).
Proof. unfold SetRightChild, data. trails. Qed.
Lemma trails_Branch_UpdateKey i k : trails_on R (Branch_UpdateKey i k : NodeOp bool).
Proof. unfold Branch_UpdateKey, data. trails. Qed.
#[local] Hint Resolve trails_Branch_UpdateKey : trails.
Lemma trails_Branch_Update i k c b : trails_on R (Branch_Update i k c b : NodeOp bool).
Proof. unfold Branch_Update, data. trails. Qed.
Lemma trails_Branch_Insert i k c b : trails_on R (Branch_Insert i k c b : NodeOp bool).
Proof. unfold Branch_Insert, data. trails. Qed.
#[local] Hint Resolve trails_Branch_Insert : trails.
Lemma trails_Branch_Append k c b : trails_on R (Branch_Append k c b : NodeOp bool).
Proof. unfold Branch_Append, data. trails. Qed.

(** On the nodes of the file. *)
Lemma trails_store_node p nd : trails R (store_node p nd).
Proof. intros d. apply R_map. Qed.
Lemma trails_Reference p : trails R (Reference p).
Proof. intros d. unfold Reference. destruct (_ && _); [|done]. destruct (_ <=? _); [same_db|done]. Qed.
Lemma trails_look {A} p (op : NodeOp A) : trails_on R op -> trails R (look p op).
Proof.
  intros Hop d. unfold look. pose proof (trails_Reference p d) as Hr. destruct (Reference p d) as [nd d1|e d1|]; [|done|done].
  specialize (Hop (nd, d1)). destruct (op (nd, d1)) as [a [nd' d2]|e [nd' d2]|]; [by etrans|by etrans|done].
Qed.
Lemma trails_on_node {A} p (op : NodeOp A) : trails_on R op -> trails R (on_node p op).
Proof.
  intros Hop d. unfold on_node. pose proof (trails_Reference p d) as Hr. destruct (Reference p d) as [nd d1|e d1|]; [|done|done].
  specialize (Hop (nd, d1)). destruct (op (nd, d1)) as [a [nd' d2]|e [nd' d2]|]; [| |done];
    (cbn; etrans; [exact Hr|]; etrans; [exact Hop|]; apply R_map).
Qed.
End nodes.
