(* ===== verification/Meta.v ===== *)
(** The two meta records: [Meta] of [src/meta.cpp].

    [wal::Crc32] comes from a library outside the repository: its object and
    its two methods are a parameter.  Everything else is the source's. *)
From S2P Require Import Prelude Format State Memory.

(** [Append] and [End] of a checksum object; [End] returns the object as it
    leaves it, since [Load] goes on using it. *)
Class Crc32 := {
  crc_object : Type;
  crc_new : crc_object;
  crc_Append : crc_object -> list byte -> crc_object;
  crc_End : crc_object -> Z * crc_object;
}.

Section meta.
Context `{Crc32}.

(** ** Field updates *)
Definition set_m_txid (v : Z) (m : MetaStruct) : MetaStruct :=
  mkMeta (m_sign m) (m_page_size m) (m_min_version m) (m_page_count m) (m_user_root m)
    (m_free_list_pgid m) (m_free_pair_count m) (m_free_list_page_count m) v (m_crc32 m).
Definition set_m_crc32 (v : Z) (m : MetaStruct) : MetaStruct :=
  mkMeta (m_sign m) (m_page_size m) (m_min_version m) (m_page_count m) (m_user_root m)
    (m_free_list_pgid m) (m_free_pair_count m) (m_free_list_page_count m) (m_txid m) v.

(** The bytes the checksum covers: the record but its last field. *)
Definition crc_bytes (record : list byte) : list byte := take (Z.to_nat (kMetaSize - 4)) record.
Definition meta_crc (m : MetaStruct) : Z := u32 (crc_End (crc_Append crc_new (crc_bytes (encode_meta m)))).1.

(** ** Saving.  A write to the file is seen through the mapping as well. *)
Definition file_write (offset : Z) (bs : list byte) : M DBImpl unit := modify (fun d =>
  let ps := page_size d in
  let mp := db_map d in
  log_io (MetaWrite offset bs)
    (set_db_map (mkMapping (write_pages ps (length bs) (offset / ps) (offset mod ps) bs (file_pages mp))
      (map_size mp)) d)).

Definition Meta_Save : M DBImpl unit :=
  modify (fun d => set_shm_meta (set_m_crc32 (meta_crc (shm_meta d)) (shm_meta d)) d) ;;;
  let* index := gets cur_meta_index in
  let* m := gets shm_meta in
  file_write (index * m_page_size m) (encode_meta m) ;;;
  modify (log_io FileSync).

Definition Meta_Switch : M DBImpl unit :=
  modify (fun d => set_cur_meta_index (if cur_meta_index d =? 0 then 1 else 0) d).

Definition Meta_Reset (meta : MetaStruct) : M DBImpl unit :=
  modify (fun d => set_shm_meta (CopyMetaInfo (shm_meta d) meta) d).

(** ** A new file *)
Definition init_meta (ps crc : Z) : MetaStruct :=
  mkMeta ATOMKV_SIGN (u16 ps) ATOMKV_VERSION 2 kPageInvalidId kPageInvalidId 0 0 2 crc.

Definition Meta_Init : M DBImpl unit :=
  modify (set_cur_meta_index 0) ;;;
  modify (fun d => set_shm_meta (init_meta (page_size d) (m_crc32 (shm_meta d))) d) ;;;
  Meta_Save ;;;
  Meta_Switch ;;;
  modify (fun d => set_shm_meta (set_m_txid 1 (shm_meta d)) d) ;;;
  Meta_Save ;;;
  Meta_Switch.

(** ** Loading *)
Definition Meta_Load : M DBImpl unit :=
  let* ps := gets page_size in
  let* first_bytes := read_at 0 kMetaSize in
  let* second_bytes := read_at ps kMetaSize in
  let first := decode_meta first_bytes in
  let second := decode_meta second_bytes in
  if negb (m_sign first =? ATOMKV_SIGN) && negb (m_sign second =? ATOMKV_SIGN) then
    throw (RuntimeError "Not a atomkv file.")
  else if ATOMKV_VERSION <? m_min_version first then
    throw (RuntimeError "the target database version is too high.")
  else
    let index := if m_txid first <? m_txid second then 1 else 0 in
    let select_bytes (i : Z) := if i =? 1 then second_bytes else first_bytes in
    modify (set_cur_meta_index index) ;;;
    let select := decode_meta (select_bytes index) in
    let (crc32_value, crc32) := crc_End (crc_Append crc_new (crc_bytes (select_bytes index))) in
    let* select :=
      if u32 crc32_value =? m_crc32 select then ret select
      else
        let index := if index =? 1 then 0 else 1 in
        modify (set_cur_meta_index index) ;;;
        let select := decode_meta (select_bytes index) in
        let (crc32_value, _) := crc_End (crc_Append crc32 (crc_bytes (select_bytes index))) in
        if u32 crc32_value =? m_crc32 select then ret select
        else throw (RuntimeError "database is damaged.") in
    if negb (m_page_size select =? ps) then
      throw (RuntimeError "database cannot match system page size.")
    else modify (set_shm_meta select).
End meta.
