(* ===== verification/Logger.v ===== *)
(** The write-ahead log: [Logger] of [src/logger.cpp] but [Recover] (which
    replays the log through the buckets, in [Recovery.v]), the record headers
    of [src/log_type.h], and the records [TxManager] writes.

    [wal::Writer] comes from a library outside the repository: the calls made
    on it are the history [writer_calls], and [writer_.size()] is a parameter,
    a function of that history. *)
From S2P Require Import Prelude Format State Memory Pager Meta.

(** ** log_type.h *)
Definition kWalTxId : Z := 0.
Definition kBegin : Z := 1.
Definition kRollback : Z := 2.
Definition kCommit : Z := 3.
Definition kSubBucket : Z := 4.
Definition kPut_IsBucket : Z := 5.
Definition kPut_NotBucket : Z := 6.
Definition kDelete : Z := 7.

Definition kBucketLogHeaderSize : Z := 5.
Definition encode_bucket_log (type bucket_id : Z) : list byte := le_bytes 1 type ++ le_bytes 4 bucket_id.
Definition encode_txid_log (txid : Z) : list byte := le_bytes 1 kWalTxId ++ le_bytes 8 txid.
Definition log_type (record : list byte) : Z := le_value (slice 0 1 record).
Definition log_bucket_id (record : list byte) : Z := le_value (slice 1 4 record).
Definition log_txid (record : list byte) : Z := le_value (slice 1 8 record).

Class WalWriter := { writer_size : list WalCall -> Z }.

Definition is_wal (d : DBImpl) : bool := bool_decide (opt_mode (options d) = kWal).

Section logger.
Context `{Crc32, WalWriter}.

Definition writer_call (c : WalCall) : M DBImpl unit := modify (fun d =>
  let l := logger d in
  set_logger (mkLogger (writer_calls l ++ [c]) (disable_writing l) (checkpoint_needed l)) d).
Definition set_checkpoint_needed (b : bool) : M DBImpl unit := modify (fun d =>
  let l := logger d in set_logger (mkLogger (writer_calls l) (disable_writing l) b) d).
Definition set_disable_writing (b : bool) : M DBImpl unit := modify (fun d =>
  let l := logger d in set_logger (mkLogger (writer_calls l) b (checkpoint_needed l)) d).

(** ** Writing *)
Fixpoint append_records (records : list (list byte)) : M DBImpl unit :=
  match records with
  | [] => ret tt
  | r :: records => writer_call (AppendRecordToBuffer r) ;;; append_records records
  end.

Definition AppendLog (records : list (list byte)) : M DBImpl unit :=
  let* l := gets logger in
  if disable_writing l then ret tt
  else
    append_records records ;;;
    let* d := gets (fun d => d) in
    if negb (checkpoint_needed (logger d)) &&
       (opt_max_wal_size (options d) <=? writer_size (writer_calls (logger d)))
    then set_checkpoint_needed true
    else ret tt.

Definition FlushLog : M DBImpl unit :=
  let* l := gets logger in
  if disable_writing l then ret tt
  else
    writer_call FlushBuffer ;;;
    let* o := gets options in
    if opt_sync o then writer_call Sync else ret tt.

Definition Logger_Reset : M DBImpl unit := writer_call Close ;;; writer_call Open.

Definition AppendWalTxIdLog : M DBImpl unit :=
  let* m := gets shm_meta in
  AppendLog [encode_txid_log (m_txid m)].

(** ** Checkpoint *)
Definition Checkpoint : M DBImpl unit :=
  let* m := gets tx_manager in
  match update_tx m with
  | None => throw (RuntimeError "Checkpoint can only be invoked within a write transaction.")
  | Some _ =>
      SaveFreeList ;;;
      WriteAllDirtyPages ;;;
      Meta_Switch ;;;
      Meta_Save ;;;
      modify (fun d => set_tx_manager (set_persisted_txid (m_txid (shm_meta d)) (tx_manager d)) d) ;;;
      Logger_Reset ;;;
      AppendWalTxIdLog ;;;
      let* l := gets logger in
      if checkpoint_needed l then set_checkpoint_needed false else ret tt
  end.

(** ** The records [TxManager] writes ([src/tx_manager.cpp]) *)
Definition AppendSubBucketLog (bucket_id : Z) (key : list byte) : M DBImpl unit :=
  AppendLog [encode_bucket_log kSubBucket bucket_id; key].

Definition AppendPutLog (bucket_id : Z) (key value : list byte) (is_bucket : bool) : M DBImpl unit :=
  let* wal := gets is_wal in
  if negb wal then ret tt
  else AppendLog [encode_bucket_log (if is_bucket then kPut_IsBucket else kPut_NotBucket) bucket_id; key; value].

Definition AppendDeleteLog (bucket_id : Z) (key : list byte) : M DBImpl unit :=
  let* wal := gets is_wal in
  if negb wal then ret tt
  else AppendLog [encode_bucket_log kDelete bucket_id; key].

Definition AppendBeginLog : M DBImpl unit := AppendLog [le_bytes 1 kBegin].
Definition AppendRollbackLog : M DBImpl unit := AppendLog [le_bytes 1 kRollback].
Definition AppendCommitLog : M DBImpl unit := AppendLog [le_bytes 1 kCommit] ;;; FlushLog.
End logger.
