(* ===== verification/TxManager.v ===== *)
(** [TxManager] of [src/tx_manager.cpp]: opening and ending transactions.

    Each public method runs under [meta_lock] from start to end, so it is one
    step here.  [update_lock] is held from [Update] to the end of the write
    transaction; a method that would wait for a held lock is [Blocked]. *)
From S2P Require Import Prelude Format State Memory FreeMap Pager Tx Meta Logger.

Section tx_manager.
Context `{Crc32, WalWriter}.

(** The constructor: the saved free list, and the oldest readable version. *)
Definition init_TxManager : M DBImpl unit :=
  modify (set_tx_manager (mkTxManager kTxInvalidId None [] 0)) ;;;
  LoadFreeList ;;;
  modify (fun d => set_tx_manager (set_min_view_txid (m_txid (shm_meta d)) (tx_manager d)) d).

(** [DBImpl::ClearPendingMmap]: waits for the views, which hold the mapping's
    lock, to end. *)
Definition live_views (d : DBImpl) : nat := length (filter (fun v => is_Some v) (view_txs d)).
Definition ClearPendingMmap : M DBImpl unit := fun d =>
  match db_mmap_pending d with
  | O => Ok tt d
  | S _ => if (live_views d =? 0)%nat then Ok tt (set_db_mmap_pending 0 d) else Fault Blocked
  end.

Definition lock_update : M DBImpl unit := fun d =>
  if update_lock d then Fault Blocked else Ok tt (set_update_lock true d).
Definition unlock_update : M DBImpl unit := modify (set_update_lock false).

(** ** Opening *)
Definition Update : M DBImpl unit :=
  lock_update ;;;
  ClearPendingMmap ;;;
  let* m := gets tx_manager in
  assertM (bool_decide (update_tx m = None)) ;;;
  let* wal := gets is_wal in
  (if wal then AppendBeginLog else ret tt) ;;;
  let* meta := gets shm_meta in
  let t := new_TxImpl meta true in
  let t := set_txid (u64 (txid t + 1)) t in
  put_update_tx t ;;;
  if txid t =? kTxInvalidId then throw (RuntimeError "Txid overflow.")
  else
    let* m := gets tx_manager in
    let min_view := match view_tx_map m with [] => m_txid meta | (id, _) :: _ => id end in
    modify (fun d => set_tx_manager (set_min_view_txid min_view (tx_manager d)) d) ;;;
    zoom pager_lens (Release (u64 (min_view - 1))).

(** The count of views of a version: [++iter->second], or a new entry. *)
Definition view_enter (txid : Z) (m : list (Z * Z)) : list (Z * Z) :=
  match map_find txid m with
  | Some n => map_assign txid (u32 (n + 1)) m
  | None => map_insert txid 1 m
  end.

(** [View]: the handle of the new [ViewTx]. *)
Definition View : M DBImpl nat :=
  let* meta := gets shm_meta in
  modify (fun d => set_tx_manager (set_view_tx_map
    (view_enter (m_txid meta) (view_tx_map (tx_manager d))) (tx_manager d)) d) ;;;
  let* views := gets view_txs in
  modify (set_view_txs (views ++ [Some (new_TxImpl meta false)])) ;;;
  ret (length views).

(** ** Ending *)
Definition end_update : M DBImpl unit :=
  modify (fun d => set_tx_manager (set_update_tx None (tx_manager d)) d) ;;;
  unlock_update.

(** [RollBack()] of the write transaction. *)
Definition RollBack : M DBImpl unit :=
  let* wal := gets is_wal in
  (if wal then
     AppendRollbackLog ;;;
     let* l := gets logger in
     if checkpoint_needed l then Checkpoint else ret tt
   else ret tt) ;;;
  PagerRollback ;;;
  end_update.

(** [RollBack(view_txid)] of a read transaction. *)
Definition RollBackView (view_txid : Z) : M DBImpl unit :=
  let* m := gets tx_manager in
  match map_find view_txid (view_tx_map m) with
  | None => stuck Assertion
  | Some n =>
      assertM (0 <? n) ;;;
      let views := if n - 1 =? 0 then map_erase view_txid (view_tx_map m)
                   else map_assign view_txid (n - 1) (view_tx_map m) in
      modify (fun d => set_tx_manager (set_view_tx_map views (tx_manager d)) d)
  end.

(** [ViewTx::~ViewTx] *)
Definition destroy_view (h : nat) : M DBImpl unit :=
  let* t := get_tx (ViewTxRef h) in
  RollBackView (txid t) ;;;
  modify (fun d => set_view_txs (<[h := None]> (view_txs d)) d).

(** [Commit]: in-place mode saves the free list, then the pages, then the meta. *)
Definition Commit : M DBImpl unit :=
  let* m := gets tx_manager in
  match update_tx m with
  | None => stuck EmptyOptional
  | Some t =>
      Meta_Reset (meta_format t) ;;;
      let* wal := gets is_wal in
      (if wal then
         AppendCommitLog ;;;
         let* l := gets logger in
         if checkpoint_needed l then Checkpoint else ret tt
       else
         SaveFreeList ;;;
         WriteAllDirtyPages ;;;
         Meta_Switch ;;;
         Meta_Save) ;;;
      end_update
  end.
End tx_manager.
