(* ===== verification/Bucket.v ===== *)
(** Buckets: [BucketImpl] of [src/bucket_impl.cpp], its tree and the map of
    the sub buckets it has open.

    A [BucketImpl&] is the transaction it belongs to and its bucket id. *)
From S2P Require Import Prelude Format Comparator State Memory Pager PagerI PagerInst Node Tx Iterator BTree.
From S2P Require Import Meta Logger TxManager.

Section bucket.
Context `{Crc32, WalWriter}.

Record Bucket := mkBucketRef { bk_tx : TxRef; bk_id : Z }.

Definition the_bucket (b : Bucket) : M DBImpl BucketImpl := at_bucket (bk_tx b) (bk_id b).
Definition btree (b : Bucket) : M DBImpl BTree :=
  let* impl := the_bucket b in ret (mkBTree (bk_tx b) (b_root impl)).
Definition put_sub_bucket_map (b : Bucket) (m : smap (Z * Z)) : M DBImpl unit :=
  let* impl := the_bucket b in
  put_bucket (bk_tx b) (bk_id b) (set_sub_bucket_map (Some m) impl).
(** [sub_bucket_map_->...]: dereferencing an empty optional faults. *)
Definition get_sub_bucket_map (b : Bucket) : M DBImpl (smap (Z * Z)) :=
  let* impl := the_bucket b in
  match sub_bucket_map impl with Some m => ret m | None => stuck EmptyOptional end.

(** ** Keys and values *)
Definition Bucket_Empty (b : Bucket) : M DBImpl bool := let* bt := btree b in BTree_Empty bt.
Definition Bucket_Get (b : Bucket) (key : list byte) : M DBImpl BTreeIterator :=
  let* bt := btree b in Get bt key.
Definition Bucket_LowerBound (b : Bucket) (key : list byte) : M DBImpl BTreeIterator :=
  let* bt := btree b in LowerBound bt key.
Definition Bucket_begin (b : Bucket) : M DBImpl BTreeIterator := let* bt := btree b in tree_begin bt.

Definition Bucket_Put (b : Bucket) (key value : list byte) (is_bucket : bool) : M DBImpl unit :=
  let* impl := the_bucket b in
  AppendPutLog (bucket_id impl) key value is_bucket ;;;
  let* bt := btree b in
  Put bt key value is_bucket.

Definition Bucket_Update (b : Bucket) (it : BTreeIterator) (value : list byte) : M DBImpl BTreeIterator :=
  let* (_, it) := with_iterator it (
    let* key := iter_key in
    let* is_bucket := iter_is_bucket in
    let* impl := on_db (the_bucket b) in
    on_db (AppendPutLog (bucket_id impl) key value is_bucket) ;;;
    BTree.Update value) in
  ret it.

Definition Bucket_Delete (b : Bucket) (key : list byte) : M DBImpl bool :=
  let* impl := the_bucket b in
  AppendDeleteLog (bucket_id impl) key ;;;
  let* bt := btree b in
  BTree.Delete bt key.

(** [Delete], by iterator: no log record. *)
Definition Bucket_Delete_iter (it : BTreeIterator) : M DBImpl unit :=
  with_iterator it Delete_iter ;;; ret tt.

(** ** Sub buckets *)
Definition invalid_value : list byte := le_bytes 4 kPageInvalidId.

(** The part of [SubBucket] for a key not yet in the map: the entry is found or
    created in the tree, and its root goes into the map's entry. *)
Definition open_sub_bucket (b : Bucket) (key : list byte) (writable : bool) : M DBImpl Z :=
  let* m := get_sub_bucket_map b in
  put_sub_bucket_map b (smap_insert key (0, kPageInvalidId) m) ;;;
  let* it := Bucket_Get b key in
  (if iter_end it then
     Bucket_Put b key invalid_value true ;;;
     let* it := Bucket_Get b key in
     let* (is_b, _) := with_iterator it iter_is_bucket in
     assertM is_b
   else
     let* (is_b, it) := with_iterator it iter_is_bucket in
     if negb is_b then
       throw (InvalidArgument "attempt to open a key value pair that is not a sub bucket.")
     else
       let* (pgid, _) := with_iterator it iter_value_pgid in
       let* m := get_sub_bucket_map b in
       put_sub_bucket_map b (smap_assign key (0, pgid) m)) ;;;
  let* bucket_id := NewSubBucket (bk_tx b) (EntryOf (bk_id b) key) writable in
  let* m := get_sub_bucket_map b in
  match smap_find key m with
  | Some (_, pgid) => put_sub_bucket_map b (smap_assign key (bucket_id, pgid) m)
  | None => stuck BadIterator
  end ;;;
  ret bucket_id.

Definition SubBucket (b : Bucket) (key : list byte) (writable : bool) : M DBImpl Bucket :=
  let* impl := the_bucket b in
  (match sub_bucket_map impl with
   | None => put_sub_bucket_map b []
   | Some _ => ret tt
   end) ;;;
  let* m := get_sub_bucket_map b in
  let* id :=
    match smap_find key m with
    | None => open_sub_bucket b key writable
    | Some (id, _) => ret id
    end in
  let* _ := at_bucket (bk_tx b) id in
  ret (mkBucketRef (bk_tx b) id).

(** [DeleteSubBucket], by iterator.  The inner call is on [this], as the source has it,
    not on the sub bucket.  The loop deletes an entry per turn; [fuel] bounds
    turns and nesting together. *)
Fixpoint DeleteSubBucket_at (fuel : nat) (b : Bucket) (it : BTreeIterator) : M DBImpl unit :=
  match fuel with
  | O => stuck OutOfFuel
  | S fuel =>
      let* (is_b, it) := with_iterator it iter_is_bucket in
      if negb is_b then
        throw (InvalidArgument "attempt to delete a key value pair that is not a sub bucket.")
      else
        let* (key, _) := with_iterator it iter_key in
        let* sub_bucket := SubBucket b key true in
        let* m := get_sub_bucket_map b in
        (fix loop (turns : nat) : M DBImpl unit :=
           match turns with
           | O => stuck OutOfFuel
           | S turns =>
               let* first := Bucket_begin sub_bucket in
               if iter_end first then ret tt
               else
                 let* (is_b, first) := with_iterator first iter_is_bucket in
                 let* first :=
                   if negb is_b then ret first
                   else
                     let* (first_key, first) := with_iterator first iter_key in
                     let* sub_map := get_sub_bucket_map sub_bucket in
                     DeleteSubBucket_at fuel b first ;;;
                     match smap_find first_key sub_map with
                     | None => stuck BadIterator
                     | Some (id, _) =>
                         Tx_DeleteSubBucket (bk_tx b) id ;;;
                         let* sub_map := get_sub_bucket_map sub_bucket in
                         put_sub_bucket_map sub_bucket (smap_erase first_key sub_map) ;;;
                         Bucket_Update sub_bucket first invalid_value
                     end in
                 Bucket_Delete_iter first ;;;
                 loop turns
           end) fuel ;;;
        match smap_find key m with
        | None => stuck BadIterator
        | Some _ =>
            let* m := get_sub_bucket_map b in
            match smap_find key m with
            | None => stuck BadIterator
            | Some (_, pgid) => if pgid =? kPageInvalidId then ret tt else Free pgid 1
            end
        end
  end.

Definition DeleteSubBucket (fuel : nat) (b : Bucket) (key : list byte) : M DBImpl bool :=
  let* it := Bucket_Get b key in
  if iter_end it then ret false
  else DeleteSubBucket_at fuel b it ;;; ret true.

(** ** [TxImpl::Commit] ([src/tx_impl.cpp]): the roots of the open sub buckets
    go into their parents' entries, bucket by bucket, then the transaction
    manager commits. *)
Fixpoint put_roots (b : Bucket) (entries : smap (Z * Z)) : M DBImpl unit :=
  match entries with
  | [] => ret tt
  | (key, _) :: entries =>
      let* m := get_sub_bucket_map b in
      match smap_find key m with
      | None => stuck BadIterator
      | Some (_, pgid) => Bucket_Put b key (le_bytes 4 pgid) true
      end ;;;
      put_roots b entries
  end.

Definition put_bucket_roots (b : Bucket) : M DBImpl unit :=
  let* t := get_tx (bk_tx b) in
  match find_bucket t (bk_id b) ≫= sub_bucket_map with
  | None => ret tt
  | Some m => put_roots b m
  end.

Fixpoint put_all_roots (r : TxRef) (ids : list Z) : M DBImpl unit :=
  match ids with
  | [] => ret tt
  | id :: ids => put_bucket_roots (mkBucketRef r id) ;;; put_all_roots r ids
  end.

Definition Tx_Commit : M DBImpl unit :=
  let* t := get_tx UpdateTxRef in
  assertM (tx_writable t) ;;;
  put_bucket_roots (mkBucketRef UpdateTxRef kUserRootBucketId) ;;;
  let* t := get_tx UpdateTxRef in
  put_all_roots UpdateTxRef (seqZ 0 (Z.of_nat (length (sub_bucket_cache t)))) ;;;
  Commit.

(** [TxImpl::RollBack] *)
Definition Tx_RollBack (r : TxRef) : M DBImpl unit :=
  let* t := get_tx r in
  if tx_writable t then RollBack else RollBackView (txid t).

(** ** The handles the user holds ([src/tx_impl.cpp]): an [UpdateTx] whose
    pointer is null once it has ended. *)
Definition UpdateTx := bool.
(** The moving constructor reads the new object's own pointer, which nothing
    has set: [garbage] is whether it is not null. *)
Definition UpdateTx_move (garbage : bool) (right : UpdateTx) : M DBImpl (UpdateTx * UpdateTx) :=
  assertM (negb garbage) ;;; ret (right, false).
Definition UpdateTx_RollBack (live : bool) : M DBImpl unit :=
  if negb live then throw (RuntimeError "Invalid tx.") else Tx_RollBack UpdateTxRef.
Definition UpdateTx_Commit (live : bool) : M DBImpl unit :=
  if negb live then throw (RuntimeError "Invalid tx.") else Tx_Commit.
Definition UpdateTx_destroy (live : bool) : M DBImpl unit :=
  if live then Tx_RollBack UpdateTxRef else ret tt.
Definition UserBucket (r : TxRef) : Bucket := mkBucketRef r kUserRootBucketId.
End bucket.
