(* ===== verification/Recovery.v ===== *)
(** Replaying the log, [Logger::Recover] of [src/logger.cpp], and the database
    object's life: [DB::Open], [DBImpl::~DBImpl] of [src/db_impl.cpp] and the
    constructors and destructors they run.

    The records [wal::Reader] yields are a parameter: the list of them.  The
    file system's part (opening, locking, resizing, removing, mapping) is
    assumed to succeed and is seen only through the mapping's size. *)
From S2P Require Import Prelude Format Comparator State Memory FreeMap Pager PagerI PagerInst Node Tx Iterator BTree.
From S2P Require Import Meta Logger TxManager Bucket.

(** [current_tx.emplace(tx_manager.Update())] moves into storage nothing has
    written: [stale_tx n] is whether the pointer found there is not null when
    [n] records are left to read. *)
Class Uninitialised := { stale_tx : nat -> bool }.

Section recovery.
Context `{Crc32, WalWriter, HU : Uninitialised}.

(** ** One record of the log.  A turn of the loop takes the records left and
    gives back those still to read, whether [current_tx] is engaged, whether
    the log's first record was seen, and whether the loop ends. *)
Record Replay := mkReplay {
  rp_records : list (list byte);
  rp_current_tx : bool;
  rp_init : bool;
  rp_end : bool;
}.

Definition unrecoverable {A} : M DBImpl A := throw (RuntimeError "unrecoverable logs.").
Definition require (b : bool) : M DBImpl unit := if b then ret tt else unrecoverable.

(** The bucket a record names, in the open write transaction. *)
Definition log_bucket (record : list byte) : M DBImpl Bucket :=
  let* _ := get_update_tx in
  let b := mkBucketRef UpdateTxRef (log_bucket_id record) in
  let* _ := the_bucket b in
  ret b.

(** A key record read as a C string. *)
Fixpoint c_string (bs : list byte) : list byte :=
  match bs with
  | [] => []
  | b :: bs => if bool_decide (b = x00) then [] else b :: c_string bs
  end.

Definition replay_sub_bucket (record : list byte) (st : Replay) : M DBImpl Replay :=
  require (rp_init st) ;;;
  assertM (length record =? Z.to_nat kBucketLogHeaderSize)%nat ;;;
  let* b := log_bucket record in
  match rp_records st with
  | [] => ret (mkReplay [] (rp_current_tx st) (rp_init st) true)
  | key :: rest =>
      SubBucket b (c_string key) true ;;;
      ret (mkReplay rest (rp_current_tx st) (rp_init st) false)
  end.

Definition replay_put (is_bucket : bool) (record : list byte) (st : Replay) : M DBImpl Replay :=
  require (rp_init st) ;;;
  assertM (length record =? Z.to_nat kBucketLogHeaderSize)%nat ;;;
  let* b := log_bucket record in
  match rp_records st with
  | key :: value :: rest =>
      Bucket_Put b key value is_bucket ;;;
      ret (mkReplay rest (rp_current_tx st) (rp_init st) false)
  | _ => ret (mkReplay [] (rp_current_tx st) (rp_init st) true)
  end.

Definition replay_delete (record : list byte) (st : Replay) : M DBImpl Replay :=
  require (rp_init st) ;;;
  assertM (length record =? Z.to_nat kBucketLogHeaderSize)%nat ;;;
  let* b := log_bucket record in
  match rp_records st with
  | [] => ret (mkReplay [] (rp_current_tx st) (rp_init st) true)
  | key :: rest =>
      Bucket_Delete b key ;;;
      ret (mkReplay rest (rp_current_tx st) (rp_init st) false)
  end.

Definition replay_record (record : list byte) (st : Replay) : M DBImpl Replay :=
  let type := log_type record in
  if type =? kWalTxId then
    if rp_init st then throw (RuntimeError "Unrecoverable logs.")
    else
      let* meta := gets shm_meta in
      ret (mkReplay (rp_records st) (rp_current_tx st) true (log_txid record <? m_txid meta))
  else if type =? kBegin then
    require (rp_init st) ;;;
    require (negb (rp_current_tx st)) ;;;
    TxManager.Update ;;;
    let* (current_tx, _) := UpdateTx_move (stale_tx (length (rp_records st))) true in
    ret (mkReplay (rp_records st) current_tx (rp_init st) false)
  else if type =? kRollback then
    require (rp_init st) ;;;
    require (rp_current_tx st) ;;;
    UpdateTx_RollBack true ;;;
    ret (mkReplay (rp_records st) false (rp_init st) false)
  else if type =? kCommit then
    require (rp_init st) ;;;
    require (rp_current_tx st) ;;;
    UpdateTx_Commit true ;;;
    ret (mkReplay (rp_records st) false (rp_init st) false)
  else if type =? kSubBucket then replay_sub_bucket record st
  else if (type =? kPut_IsBucket) || (type =? kPut_NotBucket) then
    replay_put (type =? kPut_IsBucket) record st
  else if type =? kDelete then replay_delete record st
  else ret st.

(** An exception leaves through the destructor of [current_tx]; a second one
    there ends the program. *)
Definition unwinding {A} (current_tx : bool) (m : M DBImpl A) : M DBImpl A := fun d =>
  match m d with
  | Throw e d' =>
      match UpdateTx_destroy current_tx d' with
      | Ok _ d'' => Throw e d''
      | Throw _ _ => Fault Assertion
      | Fault w => Fault w
      end
  | o => o
  end.

(** The loop: every turn reads at least one record. *)
Fixpoint replay_loop (fuel : nat) (st : Replay) : M DBImpl Replay :=
  match fuel with
  | O => stuck OutOfFuel
  | S fuel =>
      if rp_end st then ret st
      else
        match rp_records st with
        | [] => ret st
        | record :: rest =>
            if (length record <? 1)%nat then ret st
            else
              let* st' := unwinding (rp_current_tx st)
                (replay_record record (mkReplay rest (rp_current_tx st) (rp_init st) false)) in
              replay_loop fuel st'
        end
  end.

(** [raw_txid] is a reference to the meta's own field, so the last test
    compares the field with itself. *)
Definition Recover (records : list (list byte)) : M DBImpl unit :=
  set_disable_writing true ;;;
  let* st := replay_loop (S (length records)) (mkReplay records false false false) in
  set_disable_writing false ;;;
  WriteAllDirtyPages ;;;
  (if rp_current_tx st then UpdateTx_RollBack true else ret tt) ;;;
  let* meta := gets shm_meta in
  let* raw_txid := gets (fun d => m_txid (shm_meta d)) in
  if raw_txid <? m_txid meta then
    modify (log_io MmapSync) ;;;
    Meta_Switch ;;;
    Meta_Save ;;;
    modify (fun d => set_tx_manager (set_persisted_txid (m_txid (shm_meta d)) (tx_manager d)) d)
  else ret tt.

(** ** DBImpl *)
Definition db_Update : M DBImpl unit :=
  let* o := gets options in
  if opt_read_only o then throw (RuntimeError "the database is read-only.") else TxManager.Update.
Definition db_View : M DBImpl nat := View.

(** [Logger::Logger] opens the log; [RecoverNeeded] is whether the file is not
    empty, [Some] of its records. *)
Definition init_Logger : M DBImpl unit := writer_call Open.
Definition RecoverNeeded (log : option (list (list byte))) : bool := bool_decide (is_Some log).

(** [InitLogFile]: the logger, and recovery when the log asks for it. *)
Definition InitLogFile (log : option (list (list byte))) : M DBImpl unit :=
  let* o := gets options in
  if opt_read_only o then ret tt
  else
    init_Logger ;;;
    (if RecoverNeeded log then Recover (default [] log) ;;; Logger_Reset else ret tt) ;;;
    AppendWalTxIdLog.

(** [Pager::Pager]: nothing free, nothing pending. *)
Definition new_Pager : Pager := mkPager [] [] [] ∅.

(** The state [Open] builds on: [ps] is the machine's page size, [file] the
    pages of the database file and [size] its length. *)
Definition blank_db (o : Options) (file : gmap Z Page) (size : Z) : DBImpl :=
  mkDB o (mkMapping file size) 0 [] blank_meta false 0 new_Pager
    (mkTxManager kTxInvalidId None [] 0) [] (mkLogger [] false false).
Definition set_page_size (ps : Z) (o : Options) : Options :=
  mkOptions ps (opt_comparator o) (opt_read_only o) (opt_sync o) (opt_mode o) (opt_max_wal_size o).

(** [DB::Open]: an exception leaves no database. *)
Definition DB_Open (ps : Z) (o : Options) (file : gmap Z Page) (size : Z) (log : option (list (list byte)))
    : outcome DBImpl unit :=
  if kPageMaxSize <? ps then Throw (RuntimeError "Page size exceeds maximum limit") (blank_db o file size)
  else if negb (opt_page_size o =? 0) && negb (opt_page_size o =? ps) then
    Throw (InvalidArgument "Options page size mismatch.") (blank_db o file size)
  else
    let o := set_page_size (u16 ps) o in
    let init_file := negb (opt_read_only o) && (size =? 0) in
    let size := if init_file then opt_page_size o * kPageInitCount else size in
    ((if init_file then Meta_Init else Meta_Load) ;;;
     init_TxManager ;;;
     (if bool_decide (opt_mode o = kWal) then InitLogFile log else ret tt))
      (blank_db o file size).

(** [Logger::~Logger]: a last transaction around a checkpoint. *)
Definition destroy_Logger : M DBImpl unit :=
  let* o := gets options in
  if opt_read_only o then ret tt
  else
    db_Update ;;;
    Checkpoint ;;;
    UpdateTx_Commit true ;;;
    writer_call Close.

(** [TxManager::~TxManager] aborts the program when a transaction is open. *)
Definition destroy_TxManager : M DBImpl unit :=
  let* m := gets tx_manager in
  if negb (bool_decide (update_tx m = None)) || negb (bool_decide (view_tx_map m = []))
  then stuck Assertion else ret tt.

(** [DBImpl::~DBImpl]: the logger if there is one, the transaction manager,
    which aborts when a transaction is open, then the file is cut to the pages
    the meta counts. *)
Definition destroy_DBImpl : M DBImpl Z :=
  let* wal := gets is_wal in
  (if wal then destroy_Logger else ret tt) ;;;
  destroy_TxManager ;;;
  let* ps := gets page_size in
  let* meta := gets shm_meta in
  ClearPendingMmap ;;;
  ret (u64 (u32 (ps * m_page_count meta))).
End recovery.
