(* ===== verification/TreeTrails.v ===== *)
(** Programs that move along a relation, for the tree, the buckets and the
    iterators: what the pager's operations and the writes to the transactions
    keep, every operation of a tree keeps. *)
From S2P Require Import Prelude Format Comparator State Memory FreeMap Pager PagerI PagerInst Node Tx Iterator BTree Trails.
From S2P Require Import Meta Logger TxManager Bucket.

Section trees.
Context (R : DBImpl -> DBImpl -> Prop) {HR : PreOrder R}.
Context (R_map : forall mp d, R d (set_db_map mp d)).
Context (R_mmap : forall n d, R d (set_db_mmap_pending n d)).
Context (R_pager : forall p d, R d (set_pager p d)).
Context (R_tx : forall t d, R d (set_tx_manager (set_update_tx t (tx_manager d)) d)).
Context (R_views : forall v d, R d (set_view_txs v d)).

Lemma trails_zoom_pager {A} (m : M Pager A) : trails R (zoom pager_lens m).
Proof. intros d. unfold zoom. destruct (m _); [apply R_pager|apply R_pager|done]. Qed.
Lemma trails_get_update_tx : trails R get_update_tx.
Proof. intros d. unfold get_update_tx. destruct (update_tx _); [reflexivity|done]. Qed.
Lemma trails_put_update_tx t : trails R (put_update_tx t).
Proof. intros d. apply R_tx. Qed.
Lemma trails_Remmap n : trails R (Remmap n).
Proof.
  unfold Remmap. apply trails_bind; [exact _|trails|]. intros ps. apply trails_bind; [exact _|trails|]. intros _ d. cbn.
  etrans; [apply R_map|apply R_mmap].
Qed.
#[local] Hint Resolve trails_zoom_pager trails_get_update_tx trails_put_update_tx trails_Remmap : trails.

Lemma trails_Alloc n : trails R (Alloc n).
Proof. unfold Alloc. trails. Qed.
Lemma trails_Free g n : trails R (Free g n).
Proof. unfold Free. trails. Qed.


(** A program that is one node operation known to trail. *)
Ltac node_op :=
  lazymatch goal with
  | |- trails _ GetFillRate => apply trails_GetFillRate; auto using trails_Alloc
  | |- trails _ (key_at _) => apply trails_key_at; auto using trails_Alloc
  | |- trails _ (value_at _) => apply trails_value_at; auto using trails_Alloc
  | |- trails _ (Node_LowerBound _ _) => apply trails_Node_LowerBound; auto using trails_Alloc
  | |- trails _ Leaf_Build => apply trails_Leaf_Build; auto using trails_Alloc
  | |- trails _ (Branch_Build _) => apply trails_Branch_Build; auto using trails_Alloc
  | |- trails _ (IsBucket _) => apply trails_IsBucket; auto using trails_Alloc
  | |- trails _ (SetIsBucket _ _) => apply trails_SetIsBucket; auto using trails_Alloc
  | |- trails _ (Leaf_Update _ _ _) => apply trails_Leaf_Update; auto using trails_Alloc
  | |- trails _ (Leaf_Insert _ _ _) => apply trails_Leaf_Insert; auto using trails_Alloc
  | |- trails _ (Leaf_Append _ _) => apply trails_Leaf_Append; auto using trails_Alloc
  | |- trails _ GetTailChild => apply trails_GetTailChild; auto using trails_Alloc
  | |- trails _ (SetTailChild _) => apply trails_SetTailChild; auto using trails_Alloc
  | |- trails _ (GetLeftChild _) => apply trails_GetLeftChild; auto using trails_Alloc
  | |- trails _ (SetLeftChild _ _) => apply trails_SetLeftChild; auto using trails_Alloc
  | |- trails _ (GetRightChild _) => apply trails_GetRightChild; auto using trails_Alloc
  | |- trails _ (SetRightChild _ _) => apply trails_SetRightChild; auto using trails_Alloc
  | |- trails _ (Branch_UpdateKey _ _) => apply trails_Branch_UpdateKey; auto using trails_Alloc
  | |- trails _ (Branch_Update _ _ _ _) => apply trails_Branch_Update; auto using trails_Alloc
  | |- trails _ (Branch_Insert _ _ _ _) => apply trails_Branch_Insert; auto using trails_Alloc
  | |- trails _ (Branch_Append _ _ _) => apply trails_Branch_Append; auto using trails_Alloc
  | |- trails _ (GetKey _) => apply trails_GetKey; auto using trails_Alloc
  | |- trails _ (get_slot _) => apply trails_get_slot; auto using trails_Alloc
  | |- trails _ (read_record _ _) => apply trails_read_record; auto using trails_Alloc
  | |- trails _ (move_slots _ _ _) => apply trails_move_slots; auto using trails_Alloc
  | |- trails _ (on_slot _ _) => apply trails_on_slot; auto using trails_Alloc
  | |- trails _ check_space => apply trails_check_space; auto using trails_Alloc
  | |- trails _ (GetRawRecordPtr _) => apply trails_GetRawRecordPtr; auto using trails_Alloc
  | |- trails _ (on_data _) => apply trails_on_data; auto using trails_Alloc
  end.

(** One step, by the head of the program; what is known is in [tree_trails]. *)
Create HintDb tree_trails.
#[local] Hint Constants Opaque : tree_trails.
#[local] Hint Resolve trails_get_update_tx trails_put_update_tx trails_Alloc trails_Free : tree_trails.
Ltac tree_step :=
  lazymatch goal with
  | |- trails _ (bind _ _) => apply trails_bind; [exact _| |intros ?]
  | |- trails _ (ret _) => apply trails_ret; exact _
  | |- trails _ (gets _) => apply trails_gets; exact _
  | |- trails _ (throw _) => apply trails_throw; exact _
  | |- trails _ (stuck _) => apply trails_stuck
  | |- trails _ (assertM _) => apply trails_assert; exact _
  | |- trails _ iter => apply trails_gets; exact _
  | |- trails _ data => apply trails_gets; exact _
  | |- trails _ (match ?x with _ => _ end) => destruct x
  | |- trails _ (on_db _) => apply trails_on_db
  | |- trails _ (on_pager _) => apply trails_on_pager
  | |- trails _ (zoom pager_lens _) => apply trails_zoom_pager
  | |- trails _ (with_iterator _ _) => apply trails_with_iterator
  | |- trails _ (must _) => unfold must
  | |- trails _ (look _ _) => apply trails_look; [exact _|]
  | |- trails _ (on_node _ _) => apply trails_on_node; [exact _|exact R_map|]
  | |- _ => first [assumption | solve [eauto 1 with tree_trails nocore] | node_op]
  end.
Ltac trails := repeat tree_step.

Lemma trails_pg_Free g n : trails R (pg_Free g n).
Proof. apply trails_Free. Qed.
#[local] Hint Resolve trails_pg_Free : tree_trails.
Lemma trails_Leaf_Delete i : trails_on R (Leaf_Delete i : NodeM (St := DBImpl) unit).
Proof. unfold Leaf_Delete, data, node_page_size. trails. Qed.
Lemma trails_Branch_Delete i b : trails_on R (Branch_Delete i b : NodeM (St := DBImpl) unit).
Proof. unfold Branch_Delete, data, node_page_size. trails. Qed.
#[local] Hint Resolve trails_Leaf_Delete trails_Branch_Delete : tree_trails.
Lemma trails_Leaf_Pop : trails_on R (Leaf_Pop : NodeM (St := DBImpl) unit).
Proof. unfold Leaf_Pop. trails. Qed.
Lemma trails_Branch_Pop b : trails_on R (Branch_Pop b : NodeM (St := DBImpl) unit).
Proof. unfold Branch_Pop. trails. Qed.
#[local] Hint Resolve trails_Leaf_Pop trails_Branch_Pop : tree_trails.

(** ** The transactions and their roots *)
Lemma trails_get_tx r : trails R (get_tx r).
Proof. destruct r; [apply trails_get_update_tx|]. intros d. cbn. destruct (view_txs d !! h) as [[t|]|]; [reflexivity|done|done]. Qed.
Lemma trails_put_tx r t : trails R (put_tx r t).
Proof. destruct r; [apply trails_put_update_tx|]. intros d. apply R_views. Qed.
#[local] Hint Resolve trails_get_tx trails_put_tx : tree_trails.
Lemma trails_at_bucket r i : trails R (at_bucket r i).
Proof. unfold at_bucket. trails. Qed.
Lemma trails_put_bucket r i b : trails R (put_bucket r i b).
Proof. unfold put_bucket. trails. Qed.
#[local] Hint Resolve trails_at_bucket trails_put_bucket : tree_trails.
Lemma trails_get_root r root : trails R (get_root r root).
Proof. unfold get_root. trails. Qed.
Lemma trails_set_root r root g : trails R (set_root r root g).
Proof. unfold set_root. trails. Qed.
Lemma trails_NewSubBucket r root w : trails R (NewSubBucket r root w).
Proof. unfold NewSubBucket. trails. Qed.
Lemma trails_CopyNeeded r i : trails R (CopyNeeded r i).
Proof. unfold CopyNeeded. trails. Qed.
#[local] Hint Resolve trails_get_root trails_set_root trails_NewSubBucket trails_CopyNeeded : tree_trails.

(** ** Iterators *)
Lemma trails_new_node p : trails R (new_node p).
Proof. unfold new_node. apply trails_bind; [exact _|by apply trails_Reference|]. intros nd. trails. Qed.
Lemma trails_Copy p : trails R (Copy p).
Proof.
  unfold Copy. assert (Hr : forall g, trails R (Reference g)) by (intros g; by apply trails_Reference).
  assert (Hs : forall g nd, trails R (store_node g nd)) by (intros g nd; by apply trails_store_node). trails; auto.
Qed.
#[local] Hint Resolve trails_new_node trails_Copy : tree_trails.
Lemma trails_Node_Copy bt p : trails R (Node_Copy bt p).
Proof. unfold Node_Copy. trails. Qed.
#[local] Hint Resolve trails_Node_Copy : tree_trails.

Lemma trails_on_iter f : trails_on R (on_iter f).
Proof. intros x. same_db. Qed.
#[local] Hint Resolve trails_on_iter : tree_trails.
Lemma trails_Empty : trails_on R Empty.
Proof. unfold Empty. trails. Qed.
Lemma trails_Front : trails_on R Front.
Proof. unfold Front. trails. Qed.
Lemma trails_Push e : trails_on R (Push e).
Proof. unfold Push. trails. Qed.
Lemma trails_Pop : trails_on R Pop.
Proof. unfold Pop. trails. Qed.
Lemma trails_set_front_slot i : trails_on R (set_front_slot i).
Proof. unfold set_front_slot. trails. Qed.
#[local] Hint Resolve trails_Empty trails_Front trails_Push trails_Pop trails_set_front_slot : tree_trails.

Lemma trails_node_is_leaf p : trails R (node_is_leaf p).
Proof. unfold node_is_leaf. trails. Qed.
Lemma trails_node_is_branch p : trails R (node_is_branch p).
Proof. unfold node_is_branch. trails. Qed.
Lemma trails_node_count p : trails R (node_count p).
Proof. unfold node_count. trails. Qed.
Lemma trails_node_txid p : trails R (node_txid p).
Proof. unfold node_txid. trails. Qed.
#[local] Hint Resolve trails_node_is_leaf trails_node_is_branch trails_node_count trails_node_txid : tree_trails.

Lemma trails_GetLeafNode : trails_on R GetLeafNode.
Proof. unfold GetLeafNode, iter. trails. Qed.
#[local] Hint Resolve trails_GetLeafNode : tree_trails.
Lemma trails_iter_value : trails_on R iter_value.
Proof. unfold iter_value. trails. Qed.
#[local] Hint Resolve trails_iter_value : tree_trails.
Lemma trails_iter_key : trails_on R iter_key.
Proof. unfold iter_key. trails. Qed.
Lemma trails_iter_is_bucket : trails_on R iter_is_bucket.
Proof. unfold iter_is_bucket. trails. Qed.
Lemma trails_iter_value_pgid : trails_on R iter_value_pgid.
Proof. unfold iter_value_pgid. trails. Qed.
#[local] Hint Resolve trails_iter_key trails_iter_is_bucket trails_iter_value_pgid : tree_trails.

Lemma trails_Down key : trails_on R (Down key).
Proof. unfold Down, set_search_status, tree_root, iter. trails. Qed.
#[local] Hint Resolve trails_Down : tree_trails.
Lemma trails_descend fuel key : trails_on R (descend fuel key).
Proof. induction fuel as [|fuel IH]; cbn [descend]; trails. Qed.
#[local] Hint Resolve trails_descend : tree_trails.
Lemma trails_LowerBound bt key : trails R (LowerBound bt key).
Proof. unfold LowerBound, Top. trails. Qed.
#[local] Hint Resolve trails_LowerBound : tree_trails.
Lemma trails_Get bt key : trails R (Get bt key).
Proof. unfold Get. trails. Qed.

Lemma trails_copy_path bt l : forall lower, trails R (copy_path bt l lower).
Proof. induction l as [|[g s] l IH]; intros lower; cbn [copy_path]; trails; apply IH. Qed.
#[local] Hint Resolve trails_copy_path : tree_trails.
Lemma trails_CopyAllPagesByPath : trails_on R CopyAllPagesByPath.
Proof. unfold CopyAllPagesByPath, set_tree_root, iter. trails. Qed.
#[local] Hint Resolve trails_Get trails_CopyAllPagesByPath : tree_trails.

(** ** The tree *)
Lemma trails_node_key p i : trails R (node_key p i).
Proof. unfold node_key. trails. Qed.
Lemma trails_node_value p i : trails R (node_value p i).
Proof. unfold node_value. trails. Qed.
Lemma trails_node_is_bucket p i : trails R (node_is_bucket p i).
Proof. unfold node_is_bucket. trails. Qed.
Lemma trails_node_left_child p i : trails R (node_left_child p i).
Proof. unfold node_left_child. trails. Qed.
Lemma trails_node_tail_child p : trails R (node_tail_child p).
Proof. unfold node_tail_child. trails. Qed.
Lemma trails_fill_rate p : trails R (fill_rate p).
Proof. unfold fill_rate. trails. Qed.
#[local] Hint Resolve trails_node_key trails_node_value trails_node_is_bucket trails_node_left_child trails_node_tail_child trails_fill_rate : tree_trails.

Lemma trails_fill_at_least_40 p : trails R (fill_at_least_40 p).
Proof. unfold fill_at_least_40. trails. Qed.
Lemma trails_fill_above_half p : trails R (fill_above_half p).
Proof. unfold fill_above_half. trails. Qed.
#[local] Hint Resolve trails_fill_at_least_40 trails_fill_above_half : tree_trails.

Lemma trails_sibling_rich p : trails R (sibling_rich p).
Proof. unfold sibling_rich. trails. Qed.
#[local] Hint Resolve trails_sibling_rich : tree_trails.
Lemma trails_reverse_slots : trails_on R reverse_slots.
Proof. unfold reverse_slots. trails. Qed.
#[local] Hint Resolve trails_reverse_slots : tree_trails.

Lemma trails_append_entry a b i : trails R (append_entry a b i).
Proof. unfold append_entry. trails. Qed.
#[local] Hint Resolve trails_append_entry : tree_trails.
Lemma trails_split_leaf_loop l r n : trails R (split_leaf_loop l r n).
Proof. induction n as [|n IH]; cbn [split_leaf_loop]; trails. Qed.
Lemma trails_merge_leaf_loop l r n : forall i, trails R (merge_leaf_loop l r n i).
Proof. induction n as [|n IH]; intros i; cbn [merge_leaf_loop]; trails; apply IH. Qed.
#[local] Hint Resolve trails_split_leaf_loop trails_merge_leaf_loop : tree_trails.
Lemma trails_split_leaf_insert l r i k v b : trails R (split_leaf_insert l r i k v b).
Proof. unfold split_leaf_insert. trails. Qed.
#[local] Hint Resolve trails_split_leaf_insert : tree_trails.
Lemma trails_Leaf_Split l i k v b : trails R (Leaf_Split l i k v b).
Proof. unfold Leaf_Split. trails. Qed.
Lemma trails_Leaf_Merge l r : trails R (Leaf_Merge l r).
Proof. unfold Leaf_Merge. trails. Qed.
#[local] Hint Resolve trails_Leaf_Split trails_Leaf_Merge : tree_trails.

Lemma trails_split_branch_loop l r n : trails R (split_branch_loop l r n).
Proof. induction n as [|n IH]; cbn [split_branch_loop]; trails. Qed.
Lemma trails_merge_branch_loop l r n : forall i, trails R (merge_branch_loop l r n i).
Proof. induction n as [|n IH]; intros i; cbn [merge_branch_loop]; trails; apply IH. Qed.
#[local] Hint Resolve trails_split_branch_loop trails_merge_branch_loop : tree_trails.
Lemma trails_split_branch_insert l r i k c : trails R (split_branch_insert l r i k c).
Proof. unfold split_branch_insert. trails. Qed.
Lemma trails_split_branch_up l r : trails R (split_branch_up l r).
Proof. unfold split_branch_up. trails. Qed.
#[local] Hint Resolve trails_split_branch_insert trails_split_branch_up : tree_trails.
Lemma trails_Branch_Split l i k c : trails R (Branch_Split l i k c).
Proof. unfold Branch_Split. trails. Qed.
Lemma trails_Branch_Merge l r k : trails R (Branch_Merge l r k).
Proof. unfold Branch_Merge. trails. Qed.
#[local] Hint Resolve trails_Branch_Split trails_Branch_Merge : tree_trails.

Lemma trails_Put_up fuel : forall l r k, trails_on R (Put_up fuel l r k).
Proof. induction fuel as [|fuel IH]; intros l r k; cbn [Put_up]; unfold set_tree_root; trails; apply IH. Qed.
#[local] Hint Resolve trails_Put_up : tree_trails.
Lemma trails_Put_Branch l r k : trails_on R (Put_Branch l r k).
Proof. unfold Put_Branch. trails. Qed.
#[local] Hint Resolve trails_Put_Branch : tree_trails.
Lemma trails_Put_Leaf k v a b : trails_on R (Put_Leaf k v a b).
Proof. unfold Put_Leaf, set_tree_root. trails. Qed.
#[local] Hint Resolve trails_Put_Leaf : tree_trails.

Lemma trails_GetSibling : trails_on R GetSibling.
Proof. unfold GetSibling. trails. Qed.
Lemma trails_own_sibling bt p i s b : trails R (own_sibling bt p i s b).
Proof. unfold own_sibling. trails. Qed.
Lemma trails_replace_key b p i l r k : trails_on R (replace_key b p i l r k).
Proof. unfold replace_key. trails. Qed.
#[local] Hint Resolve trails_GetSibling trails_own_sibling trails_replace_key : tree_trails.
Lemma trails_rotate_branch n p i s b : trails_on R (rotate_branch n p i s b).
Proof. unfold rotate_branch. trails. Qed.
Lemma trails_rotate_leaf n p i s b : trails_on R (rotate_leaf n p i s b).
Proof. unfold rotate_leaf. trails. Qed.
#[local] Hint Resolve trails_rotate_branch trails_rotate_leaf : tree_trails.
Lemma trails_Delete_up fuel : forall n i, trails_on R (Delete_up fuel n i).
Proof. induction fuel as [|fuel IH]; intros n i; cbn [Delete_up]; unfold set_tree_root, tree_root; trails; apply IH. Qed.
#[local] Hint Resolve trails_Delete_up : tree_trails.
Lemma trails_Delete_iter : trails_on R Delete_iter.
Proof. unfold Delete_iter. trails. Qed.
#[local] Hint Resolve trails_Delete_iter : tree_trails.

Lemma trails_Put bt k v b : trails R (Put bt k v b).
Proof. unfold Put. trails. Qed.
Lemma trails_Delete bt k : trails R (BTree.Delete bt k).
Proof. unfold BTree.Delete. trails. Qed.
#[local] Hint Resolve trails_Put trails_Delete : tree_trails.

(** ** Buckets, when the log keeps to [R] too *)
Context `{Crc32, WalWriter}.
Context (R_log : forall l, trails R (AppendLog l)).

Lemma trails_AppendPutLog i k v b : trails R (AppendPutLog i k v b).
Proof. unfold AppendPutLog. trails; apply R_log. Qed.
Lemma trails_AppendDeleteLog i k : trails R (AppendDeleteLog i k).
Proof. unfold AppendDeleteLog. trails; apply R_log. Qed.
#[local] Hint Resolve trails_AppendPutLog trails_AppendDeleteLog : tree_trails.

Lemma trails_btree b : trails R (btree b).
Proof. unfold btree, the_bucket. trails. Qed.
Lemma trails_put_sub_bucket_map b m : trails R (put_sub_bucket_map b m).
Proof. unfold put_sub_bucket_map, the_bucket. trails. Qed.
Lemma trails_get_sub_bucket_map b : trails R (get_sub_bucket_map b).
Proof. unfold get_sub_bucket_map, the_bucket. trails. Qed.
#[local] Hint Resolve trails_btree trails_put_sub_bucket_map trails_get_sub_bucket_map : tree_trails.
Lemma trails_Bucket_Get b k : trails R (Bucket_Get b k).
Proof. unfold Bucket_Get. trails. Qed.
Lemma trails_Bucket_Put b k v is_b : trails R (Bucket_Put b k v is_b).
Proof. unfold Bucket_Put, the_bucket. trails. Qed.
Lemma trails_Bucket_Delete b k : trails R (Bucket_Delete b k).
Proof. unfold Bucket_Delete, the_bucket. trails. Qed.
#[local] Hint Resolve trails_Bucket_Get trails_Bucket_Put : tree_trails.
Lemma trails_open_sub_bucket b k w : trails R (open_sub_bucket b k w).
Proof. unfold open_sub_bucket. trails. Qed.
#[local] Hint Resolve trails_open_sub_bucket : tree_trails.
Lemma trails_SubBucket b k w : trails R (SubBucket b k w).
Proof. unfold SubBucket, the_bucket. trails. Qed.

Lemma trails_put_roots b l : trails R (put_roots b l).
Proof. induction l as [|[k e] l IH]; cbn [put_roots]; trails. Qed.
#[local] Hint Resolve trails_put_roots : tree_trails.
Lemma trails_put_bucket_roots b : trails R (put_bucket_roots b).
Proof. unfold put_bucket_roots. trails. Qed.
#[local] Hint Resolve trails_put_bucket_roots : tree_trails.
Lemma trails_put_all_roots r l : trails R (put_all_roots r l).
Proof. induction l as [|i l IH]; cbn [put_all_roots]; trails. Qed.
End trees.
