(* ===== verification/Stack.v ===== *)
(** The fixed-capacity stack of [include/atomkv/stack.h] as the array and the
    position it is, and what it promises: the list of its elements.  The
    iterator ([Iterator.v]) keeps that list, top first. *)
From S2P Require Import Prelude.

(** [detail::Stack<T, kSize>]: the capacity is [length st_array]. *)
Record Stack (T : Type) : Type := mkStack { st_array : list T; st_pos : Z }.
Arguments mkStack {T} st_array st_pos.
Arguments st_array {T} s.
Arguments st_pos {T} s.

Section stack.
Context {T : Type}.
Implicit Types (s right : Stack T).

Definition st_set_array (a : list T) s : Stack T := mkStack a (st_pos s).
Definition st_set_pos (n : Z) s : Stack T := mkStack (st_array s) n.

(** [array_[i]] of [std::array]: outside it is undefined. *)
Definition st_at (i : Z) s : M (Stack T) T := fun st =>
  match (if 0 <=? i then st_array s !! Z.to_nat i else None) with
  | Some v => Ok v st
  | None => Fault OutOfBounds
  end.
Definition st_write (i : Z) (v : T) : M (Stack T) unit := fun st =>
  if (0 <=? i) && (i <? Z.of_nat (length (st_array st)))
  then Ok tt (st_set_array (<[Z.to_nat i := v]> (st_array st)) st) else Fault OutOfBounds.

(** *** Assignment: the elements one by one. *)
Fixpoint copy_elements (n : nat) (i : Z) right : M (Stack T) unit :=
  match n with
  | O => ret tt
  | S n => let* v := st_at i right in st_write i v ;;; copy_elements n (i + 1) right
  end.
Definition stack_assign right : M (Stack T) unit :=
  modify (st_set_pos (st_pos right)) ;;;
  copy_elements (Z.to_nat (st_pos right)) 0 right.
(** The moving assignment, and [right] after it. *)
Definition stack_move right : M (Stack T) (Stack T) := stack_assign right ;;; ret (st_set_pos 0 right).

(** *** Operations *)
Definition stack_empty : M (Stack T) bool := gets (fun s => st_pos s =? 0).
Definition stack_size : M (Stack T) Z := gets st_pos.
Definition stack_front : M (Stack T) T :=
  let* e := stack_empty in
  assertM (negb e) ;;;
  let* s := gets (fun s => s) in st_at (st_pos s - 1) s.
(** The mutable [front()] assigned through. *)
Definition stack_set_front (v : T) : M (Stack T) unit :=
  let* e := stack_empty in
  assertM (negb e) ;;;
  let* n := gets st_pos in st_write (n - 1) v.
Definition push_back (v : T) : M (Stack T) unit :=
  let* s := gets (fun s => s) in
  assertM (st_pos s <? Z.of_nat (length (st_array s))) ;;;
  st_write (st_pos s) v ;;;
  modify (st_set_pos (st_pos s + 1)).
Definition pop_back : M (Stack T) unit :=
  let* n := gets st_pos in
  assertM (0 <? n) ;;;
  modify (st_set_pos (n - 1)).
Definition stack_clear : M (Stack T) unit := modify (st_set_pos 0).

(** ** What the stack stands for: its elements, top first. *)
Definition stack_wf s : Prop := 0 <= st_pos s <= Z.of_nat (length (st_array s)).
Definition elements s : list T := reverse (take (Z.to_nat (st_pos s)) (st_array s)).
Definition stands_for s (l : list T) : Prop := stack_wf s /\ elements s = l.

Lemma elements_push s v : st_pos s < Z.of_nat (length (st_array s)) -> 0 <= st_pos s ->
  elements (mkStack (<[Z.to_nat (st_pos s) := v]> (st_array s)) (st_pos s + 1)) = v :: elements s.
Proof.
  intros Hl H0. unfold elements. cbn [st_pos st_array].
  replace (Z.to_nat (st_pos s + 1)) with (S (Z.to_nat (st_pos s))) by lia.
  rewrite (take_S_r _ _ v) by (apply list_lookup_insert_eq; lia).
  rewrite take_insert_ge by lia. by rewrite reverse_snoc.
Qed.

Lemma elements_top s v l : stands_for s (v :: l) ->
  0 < st_pos s /\ st_array s !! Z.to_nat (st_pos s - 1) = Some v /\ elements (st_set_pos (st_pos s - 1) s) = l.
Proof.
  intros [[H0 Hl] He]. unfold elements in *.
  destruct (decide (st_pos s = 0)) as [E|E]; [by rewrite E in He|].
  replace (Z.to_nat (st_pos s)) with (S (Z.to_nat (st_pos s - 1))) in He by lia.
  destruct (lookup_lt_is_Some_2 (st_array s) (Z.to_nat (st_pos s - 1))) as [w Hw]; [lia|].
  rewrite (take_S_r _ _ w) in He by done. rewrite reverse_snoc in He. injection He as -> <-.
  split; [lia|]. by split.
Qed.

Lemma st_at_ok i s st v : 0 <= i -> st_array s !! Z.to_nat i = Some v -> st_at i s st = Ok v st.
Proof. intros Hi Hv. unfold st_at. by rewrite (proj2 (Z.leb_le _ _)), Hv. Qed.
Lemma st_write_ok i v s : 0 <= i < Z.of_nat (length (st_array s)) ->
  st_write i v s = Ok tt (st_set_array (<[Z.to_nat i := v]> (st_array s)) s).
Proof. intros Hi. unfold st_write. by rewrite (proj2 (Z.leb_le _ _)), (proj2 (Z.ltb_lt _ _)) by lia. Qed.

Lemma copy_elements_ok n i right s :
  0 <= i -> i + Z.of_nat n <= Z.of_nat (length (st_array s)) -> i + Z.of_nat n <= Z.of_nat (length (st_array right)) ->
  exists a, copy_elements n i right s = Ok tt (st_set_array a s) /\ length a = length (st_array s) /\
    forall j, a !! j = if decide (Z.to_nat i <= j < Z.to_nat i + n)%nat then st_array right !! j else st_array s !! j.
Proof.
  revert i s. induction n as [|n IH]; intros i s Hi Hs Hr.
  - exists (st_array s). split; [by destruct s|]. split; [done|]. intros j. by rewrite decide_False by lia.
  - destruct (lookup_lt_is_Some_2 (st_array right) (Z.to_nat i)) as [v Hv]; [lia|].
    cbn [copy_elements]. run_step (st_at_ok i right s v Hi Hv).
    rewrite (bind_ok _ _ _ _ _ (st_write_ok i v s ltac:(lia))). set (s1 := st_set_array _ s).
    assert (Hlen : length (st_array s1) = length (st_array s)) by apply length_insert.
    destruct (IH (i + 1) s1) as (a & Hrun & Hla & Ha); [lia|lia|lia|].
    exists a. split; [exact Hrun|]. split; [lia|]. intros j. rewrite Ha. cbn [st_array s1 st_set_array].
    destruct (decide (j = Z.to_nat i)) as [->|Hj].
    + rewrite decide_False by lia. rewrite decide_True by lia. rewrite Hv. apply list_lookup_insert_eq. lia.
    + rewrite list_lookup_insert_ne by done. repeat case_decide; (done || lia).
Qed.

Lemma elements_ext s right : st_pos s = st_pos right ->
  (forall j, (j < Z.to_nat (st_pos right))%nat -> st_array s !! j = st_array right !! j) -> elements s = elements right.
Proof.
  intros Hp Ha. unfold elements. rewrite Hp. f_equal. apply list_eq. intros j.
  destruct (decide (j < Z.to_nat (st_pos right))%nat) as [Hj|Hj].
  - rewrite !lookup_take_lt by done. by apply Ha.
  - by rewrite !lookup_take_ge by lia.
Qed.

Lemma length_elements s : stack_wf s -> Z.of_nat (length (elements s)) = st_pos s.
Proof. intros [H0 Hl]. unfold elements. rewrite length_reverse, length_take. lia. Qed.

Lemma stack_assign_ok s right r :
  stands_for right r -> length (st_array s) = length (st_array right) ->
  exists s', stack_assign right s = Ok tt s' /\ stands_for s' r /\ length (st_array s') = length (st_array s).
Proof.
  intros [[H0 Hl] He] Hlen. unfold stack_assign.
  rewrite (bind_ok (modify _) _ s tt (st_set_pos (st_pos right) s)) by done. set (s1 := st_set_pos _ s).
  destruct (copy_elements_ok (Z.to_nat (st_pos right)) 0 right s1) as (a & Hrun & Hla & Ha);
    [lia|cbn [st_array s1 st_set_pos]; lia|lia|].
  exists (st_set_array a s1). split; [exact Hrun|]. split; [|exact Hla].
  split; [split; cbn [st_pos st_array s1 st_set_array st_set_pos] in *; lia|].
  rewrite <- He. apply elements_ext; [done|]. intros j Hj. cbn [st_array st_set_array]. rewrite Ha.
  by rewrite decide_True by lia.
Qed.

Lemma push_back_ok s l v : stands_for s l -> (length l < length (st_array s))%nat ->
  exists s', push_back v s = Ok tt s' /\ stands_for s' (v :: l) /\ length (st_array s') = length (st_array s).
Proof.
  intros [Hw He] Hlt. pose proof (length_elements s Hw) as Hlen. rewrite He in Hlen. pose proof Hw as [H0 Hl].
  unfold push_back. rewrite (bind_ok (gets (fun s => s)) _ s s s) by done.
  rewrite bind_assert by (apply Z.ltb_lt; lia). rewrite (bind_ok _ _ _ _ _ (st_write_ok (st_pos s) v s ltac:(lia))).
  eexists. split; [reflexivity|].
  change (stands_for (mkStack (<[Z.to_nat (st_pos s) := v]> (st_array s)) (st_pos s + 1)) (v :: l) /\
    length (<[Z.to_nat (st_pos s) := v]> (st_array s)) = length (st_array s)).
  rewrite length_insert. split; [|done]. split.
  - split; cbn [st_pos st_array]; rewrite ?length_insert; lia.
  - rewrite elements_push by lia. by rewrite He.
Qed.

Lemma top_ok s v l : stands_for s (v :: l) ->
  stack_front s = Ok v s /\ pop_back s = Ok tt (st_set_pos (st_pos s - 1) s) /\
  stands_for (st_set_pos (st_pos s - 1) s) l.
Proof.
  intros Hs. destruct (elements_top s v l Hs) as (Hp & Hv & He). destruct Hs as [[H0 Hl] _]. split_and!.
  - unfold stack_front. rewrite (bind_ok stack_empty _ s false s).
    2: { unfold stack_empty, gets. f_equal. apply Z.eqb_neq. lia. }
    rewrite bind_assert by done. rewrite (bind_ok (gets (fun s => s)) _ s s s) by done. apply st_at_ok; [lia|done].
  - unfold pop_back. rewrite (bind_ok (gets st_pos) _ s (st_pos s) s) by done.
    by rewrite bind_assert by (apply Z.ltb_lt; lia).
  - split; [|done]. split; cbn; lia.
Qed.

Lemma set_front_refines s v l w : stands_for s (v :: l) -> exists s', stack_set_front w s = Ok tt s' /\ stands_for s' (w :: l).
Proof.
  intros Hs. destruct (elements_top s v l Hs) as (Hp & Hv & He). destruct Hs as [[H0 Hl] _].
  unfold stack_set_front. rewrite (bind_ok stack_empty _ s false s).
  2: { unfold stack_empty, gets. f_equal. apply Z.eqb_neq. lia. }
  rewrite bind_assert by done. rewrite (bind_ok (gets st_pos) _ s (st_pos s) s) by done.
  rewrite st_write_ok by lia. eexists. split; [reflexivity|]. set (s1 := st_set_pos (st_pos s - 1) s) in *.
  pose proof (elements_push s1 w) as Hpush. cbn [st_pos st_array s1 st_set_pos] in Hpush.
  replace (st_pos s - 1 + 1) with (st_pos s) in Hpush by lia.
  split; [split; cbn; rewrite ?length_insert; lia|]. unfold st_set_array. rewrite Hpush by lia. by f_equal.
Qed.

(** C33: the array and position of [detail::Stack] implement a bounded list.
    With at most [kSize] elements, [push_back] adds the top one and asserts
    when the stack is full; [front] and [pop_back] give and drop it and
    assert on an empty stack; the mutable [front()] replaces it; [empty],
    [size] and [clear] are those of the list; copying makes another stack of
    the same elements whatever this one held, and moving leaves the source
    empty. *)
Theorem Stack_refines s l :
  stands_for s l ->
  (forall v, if decide (length l < length (st_array s))%nat
     then exists s', push_back v s = Ok tt s' /\ stands_for s' (v :: l) /\ length (st_array s') = length (st_array s)
     else push_back v s = Fault Assertion) /\
  match l with
  | [] => stack_front s = Fault Assertion /\ pop_back s = Fault Assertion
  | v :: l => stack_front s = Ok v s /\
      (exists s', pop_back s = Ok tt s' /\ stands_for s' l) /\
      (forall w, exists s', stack_set_front w s = Ok tt s' /\ stands_for s' (w :: l))
  end /\
  stack_empty s = Ok (bool_decide (l = [])) s /\ stack_size s = Ok (Z.of_nat (length l)) s /\
  (exists s', stack_clear s = Ok tt s' /\ stands_for s' []) /\
  (forall right r, stands_for right r -> length (st_array s) = length (st_array right) ->
     exists s' right', stack_assign right s = Ok tt s' /\ stack_move right s = Ok right' s' /\
       stands_for s' r /\ stands_for right' []).
Proof.
  intros Hs. pose proof Hs as [Hw He]. pose proof (length_elements s Hw) as Hlen. rewrite He in Hlen.
  pose proof Hw as [H0 Hl]. split_and!.
  - intros v. case_decide as Hlt; [by apply push_back_ok|]. unfold push_back.
    rewrite (bind_ok (gets (fun s => s)) _ s s s) by done. by rewrite (proj2 (Z.ltb_ge _ _)) by lia.
  - destruct l as [|v l].
    + cbn in Hlen. unfold stack_front, stack_empty, pop_back, bind, gets. by rewrite <- Hlen.
    + destruct (top_ok s v l Hs) as (Hf & Hp & Hl'). split_and!; [done| |intros w; by apply set_front_refines with v].
      eexists. by split.
  - unfold stack_empty, gets. f_equal. rewrite <- Hlen. by destruct l.
  - unfold stack_size, gets. by rewrite Hlen.
  - exists (st_set_pos 0 s). split; [done|]. split; [split; cbn; lia|done].
  - intros right r Hr Hc. destruct (stack_assign_ok s right r Hr Hc) as (s' & Hrun & Hs' & _).
    exists s', (st_set_pos 0 right). split; [done|]. split; [|split; [done|]].
    + unfold stack_move. by run_step Hrun.
    + split; [split; cbn; lia|done].
Qed.
End stack.

(** A stack of capacity 3 with two elements and a stale one. *)
Definition sample_stack : Stack Z := mkStack [10; 20; 99] 2.

Lemma Stack_refines_witness :
  stands_for sample_stack [20; 10] /\ stack_front sample_stack = Ok 20 sample_stack /\
  exists s', push_back 30 sample_stack = Ok tt s' /\ stands_for s' [30; 20; 10].
Proof.
  assert (Hs : stands_for sample_stack [20; 10]) by (split; [split; cbn; lia|reflexivity]).
  split; [exact Hs|]. destruct (Stack_refines sample_stack [20; 10] Hs) as (Hp & (Hf & _) & _).
  split; [exact Hf|]. destruct (Hp 30) as (s' & Hr & Hs' & _). exists s'. split; [exact Hr|exact Hs'].
Defined.
