(* ===== verification/Handles.v ===== *)
(** The objects handed from call to call and to the user: the page and node
    handles of [src/page.cpp] and [src/node.cpp], copies of iterators, the
    bucket iterator of [include/atomkv/bucket_iterator.h], and the public
    [ViewBucket], [UpdateBucket], [ViewTx], [UpdateTx] of [src/bucket_impl.cpp]
    and [src/tx_impl.cpp]. *)
From S2P Require Import Prelude Format Comparator State Memory FreeMap Pager PagerI PagerInst Node Tx Iterator BTree.
From S2P Require Import Meta Logger TxManager Bucket.

(** ** [Page]: the page's id and its buffer, null once moved from.  There is
    one pager, and [Pager::Dereference] does nothing. *)
Record PageHandle := mkPageHandle { ph_id : Z; ph_buf : option Z }.

Section page_handles.
Context {St : Type} (ps : Z).

Definition new_Page (page_buf : Z) : PageHandle := mkPageHandle (GetPageIdByPtr ps page_buf) (Some page_buf).
Definition Page_Dereference (p : PageHandle) : PageHandle := mkPageHandle (ph_id p) None.
(** The moving constructor and assignment: the new value, and [right] after it. *)
Definition Page_move (right : PageHandle) : PageHandle * PageHandle :=
  (mkPageHandle (ph_id right) (ph_buf right), mkPageHandle (ph_id right) None).
Definition Page_assign (left right : PageHandle) : PageHandle * PageHandle :=
  let left := Page_Dereference left in
  (mkPageHandle (ph_id right) (ph_buf right), mkPageHandle (ph_id right) None).
(** [Page(pager, nullptr)] subtracts unrelated pointers. *)
Definition Page_AddReference (p : PageHandle) : M St PageHandle :=
  match ph_buf p with Some page_buf => ret (new_Page page_buf) | None => stuck OutOfBounds end.

(** ** [Node]: the address of its tree, its page, if it has one of the file, and
    the address of its data. *)
Record NodeHandle := mkNodeHandle { nh_btree : Z; nh_page : option PageHandle; nh_data : option Z }.

Definition node_of_page (btree : Z) (page : PageHandle) : NodeHandle := mkNodeHandle btree (Some page) (ph_buf page).
Definition node_of_buf (btree : Z) (page_buf : Z) : NodeHandle := mkNodeHandle btree None (Some page_buf).
Definition set_nh_page (p : PageHandle) (n : NodeHandle) : NodeHandle := mkNodeHandle (nh_btree n) (Some p) (nh_data n).
(** [page_->get()] of a node without a page. *)
Definition Node_move (right : NodeHandle) : M St (NodeHandle * NodeHandle) :=
  match nh_page right with
  | None => stuck EmptyOptional
  | Some p => let (page, p) := Page_move p in ret (node_of_page (nh_btree right) page, set_nh_page p right)
  end.
(** [page_ = std::move(right.page_)] on optionals, then [page_->get()]; the
    trees must be the same one, and [btree_] stays. *)
Definition Node_assign (left right : NodeHandle) : M St (NodeHandle * NodeHandle) :=
  assertM (nh_btree left =? nh_btree right) ;;;
  match nh_page right with
  | None => stuck EmptyOptional
  | Some p =>
      let (page, p) :=
        match nh_page left with Some q => Page_assign q p | None => Page_move p end in
      ret (node_of_page (nh_btree left) page, set_nh_page p right)
  end.
Definition Node_AddReference (n : NodeHandle) : M St NodeHandle :=
  match nh_page n with
  | None => stuck Assertion
  | Some p => let* page := Page_AddReference p in ret (node_of_page (nh_btree n) page)
  end.
(** [Release]: the page, moved out, and the node after it. *)
Definition Node_Release (n : NodeHandle) : M St (PageHandle * NodeHandle) :=
  match nh_page n with
  | None => stuck Assertion
  | Some p => let (page, p) := Page_move p in ret (page, set_nh_page p n)
  end.
Definition Node_page_id (n : NodeHandle) : M St Z :=
  match nh_page n with Some p => ret (ph_id p) | None => stuck EmptyOptional end.
End page_handles.
Arguments mkNodeHandle nh_btree nh_page nh_data : assert.

(** A handle of page [pgid] in the tree at [btree]. *)
Definition holds_page (ps btree pgid : Z) (n : NodeHandle) : Prop :=
  n = node_of_page btree (mkPageHandle pgid (Some (GetPtr ps pgid 0))).

Lemma new_Page_ok ps pgid : 0 <= pgid -> 0 < ps -> pgid * ps < 2 ^ 32 ->
  new_Page ps (GetPtr ps pgid 0) = mkPageHandle pgid (Some (GetPtr ps pgid 0)).
Proof. intros. unfold new_Page. by rewrite GetPageIdByPtr_GetPtr. Qed.

(** The copy an iterator makes of a node, a second reference released into a new
    node, is a handle of the same page. *)
Lemma node_copy_holds {St} ps btree pgid n (s : St) :
  0 <= pgid -> 0 < ps -> pgid * ps < 2 ^ 32 -> holds_page ps btree pgid n ->
  exists n', (let* r := Node_AddReference ps n in let* (page, _) := Node_Release r in ret (node_of_page btree page)) s
    = Ok n' s /\ holds_page ps btree pgid n'.
Proof.
  intros H0 Hps Hlt ->. unfold Node_AddReference, Node_Release, Page_AddReference, bind, ret, holds_page. cbn.
  rewrite GetPageIdByPtr_GetPtr by done. by eexists.
Qed.

(** ** Copies of an iterator.  Assignment copies the cached node only when
    [right] has one: otherwise the left one's stays. *)
Definition iter_assign (left right : BTreeIterator) : BTreeIterator :=
  mkIter (it_btree right) (it_stack right) (it_status right)
    (match it_cached right with Some pgid => Some pgid | None => it_cached left end).
Definition iter_copy (right : BTreeIterator) : BTreeIterator :=
  iter_assign (new_iterator (it_btree right)) right.
Definition iter_incr : IterM unit := Next.
Definition iter_decr : IterM unit := Prev.

(** [key<KeyT>()] and [value<ValueT>()] for an unsigned integer of [n] bytes. *)
Definition as_integer (n : nat) (what : string) (bs : list byte) : IterM Z :=
  if (length bs =? n)%nat then ret (le_value bs) else throw (InvalidArgument what).
Definition iter_key_as (n : nat) : IterM Z :=
  let* k := iter_key in as_integer n "The size of the key does not match." k.
Definition iter_value_as (n : nat) : IterM Z :=
  let* v := iter_value in as_integer n "The size of the value does not match." v.

(** ** [BucketIterator]: a tree iterator. *)
Record BucketIterator := mkBucketIter { bi_iter : BTreeIterator }.
Definition BucketIterM (A : Type) : Type := M (BucketIterator * DBImpl) A.
Definition forward {A} (m : IterM A) : BucketIterM A :=
  zoom (mkLens (fun x => (bi_iter x.1, x.2)) (fun y _ => (mkBucketIter y.1, y.2))) m.

Definition bi_incr : BucketIterM unit := forward iter_incr.
Definition bi_decr : BucketIterM unit := forward iter_decr.
(** [tmp = *this; ++tmp; return tmp;] *)
Definition bi_on_copy (step : BucketIterM unit) : BucketIterM BucketIterator := fun x =>
  match step (mkBucketIter (iter_copy (bi_iter x.1)), x.2) with
  | Ok _ (tmp, d) => Ok tmp (x.1, d)
  | Throw e (_, d) => Throw e (x.1, d)
  | Fault w => Fault w
  end.
Definition bi_post_incr : BucketIterM BucketIterator := bi_on_copy bi_incr.
Definition bi_post_decr : BucketIterM BucketIterator := bi_on_copy bi_decr.

(** So the value of [it++] is already the next position, and [it] stays. *)
Lemma iter_copy_id it : iter_copy it = it.
Proof. by destruct it as [bt l st [c|]]. Qed.
Lemma bi_post_incr_value b d :
  bi_post_incr (b, d) =
  match Next (bi_iter b, d) with
  | Ok _ (it', d') => Ok (mkBucketIter it') (b, d')
  | Throw e (_, d') => Throw e (b, d')
  | Fault w => Fault w
  end.
Proof.
  unfold bi_post_incr, bi_on_copy, bi_incr, forward, zoom, iter_incr. cbn [lget lset fst snd bi_iter].
  rewrite iter_copy_id. by destruct (Next (bi_iter b, d)) as [[] []|? []|].
Qed.

Definition bi_eq (left right : BucketIterator) : bool := iter_eq (bi_iter left) (bi_iter right).
Definition bi_key : BucketIterM (list byte) := forward iter_key.
Definition bi_value : BucketIterM (list byte) := forward iter_value.
Definition bi_key_as (n : nat) : BucketIterM Z := forward (iter_key_as n).
Definition bi_value_as (n : nat) : BucketIterM Z := forward (iter_value_as n).
Definition bi_is_bucket : BucketIterM bool := forward iter_is_bucket.

(** ** The user's buckets *)
Section user_buckets.
Context `{Crc32, WalWriter}.

Definition Bucket_end (b : Bucket) : M DBImpl BTreeIterator := let* bt := btree b in ret (tree_end bt).

Record ViewBucket := mkViewBucket { vb_bucket : Bucket }.
Definition as_iterator (m : M DBImpl BTreeIterator) : M DBImpl BucketIterator :=
  let* it := m in ret (mkBucketIter it).
Definition SubViewBucket (b : ViewBucket) (key : list byte) : M DBImpl ViewBucket :=
  let* sub := SubBucket (vb_bucket b) key false in ret (mkViewBucket sub).
Definition ViewBucket_Get (b : ViewBucket) (key : list byte) : M DBImpl BucketIterator :=
  as_iterator (Bucket_Get (vb_bucket b) key).
Definition ViewBucket_LowerBound (b : ViewBucket) (key : list byte) : M DBImpl BucketIterator :=
  as_iterator (Bucket_LowerBound (vb_bucket b) key).
Definition ViewBucket_begin (b : ViewBucket) : M DBImpl BucketIterator := as_iterator (Bucket_begin (vb_bucket b)).
Definition ViewBucket_end (b : ViewBucket) : M DBImpl BucketIterator := as_iterator (Bucket_end (vb_bucket b)).

(** [UpdateBucket] is a [ViewBucket] with the writing operations. *)
Record UpdateBucket := mkUpdateBucket { ub_view :> ViewBucket }.
Definition SubUpdateBucket (b : UpdateBucket) (key : list byte) : M DBImpl UpdateBucket :=
  let* sub := SubBucket (vb_bucket b) key true in ret (mkUpdateBucket (mkViewBucket sub)).
Definition UpdateBucket_DeleteSubBucket (fuel : nat) (b : UpdateBucket) (key : list byte) : M DBImpl bool :=
  DeleteSubBucket fuel (vb_bucket b) key.
Definition UpdateBucket_Put (b : UpdateBucket) (key value : list byte) : M DBImpl unit :=
  Bucket_Put (vb_bucket b) key value false.
Definition UpdateBucket_Delete (b : UpdateBucket) (key : list byte) : M DBImpl bool :=
  Bucket_Delete (vb_bucket b) key.

(** ** The user's transactions.  [UpdateTx] is whether its pointer is set. *)
Definition ViewTx_UserBucket (h : nat) : ViewBucket := mkViewBucket (UserBucket (ViewTxRef h)).
(** A null [tx_] is dereferenced only for its address. *)
Definition UpdateTx_UserBucket (tx : UpdateTx) : M DBImpl UpdateBucket :=
  if tx then ret (mkUpdateBucket (mkViewBucket (UserBucket UpdateTxRef))) else stuck OutOfBounds.
End user_buckets.
