(* ===== verification/NodeDb.v ===== *)
(** Node operations on the pages of the file: what [on_node] and [look] do to
    the database, and that an operation on one page leaves the nodes on the
    other pages as they were. *)
From S2P Require Import Prelude Format Comparator State Memory FreeMap Pager PagerI PagerInst.
From S2P Require Import Node NodeWf NodeSpec Search BranchSpec Tx Iterator BTree.

Implicit Types (d : DBImpl) (p q : Z) (nd : NodeData).

(** ** The pages of a node's overflow records *)
Definition rec_pages (ps : Z) (leaf : bool) (r : Rec) : list Z :=
  if r_overflow r then seqZ (le_value (r_bytes r)) ((rec_total leaf r + ps - 1) / ps) else [].
Definition node_pages (ps : Z) nd : list Z := recs nd ≫= rec_pages ps (IsLeaf nd).

Lemma rec_pages_page ps leaf r q : 0 < ps -> q ∈ rec_pages ps leaf r <-> rec_page ps leaf r q.
Proof.
  intros Hps. unfold rec_pages, rec_page. destruct (r_overflow r).
  2: { rewrite elem_of_nil. split; [done|by intros [? _]]. }
  set (g := le_value (r_bytes r)). set (n := rec_total leaf r). rewrite elem_of_seqZ. split.
  - intros Hq. split; [done|]. exists (q * ps). rewrite Z.div_mul by lia. split; [|done].
    pose proof (Z.mul_div_le (n + ps - 1) ps Hps). nia.
  - intros [_ (b & Hb & ->)].
    pose proof (Z.div_mod b ps ltac:(lia)). pose proof (Z.mod_pos_bound b ps Hps).
    pose proof (Z.div_mod (n + ps - 1) ps ltac:(lia)). pose proof (Z.mod_pos_bound (n + ps - 1) ps Hps). nia.
Qed.

Lemma node_pages_in ps nd r q :
  0 < ps -> r ∈ recs nd -> rec_page ps (IsLeaf nd) r q -> q ∈ node_pages ps nd.
Proof.
  intros Hps Hr Hq. apply list_elem_of_bind. exists r. split; [|done]. by apply rec_pages_page.
Qed.

Lemma node_pages_used d nd q : db_inv d -> node_ok d nd -> q ∈ node_pages (page_size d) nd -> db_used d q.
Proof.
  intros Hinv [Hwf Hlv] Hq. destruct (page_size_bounds _ (sw_ps _ _ Hwf)) as [Hr _].
  apply list_elem_of_bind in Hq as (r & Hq & Hrec).
  apply rec_pages_page in Hq as [Ho (b & Hb & ->)]; [|change (page_size d) with (pg_page_size d); lia].
  pose proof (proj1 (Forall_forall _ _) Hlv r Hrec) as [_ Hu]. destruct (Hu Ho) as [_ Hu']. by apply Hu'.
Qed.

(** ** Referencing a page in use *)
Lemma used_tx d q : db_inv d -> db_used d q ->
  exists tx, alloc_wf d tx /\ 0 <= q < m_page_count (meta_format tx).
Proof.
  intros [(tx & Hwf) _] Hq. exists tx. split; [done|].
  apply (db_used_tx d tx q (aw_tx _ _ Hwf)) in Hq as [Hq _]. done.
Qed.

Lemma used_bounds d q : db_inv d -> db_used d q ->
  page_size_ok (page_size d) /\ 0 <= q < 2 ^ 24 /\ (q + 1) * page_size d <= 2 ^ 32 /\
  (q + 1) * page_size d <= map_size (db_map d).
Proof.
  intros Hinv Hq. destruct (used_tx d q Hinv Hq) as (tx & Hwf & Hlt).
  destruct (page_size_bounds _ (aw_ps _ _ Hwf)) as [Hr _].
  pose proof (page_count_lt _ _ (aw_ps _ _ Hwf) (aw_addr _ _ Hwf)).
  pose proof (aw_addr _ _ Hwf). pose proof (aw_map _ _ Hwf). split_and!; try apply Hwf; nia.
Qed.

Lemma used_ptr d q : db_inv d -> db_used d q -> GetPtr (page_size d) q 0 / page_size d = q.
Proof.
  intros Hinv Hq. destruct (used_bounds d q Hinv Hq) as (Hps & Hr & Ha & _).
  destruct (page_size_bounds _ Hps). apply GetPtr_page; lia.
Qed.

Lemma Reference_ok d q : db_inv d -> db_used d q -> Reference q d = Ok (db_node d q) d.
Proof.
  intros Hinv Hq. destruct (used_bounds d q Hinv Hq) as (Hps & Hr & Ha & Hm).
  destruct (page_size_bounds _ Hps).
  unfold Reference. rewrite (proj2 (Z.eqb_neq _ _)) by (unfold kPageInvalidId; lia).
  rewrite (proj2 (Z.ltb_lt _ _)) by (unfold kPageMaxCount; lia). cbn [negb andb].
  rewrite (used_ptr d q Hinv Hq). rewrite (proj2 (Z.leb_le _ _)); [done|].
  rewrite GetPtr_exact by lia. lia.
Qed.

Lemma new_node_ok d q : db_inv d -> db_used d q -> new_node q d = Ok tt d.
Proof. intros Hinv Hq. unfold new_node. by run_step (Reference_ok d q Hinv Hq). Qed.

Lemma look_ok {A} d q (op : NodeM A) a nd :
  db_inv d -> db_used d q -> op (db_node d q, d) = Ok a (nd, d) -> look q op d = Ok a d.
Proof. intros Hinv Hq Hop. unfold look. rewrite (Reference_ok d q Hinv Hq). by rewrite Hop. Qed.

Lemma node_is_leaf_ok d q : db_inv d -> db_used d q -> node_is_leaf q d = Ok (IsLeaf (db_node d q)) d.
Proof. intros. by eapply look_ok. Qed.
Lemma node_is_branch_ok d q : db_inv d -> db_used d q -> node_is_branch q d = Ok (IsBranch (db_node d q)) d.
Proof. intros. by eapply look_ok. Qed.
Lemma node_count_ok d q : db_inv d -> db_used d q -> node_count q d = Ok (count (db_node d q)) d.
Proof. intros. by eapply look_ok. Qed.
Lemma node_txid_ok d q :
  db_inv d -> db_used d q -> node_txid q d = Ok (last_modified_txid (header (db_node d q))) d.
Proof. intros. by eapply look_ok. Qed.

(** ** Storing a node's page *)
Definition put_node p nd d : DBImpl :=
  set_db_map (mkMapping (<[p := NodePage nd]> (file_pages (db_map d))) (map_size (db_map d))) d.

Lemma store_node_ok d p nd : db_inv d -> db_used d p -> store_node p nd d = Ok tt (put_node p nd d).
Proof. intros Hinv Hp. unfold store_node, modify. by rewrite (used_ptr d p Hinv Hp). Qed.

Lemma on_node_ok {A} d p (op : NodeM A) a nd d1 :
  db_inv d -> db_used d p -> op (db_node d p, d) = Ok a (nd, d1) -> db_inv d1 -> db_used d1 p ->
  on_node p op d = Ok a (put_node p nd d1).
Proof.
  intros Hinv Hp Hop Hinv1 Hp1. unfold on_node. rewrite (Reference_ok d p Hinv Hp), Hop.
  by rewrite (bind_ok _ _ _ _ _ (store_node_ok d1 p nd Hinv1 Hp1)).
Qed.

Lemma db_node_put d p nd q : db_node (put_node p nd d) q = if decide (q = p) then nd else db_node d q.
Proof.
  unfold db_node, page_at. cbn. case_decide as E.
  - subst. by rewrite lookup_insert_eq.
  - by rewrite lookup_insert_ne.
Qed.

Lemma db_mem_put d p nd a : a / page_size d <> p -> db_mem (put_node p nd d) a = db_mem d a.
Proof.
  intros Ha. unfold db_mem, page_mem. change (page_size (put_node p nd d)) with (page_size d).
  unfold page_at. cbn. by rewrite lookup_insert_ne.
Qed.

Lemma page_image_length ps nd : node_wf ps nd -> Z.of_nat (length (page_image nd)) = ps.
Proof.
  intros Hwf. destruct (slots_split _ _ Hwf) as (_ & _ & Hl & _).
  pose proof (sw_low _ _ Hwf). pose proof (sw_top _ _ Hwf). pose proof (sw_used _ _ Hwf).
  pose proof (sw_payload _ _ Hwf). rewrite length_page_image; lia.
Qed.

Lemma node_page_ok ps nd : node_wf ps nd -> page_ok ps (NodePage nd).
Proof. intros Hwf. split; [by apply page_image_length|]. split; apply Hwf. Qed.
Lemma db_node_room d p : db_inv d -> node_room (page_size d) (db_node d p).
Proof.
  intros [(tx & Hwf) Hok]. destruct (page_size_bounds _ (aw_ps _ _ Hwf)) as [Hr _].
  apply page_node_room; [lia|done].
Qed.

(** ** What a step does to the database: it may write the pages [W], and adds
    at most [k] pages to those in use. *)
Record writes (k : Z) (W : Z -> Prop) d d' : Prop := {
  wr_inv : db_inv d';
  wr_env : db_env d' = db_env d;
  wr_used q : db_used d q -> db_used d' q;
  wr_node q : db_used d q -> ~ W q -> db_node d' q = db_node d q;
  wr_mem a : db_used d (a / page_size d) -> ~ W (a / page_size d) -> db_mem d' a = db_mem d a;
  wr_space : db_space d - k <= db_space d';
}.

Lemma env_ps d d' : db_env d' = db_env d -> page_size d' = page_size d.
Proof. intros He. change (page_size (db_env d') = page_size (db_env d)). by rewrite He. Qed.
Lemma wr_ps k W d d' : writes k W d d' -> page_size d' = page_size d.
Proof. intros Hw. exact (env_ps _ _ (wr_env _ _ _ _ Hw)). Qed.

(** The part of it that nodes and trees are read from. *)
Record keeps_pages (W : Z -> Prop) d d' : Prop := {
  kp_ps : page_size d' = page_size d;
  kp_used q : db_used d q -> db_used d' q;
  kp_node q : db_used d q -> ~ W q -> db_node d' q = db_node d q;
  kp_mem a : db_used d (a / page_size d) -> ~ W (a / page_size d) -> db_mem d' a = db_mem d a;
}.
(** The same where pages of [W] may even fall out of use. *)
Record keeps_others (W : Z -> Prop) d d' : Prop := {
  ko_ps : page_size d' = page_size d;
  ko_used q : db_used d q -> ~ W q -> db_used d' q;
  ko_node q : db_used d q -> ~ W q -> db_node d' q = db_node d q;
  ko_mem a : db_used d (a / page_size d) -> ~ W (a / page_size d) -> db_mem d' a = db_mem d a;
}.
Lemma keeps_pages_others W d d' : keeps_pages W d d' -> keeps_others W d d'.
Proof. intros [H1 H2 H3 H4]. split; auto. Qed.
Coercion keeps_pages_others : keeps_pages >-> keeps_others.
Lemma writes_keeps k W d d' : writes k W d d' -> keeps_pages W d d'.
Proof. intros Hw. pose proof (wr_ps _ _ _ _ Hw). by destruct Hw. Qed.
Coercion writes_keeps : writes >-> keeps_pages.

Lemma writes_refl d : db_inv d -> writes 0 (fun _ => False) d d.
Proof. intros. split; try done. lia. Qed.

Lemma writes_trans k1 k2 (W1 W2 W : Z -> Prop) d d1 d2 :
  writes k1 W1 d d1 -> writes k2 W2 d1 d2 ->
  (forall q, db_used d q -> W1 q \/ W2 q -> W q) -> writes (k1 + k2) W d d2.
Proof.
  intros H1 H2 HW. pose proof (wr_ps _ _ _ _ H1) as Hps. destruct H1 as [I1 E1 U1 N1 M1 S1], H2 as [I2 E2 U2 N2 M2 S2].
  split; try done.
  - congruence.
  - auto.
  - intros q Hq Hn. rewrite N2, N1; auto.
  - intros a Ha Hn. rewrite M2, M1; try rewrite Hps; auto.
  - lia.
Qed.

Lemma writes_weaken k k' (W W' : Z -> Prop) d d' :
  writes k W d d' -> k <= k' -> (forall q, db_used d q -> W q -> W' q) -> writes k' W' d d'.
Proof.
  intros [I E U N M S] Hk HW. split; try done.
  - intros q Hq Hn. apply N; auto.
  - intros a Ha Hn. apply M; auto.
  - lia.
Qed.

(** An operation of a node, run on its page. *)
Lemma writes_on_node {A} d p (op : NodeM A) a nd d1 k :
  db_inv d -> db_used d p -> op (db_node d p, d) = Ok a (nd, d1) -> db_inv d1 -> pg_extends d d1 ->
  db_space d - k <= db_space d1 -> node_wf (page_size d) nd ->
  on_node p op d = Ok a (put_node p nd d1) /\ writes k (eq p) d (put_node p nd d1) /\
  db_node (put_node p nd d1) p = nd.
Proof.
  intros Hinv Hp Hop Hinv1 [Hps Htx He Hu Hm Hn] Hk Hwf. cbn in Hps, He, Hu, Hm, Hn.
  split; [by apply on_node_ok; auto|]. split; [|by rewrite db_node_put, decide_True].
  split.
  - destruct Hinv1 as [(tx & Ha) Hok]. split; [exists tx; by destruct Ha|].
    change (page_size (put_node p nd d1)) with (page_size d1). cbn.
    apply pages_ok_insert; [done|]. rewrite Hps. by apply node_page_ok.
  - exact He.
  - intros q Hq. exact (Hu q Hq).
  - intros q Hq Hne. rewrite db_node_put, decide_False by congruence. by apply Hn.
  - intros b Hb Hne. rewrite db_mem_put by (rewrite Hps; congruence). by apply Hm.
  - exact Hk.
Qed.

(** ** Nodes the step does not write *)
Lemma rec_page_used leaf d r q : rec_live leaf d r -> rec_page (page_size d) leaf r q -> db_used d q.
Proof. intros [_ Hu] [Ho (b & Hb & ->)]. by apply (Hu Ho). Qed.

Lemma rec_frame leaf d d' r W :
  keeps_others W d d' -> page_size_ok (page_size d) -> rec_live leaf d r -> (forall q, rec_page (page_size d) leaf r q -> ~ W q) ->
  rec_live leaf d' r /\
  rec_content (db_mem d') (page_size d') leaf r = rec_content (db_mem d) (page_size d) leaf r.
Proof.
  intros Hw Hok Hr HW. pose proof (ko_ps _ _ _ Hw) as Hps. destruct (page_size_bounds _ Hok) as [Hpr _]. destruct Hr as [Ho Hr]. cbn in Ho, Hr.
  split; [split|]; cbn; rewrite ?Hps; [done| |].
  - intros E. destruct (Hr E) as [Hg Hb]. assert (Hpos : 0 < rec_total leaf r).
    { rewrite E in Ho. symmetry in Ho. apply Z.ltb_lt in Ho. pose proof (Z.div_pos (page_size d - 34) 2 ltac:(lia)). lia. }
    assert (Hkeep : forall b, le_value (r_bytes r) * page_size d <= b < le_value (r_bytes r) * page_size d + rec_total leaf r ->
      db_used d' (b / page_size d)).
    { intros b Hb'. apply (ko_used _ _ _ Hw); [by apply Hb|]. apply HW. split; [done|eauto]. }
    split; [|exact Hkeep]. rewrite <- (Z.div_mul (le_value (r_bytes r)) (page_size d)) by lia. apply Hkeep. lia.
  - unfold rec_content. destruct (r_overflow r) eqn:E; [|done]. rewrite ?Hps. apply mem_read_ext.
    intros b Hb. apply (ko_mem _ _ _ Hw); [by apply Hr|]. apply HW. split; [done|eauto].
Qed.

Lemma node_frame d d' nd W :
  keeps_others W d d' -> node_ok d nd -> (forall q, q ∈ node_pages (page_size d) nd -> ~ W q) ->
  node_ok d' nd /\ keys d' nd = keys d nd /\ (IsLeaf nd = true -> entries d' nd = entries d nd).
Proof.
  intros Hw [Hwf Hlv] HW. pose proof (ko_ps _ _ _ Hw) as Hps. cbn in Hwf.
  destruct (page_size_bounds _ (sw_ps _ _ Hwf)) as [Hr _].
  assert (Hf : forall r, r ∈ recs nd -> rec_live (IsLeaf nd) d' r /\
    rec_content (db_mem d') (page_size d') (IsLeaf nd) r = rec_content (db_mem d) (page_size d) (IsLeaf nd) r).
  { intros r Hrec. apply (rec_frame _ d d' r W Hw); [exact (sw_ps _ _ Hwf)|..].
    - by apply (proj1 (Forall_forall _ _) Hlv).
    - intros q Hq. apply HW. apply (node_pages_in _ nd r); [lia|done|done]. }
  split_and!.
  - split; [cbn; by rewrite Hps|]. apply Forall_forall. intros r Hrec. by apply Hf.
  - unfold keys, rec_key. apply list_fmap_ext. intros i r Hi. cbn.
    by rewrite (proj2 (Hf r (list_elem_of_lookup_2 _ _ _ Hi))).
  - intros Hl. rewrite Hl in Hf. unfold entries, rec_entry. apply list_fmap_ext. intros i r Hi. cbn.
    by rewrite (proj2 (Hf r (list_elem_of_lookup_2 _ _ _ Hi))).
Qed.
