(* ===== verification/Freed.v ===== *)
(** What a write transaction frees.  [accounted d P]: the pages [P] are
    in use, each once, and the transaction has freed none of them; what it has
    freed, it freed once.  [frees d P d' P'] says that this is kept when the
    pages [P] become [P'], whatever other pages there are. *)
From S2P Require Import Prelude Format Comparator State Memory FreeMap Pager PagerI PagerInst.
From S2P Require Import Node NodeWf NodeSpec Tx Iterator BTree Trails NodeDb.

Implicit Types (d : DBImpl) (p q g : Z) (P U : list Z) (F : list (Z * Z)).

(** ** Steps that free nothing *)
Definition unfreed d d' : Prop := pending_map (pager d') = pending_map (pager d) /\ db_txid d' = db_txid d.
#[export] Instance unfreed_preorder : PreOrder unfreed.
Proof. split; [by split|]. intros d1 d2 d3 [A1 A2] [B1 B2]. split; congruence. Qed.

Lemma unfreed_same d d' : unfreed d d' -> db_freed d' = db_freed d.
Proof. intros [H1 H2]. unfold db_freed. by rewrite H1, H2. Qed.
Lemma unfreed_map mp d : unfreed d (set_db_map mp d).
Proof. done. Qed.


(** The pager's own programs. *)
Definition same_pending (x x' : Pager) : Prop := pending_map x' = pending_map x.
#[export] Instance same_pending_preorder : PreOrder same_pending.
Proof. split; [done|]. intros p1 p2 p3 H1 H2. unfold same_pending in *. congruence. Qed.

Lemma trails_modify_pending f : (forall (x : Pager), pending_map (f x) = pending_map x) -> trails same_pending (modify f).
Proof. intros Hf. by apply trails_modify. Qed.
#[local] Hint Extern 1 (trails same_pending (modify _)) => apply trails_modify_pending; intros ?; reflexivity : trails.

Lemma trails_debug_erase g n : trails same_pending (debug_erase g n).
Proof.
  revert g. induction n as [|n IH]; intros g; cbn [debug_erase]; trails.
Qed.
#[local] Hint Resolve trails_debug_erase : trails.
Lemma trails_AllocFromMap n : trails same_pending (AllocFromMap n).
Proof. unfold AllocFromMap. trails. Qed.

(** Allocation, and with it every operation of a node but those that free. *)
Lemma trails_unfreed_pager {A} (m : M Pager A) : trails same_pending m -> trails unfreed (zoom pager_lens m).
Proof. intros Hm d. unfold zoom. cbn. specialize (Hm (pager d)). destruct (m (pager d)); split; done. Qed.

Lemma trails_unfreed_modify f : (forall d, unfreed d (f d)) -> trails unfreed (modify f).
Proof. intros Hf. by apply trails_modify. Qed.
Lemma unfreed_Remmap n : trails unfreed (Remmap n).
Proof. unfold Remmap. repeat (apply trails_bind; [exact _|trails|intros ?]). by apply trails_unfreed_modify. Qed.
#[local] Hint Resolve unfreed_Remmap : trails.

Lemma unfreed_Alloc n : trails unfreed (Alloc n).
Proof.
  intros d. unfold Alloc, get_update_tx, bind at 1. destruct (update_tx (tx_manager d)) as [tx|] eqn:Htx; [|done].
  pose proof (trails_unfreed_pager _ (trails_AllocFromMap n) d) as Ha. unfold bind at 1. unfold zoom in *. cbn [lget lset pager_lens] in *.
  destruct (AllocFromMap n (pager d)) as [g p1|e p1|]; [|done|done]. destruct (g =? kPageInvalidId); [|done].
  set (pc := u32 _). destruct (_ <? _); [done|]. unfold put_update_tx, bind at 1, modify at 1.
  set (d2 := set_tx_manager _ _). assert (H2 : unfreed d d2).
  { split; [apply Ha|]. unfold db_txid, update_txid. cbn. by rewrite Htx. }
  cbv zeta. apply trails_from; [exact _| |done]. trails.
Qed.

(** ** The account *)
Record accounted d P : Prop := {
  ac_freed : disjoint_pairs (db_freed d);
  ac_freed_used q : covers (db_freed d) q -> db_used d q;
  ac_used q : q ∈ P -> db_used d q;
  ac_nodup : NoDup P;
  ac_apart q : q ∈ P -> ~ covers (db_freed d) q;
}.

Definition frees d P d' P' : Prop := forall U, accounted d (P ++ U) -> accounted d' (P' ++ U).

Lemma frees_refl d P : frees d P d P.
Proof. by intros U. Qed.
Lemma frees_trans d P d1 P1 d' P' : frees d P d1 P1 -> frees d1 P1 d' P' -> frees d P d' P'.
Proof. intros H1 H2 U HU. apply H2, H1, HU. Qed.

#[export] Instance accounted_perm d : Proper ((≡ₚ) ==> iff) (accounted d).
Proof.
  assert (H : forall P P', P ≡ₚ P' -> accounted d P -> accounted d P').
  { intros P P' E [H1 H2 H3 H4 H5]. split; try done; [intros q|by rewrite <- E|intros q]; rewrite <- E; auto. }
  intros P P' E. by split; apply H.
Qed.
#[export] Instance frees_perm : Proper ((=) ==> (≡ₚ) ==> (=) ==> (≡ₚ) ==> iff) frees.
Proof. intros d _ <- P1 P2 E d' _ <- P1' P2' E'. unfold frees. split; intros H U; [rewrite <- E, <- E'|rewrite E, E']; auto. Qed.

(** Other pages may stand by; fewer pages may remain. *)
Lemma frees_frame d P d' P' U : frees d P d' P' -> frees d (P ++ U) d' (P' ++ U).
Proof. intros H V. rewrite <- !(assoc_L (++)). apply H. Qed.

Lemma frees_beside d P d' P' U : frees d P d' P' -> frees d (U ++ P) d' (U ++ P').
Proof. rewrite !(Permutation_app_comm U). apply frees_frame. Qed.

Lemma frees_drop d P R : frees d (P ++ R) d P.
Proof.
  intros U [H1 H2 H3 H4 H5]. rewrite <- (assoc_L (++)) in *. assert (Hs : forall q, q ∈ P ++ U -> q ∈ P ++ R ++ U) by (intros q; rewrite !elem_of_app; tauto).
  split; auto. apply (sublist_NoDup _ (P ++ R ++ U)); [done|]. apply sublist_app; [done|]. by apply sublist_inserts_l.
Qed.

(** What a step frees was in use among [P] or is fresh, and is not among what
    stays. *)
Lemma frees_step F d P d' P' :
  db_freed d' = db_freed d ++ F -> (forall q, db_used d q -> db_used d' q) ->
  disjoint_pairs F -> NoDup P' -> (forall q, q ∈ P' -> ~ covers F q) ->
  (forall q, q ∈ P' \/ covers F q -> (q ∈ P \/ ~ db_used d q) /\ db_used d' q) ->
  frees d P d' P'.
Proof.
  intros E Hu HF Hnd Hap Hin U [H1 H2 H3 H4 H5]. apply NoDup_app in H4 as (HP & HPU & HU).
  assert (Hnew : forall q, q ∈ P' \/ covers F q -> (q ∉ U) /\ ~ covers (db_freed d) q).
  { intros q Hq. destruct (Hin q Hq) as [[HqP|Hn] _].
    - split; [by apply HPU|]. apply H5, elem_of_app. by left.
    - split; [|by intros ?%H2]. intros HqU. apply Hn, H3, elem_of_app. by right. }
  split; rewrite ?E.
  - apply disjoint_pairs_app. split_and!; [done..|]. intros q Hq HqF. by apply (Hnew q); auto.
  - intros q [Hq|Hq]%covers_app; [by apply Hu, H2|]. by apply (Hin q); auto.
  - intros q [Hq|Hq]%elem_of_app; [by apply (Hin q); auto|]. apply Hu, H3, elem_of_app. by right.
  - apply NoDup_app. split; [done|]. split; [|done]. intros q Hq. by apply (Hnew q); auto.
  - intros q Hq Hc. apply elem_of_app in Hq as [Hq|Hq]; apply covers_app in Hc as [Hc|Hc].
    + by apply (Hnew q); auto.
    + by apply (Hap q).
    + apply (H5 q); [apply elem_of_app; by right|done].
    + destruct (Hnew q) as [Hn _]; auto.
Qed.

Lemma frees_none d P d' P' :
  db_freed d' = db_freed d -> (forall q, db_used d q -> db_used d' q) -> NoDup P' ->
  (forall q, q ∈ P' -> (q ∈ P \/ ~ db_used d q) /\ db_used d' q) -> frees d P d' P'.
Proof.
  intros E Hu Hnd Hin. apply (frees_step []); try done.
  - by rewrite app_nil_r.
  - intros q _ Hq. by apply covers_nil in Hq.
  - intros q [Hq|Hq]; [by apply Hin|by apply covers_nil in Hq].
Qed.

(** An operation of a node that frees nothing. *)
Lemma unfreed_on {A} (op : NodeM (St := DBImpl) A) nd d a nd' d' :
  trails_on unfreed op -> op (nd, d) = Ok a (nd', d') -> db_freed d' = db_freed d.
Proof. intros Hop E. exact (unfreed_same _ _ (trails_on_ok unfreed op nd d a nd' d' Hop E)). Qed.

(** A page given back. *)
Lemma frees_page d q d' P :
  db_freed d' = db_freed d ++ [(q, 1)] -> (forall x, db_used d' x <-> db_used d x) -> 0 <= q < kPageInvalidId ->
  frees d (q :: P) d' P.
Proof.
  intros E Hu Hq U [H1 H2 H3 H4 H5]. cbn [app] in *. apply NoDup_cons in H4 as [Hn H4].
  assert (Hc : forall x, covers [(q, 1)] x <-> x = q) by (intros x; rewrite covers_cons, covers_nil; lia).
  assert (Hqf : ~ covers (db_freed d) q) by apply H5, list_elem_of_here.
  split; rewrite ?E; try done.
  - apply disjoint_pairs_app. split_and!; [done| |intros x Hx ->%Hc; done].
    cbn [disjoint_pairs]. split_and!; try lia; try done. intros x _ Hx. by apply covers_nil in Hx.
  - intros x [Hx|Hx%Hc]%covers_app; apply Hu; [by apply H2|subst x; apply H3, list_elem_of_here].
  - intros x Hx. apply Hu, H3. by apply list_elem_of_further.
  - intros x Hx [Hx'|Hx'%Hc]%covers_app; [|by subst x]. apply (H5 x); [by apply list_elem_of_further|done].
Qed.

(** ** The ranges of an overflow record *)
Section record.
Context (ps : Z) (leaf : bool) (r : Rec) (Hps : page_size_ok ps).
Context (Htot : r_overflow r = true -> 0 < rec_total leaf r < 2 ^ 32).

Lemma rec_pairs_covers q : covers (rec_pairs ps leaf r) q <-> q ∈ rec_pages ps leaf r.
Proof.
  unfold rec_pairs, rec_pages. destruct (r_overflow r); [|by rewrite covers_nil, elem_of_nil].
  specialize (Htot eq_refl). rewrite u32_small by lia. rewrite covers_cons, covers_nil, elem_of_seqZ.
  destruct (page_size_bounds _ Hps) as [Hr _]. destruct (GetPageCount_spec ps (rec_total leaf r) Hps) as [Hn0 Hn]; [lia|].
  replace ((rec_total leaf r + ps - 1) / ps) with (GetPageCount ps (rec_total leaf r)); [tauto|].
  apply (Z.div_unique _ _ _ (rec_total leaf r + ps - 1 - ps * GetPageCount ps (rec_total leaf r))); lia.
Qed.

Lemma rec_pairs_disjoint : (forall q, q ∈ rec_pages ps leaf r -> 0 <= q < kPageInvalidId) -> disjoint_pairs (rec_pairs ps leaf r).
Proof.
  intros Hq. assert (Hc : forall q, covers (rec_pairs ps leaf r) q -> 0 <= q < kPageInvalidId) by (intros q Hc; by apply Hq, rec_pairs_covers).
  unfold rec_pairs in *. destruct (r_overflow r); [|done]. specialize (Htot eq_refl). rewrite u32_small in * by lia.
  destruct (page_size_bounds _ Hps) as [Hr _]. destruct (GetPageCount_spec ps (rec_total leaf r) Hps) as [Hn0 Hn]; [lia|].
  set (n := GetPageCount ps (rec_total leaf r)) in *. set (g := le_value (r_bytes r)) in *. assert (0 < n) by nia.
  assert (H1 : covers [(g, n)] g) by (apply covers_cons; lia). assert (H2 : covers [(g, n)] (g + n - 1)) by (apply covers_cons; lia).
  apply Hc in H1, H2. cbn [disjoint_pairs]. split_and!; try lia; try done. intros q _ Hq'. by apply covers_nil in Hq'.
Qed.
End record.

(** The record of a node in use, on pages of its own: 4 GiB would leave no
    page for the node. *)
Lemma rec_total_bounds d p leaf r : db_inv d -> db_used d p -> rec_live leaf d r -> p ∉ rec_pages (page_size d) leaf r ->
  r_overflow r = true -> 0 < rec_total leaf r < 2 ^ 32.
Proof.
  intros Hinv Hp [Ho Hl] Hn E. destruct (used_bounds d p Hinv Hp) as (Hps & Hpr & Hpa & _). destruct (page_size_bounds _ Hps) as [Hr _].
  change (pg_page_size d) with (page_size d) in *. rewrite E in Ho. symmetry in Ho. apply Z.ltb_lt in Ho.
  assert (0 <= (page_size d - 34) / 2) by (apply Z.div_pos; lia). split; [lia|]. destruct (Hl E) as [Hg Hb].
  set (g := le_value (r_bytes r)) in *. destruct (Z.lt_ge_cases (rec_total leaf r) (2 ^ 32)) as [|Hbig]; [done|exfalso].
  apply Hn. unfold rec_pages. rewrite E. apply elem_of_seqZ. fold g. destruct (used_bounds d g Hinv Hg) as (_ & Hgr & Hga & _).
  assert (Hlast : db_used d ((g * page_size d + (2 ^ 32 - 1)) / page_size d)) by (apply Hb; lia).
  destruct (used_bounds d _ Hinv Hlast) as (_ & _ & Hla & _).
  pose proof (in_page (page_size d) (g * page_size d + (2 ^ 32 - 1)) ltac:(lia)) as Hin.
  assert (g = 0) by nia. split; [lia|]. assert (p + 1 <= (rec_total leaf r + page_size d - 1) / page_size d); [|lia].
  apply Z.div_le_lower_bound; lia.
Qed.

(** The programs of the transaction that free nothing. *)
Lemma unfreed_ok {A} (m : M DBImpl A) d a d' : trails unfreed m -> m d = Ok a d' -> db_freed d' = db_freed d.
Proof. intros Hm E. exact (unfreed_same _ _ (trails_ok unfreed m d a d' Hm E)). Qed.
Lemma freed_Alloc n d g d' : Alloc n d = Ok g d' -> db_freed d' = db_freed d.
Proof. apply unfreed_ok, unfreed_Alloc. Qed.
Lemma freed_on_node {A} p (op : NodeM A) d a d' : trails_on unfreed op -> on_node p op d = Ok a d' -> db_freed d' = db_freed d.
Proof. intros Hop. apply unfreed_ok, trails_on_node; [exact _|exact unfreed_map|done]. Qed.
