(* ===== verification/Tree.v ===== *)
(** Trees: the shape of a B+ tree on the pages of the file, the sequence of
    its entries and separators, and the pages it occupies. *)
From S2P Require Import Prelude Format Comparator State Memory FreeMap Pager PagerI PagerInst.
From S2P Require Import Node NodeWf NodeSpec Search BranchSpec Tx Iterator BTree NodeDb.

Implicit Types (d : DBImpl) (p q : Z) (nd : NodeData).

(** A leaf with its entries, or a branch with its keys and subtrees, each with
    the page it is on. *)
#[warnings="-register-all"]
Inductive tree : Type :=
| Leaf (p : Z) (es : list entry)
| Branch (p : Z) (ks : list (list byte)) (ts : list tree).

Definition pg (t : tree) : Z := match t with Leaf p _ | Branch p _ _ => p end.

Lemma tree_induction (P : tree -> Prop) :
  (forall p es, P (Leaf p es)) -> (forall p ks ts, Forall P ts -> P (Branch p ks ts)) -> forall t, P t.
Proof.
  intros HL HB. fix IH 1. intros [p es|p ks ts]; [apply HL|]. apply HB.
  induction ts as [|t ts IHts]; constructor; [apply IH|done].
Qed.

(** ** The sequence of a tree, in order: entries and separators *)
Inductive item : Type := Sep (k : list byte) | Ent (e : entry).
Definition item_key (i : item) : list byte := match i with Sep k => k | Ent e => e_key e end.

(** Separators with what follows, or precedes, each of them. *)
Definition after_seps (ks : list (list byte)) (xs : list (list item)) : list item :=
  concat (zip_with (fun k x => Sep k :: x) ks xs).
Definition before_seps (ks : list (list byte)) (xs : list (list item)) : list item :=
  concat (zip_with (fun k x => x ++ [Sep k]) ks xs).
Definition join_seps (ks : list (list byte)) (xs : list (list item)) : list item :=
  match xs with [] => [] | x :: xs => x ++ after_seps ks xs end.

Fixpoint trace (t : tree) : list item :=
  match t with
  | Leaf _ es => Ent <$> es
  | Branch _ ks ts => join_seps ks (trace <$> ts)
  end.

Definition items_entries (l : list item) : list entry :=
  omap (fun i => match i with Ent e => Some e | Sep _ => None end) l.
Definition contents (t : tree) : list entry := items_entries (trace t).

Lemma items_entries_app l1 l2 : items_entries (l1 ++ l2) = items_entries l1 ++ items_entries l2.
Proof. apply omap_app. Qed.
Lemma items_entries_Ent es : items_entries (Ent <$> es) = es.
Proof. induction es as [|e es IH]; [done|]. cbn. f_equal. exact IH. Qed.

(** The join split at one of its pieces. *)
Lemma join_split ks1 ks2 xs1 x xs2 :
  length ks1 = length xs1 ->
  join_seps (ks1 ++ ks2) (xs1 ++ x :: xs2) = before_seps ks1 xs1 ++ x ++ after_seps ks2 xs2.
Proof.
  revert xs1. induction ks1 as [|k ks1 IH]; intros [|y xs1] Hl; try done; cbn in Hl.
  injection Hl as Hl. specialize (IH xs1 Hl).
  change (join_seps ((k :: ks1) ++ ks2) ((y :: xs1) ++ x :: xs2))
    with (y ++ after_seps (k :: ks1 ++ ks2) (xs1 ++ x :: xs2)).
  change (before_seps (k :: ks1) (y :: xs1)) with ((y ++ [Sep k]) ++ before_seps ks1 xs1).
  rewrite <- !app_assoc, <- IH. f_equal.
  destruct xs1 as [|z xs1]; [done|]. done.
Qed.

Lemma after_seps_app ks1 ks2 xs1 xs2 :
  length ks1 = length xs1 -> after_seps (ks1 ++ ks2) (xs1 ++ xs2) = after_seps ks1 xs1 ++ after_seps ks2 xs2.
Proof. intros Hl. unfold after_seps. rewrite zip_with_app by done. by rewrite concat_app. Qed.
Lemma before_seps_app ks1 ks2 xs1 xs2 :
  length ks1 = length xs1 -> before_seps (ks1 ++ ks2) (xs1 ++ xs2) = before_seps ks1 xs1 ++ before_seps ks2 xs2.
Proof. intros Hl. unfold before_seps. rewrite zip_with_app by done. by rewrite concat_app. Qed.

(** ** The shape: leaves all at depth [h], every branch with a key *)
Fixpoint shape (h : nat) (t : tree) : Prop :=
  match t, h with
  | Leaf _ _, O => True
  | Branch _ ks ts, S h =>
      ks <> [] /\ length ts = S (length ks) /\ foldr (fun t P => shape h t /\ P) True ts
  | _, _ => False
  end.

Lemma foldr_Forall {A} (P : A -> Prop) l : foldr (fun x Q => P x /\ Q) True l <-> Forall P l.
Proof.
  induction l as [|x l IH]; cbn; [by split|]. rewrite IH. split.
  - intros [? ?]. by constructor.
  - intros Hf. by apply Forall_cons in Hf.
Qed.

(** ** A tree on the pages of the file *)
Definition inline (r : Rec) : Prop := r_overflow r = false.

Fixpoint rep d (t : tree) : Prop :=
  let nd := db_node d (pg t) in
  db_used d (pg t) /\
  match t with
  | Leaf _ es => leaf_ok d nd /\ entries d nd = es
  | Branch _ ks ts =>
      branch_ok d nd /\ IsBranch nd = true /\ Forall inline (recs nd) /\ keys d nd = ks /\ children nd = pg <$> ts /\
      foldr (fun t P => rep d t /\ P) True ts
  end.

Lemma rep_Branch d p ks ts : rep d (Branch p ks ts) <->
  db_used d p /\ branch_ok d (db_node d p) /\ IsBranch (db_node d p) = true /\ Forall inline (recs (db_node d p)) /\
  keys d (db_node d p) = ks /\ children (db_node d p) = pg <$> ts /\ Forall (rep d) ts.
Proof. cbn. by rewrite foldr_Forall. Qed.

Lemma rep_used d t : rep d t -> db_used d (pg t).
Proof. destruct t; by intros [? _]. Qed.

(** The pages of a tree: its nodes' and those of its leaves' overflow records. *)
Fixpoint footprint d (t : tree) : list Z :=
  pg t :: match t with
          | Leaf p _ => node_pages (page_size d) (db_node d p)
          | Branch _ _ ts => ts ≫= footprint d
          end.

(** The pages of its nodes. *)
Fixpoint tree_nodes (t : tree) : list Z :=
  match t with Leaf p _ => [p] | Branch p _ ts => p :: (ts ≫= tree_nodes) end.
Definition forest_nodes (ts : list tree) : list Z := ts ≫= tree_nodes.
#[export] Instance forest_nodes_perm : Proper ((≡ₚ) ==> (≡ₚ)) forest_nodes.
Proof. intros ts ts' H. unfold forest_nodes. by rewrite H. Qed.
Lemma forest_nodes_app ts us : forest_nodes (ts ++ us) = forest_nodes ts ++ forest_nodes us.
Proof. apply bind_app. Qed.
Lemma tree_nodes_pg t : pg t ∈ tree_nodes t.
Proof. destruct t; apply list_elem_of_here. Qed.
Lemma tree_nodes_footprint d t q : q ∈ tree_nodes t -> q ∈ footprint d t.
Proof.
  induction t as [p es|p ks ts IH] using tree_induction; cbn; intros Hq.
  - apply list_elem_of_singleton in Hq as ->. apply list_elem_of_here.
  - apply elem_of_cons in Hq as [->|Hq]; [apply list_elem_of_here|apply list_elem_of_further].
    apply list_elem_of_bind in Hq as (t & Hq & Ht). apply list_elem_of_bind. exists t. split; [|done].
    rewrite Forall_forall in IH. by apply IH.
Qed.

Lemma footprint_pg d t : pg t ∈ footprint d t.
Proof. destruct t; apply list_elem_of_here. Qed.

Lemma footprint_used d t q : db_inv d -> rep d t -> q ∈ footprint d t -> db_used d q.
Proof.
  intros Hinv. revert q. induction t as [p es|p ks ts IH] using tree_induction; intros q Hr Hq;
    apply elem_of_cons in Hq as [->|Hq]; try by apply rep_used.
  - destruct Hr as (_ & Hok & _). by apply (node_pages_used d _ q Hinv (lo_node _ _ Hok)).
  - apply rep_Branch in Hr as (_ & _ & _ & _ & _ & _ & Hts).
    apply list_elem_of_bind in Hq as (t & Hq & Ht).
    rewrite Forall_forall in IH, Hts. exact (IH t Ht q (Hts t Ht) Hq).
Qed.

(** A branch without overflow records reads no other page. *)
Lemma inline_node_pages ps nd : Forall inline (recs nd) -> node_pages ps nd = [].
Proof.
  unfold node_pages. intros Hf. induction Hf as [|r l Hr Hf IH]; [done|].
  cbn. unfold rec_pages at 1. unfold inline in Hr. by rewrite Hr.
Qed.

(** Steps that write none of its pages keep a tree. *)
Lemma rep_frame W d d' t :
  keeps_others W d d' -> db_inv d -> rep d t -> (forall q, q ∈ footprint d t -> ~ W q) ->
  rep d' t /\ footprint d' t = footprint d t.
Proof.
  intros Hw Hinv. pose proof (ko_ps _ _ _ Hw) as Hps.
  induction t as [p es|p ks ts IH] using tree_induction; intros Hr HW.
  - destruct Hr as (Hp & Hok & Hes). cbn [pg] in *.
    assert (Hnd : db_node d' p = db_node d p).
    { apply (ko_node _ _ _ Hw); [done|]. apply HW, list_elem_of_here. }
    destruct (node_frame d d' (db_node d p) W Hw (lo_node _ _ Hok)) as (Hok' & _ & Hes').
    { intros q Hq. apply HW. by apply list_elem_of_further. }
    split; [|cbn; by rewrite Hnd, Hps]. cbn. rewrite Hnd. split_and!; [apply (ko_used _ _ _ Hw); [done|apply HW, list_elem_of_here]| |].
    + split; [done|apply Hok].
    + rewrite Hes'; [done|apply Hok].
  - apply rep_Branch in Hr as (Hp & Hok & Hbr & Hin & Hks & Hch & Hts).
    assert (Hnd : db_node d' p = db_node d p).
    { apply (ko_node _ _ _ Hw); [done|]. apply HW, list_elem_of_here. }
    destruct (node_frame d d' (db_node d p) W Hw (bo_node _ _ Hok)) as (Hok' & Hks' & _).
    { rewrite inline_node_pages by done. intros q Hq. by apply elem_of_nil in Hq. }
    assert (Hall : Forall (fun t => rep d' t /\ footprint d' t = footprint d t) ts).
    { apply Forall_forall. intros t Ht. rewrite Forall_forall in IH, Hts. apply IH; [done|by apply Hts|].
      intros q Hq. apply HW. apply list_elem_of_further. apply list_elem_of_bind. eauto. }
    split.
    + apply rep_Branch. rewrite Hnd. split_and!; try done; [apply (ko_used _ _ _ Hw); [done|apply HW, list_elem_of_here]| |congruence|].
      * destruct Hok. by split.
      * eapply Forall_impl; [exact Hall|]. by intros t [? _].
    + cbn. f_equal. clear -Hall. induction Hall as [|t ts [_ Ht] Hall IHts]; [done|].
      cbn. f_equal; [exact Ht|exact IHts].
Qed.

(** ** Zippers: a subtree and the branches above it, innermost first *)
Record frame := mkFrame {
  f_pg : Z;
  f_ks1 : list (list byte);
  f_ts1 : list tree;
  f_ks2 : list (list byte);
  f_ts2 : list tree;
}.
Definition plug1 (f : frame) (t : tree) : tree :=
  Branch (f_pg f) (f_ks1 f ++ f_ks2 f) (f_ts1 f ++ t :: f_ts2 f).
Fixpoint plug (fs : list frame) (t : tree) : tree :=
  match fs with [] => t | f :: fs => plug fs (plug1 f t) end.

Definition balanced (f : frame) : Prop :=
  length (f_ks1 f) = length (f_ts1 f) /\ length (f_ks2 f) = length (f_ts2 f).

Definition frame_left (f : frame) : list item := before_seps (f_ks1 f) (trace <$> f_ts1 f).
Definition frame_right (f : frame) : list item := after_seps (f_ks2 f) (trace <$> f_ts2 f).
Fixpoint left_of (fs : list frame) : list item :=
  match fs with [] => [] | f :: fs => left_of fs ++ frame_left f end.
Fixpoint right_of (fs : list frame) : list item :=
  match fs with [] => [] | f :: fs => frame_right f ++ right_of fs end.

Lemma trace_plug1 f t : balanced f -> trace (plug1 f t) = frame_left f ++ trace t ++ frame_right f.
Proof.
  intros [H1 H2]. cbn [trace plug1]. rewrite fmap_app, fmap_cons. apply join_split. by rewrite length_fmap.
Qed.

Lemma trace_plug fs t : Forall balanced fs -> trace (plug fs t) = left_of fs ++ trace t ++ right_of fs.
Proof.
  intros Hfs. revert t. induction Hfs as [|f fs Hf Hfs IH]; intros t; [by rewrite app_nil_r|].
  cbn [plug left_of right_of]. by rewrite IH, (trace_plug1 f t Hf), <- !app_assoc.
Qed.

(** The iterator's stack below the current node. *)
Definition frame_stack (fs : list frame) : list (Z * Z) :=
  (fun f => (f_pg f, Z.of_nat (length (f_ts1 f)))) <$> fs.

(** Representation and footprint of a zipper. *)
Definition frame_fp d (f : frame) : list Z :=
  f_pg f :: (f_ts1 f ≫= footprint d) ++ (f_ts2 f ≫= footprint d).
Definition frames_fp d (fs : list frame) : list Z := fs ≫= frame_fp d.
