(* ===== verification/TreeSearch.v ===== *)
(** Searching a tree: [Iterator::Down] one level at a time, and [LowerBound]
    as the split of the tree's entries at the key. *)
From S2P Require Import Prelude Format Comparator State Memory FreeMap Pager PagerI PagerInst.
From S2P Require Import Node NodeWf NodeSpec Search BranchSpec Tx Iterator BTree NodeDb Tree.

Implicit Types (d : DBImpl) (p q : Z) (nd : NodeData).

(** ** The order of a tree's items *)
Section order.
Context (cmp : comparator) (key_ok : list byte -> Prop) {HO : KeyOrder cmp key_ok}.

Definition key_lt (a b : list byte) : Prop := cmp a b = Some Lt.

(** A separator may equal the first key to its right; otherwise keys strictly
    increase. *)
Definition item_lt (a b : item) : Prop :=
  key_lt (item_key a) (item_key b) \/
  match a, b with Sep k, Ent e => k = e_key e | _, _ => False end.

Definition items_ok (l : list item) : Prop :=
  StronglySorted item_lt l /\ Forall (fun i => key_ok (item_key i)) l.

(** Items on the left and on the right of a key in a search. *)
Definition left_ok (key : list byte) (i : item) : Prop :=
  key_lt (item_key i) key \/ match i with Sep k => k = key | Ent _ => False end.
Definition right_ok (key : list byte) (i : item) : Prop := key_lt key (item_key i).

Lemma items_ok_app l1 l2 : items_ok (l1 ++ l2) -> items_ok l1 /\ items_ok l2.
Proof.
  intros [Hs Hk]. apply StronglySorted_app in Hs as (_ & H1 & H2). apply Forall_app in Hk as [K1 K2].
  by split.
Qed.

Lemma key_lt_trans a b c :
  key_ok a -> key_ok b -> key_ok c -> key_lt a b -> key_lt b c -> key_lt a c.
Proof. apply ko_trans. Qed.

(** What precedes a separator not above the key, what follows one above it. *)
Lemma left_of_sep key l k :
  key_ok key -> items_ok (l ++ [Sep k]) -> key_lt k key \/ k = key -> Forall (left_ok key) (l ++ [Sep k]).
Proof.
  intros Hkey [Hs Hk] Hlt. apply Forall_forall. intros i Hi.
  rewrite Forall_forall in Hk. pose proof (Hk i Hi) as Hik.
  assert (Hkk : key_ok k) by (apply (Hk (Sep k)); apply elem_of_app; right; apply list_elem_of_here).
  apply elem_of_app in Hi as [Hi|Hi].
  - assert (Hb : item_lt i (Sep k)) by (eapply StronglySorted_app_1_elem_of; [exact Hs|done|apply list_elem_of_here]).
    left. destruct Hb as [Hb|Hb]; [|by destruct i]. cbn in Hb.
    destruct Hlt as [Hlt| ->]; [|done]. by apply (key_lt_trans _ k).
  - apply list_elem_of_singleton in Hi as ->. by destruct Hlt; [left|right].
Qed.

Lemma right_of_sep key l k :
  key_ok key -> items_ok (Sep k :: l) -> key_lt key k -> Forall (right_ok key) (Sep k :: l).
Proof.
  intros Hkey [Hs Hk] Hlt. apply StronglySorted_inv in Hs as [_ Hs]. apply Forall_cons in Hk as [Hkk Hk].
  constructor; [done|]. apply Forall_forall. intros i Hi.
  rewrite Forall_forall in Hs, Hk. destruct (Hs i Hi) as [Hb|Hb].
  - apply (key_lt_trans _ k); [done|done|by apply Hk|done|done].
  - destruct i; [done|]. unfold right_ok. cbn. by rewrite <- Hb.
Qed.

(** ** The keys of a branch, and of a leaf, are in order *)
Lemma Sep_after k ks xs : length ks = length xs -> k ∈ ks -> Sep k ∈ after_seps ks xs.
Proof.
  revert xs. induction ks as [|k' ks IH]; intros [|x xs] Hl Hk; try done; [by apply elem_of_nil in Hk|].
  change (after_seps (k' :: ks) (x :: xs)) with (Sep k' :: x ++ after_seps ks xs).
  apply elem_of_cons in Hk as [->|Hk]; [apply list_elem_of_here|].
  apply list_elem_of_further, elem_of_app. right. apply IH; [by injection Hl|done].
Qed.

Lemma sorted_keys ks xs :
  length ks = length xs -> StronglySorted item_lt (after_seps ks xs) -> StronglySorted key_lt ks.
Proof.
  revert xs. induction ks as [|k ks IH]; intros [|x xs] Hl Hs; try done; [constructor|].
  change (after_seps (k :: ks) (x :: xs)) with (Sep k :: x ++ after_seps ks xs) in Hs.
  apply StronglySorted_inv in Hs as [Hs Hall]. injection Hl as Hl.
  apply StronglySorted_app in Hs as (_ & _ & Hs). constructor; [by apply (IH xs)|].
  apply Forall_forall. intros k' Hk'. rewrite Forall_forall in Hall.
  destruct (Hall (Sep k')) as [H|[]]; [|done]. apply elem_of_app. right. by apply Sep_after.
Qed.

Lemma sorted_in_order ks : StronglySorted key_lt ks -> in_order cmp ks.
Proof.
  intros Hs i j a b Hij Ha Hb. left.
  rewrite <- (take_drop_middle _ _ _ Ha) in Hs.
  apply (StronglySorted_app_1_elem_of key_lt (take i ks ++ [a]) (drop (S i) ks) a b).
  - by rewrite <- app_assoc.
  - apply elem_of_app. right. apply list_elem_of_here.
  - apply (list_elem_of_lookup_2 _ (j - S i)). rewrite lookup_drop. by replace (S i + (j - S i))%nat with j by lia.
Qed.

Lemma branch_keys_sorted p ks ts :
  length ts = S (length ks) -> items_ok (trace (Branch p ks ts)) ->
  StronglySorted key_lt ks /\ Forall key_ok ks.
Proof.
  intros Hl [Hs Hk]. destruct ts as [|t ts]; [done|]. injection Hl as Hl. cbn in Hs, Hk.
  apply StronglySorted_app in Hs as (_ & _ & Hs). apply Forall_app in Hk as [_ Hk].
  split; [apply (sorted_keys _ (trace <$> ts)); [by rewrite length_fmap|done]|].
  apply Forall_forall. intros k Hik. rewrite Forall_forall in Hk.
  apply (Hk (Sep k)). apply Sep_after; [by rewrite length_fmap|done].
Qed.

Lemma leaf_keys_sorted p es :
  items_ok (trace (Leaf p es)) -> StronglySorted key_lt (e_key <$> es) /\ Forall key_ok (e_key <$> es).
Proof.
  cbn. intros [Hs Hk]. induction es as [|e es IH]; [by split; constructor|]. cbn in *.
  apply StronglySorted_inv in Hs as [Hs Ha]. apply Forall_cons in Hk as [Hk1 Hk2].
  destruct (IH Hs Hk2) as [IH1 IH2]. split; constructor; try done.
  apply Forall_forall. intros k Hik. apply list_elem_of_fmap_1 in Hik as (e' & -> & He').
  rewrite Forall_forall in Ha. destruct (Ha (Ent e')) as [H|[]]; [|done]. by apply list_elem_of_fmap_2.
Qed.

(** What [found] says of the keys before and after the position. *)
Lemma found_split ks key n eq :
  StronglySorted key_lt ks -> Forall key_ok ks -> key_ok key -> found cmp ks key n eq ->
  let m := if eq then S n else n in
  (m <= length ks)%nat /\
  Forall (fun k => key_lt k key) (take n ks) /\
  Forall (fun k => key_lt k key \/ k = key) (take m ks) /\
  Forall (fun k => key_lt key k) (drop m ks) /\
  (eq = false -> key ∉ ks).
Proof.
  intros Hs Hk Hkey (Hn & Hlt & Heq) m.
  assert (Hbelow : Forall (fun k => key_lt k key) (take n ks)).
  { apply Forall_forall. intros k Hi. apply list_elem_of_lookup_1 in Hi as (j & Hj).
    apply lookup_take_Some in Hj as [Hj Hjn]. by apply (Hlt j k Hj). }
  assert (Habove : forall j k, ks !! j = Some k -> (m <= j)%nat -> key_lt key k).
  { intros j k Hj Hle. pose proof (Forall_lookup_1 _ _ _ _ Hk Hj) as Hkk.
    assert (Hnl : cmp k key <> Some Lt).
    { intros Hc. apply (Hlt j k Hj) in Hc. subst m. destruct eq; lia. }
    assert (Hne : k <> key).
    { intros ->. destruct (decide (j = n)) as [->|Hjn].
      - subst m. destruct eq; [lia|]. by specialize (proj2 Heq Hj).
      - destruct (lookup_lt_is_Some_2 ks n) as [a Ha]; [apply lookup_lt_Some in Hj; subst m; destruct eq; lia|].
        assert (Hak : cmp a key = Some Lt).
        { destruct (sorted_in_order ks Hs n j a key) as [?|He]; try done; [subst m; destruct eq; lia|].
          exfalso. pose proof (Forall_lookup_1 _ _ _ _ Hk Ha). apply ko_eq in He as ->; [|done..].
          assert (Hself : key_lt key key).
          { apply (StronglySorted_app_1_elem_of key_lt (take (S n) ks) (drop (S n) ks)).
            - by rewrite take_drop.
            - apply (list_elem_of_lookup_2 _ n). rewrite lookup_take_lt by lia. done.
            - apply (list_elem_of_lookup_2 _ (j - S n)). rewrite lookup_drop.
              replace (S n + (j - S n))%nat with j by (subst m; destruct eq; lia). done. }
          unfold key_lt in Hself. rewrite (proj2 (ko_eq key key Hkey Hkey) eq_refl) in Hself. done. }
        apply (Hlt n a Ha) in Hak. lia. }
    destruct (ko_total k key Hkk Hkey) as ([] & Hc).
    - by apply ko_eq in Hc.
    - done.
    - exact (ko_antisym k key _ Hkk Hkey Hc). }
  split_and!; [|done| | |].
  - subst m. destruct eq; [|lia]. pose proof (lookup_lt_Some _ _ _ (proj1 Heq eq_refl)). lia.
  - subst m. destruct eq.
    + rewrite (take_S_r _ _ key) by (by apply Heq). apply Forall_app. split; [|by repeat constructor; right].
      eapply Forall_impl; [exact Hbelow|]. by left.
    + eapply Forall_impl; [exact Hbelow|]. by left.
  - apply Forall_forall. intros k Hi. apply list_elem_of_lookup_1 in Hi as (j & Hj).
    rewrite lookup_drop in Hj. apply (Habove _ k Hj). lia.
  - intros -> Hin. apply list_elem_of_lookup_1 in Hin as (j & Hj).
    destruct (decide (j < n)%nat) as [Hjn|Hjn].
    + apply (Hlt j key Hj) in Hjn. by rewrite (proj2 (ko_eq key key Hkey Hkey) eq_refl) in Hjn.
    + pose proof (Habove j key Hj ltac:(subst m; lia)) as Hself.
      unfold key_lt in Hself. by rewrite (proj2 (ko_eq key key Hkey Hkey) eq_refl) in Hself.
Qed.
End order.

(** ** Zippers on the pages of the file *)
Lemma rep_plug d fs t : rep d (plug fs t) -> rep d t.
Proof.
  revert t. induction fs as [|f fs IH]; intros t Hr; [done|]. cbn in Hr. apply IH in Hr.
  apply rep_Branch in Hr as (_ & _ & _ & _ & _ & _ & Hts).
  rewrite Forall_app, Forall_cons in Hts. apply Hts.
Qed.

Lemma children_at {A B} (g : A -> B) (ts1 ts2 : list A) t :
  (g <$> (ts1 ++ t :: ts2)) !! length ts1 = Some (g t).
Proof. by rewrite list_lookup_fmap, list_lookup_middle. Qed.

Lemma rep_hole d f fs t : rep d (plug (f :: fs) t) ->
  db_used d (f_pg f) /\ branch_ok d (db_node d (f_pg f)) /\
  children (db_node d (f_pg f)) !! length (f_ts1 f) = Some (pg t).
Proof.
  intros Hr. cbn in Hr. apply rep_plug, rep_Branch in Hr as (Hp & Hok & _ & _ & _ & Hc & _).
  split_and!; try done. rewrite Hc. apply children_at.
Qed.

Lemma keys_entries d nd : IsLeaf nd = true -> keys d nd = e_key <$> entries d nd.
Proof. intros Hl. unfold keys, entries. rewrite Hl, <- list_fmap_compose. done. Qed.

Lemma leaf_not_branch nd : IsLeaf nd = true -> IsBranch nd = false.
Proof. unfold IsLeaf, IsBranch. by intros ->%Z.eqb_eq. Qed.

(** Steps of an iterator's program. *)
Lemma on_db_ok {A} (m : M DBImpl A) it d a d' : m d = Ok a d' -> on_db m (it, d) = Ok a (it, d').
Proof. intros Hm. unfold on_db. by rewrite (zoom_ok _ _ (it, d) a d' Hm). Qed.
Lemma on_iter_ok f it d : on_iter f (it, d) = Ok tt (f it, d).
Proof. done. Qed.
Lemma iter_ok it d : iter (it, d) = Ok it (it, d).
Proof. done. Qed.
Lemma Push_ok e it d : (length (it_stack it) < 32)%nat -> Push e (it, d) = Ok tt (set_stack (e :: it_stack it) it, d).
Proof.
  intros Hl. unfold Push. run_step (iter_ok it d). rewrite bind_assert; [done|].
  apply Nat.ltb_lt. exact Hl.
Qed.

(** ** One level down *)
Section down.
Context (cmp : comparator) (key_ok : list byte -> Prop) {HO : KeyOrder cmp key_ok}.
Context (bt : BTree) (key : list byte) (Hkey : key_ok key).

Definition top_page (fs : list frame) : option Z := f_pg <$> head fs.

(** Where the search stands: above [t], with [fs] on the stack. *)
Definition at_frames (fs : list frame) (it : BTreeIterator) : Prop :=
  it_btree it = bt /\ it_stack it = frame_stack fs /\ it_cached it = top_page fs.

Definition root_of d (fs : list frame) (t : tree) : Prop :=
  match fs with [] => tree_root bt d = Ok (pg t) d | _ => True end.

(** The page [Down] goes to. *)
Lemma down_child d fs t it :
  db_inv d -> rep d (plug fs t) -> root_of d fs t -> at_frames fs it ->
  (match it_stack it with
   | [] =>
       let* root := on_db (tree_root (it_btree it)) in
       ret (if root =? kPageInvalidId then None else Some root)
   | (parent_pgid, slot_id) :: _ =>
       match it_cached it with
       | None => stuck EmptyOptional
       | Some cached => assertM (cached =? parent_pgid)
       end ;;;
       let* leaf := on_db (node_is_leaf parent_pgid) in
       if leaf then ret None
       else let* pgid := on_db (look parent_pgid (GetLeftChild slot_id)) in ret (Some pgid)
   end) (it, d) = Ok (Some (pg t)) (it, d).
Proof.
  intros Hinv Hr Hroot (Hbt & Hst & Hca). rewrite Hst, Hca. destruct fs as [|f fs]; cbn [frame_stack fmap list_fmap top_page head].
  - cbn in Hr, Hroot. pose proof (used_bounds d _ Hinv (rep_used _ _ Hr)) as (_ & Hb & _). rewrite Hbt.
    run_step (on_db_ok _ it d _ _ Hroot).
    rewrite (proj2 (Z.eqb_neq _ _)) by (unfold kPageInvalidId; lia). done.
  - destruct (rep_hole d f fs t Hr) as (Hp & Hok & Hc). pose proof (bo_branch _ _ Hok) as El.
    cbn. rewrite bind_assert by apply Z.eqb_refl.
    pose proof (node_is_leaf_ok d (f_pg f) Hinv Hp) as Hleaf. rewrite El in Hleaf.
    run_step (on_db_ok _ it d _ _ Hleaf).
    pose proof (GetLeftChild_ok _ d (length (f_ts1 f)) _ Hok Hc) as Hg.
    by run_step (on_db_ok _ it d _ _ (look_ok d _ _ _ _ Hinv Hp Hg)).
Qed.

(** The status and the slot a level leaves. *)
Definition level_status (leaf eq : bool) (n count : nat) : Status :=
  if eq then StEq else if leaf && (n =? count)%nat && (0 <? count)%nat then StInvalid else StNe.

Lemma Down_ok d fs t it :
  opt_comparator (options d) = cmp -> db_inv d -> rep d (plug fs t) -> root_of d fs t -> at_frames fs it ->
  (length fs < 32)%nat ->
  let ks := keys d (db_node d (pg t)) in
  StronglySorted (key_lt cmp) ks -> Forall key_ok ks ->
  exists n eq, found cmp ks key n eq /\
    Down key (it, d) = Ok true
      (mkIter bt ((pg t, Z.of_nat (if eq && IsBranch (db_node d (pg t)) then S n else n)) :: frame_stack fs)
         (level_status (IsLeaf (db_node d (pg t))) eq n (length ks)) (Some (pg t)), d).
Proof.
  intros Hcmp Hinv Hr Hroot Hat Hlen ks Hs Hk.
  pose proof (rep_plug d fs t Hr) as Hrt. pose proof (rep_used d t Hrt) as Hp.
  assert (Hok : node_ok d (db_node d (pg t))).
  { destruct t; [apply Hrt|]. apply rep_Branch in Hrt. apply Hrt. }
  destruct (Node_LowerBound_ok cmp key_ok (db_node d (pg t)) d key Hok Hinv) as (n & eq & Hlb & Hf);
    [by apply sorted_in_order|done|done|].
  exists n, eq. split; [done|]. pose proof (length_keys d _ Hok) as Hlk. fold ks in Hlk, Hf.
  unfold Down. run_step (iter_ok it d).
  rewrite (bind_ok _ _ _ _ _ (down_child d fs t it Hinv Hr Hroot Hat)). cbv beta.
  run_step (on_db_ok _ it d _ _ (new_node_ok d _ Hinv Hp)).
  run_step (on_iter_ok (set_cached (Some (pg t))) it d). run_step (on_iter_ok (set_status StNe) (set_cached (Some (pg t)) it) d).
  set (it1 := set_status StNe _). destruct Hat as (Hbt & Hst & _).
  run_step (on_db_ok _ it1 d _ _ (node_count_ok d _ Hinv Hp)).
  assert (Hc : gets (fun d => opt_comparator (options d)) d = Ok cmp d) by (by rewrite <- Hcmp).
  run_step (on_db_ok _ it1 d _ _ Hc). clear Hc.
  set (nd := db_node d (pg t)) in *. set (slot := Z.of_nat (if eq && IsBranch nd then S n else n)).
  set (st := level_status (IsLeaf nd) eq n (length ks)).
  assert (Hmid : (if 0 <? count nd
     then let* (slot_id, eq0) := on_db (look (pg t) (Node_LowerBound cmp key)) in
          set_search_status (pg t) slot_id (count nd) eq0 ;;;
          let* branch := on_db (node_is_branch (pg t)) in
          ret (if eq0 && branch then slot_id + 1 else slot_id)
     else ret 0) (it1, d) = Ok slot (set_status st it1, d)).
  { rewrite <- Hlk. destruct (Z.ltb_spec 0 (Z.of_nat (length ks))) as [Hpos|Hzero].
    - run_step (on_db_ok _ it1 d _ _ (look_ok d _ _ _ _ Hinv Hp Hlb)). cbv iota.
      assert (Hss : set_search_status (pg t) (Z.of_nat n) (Z.of_nat (length ks)) eq (it1, d) = Ok tt (set_status st it1, d)).
      { unfold set_search_status. run_step (on_db_ok _ it1 d _ _ (node_is_leaf_ok d _ Hinv Hp)).
        fold nd. subst st. unfold level_status. destruct eq; [done|].
        rewrite (proj2 (Nat.ltb_lt _ _)) by lia. rewrite andb_true_r.
        destruct (IsLeaf nd); [|by rewrite andb_false_r]. rewrite andb_true_r. cbn [andb].
        destruct (Z.eqb_spec (Z.of_nat n) (Z.of_nat (length ks))), (Nat.eqb_spec n (length ks)); try lia; done. }
      run_step Hss. run_step (on_db_ok _ (set_status st it1) d _ _ (node_is_branch_ok d _ Hinv Hp)).
      fold nd. subst slot. destruct (eq && IsBranch nd); unfold ret; do 2 f_equal; lia.
    - destruct Hf as (Hn & _ & He). destruct ks as [|]; [|cbn in Hzero; lia].
      assert (eq = false) as -> by (destruct eq; [by specialize (proj1 He eq_refl)|done]).
      assert (n = 0)%nat as -> by (cbn in Hn; lia). subst st slot. cbn.
      unfold level_status. rewrite andb_false_r. done. }
  run_step Hmid. assert (Hl1 : (length (it_stack (set_status st it1)) < 32)%nat).
  { cbn. rewrite Hst. unfold frame_stack. by rewrite length_fmap. }
  run_step (Push_ok (pg t, slot) _ d Hl1). cbn. unfold ret, set_stack. cbn. by rewrite Hst, Hbt.
Qed.
(** ** All the way down *)
Lemma Down_leaf d p slot l st :
  db_inv d -> db_used d p -> IsLeaf (db_node d p) = true ->
  Down key (mkIter bt ((p, slot) :: l) st (Some p), d) =
    Ok false (mkIter bt ((p, slot) :: l) st (Some p), d).
Proof.
  intros Hinv Hp Hl. unfold Down. set (it := mkIter _ _ _ _). run_step (iter_ok it d). cbn.
  unfold bind at 1 2. cbn. rewrite Z.eqb_refl. cbn.
  pose proof (node_is_leaf_ok d p Hinv Hp) as H. rewrite Hl in H.
  by rewrite (bind_ok _ _ _ _ _ (on_db_ok _ it d _ _ H)).
Qed.

(** The frame of a branch at child [m]. *)
Definition frame_at p (ks : list (list byte)) (ts : list tree) (m : nat) : frame :=
  mkFrame p (take m ks) (take m ts) (drop m ks) (drop (S m) ts).

Lemma plug1_frame_at p ks ts m t : ts !! m = Some t -> plug1 (frame_at p ks ts m) t = Branch p ks ts.
Proof. intros Ht. unfold plug1, frame_at. cbn. by rewrite take_drop, take_drop_middle. Qed.

Lemma frame_at_balanced p ks ts m :
  length ts = S (length ks) -> (m <= length ks)%nat -> balanced (frame_at p ks ts m).
Proof. intros Hl Hm. split; cbn; rewrite ?length_take, ?length_drop; lia. Qed.

Lemma frame_at_stack p ks ts m fs :
  (m < length ts)%nat -> frame_stack (frame_at p ks ts m :: fs) = (p, Z.of_nat m) :: frame_stack fs.
Proof. intros Hm. cbn. rewrite length_take. do 2 f_equal. lia. Qed.

Lemma frame_left_ok p ks ts m :
  length ts = S (length ks) -> (m <= length ks)%nat ->
  items_ok cmp key_ok (frame_left (frame_at p ks ts m)) ->
  Forall (fun k => key_lt cmp k key \/ k = key) (take m ks) ->
  Forall (left_ok cmp key) (frame_left (frame_at p ks ts m)).
Proof.
  intros Hl Hm Hok Hks. destruct m as [|m]; [constructor|]. unfold frame_left in *. cbn [frame_at f_ks1 f_ts1] in *.
  destruct (lookup_lt_is_Some_2 ks m) as [k Hk]; [lia|]. destruct (lookup_lt_is_Some_2 ts m) as [t Ht]; [lia|].
  rewrite (take_S_r _ _ _ Hk), (take_S_r _ _ _ Ht), fmap_app, before_seps_app in *
    by (rewrite length_fmap, !length_take; lia).
  change (before_seps [k] (trace <$> [t])) with (concat [trace t ++ [Sep k]]) in *. cbn in *.
  rewrite app_nil_r, app_assoc in *. apply (left_of_sep cmp key_ok); [done|done|].
  apply Forall_app in Hks as [_ Hks]. by apply Forall_cons in Hks as [? _].
Qed.

Lemma frame_right_ok p ks ts m :
  length ts = S (length ks) -> (m <= length ks)%nat ->
  items_ok cmp key_ok (frame_right (frame_at p ks ts m)) ->
  Forall (fun k => key_lt cmp key k) (drop m ks) ->
  Forall (right_ok cmp key) (frame_right (frame_at p ks ts m)).
Proof.
  intros Hl Hm Hok Hks. unfold frame_right in *. cbn [frame_at f_ks2 f_ts2] in *.
  destruct (drop m ks) as [|k ks2] eqn:Ek; [constructor|].
  destruct (drop (S m) ts) as [|t ts2] eqn:Et.
  { apply (f_equal length) in Ek, Et. rewrite length_drop in Ek. pose proof (length_drop ts (S m)) as Hd.
    rewrite Et in Hd. cbn in Ek, Hd. lia. }
  change (after_seps (k :: ks2) (trace <$> (t :: ts2)))
    with (Sep k :: trace t ++ after_seps ks2 (trace <$> ts2)) in *.
  apply (right_of_sep cmp key_ok); [done|done|]. by apply Forall_cons in Hks as [? _].
Qed.

(** Where a search ends: at a leaf of the tree, which it splits at the key. *)
Record landed (t : tree) (fs : list frame) p (es : list entry) (n : nat) (eq : bool) : Prop := {
  ld_plug : plug fs (Leaf p es) = t;
  ld_balanced : Forall balanced fs;
  ld_found : found cmp (e_key <$> es) key n eq;
  ld_left : Forall (left_ok cmp key) (left_of fs);
  ld_right : Forall (right_ok cmp key) (right_of fs);
}.

Lemma descend_ok d : opt_comparator (options d) = cmp -> db_inv d -> forall t fs fuel it h,
  rep d (plug fs t) -> root_of d fs t -> at_frames fs it -> shape h t ->
  (length fs + h < 32)%nat -> (h + 2 <= fuel)%nat ->
  items_ok cmp key_ok (trace (plug fs t)) -> Forall balanced fs ->
  Forall (left_ok cmp key) (left_of fs) -> Forall (right_ok cmp key) (right_of fs) ->
  exists fs' p es n eq, landed (plug fs t) fs' p es n eq /\ length fs' = (length fs + h)%nat /\
    descend fuel key (it, d) =
      Ok tt (mkIter bt ((p, Z.of_nat n) :: frame_stack fs') (level_status true eq n (length es)) (Some p), d).
Proof.
  intros Hcmp Hinv t. induction t as [p es|p ks ts IH] using tree_induction;
    intros fs fuel it h Hr Hroot Hat Hsh Hlen Hfuel Hitems Hbal Hleft Hright;
    pose proof (rep_plug d fs _ Hr) as Hrt; pose proof Hitems as Hit;
    rewrite (trace_plug fs _ Hbal) in Hit; apply items_ok_app in Hit as [_ Hit];
    apply items_ok_app in Hit as [Hit _]; (destruct fuel as [|fuel]; [lia|]); cbn [descend].
  - destruct h; [|done]. destruct Hrt as (Hp & Hok & Hes).
    pose proof (keys_entries d _ (lo_leaf _ _ Hok)) as Hke. cbn [pg] in *. rewrite Hes in Hke.
    destruct (leaf_keys_sorted cmp key_ok p es Hit) as [Hs Hk].
    destruct (Down_ok d fs (Leaf p es) it Hcmp Hinv Hr Hroot Hat ltac:(lia)) as (n & eq & Hf & Hd);
      cbn [pg]; [by rewrite Hke|by rewrite Hke|].
    cbn [pg] in Hf, Hd. rewrite (lo_leaf _ _ Hok), (leaf_not_branch _ (lo_leaf _ _ Hok)), andb_false_r, Hke, length_fmap in Hd.
    rewrite Hke in Hf. exists fs, p, es, n, eq. split; [done|]. split; [lia|]. run_step Hd.
    destruct fuel as [|fuel]; [lia|]. cbn [descend].
    by run_step (Down_leaf d p (Z.of_nat n) (frame_stack fs) (level_status true eq n (length es)) Hinv Hp (lo_leaf _ _ Hok)).
  - destruct h as [|h]; [done|]. cbn in Hsh. rewrite foldr_Forall in Hsh. destruct Hsh as (Hne & Hl & Hsh).
    destruct (branch_keys_sorted cmp key_ok p ks ts Hl Hit) as [Hs Hk].
    apply rep_Branch in Hrt as (Hp & Hok & Hbr & Hin & Hks & Hch & Hts).
    destruct (Down_ok d fs (Branch p ks ts) it Hcmp Hinv Hr Hroot Hat ltac:(lia)) as (n & eq & Hf & Hd);
      cbn [pg]; [by rewrite Hks|by rewrite Hks|].
    cbn [pg] in Hf, Hd. rewrite Hbr, andb_true_r, Hks, (bo_branch _ _ Hok) in *.
    destruct (found_split cmp key_ok ks key n eq Hs Hk Hkey Hf) as (Hm & _ & Hlo & Hhi & _).
    set (m := if eq then S n else n) in *. destruct (lookup_lt_is_Some_2 ts m) as [t Ht]; [lia|].
    run_step Hd. set (f := frame_at p ks ts m).
    pose proof (plug1_frame_at p ks ts m t Ht) as Hplug. fold f in Hplug.
    assert (Hpl : plug (f :: fs) t = plug fs (Branch p ks ts)) by (cbn; by rewrite Hplug).
    assert (Hb : balanced f) by (by apply frame_at_balanced).
    pose proof Hit as Hfr. rewrite <- Hplug, (trace_plug1 f t Hb) in Hfr.
    apply items_ok_app in Hfr as [Hfl Hfr]. apply items_ok_app in Hfr as [_ Hfr].
    rewrite <- Hpl in *. apply list_elem_of_lookup_2 in Ht as Htin.
    rewrite Forall_forall in IH, Hsh.
    destruct (IH t Htin (f :: fs) fuel
      (mkIter bt ((p, Z.of_nat m) :: frame_stack fs) (level_status false eq n (length ks)) (Some p)) h)
      as (fs' & p' & es & n' & eq' & Hld & Hlf & Hrun); try done.
    + split_and!; [done| |done]. symmetry. apply (frame_at_stack p ks ts m fs). lia.
    + by apply Hsh.
    + cbn. lia.
    + lia.
    + by constructor.
    + cbn. apply Forall_app. split; [done|]. by apply (frame_left_ok p ks ts m).
    + cbn. apply Forall_app. split; [|done]. by apply (frame_right_ok p ks ts m).
    + exists fs', p', es, n', eq'. split_and!; [done|cbn in Hlf; lia|exact Hrun].
Qed.
End down.
