(* ===== verification/TreeGet.v ===== *)
(** Looking up a key: what [LowerBound] and [Get] of [src/btree.cpp] return,
    and what the iterator they return reads. *)
From S2P Require Import Prelude Format Comparator State Memory FreeMap Pager PagerI PagerInst.
From S2P Require Import Node NodeWf NodeSpec Search BranchSpec Tx Iterator BTree NodeDb Tree TreeSearch.
From S2P Require Import Sample.

Implicit Types (d : DBImpl) (p q : Z) (nd : NodeData).

(** ** The iterator's accessors *)
Lemma entry_reads d nd (i : nat) e :
  leaf_ok d nd -> db_inv d -> entries d nd !! i = Some e ->
  key_at (Z.of_nat i) (nd, d) = Ok (e_key e) (nd, d) /\
  value_at (Z.of_nat i) (nd, d) = Ok (e_value e) (nd, d) /\
  IsBucket (Z.of_nat i) (nd, d) = Ok (e_bucket e) (nd, d).
Proof.
  intros Hok Hinv He. apply list_lookup_fmap_Some in He as (r & -> & Hr). split_and!.
  - rewrite (key_at_ok d nd i r Hok Hinv Hr). by rewrite (lo_leaf _ _ Hok).
  - by rewrite (value_at_ok d nd i r Hok Hinv Hr).
  - destruct (get_live_slot d nd i r Hok Hr) as (x & Hx & -> & Hlt).
    unfold IsBucket. run_step (data_ok nd d). rewrite bind_assert by (by apply Z.ltb_lt). by run_step Hx.
Qed.

(** An iterator on entry [e] of a leaf, and what reading through it gives. *)
Definition reads (it : BTreeIterator) d (e : entry) : Prop :=
  with_iterator it iter_key d = Ok (e_key e, it) d /\
  with_iterator it iter_value d = Ok (e_value e, it) d /\
  with_iterator it iter_is_bucket d = Ok (e_bucket e, it) d.

Lemma iterator_reads d bt p (n : nat) l st e :
  db_inv d -> db_used d p -> leaf_ok d (db_node d p) -> entries d (db_node d p) !! n = Some e ->
  st <> StInvalid -> reads (mkIter bt ((p, Z.of_nat n) :: l) st (Some p)) d e.
Proof.
  intros Hinv Hp Hok He Hst. set (it := mkIter _ _ _ _).
  destruct (entry_reads d (db_node d p) n e Hok Hinv He) as (Hk & Hv & Hb).
  assert (Hleaf : GetLeafNode (it, d) = Ok (p, Z.of_nat n) (it, d)).
  { unfold GetLeafNode. run_step (iter_ok it d).
    assert (Hend : iter_end it = false).
    { unfold iter_end, iter_eq, new_iterator. cbn. rewrite bool_decide_true by done. cbn.
      by rewrite bool_decide_false. }
    rewrite Hend. cbn. rewrite bool_decide_true by done. cbn.
    pose proof (node_is_leaf_ok d p Hinv Hp) as H. rewrite (lo_leaf _ _ Hok) in H.
    change (bind (on_db (node_is_leaf p)) (fun leaf => assertM leaf ;;; ret (p, Z.of_nat n)) (it, d) = Ok (p, Z.of_nat n) (it, d)).
    by run_step (on_db_ok _ it d _ _ H). }
  unfold reads, with_iterator, iter_key, iter_value, iter_is_bucket.
  rewrite !(bind_ok _ _ _ _ _ Hleaf). cbv beta iota.
  rewrite (on_db_ok _ it d _ _ (look_ok d p _ _ _ Hinv Hp Hk)).
  rewrite (on_db_ok _ it d _ _ (look_ok d p _ _ _ Hinv Hp Hv)).
  by rewrite (on_db_ok _ it d _ _ (look_ok d p _ _ _ Hinv Hp Hb)).
Qed.

(** ** A tree of the file: its root, its order and its height *)
Record tree_at (cmp : comparator) (key_ok : list byte -> Prop) d (bt : BTree) (t : tree) (h : nat) : Prop := {
  ta_cmp : opt_comparator (options d) = cmp;
  ta_inv : db_inv d;
  ta_rep : rep d t;
  ta_root : tree_root bt d = Ok (pg t) d;
  ta_shape : shape h t;
  ta_height : (h < 32)%nat;
  ta_items : items_ok cmp key_ok (trace t);
}.

(** The entry of a key in a list of entries. *)
Definition find_entry (key : list byte) (l : list entry) : option entry :=
  find (fun e => bool_decide (e_key e = key)) l.

Lemma find_entry_app key l1 l2 :
  find_entry key (l1 ++ l2) =
    match find_entry key l1 with Some e => Some e | None => find_entry key l2 end.
Proof. induction l1 as [|e l1 IH]; [done|]. cbn. by destruct (bool_decide (e_key e = key)). Qed.

Lemma find_entry_none key l : Forall (fun e => e_key e <> key) l -> find_entry key l = None.
Proof. induction 1 as [|e l He Hl IH]; [done|]. cbn. rewrite bool_decide_false; done. Qed.

Section get.
Context (cmp : comparator) (key_ok : list byte -> Prop) {HO : KeyOrder cmp key_ok}.
Context (bt : BTree) (key : list byte) (Hkey : key_ok key).

Lemma key_lt_irrefl k : key_ok k -> ~ key_lt cmp k k.
Proof. intros Hk Hlt. unfold key_lt in Hlt. by rewrite (proj2 (ko_eq k k Hk Hk) eq_refl) in Hlt. Qed.

Lemma LowerBound_ok d t h : tree_at cmp key_ok d bt t h ->
  exists fs p es n eq, landed cmp key t fs p es n eq /\ length fs = h /\
    LowerBound bt key d =
      Ok (mkIter bt ((p, Z.of_nat n) :: frame_stack fs) (level_status true eq n (length es)) (Some p)) d.
Proof.
  intros [Hcmp Hinv Hr Hroot Hsh Hh Hit].
  destruct (descend_ok cmp key_ok bt key Hkey d Hcmp Hinv t [] (S depth_fuel) (new_iterator bt) h)
    as (fs & p & es & n & eq & Hld & Hlf & Hrun); try done; try by constructor.
  { unfold depth_fuel, kStackSize. lia. }
  exists fs, p, es, n, eq. split; [done|]. split; [done|].
  unfold LowerBound, with_iterator. change (let* continue_ := Top key in
    if continue_ then descend depth_fuel key else ret tt) with (descend (S depth_fuel) key).
  unfold bind. by rewrite Hrun.
Qed.

(** The leaf a search lands on. *)
Lemma landed_leaf d t fs p es n eq :
  rep d t -> landed cmp key t fs p es n eq ->
  db_used d p /\ leaf_ok d (db_node d p) /\ entries d (db_node d p) = es.
Proof. intros Hr [Hpl _ _ _ _]. rewrite <- Hpl in Hr. exact (rep_plug d fs _ Hr). Qed.

Lemma items_entries_keys (P : list byte -> Prop) l :
  Forall (fun i => match i with Ent e => P (e_key e) | Sep _ => True end) l ->
  Forall (fun e => P (e_key e)) (items_entries l).
Proof. induction 1 as [|[k|e] l Hi Hl IH]; [constructor|done|by constructor]. Qed.

(** The entries of the tree, split where the search landed. *)
Lemma landed_split t fs p es n eq :
  items_ok cmp key_ok (trace t) -> landed cmp key t fs p es n eq ->
  contents t = (items_entries (left_of fs) ++ take n es) ++ (drop n es ++ items_entries (right_of fs)) /\
  Forall (fun e => key_lt cmp (e_key e) key) (items_entries (left_of fs) ++ take n es) /\
  Forall (fun e => ~ key_lt cmp (e_key e) key) (drop n es ++ items_entries (right_of fs)) /\
  Forall (fun e => e_key e <> key) (items_entries (right_of fs)) /\
  (eq = true <-> exists e, es !! n = Some e /\ e_key e = key) /\ (eq = false -> key ∉ e_key <$> es).
Proof.
  intros Hit [Hpl Hbal Hf Hl Hr]. subst t.
  rewrite (trace_plug fs _ Hbal) in Hit. pose proof Hit as Hit'.
  apply items_ok_app in Hit as [_ Hit]. apply items_ok_app in Hit as [Hit Hrk].
  destruct (leaf_keys_sorted cmp key_ok p es Hit) as [Hs Hk].
  destruct (found_split cmp key_ok _ key n eq Hs Hk Hkey Hf) as (_ & Hlo & _ & _ & Hno).
  assert (Hright : Forall (fun e => key_ok (e_key e) /\ key_lt cmp key (e_key e)) (items_entries (right_of fs))).
  { apply (items_entries_keys (fun k => key_ok k /\ key_lt cmp key k)).
    destruct Hrk as [_ Hrk]. apply Forall_forall. intros i Hi. rewrite Forall_forall in Hr, Hrk.
    specialize (Hr i Hi). specialize (Hrk i Hi). by destruct i. }
  split_and!.
  - unfold contents. rewrite (trace_plug fs _ Hbal), !items_entries_app. cbn [trace].
    rewrite items_entries_Ent. rewrite <- (take_drop n es) at 1. by rewrite <- !app_assoc.
  - apply Forall_app. split.
    + apply (items_entries_keys (fun k => key_lt cmp k key)).
      eapply Forall_impl; [exact Hl|]. by intros [k|e] [Hi|Hi].
    + rewrite <- fmap_take in Hlo. by apply Forall_fmap in Hlo.
  - apply Forall_app. split.
    + apply Forall_forall. intros e He. apply list_elem_of_lookup_1 in He as (j & Hj). rewrite lookup_drop in Hj.
      destruct Hf as (_ & Hf & _). assert (Hk' : (e_key <$> es) !! (n + j)%nat = Some (e_key e)) by (by rewrite list_lookup_fmap, Hj).
      intros Hlt. apply (Hf _ _ Hk') in Hlt. lia.
    + eapply Forall_impl; [exact Hright|]. cbn. intros e [He Hgt] Hlt.
      apply (key_lt_irrefl key Hkey). by apply (key_lt_trans cmp key_ok _ (e_key e)).
  - eapply Forall_impl; [exact Hright|]. cbn. intros e [He Hgt] E. rewrite E in Hgt. by apply (key_lt_irrefl key Hkey).
  - destruct Hf as (_ & _ & ->). rewrite list_lookup_fmap, fmap_Some. split; intros (e & ? & ?); eauto.
  - done.
Qed.

Lemma landed_bound t fs p es n eq : landed cmp key t fs p es n eq -> (n <= length es)%nat.
Proof. intros [_ _ (Hn & _) _ _]. by rewrite length_fmap in Hn. Qed.

(** Whether the search found the key. *)
Lemma landed_finds t fs p es n eq : items_ok cmp key_ok (trace t) -> landed cmp key t fs p es n eq ->
  is_Some (find_entry key (contents t)) <-> eq = true.
Proof.
  intros Hit Hld. destruct (landed_split t fs p es n eq Hit Hld) as (Hc & Hl & _ & Hne & Heq & Hno).
  rewrite Hc, find_entry_app, find_entry_none.
  2: { eapply Forall_impl; [exact Hl|]. cbn. intros e Hlt E. rewrite E in Hlt. by apply (key_lt_irrefl key Hkey). }
  destruct eq; [|split; [|done]].
  - destruct (proj1 Heq eq_refl) as (e & He & Hk). rewrite (drop_S _ _ _ He). cbn. rewrite bool_decide_true by done.
    split; [done|]. intros _. by eexists.
  - rewrite find_entry_none; [by intros [? ?]|]. apply Forall_app. split; [|done]. apply Forall_forall. intros e He E. apply (Hno eq_refl).
    rewrite <- E. apply list_elem_of_fmap_2. apply list_elem_of_lookup_1 in He as (j & Hj). rewrite lookup_drop in Hj. by eapply list_elem_of_lookup_2.
Qed.

(** C9: [LowerBound] lands in the one leaf whose separators enclose the key
    ([landed]), at the first of its entries not below the key: every entry of
    the tree before that place is below the key, no entry after it is.  When the
    leaf has an entry there, the iterator reads it, and has status [StEq] exactly
    when it has the key.  When all entries of the leaf are below the key, the
    iterator is [end()], although the next leaf may have greater ones; only in
    a leaf without entries it is not. *)
Theorem LowerBound_spec d t h : tree_at cmp key_ok d bt t h ->
  exists it fs p es n eq, LowerBound bt key d = Ok it d /\ landed cmp key t fs p es n eq /\ (n <= length es)%nat /\
    contents t = (items_entries (left_of fs) ++ take n es) ++ (drop n es ++ items_entries (right_of fs)) /\
    Forall (fun e => key_lt cmp (e_key e) key) (items_entries (left_of fs) ++ take n es) /\
    Forall (fun e => ~ key_lt cmp (e_key e) key) (drop n es ++ items_entries (right_of fs)) /\
    (it_status it = StEq <-> is_Some (find_entry key (contents t))) /\
    match es !! n with
    | Some e => iter_end it = false /\ reads it d e /\ (it_status it = StEq <-> e_key e = key)
    | None => iter_end it = negb (bool_decide (es = [])) /\ it_status it <> StEq
    end.
Proof.
  intros Hta. destruct (LowerBound_ok d t h Hta) as (fs & p & es & n & eq & Hld & _ & Hrun).
  destruct (landed_split t fs p es n eq (ta_items _ _ _ _ _ _ Hta) Hld) as (Hc & Hl & Hr & Hne & Heq & Hno).
  destruct (landed_leaf d t fs p es n eq (ta_rep _ _ _ _ _ _ Hta) Hld) as (Hp & Hok & Hes).
  pose proof (landed_bound _ _ _ _ _ _ Hld) as Hn. pose proof (landed_finds t fs p es n eq (ta_items _ _ _ _ _ _ Hta) Hld) as Hf.
  eexists _, fs, p, es, n, eq. split; [exact Hrun|]. split; [done|]. split; [done|]. split; [exact Hc|]. split; [done|]. split; [done|].
  set (st := level_status true eq n (length es)). cbn [it_status]. assert (Hst : st = StEq <-> eq = true).
  { unfold st, level_status. destruct eq; [done|]. by destruct (_ && _ && _). }
  rewrite Hst. split; [by rewrite Hf|]. destruct (es !! n) as [e|] eqn:He.
  - assert (Hni : st <> StInvalid).
    { unfold st, level_status. destruct eq; [done|]. apply lookup_lt_Some in He. by rewrite (proj2 (Nat.eqb_neq n (length es))) by lia. }
    split; [|split].
    + unfold iter_end, iter_eq, new_iterator. cbn. rewrite bool_decide_true by done. cbn. by rewrite bool_decide_false.
    + apply iterator_reads; try done; [apply Hta|by rewrite Hes].
    + rewrite Hst, Heq. split; [intros (e' & [= <-] & ?); done|]. intros Hk. by exists e.
  - assert (Hlen : n = length es) by (apply lookup_ge_None in He; lia). assert (Hef : eq = false).
    { destruct eq; [|done]. destruct (proj1 Heq eq_refl) as (e' & [=] & _). }
    split; [|by rewrite Hst, Hef]. unfold iter_end, iter_eq, new_iterator. cbn. rewrite bool_decide_true by done. cbn.
    unfold st, level_status. rewrite Hef, Hlen, Nat.eqb_refl. destruct es; done.
Qed.

Lemma Get_ok d t h : tree_at cmp key_ok d bt t h ->
  match find_entry key (contents t) with
  | Some e => exists it, Get bt key d = Ok it d /\ iter_end it = false /\ reads it d e
  | None => Get bt key d = Ok (tree_end bt) d
  end.
Proof.
  intros Hta. destruct (LowerBound_ok d t h Hta) as (fs & p & es & n & eq & Hld & _ & Hrun).
  destruct (landed_split t fs p es n eq (ta_items _ _ _ _ _ _ Hta) Hld) as (Hc & Hl & _ & Hne & Heq & Hno).
  destruct (landed_leaf d t fs p es n eq (ta_rep _ _ _ _ _ _ Hta) Hld) as (Hp & Hok & Hes).
  unfold Get. run_step Hrun. cbn [it_status]. rewrite Hc, find_entry_app.
  rewrite find_entry_none.
  2: { eapply Forall_impl; [exact Hl|]. cbn. intros e Hlt E. rewrite E in Hlt. by apply (key_lt_irrefl key Hkey). }
  destruct eq.
  - destruct (proj1 Heq eq_refl) as (e & He & Hk). rewrite (drop_S _ _ _ He). cbn [app find_entry find].
    rewrite bool_decide_true by done. eexists. split; [done|].
    rewrite (bool_decide_true (level_status _ _ _ _ = StEq)) by done. split.
    + unfold iter_end, iter_eq. cbn. rewrite bool_decide_true by done. done.
    + apply iterator_reads; try done; [apply Hta|by rewrite Hes].
  - rewrite find_entry_none.
    { rewrite bool_decide_false; [done|]. unfold level_status. by destruct (_ && _ && _). }
    apply Forall_app. split; [|done]. apply Forall_forall. intros e He E. apply (Hno eq_refl).
    rewrite <- E. apply list_elem_of_fmap_2.
    apply list_elem_of_lookup_1 in He as (j & Hj). rewrite lookup_drop in Hj. by eapply list_elem_of_lookup_2.
Qed.

(** C6: [Get] finds a key exactly when the tree has an entry for it: the
    iterator it returns reads that entry; otherwise it returns [end()]. *)
Theorem Get_spec d t h : tree_at cmp key_ok d bt t h ->
  match find_entry key (contents t) with
  | Some e => exists it, Get bt key d = Ok it d /\ iter_end it = false /\ reads it d e
  | None => Get bt key d = Ok (tree_end bt) d
  end.
Proof. exact (Get_ok d t h). Qed.
End get.
