(* ===== verification/SampleTree.v ===== *)
(** A small tree on the pages of a small database, and the checks that make
    its invariants computable. *)
From S2P Require Import Prelude Format Comparator State Memory FreeMap Pager PagerI PagerInst.
From S2P Require Import Node NodeWf NodeSpec Search BranchSpec Tx Iterator BTree NodeDb Tree TreeSearch.
From S2P Require Import Sample TreeGet.

(** ** Invariants as computations *)
Definition slot_check (ps : Z) (nd : NodeData) (s : Slot) : bool :=
  (0 <=? key_size s) && (key_size s <? 2 ^ 15) && (0 <=? slot_u s) && (slot_u s <? 2 ^ 32) &&
  (data_offset (header nd) <=? record_offset s) && (record_offset s + sizeof_record nd s <=? ps).

Definition node_check (ps : Z) (nd : NodeData) : bool :=
  bool_decide (page_size_ok ps) && (0 <=? count nd) && (18 + 8 * count nd <=? data_offset (header nd)) &&
  (0 <=? space_used (header nd)) && (data_offset (header nd) + space_used (header nd) <=? ps) &&
  (Z.of_nat (length (slots nd)) =? (ps - 18) / 8) && (Z.of_nat (length (payload nd)) =? ps) &&
  (space_used (header nd) =? sizes nd (live_slots nd)) && forallb (slot_check ps nd) (live_slots nd) &&
  forallb (fun r => negb (r_overflow r) && negb ((ps - 34) / 2 <? rec_total (IsLeaf nd) r)) (recs nd).

Lemma node_check_ok d nd : node_check (page_size d) nd = true -> node_ok d nd /\ Forall inline (recs nd).
Proof.
  unfold node_check. rewrite !andb_true_iff, bool_decide_eq_true, !Z.leb_le, !Z.eqb_eq, !forallb_forall.
  intros (((((((((Hps & Hc) & Hlow) & Hu) & Htop) & Hsl) & Hpl) & Hus) & Hlive) & Hrec).
  assert (Hrec' : forall r, r ∈ recs nd ->
    r_overflow r = false /\ ((page_size d - 34) / 2 <? rec_total (IsLeaf nd) r) = false).
  { intros r Hr. apply list_elem_of_In in Hr. specialize (Hrec r Hr).
    by rewrite andb_true_iff, !negb_true_iff in Hrec. }
  split; [split; [split; [by split|done|]|]|].
  - apply Forall_forall. intros s Hs. apply list_elem_of_In in Hs. specialize (Hlive s Hs).
    unfold slot_check in Hlive. rewrite !andb_true_iff, !Z.leb_le, !Z.ltb_lt in Hlive.
    destruct Hlive as (((((? & ?) & ?) & ?) & ?) & ?). by split.
  - apply Forall_forall. intros r Hr. destruct (Hrec' r Hr) as [H1 H2].
    split; [cbn; rewrite H1; symmetry; exact H2|]. by rewrite H1.
  - apply Forall_forall. intros r Hr. by apply Hrec'.
Qed.

(** ** The tree *)
Definition tree_meta : MetaStruct := mkMeta ATOMKV_SIGN 256 1 6 3 kPageInvalidId 0 0 8 0.
Definition tree_tx : TxImpl := mkTx tree_meta true (mkBucket kUserRootBucketId true UserRoot None) [].

(** The node an operation makes of an empty leaf or branch. *)
Definition node_of {A} (m : NodeM (St := DBImpl) A) (nd : NodeData) : NodeData := (after m (nd, sample_db)).1.
Definition left_leaf : NodeData :=
  node_of (Leaf_Insert 0 (Ext [x61]) [x01] ;;; Leaf_Insert 1 (Ext [x62]) [x02]) blank_node.
Definition right_leaf : NodeData :=
  node_of (Leaf_Insert 0 (Ext [x63]) [x03] ;;; Leaf_Insert 1 (Ext [x65]) [x05]) blank_node.
Definition root_branch : NodeData := node_of (Branch_Build 4 ;;; Branch_Append (Ext [x63]) 5 true) blank_node.

Definition tree_pages : gmap Z Page :=
  list_to_map [(3, NodePage root_branch); (4, NodePage left_leaf); (5, NodePage right_leaf)].
Definition tree_db : DBImpl :=
  mkDB (mkOptions 256 ByteArrayComparator false true kUpdateInPlace 1024) (mkMapping tree_pages 2048) 0 [] tree_meta true 0
    (mkPager [] [(2, 1)] [] {[2]}) (mkTxManager kTxInvalidId (Some tree_tx) [] 6)
    [] (mkLogger [] false false).
Definition sample_bt : BTree := mkBTree UpdateTxRef UserRoot.

Definition small (k v : byte) : entry := mkEntry [k] [v] false.
Definition sample_tree : tree :=
  Branch 3 [[x63]] [Leaf 4 [small x61 x01; small x62 x02]; Leaf 5 [small x63 x03; small x65 x05]].

Lemma tree_db_inv : db_inv tree_db.
Proof.
  split.
  - exists tree_tx. split; try done.
    + unfold page_size_ok. set_solver.
    + split; [done|]. intros q. cbn. rewrite covers_cons, covers_nil, elem_of_singleton. lia.
    + intros q. rewrite elem_of_tx_pages. cbn. rewrite covers_cons, covers_nil. lia.
    + split; [done|]. intros q Hq. by apply covers_nil in Hq.
  - intros q p Hq. change (file_pages (db_map tree_db)) with tree_pages in Hq.
    apply elem_of_list_to_map in Hq; [|by apply (bool_decide_unpack _); vm_compute].
    change (page_size tree_db) with 256.
    rewrite !elem_of_cons, elem_of_nil in Hq.
    destruct Hq as [[= -> ->]|[[= -> ->]|[[= -> ->]|[]]]]; vm_compute; done.
Qed.

Lemma tree_db_used q : 3 <= q < 6 -> db_used tree_db q.
Proof.
  intros Hq. exists tree_tx. split; [done|]. split; [cbn; lia|]. cbn.
  rewrite covers_cons, covers_nil. lia.
Qed.

Lemma sample_leaf q es :
  3 <= q < 6 -> IsLeaf (db_node tree_db q) = true -> node_check 256 (db_node tree_db q) = true ->
  entries tree_db (db_node tree_db q) = es -> rep tree_db (Leaf q es).
Proof.
  intros Hq Hl Hc He. split; [exact (tree_db_used q Hq)|]. split; [|done].
  split; [|done]. by apply node_check_ok.
Qed.

Lemma sample_rep : rep tree_db sample_tree.
Proof.
  apply rep_Branch. assert (Hc : node_check 256 (db_node tree_db 3) = true) by (vm_compute; reflexivity).
  destruct (node_check_ok tree_db (db_node tree_db 3) Hc) as [Hok Hin].
  split; [apply tree_db_used; lia|].
  split; [split; [exact Hok|vm_compute; reflexivity|vm_compute; split; [discriminate|reflexivity]]|].
  split; [vm_compute; reflexivity|]. split; [exact Hin|]. split; [vm_compute; reflexivity|].
  split; [vm_compute; reflexivity|].
  apply Forall_cons. split; [|apply Forall_singleton]; (apply sample_leaf; [lia|vm_compute; reflexivity..]).
Qed.

Definition sample_trace : list item :=
  [Ent (small x61 x01); Ent (small x62 x02); Sep [x63]; Ent (small x63 x03); Ent (small x65 x05)].

Lemma sample_trace_sorted : StronglySorted (item_lt ByteArrayComparator) sample_trace.
Proof.
  assert (Hlt : forall a b, lex_compare (item_key a) (item_key b) = Lt -> short_key (item_key a) ->
    short_key (item_key b) -> item_lt ByteArrayComparator a b).
  { intros a b Hab Ha Hb. left. unfold key_lt, ByteArrayComparator.
    unfold short_key, kKeyMaxSize in *. rewrite ByteArrayCompFunc_lex by lia. by rewrite Hab. }
  assert (Heq : forall k e, k = e_key e -> item_lt ByteArrayComparator (Sep k) (Ent e)) by (by right).
  unfold sample_trace.
  repeat first [apply Hlt; [reflexivity|discriminate|discriminate]|apply Heq; reflexivity
    |apply SSorted_nil|apply SSorted_cons|apply Forall_nil_2|apply Forall_cons_2].
Qed.

Lemma sample_items : items_ok ByteArrayComparator short_key (trace sample_tree).
Proof.
  change (trace sample_tree) with sample_trace. split; [apply sample_trace_sorted|].
  unfold sample_trace. repeat (apply Forall_cons_2; [discriminate|]). apply Forall_nil_2.
Qed.

Lemma tree_root_user d tx :
  update_tx (tx_manager d) = Some tx -> tree_root sample_bt d = Ok (m_user_root (meta_format tx)) d.
Proof. intros Htx. unfold tree_root, get_root, get_tx, get_update_tx, bind. cbn. by rewrite Htx. Qed.

Lemma sample_tree_at : tree_at ByteArrayComparator short_key tree_db sample_bt sample_tree 1.
Proof.
  split; [reflexivity|exact tree_db_inv|exact sample_rep|exact (tree_root_user tree_db tree_tx eq_refl)| |lia
    |exact sample_items].
  split; [discriminate|]. split; [reflexivity|]. repeat split.
Qed.

(** ** The searches on it *)
Lemma sample_key k : short_key [k].
Proof. unfold short_key, kKeyMaxSize. cbn. lia. Qed.

Lemma LowerBound_spec_witness :
  exists it fs p es n eq, LowerBound sample_bt [x64] tree_db = Ok it tree_db /\ landed ByteArrayComparator [x64] sample_tree fs p es n eq /\
    match es !! n with
    | Some e => iter_end it = false /\ reads it tree_db e /\ (it_status it = StEq <-> e_key e = [x64])
    | None => iter_end it = negb (bool_decide (es = [])) /\ it_status it <> StEq
    end.
Proof.
  destruct (LowerBound_spec ByteArrayComparator short_key sample_bt [x64] (sample_key x64) tree_db sample_tree 1
    sample_tree_at) as (it & fs & p & es & n & eq & Hrun & Hld & _ & _ & _ & _ & _ & Hm).
  exists it, fs, p, es, n, eq. split; [exact Hrun|]. split; [exact Hld|exact Hm].
Defined.

Lemma Get_spec_witness :
  (exists it, Get sample_bt [x63] tree_db = Ok it tree_db /\ iter_end it = false /\ reads it tree_db (small x63 x03)) /\
  Get sample_bt [x64] tree_db = Ok (tree_end sample_bt) tree_db.
Proof.
  split.
  - exact (Get_spec ByteArrayComparator short_key sample_bt [x63] (sample_key x63) tree_db sample_tree 1 sample_tree_at).
  - exact (Get_spec ByteArrayComparator short_key sample_bt [x64] (sample_key x64) tree_db sample_tree 1 sample_tree_at).
Defined.
