(* ===== verification/TreeWalk.v ===== *)
(** Walking a tree: [begin()], [Next] and the loop that reads every entry, and
    where [Last] ends ([src/btree_iterator.cpp]). *)
From S2P Require Import Prelude Format Comparator State Memory FreeMap Pager PagerI PagerInst.
From S2P Require Import Node NodeWf NodeSpec Search BranchSpec Tx Iterator BTree NodeDb Tree TreeSearch.
From S2P Require Import Sample TreeGet SampleTree.

Implicit Types (d : DBImpl) (p q : Z) (nd : NodeData) (t u : tree) (fs : list frame) (it : BTreeIterator).

(** ** Trees without empty leaves, and their zippers *)
Fixpoint filled t : Prop :=
  match t with
  | Leaf _ es => es <> []
  | Branch _ _ ts => foldr (fun t P => filled t /\ P) True ts
  end.
Lemma filled_Branch p ks ts : filled (Branch p ks ts) <-> Forall filled ts.
Proof. cbn. by rewrite foldr_Forall. Qed.

Lemma shape_Branch h p ks ts :
  shape (S h) (Branch p ks ts) <-> ks <> [] /\ length ts = S (length ks) /\ Forall (shape h) ts.
Proof. cbn. by rewrite foldr_Forall. Qed.

Lemma filled_plug fs t : filled (plug fs t) -> filled t.
Proof.
  revert t. induction fs as [|f fs IH]; intros t Hf; [done|]. apply IH, filled_Branch in Hf.
  by apply Forall_app in Hf as [_ [Hf _]%Forall_cons].
Qed.

Lemma shape_plug H fs t : shape H (plug fs t) -> exists h, H = (length fs + h)%nat /\ shape h t.
Proof.
  revert H t. induction fs as [|f fs IH]; intros H t Hs; [by exists H|].
  destruct (IH _ _ Hs) as (h & -> & Hs'). destruct h as [|h]; [done|].
  apply shape_Branch in Hs' as (_ & _ & Hts). exists h. split; [cbn; lia|].
  by apply Forall_app in Hts as [_ [Ht _]%Forall_cons].
Qed.

Lemma filled_contents h t : shape h t -> filled t -> contents t <> [].
Proof.
  revert h. induction t as [p es|p ks ts IH] using tree_induction; intros h Hs Hf.
  - unfold contents. cbn. by rewrite items_entries_Ent.
  - destruct h as [|h]; [done|]. apply shape_Branch in Hs as (_ & Hl & Hs). apply filled_Branch in Hf.
    destruct ts as [|t ts]; [done|]. apply Forall_cons in IH as [IH _]. apply Forall_cons in Hs as [Hs _].
    apply Forall_cons in Hf as [Hf _]. unfold contents in *. cbn [trace fmap list_fmap join_seps].
    rewrite items_entries_app. intros E. apply app_eq_nil in E as [E _]. by apply (IH h).
Qed.

(** The frame one child further. *)
Lemma frame_left_next p ks1 ts1 k ks2 u t ts2 :
  length ks1 = length ts1 ->
  items_entries (frame_left (mkFrame p (ks1 ++ [k]) (ts1 ++ [u]) ks2 ts2)) =
  items_entries (frame_left (mkFrame p ks1 ts1 (k :: ks2) (t :: ts2))) ++ contents u.
Proof.
  intros Hl. unfold frame_left. cbn [f_ks1 f_ts1]. rewrite fmap_app, before_seps_app by (by rewrite length_fmap).
  rewrite items_entries_app. f_equal. cbn. rewrite app_nil_r, items_entries_app. cbn. by rewrite app_nil_r.
Qed.

Lemma plug1_next p ks1 ts1 k ks2 u t ts2 :
  plug1 (mkFrame p ks1 ts1 (k :: ks2) (t :: ts2)) u = plug1 (mkFrame p (ks1 ++ [k]) (ts1 ++ [u]) ks2 ts2) t.
Proof. unfold plug1. cbn. by rewrite <- !app_assoc. Qed.

(** ** Down to the first entry *)
Section walk.
Context (d : DBImpl) (Hinv : db_inv d).

Lemma First_loop_ok u fs it h fuel :
  rep d (plug fs u) -> shape h u -> filled u -> Forall balanced fs ->
  (length fs + h < 32)%nat -> (h < fuel)%nat -> it_stack it = frame_stack fs ->
  exists fs' p es, plug fs' (Leaf p es) = plug fs u /\ Forall balanced fs' /\ es <> [] /\
    items_entries (left_of fs') = items_entries (left_of fs) /\ length fs' = (length fs + h)%nat /\
    First_loop fuel (pg u) (it, d) = Ok tt (set_stack ((p, 0) :: frame_stack fs') it, d).
Proof.
  revert fs it h fuel. induction u as [p es|p ks ts IH] using tree_induction;
    intros fs it h fuel Hr Hs Hf Hb Hlen Hfuel Hst; (destruct fuel as [|fuel]; [lia|]); cbn [First_loop];
    pose proof (rep_plug d fs _ Hr) as Hru; pose proof (rep_used d _ Hru) as Hp; cbn [pg] in *.
  - destruct h; [|done]. destruct Hru as (_ & Hok & Hes). cbn [pg] in *.
    run_step (on_db_ok _ it d _ _ (new_node_ok d p Hinv Hp)).
    run_step (on_db_ok _ it d _ _ (node_is_leaf_ok d p Hinv Hp)).
    run_step (on_db_ok _ it d _ _ (node_count_ok d p Hinv Hp)). rewrite (lo_leaf _ _ Hok).
    pose proof (length_recs _ _ Hok) as Hl. apply (f_equal length) in Hes as Hle.
    unfold entries in Hle. rewrite length_fmap in Hle.
    destruct es as [|e es]; [done|]. rewrite (proj2 (Z.eqb_neq _ _)) by (cbn in Hle; lia).
    exists fs, p, (e :: es). split_and!; try done; try lia.
    rewrite Push_ok by (rewrite Hst; unfold frame_stack; rewrite length_fmap; lia). by rewrite Hst.
  - destruct h as [|h]; [done|]. apply shape_Branch in Hs as (Hne & Hl & Hs). apply filled_Branch in Hf.
    apply rep_Branch in Hru as (_ & Hok & Hbr & _ & Hks & Hch & Hts).
    destruct ts as [|t ts]; [done|]. injection Hl as Hl.
    run_step (on_db_ok _ it d _ _ (new_node_ok d p Hinv Hp)).
    run_step (on_db_ok _ it d _ _ (node_is_leaf_ok d p Hinv Hp)).
    run_step (on_db_ok _ it d _ _ (node_count_ok d p Hinv Hp)). rewrite (bo_branch _ _ Hok).
    set (f := mkFrame p [] [] ks ts). assert (Hbf : balanced f) by (by split).
    run_step (Push_ok (p, 0) it d ltac:(rewrite Hst; unfold frame_stack; rewrite length_fmap; lia)).
    pose proof (length_keys d _ (bo_node _ _ Hok)) as Hlk. rewrite Hks in Hlk.
    rewrite bind_assert by (apply Z.ltb_lt; destruct ks; [done|cbn in Hlk; lia]).
    assert (Hc : children (db_node d p) !! O = Some (pg t)) by (by rewrite Hch).
    run_step (on_db_ok _ (set_stack ((p, 0) :: it_stack it) it) d _ _
      (look_ok d p _ _ _ Hinv Hp (GetLeftChild_ok _ d 0 _ Hok Hc))).
    apply Forall_cons in IH as [IH _]. apply Forall_cons in Hs as [Hs _]. apply Forall_cons in Hf as [Hf _].
    destruct (IH (f :: fs) (set_stack ((p, 0) :: it_stack it) it) h fuel) as (fs' & p' & es & Hpl & Hb' & Hne' & Hle & Hlf & Hrun);
      try done.
    + by constructor.
    + cbn. lia.
    + lia.
    + cbn. by rewrite Hst.
    + exists fs', p', es. split_and!; try done.
      * cbn [left_of] in Hle. rewrite Hle, items_entries_app. cbn. by rewrite app_nil_r.
      * rewrite Hlf. cbn. lia.
Qed.

Lemma First_ok u fs it h :
  rep d (plug fs u) -> shape h u -> filled u -> Forall balanced fs ->
  (length fs + h < 32)%nat -> it_stack it = frame_stack fs ->
  exists fs' p es, plug fs' (Leaf p es) = plug fs u /\ Forall balanced fs' /\ es <> [] /\
    items_entries (left_of fs') = items_entries (left_of fs) /\
    First (pg u) (it, d) = Ok tt (set_stack ((p, 0) :: frame_stack fs') (set_status StIter it), d).
Proof.
  intros Hr Hs Hf Hb Hlen Hst.
  destruct (First_loop_ok u fs (set_status StIter it) h depth_fuel) as (fs' & p & es & Hpl & Hb' & Hne & Hle & _ & Hrun);
    try done; [unfold depth_fuel, kStackSize; lia|].
  exists fs', p, es. split_and!; try done. unfold First.
  pose proof (used_bounds d _ Hinv (rep_used _ _ (rep_plug d fs _ Hr))) as (_ & Hq & _).
  rewrite (proj2 (Z.eqb_neq _ _)) by (unfold kPageInvalidId; lia). by run_step (on_iter_ok (set_status StIter) it d).
Qed.

(** ** Up from a finished subtree to the next one *)
Lemma GetTailChild_ok nd c : node_ok d nd -> children nd !! length (recs nd) = Some c ->
  GetTailChild (nd, d) = Ok c (nd, d).
Proof.
  intros Hok Hc. unfold children in Hc. rewrite lookup_app_r, length_fmap, Nat.sub_diag in Hc by (by rewrite length_fmap).
  injection Hc as <-. done.
Qed.

(** The child a branch goes on to, by slot or at its tail. *)
Lemma next_child p (i : nat) c (rest : IterM unit) it :
  db_used d p -> branch_ok d (db_node d p) -> IsBranch (db_node d p) = true -> children (db_node d p) !! i = Some c ->
  (let* count := on_db (node_count p) in
   let* leaf := on_db (node_is_leaf p) in
   let* branch := on_db (node_is_branch p) in
   if Z.of_nat i <? count then
     if leaf then ret tt
     else let* child := on_db (look p (GetLeftChild (Z.of_nat i))) in First child
   else if branch && (Z.of_nat i =? count) then
     let* child := on_db (look p GetTailChild) in First child
   else rest) (it, d) = First c (it, d).
Proof.
  intros Hp Hok Hbr Hc. run_step (on_db_ok _ it d _ _ (node_count_ok d p Hinv Hp)).
  run_step (on_db_ok _ it d _ _ (node_is_leaf_ok d p Hinv Hp)).
  run_step (on_db_ok _ it d _ _ (node_is_branch_ok d p Hinv Hp)). rewrite (bo_branch _ _ Hok), Hbr.
  pose proof (length_children d _ (bo_node _ _ Hok)) as Hlc. pose proof (lookup_lt_Some _ _ _ Hc) as Hlt.
  destruct (Z.ltb_spec (Z.of_nat i) (count (db_node d p))) as [Hi|Hi].
  - by run_step (on_db_ok _ it d _ _ (look_ok d p _ _ _ Hinv Hp (GetLeftChild_ok _ d i _ Hok Hc))).
  - assert (i = length (recs (db_node d p))) as -> by (pose proof (length_recs _ _ (bo_node _ _ Hok)); lia).
    rewrite (length_recs _ _ (bo_node _ _ Hok)), Z.eqb_refl. cbn [andb].
    by run_step (on_db_ok _ it d _ _ (look_ok d p _ _ _ Hinv Hp (GetTailChild_ok _ _ (bo_node _ _ Hok) Hc))).
Qed.

(** On the first entry of a leaf that begins where [n] entries end. *)
Definition at_leaf_start t (n : nat) it : Prop :=
  it_status it = StIter /\ exists fs p es, plug fs (Leaf p es) = t /\ Forall balanced fs /\ es <> [] /\
    length (items_entries (left_of fs)) = n /\ it_stack it = (p, 0) :: frame_stack fs.

Lemma Front_ok e l it : it_stack it = e :: l -> Front (it, d) = Ok e (it, d).
Proof. intros Hst. unfold Front. run_step (iter_ok it d). by rewrite Hst. Qed.
Lemma set_front_ok q i j l it : it_stack it = (q, i) :: l ->
  set_front_slot j (it, d) = Ok tt (set_stack ((q, j) :: l) it, d).
Proof. intros Hst. unfold set_front_slot. run_step (iter_ok it d). by rewrite Hst. Qed.
Lemma Pop_ok e l it : it_stack it = e :: l -> Pop (it, d) = Ok tt (set_stack l it, d).
Proof. intros Hst. unfold Pop. run_step (iter_ok it d). by rewrite Hst. Qed.

(** One turn of [Next] above a subtree [u], the last child of its branch. *)
Lemma Next_loop_last f u it fuel l :
  rep d (plug1 f u) -> balanced f -> f_ts2 f = [] -> it_stack it = (f_pg f, Z.of_nat (length (f_ts1 f))) :: l ->
  Next_loop (S fuel) (it, d) =
  (if bool_decide (l = []) then Ok tt (set_stack [] it, d) else Next_loop fuel (set_stack l it, d)).
Proof.
  destruct f as [p ks1 ts1 ks2 ts2]. cbn [f_pg f_ts1 f_ts2]. intros Hr [Hb1 Hb2] -> Hst. cbn in Hb1, Hb2.
  destruct ks2; [|done]. apply rep_Branch in Hr as (Hp & Hok & Hbr & _ & Hks & _). cbn [f_pg] in *.
  pose proof (length_keys d _ (bo_node _ _ Hok)) as Hlk. rewrite Hks in Hlk. cbn in Hlk. rewrite app_nil_r in Hlk.
  cbn [Next_loop]. rewrite (bind_ok _ _ _ _ _ (Front_ok _ _ it Hst)). cbv beta iota.
  run_step (on_db_ok _ it d _ _ (new_node_ok d p Hinv Hp)).
  run_step (set_front_ok _ _ (Z.of_nat (length ts1) + 1) _ it Hst). set (it1 := set_stack _ it).
  run_step (on_db_ok _ it1 d _ _ (node_count_ok d p Hinv Hp)).
  run_step (on_db_ok _ it1 d _ _ (node_is_leaf_ok d p Hinv Hp)).
  run_step (on_db_ok _ it1 d _ _ (node_is_branch_ok d p Hinv Hp)).
  rewrite (proj2 (Z.ltb_ge _ _)), (proj2 (Z.eqb_neq _ _)), andb_false_r by lia.
  run_step (Pop_ok (p, Z.of_nat (length ts1) + 1) l it1 eq_refl).
  unfold Empty at 1. rewrite bind_assoc. run_step (iter_ok (set_stack l it1) d).
  unfold bind, ret. cbn [it_stack set_stack]. change (set_stack l it1) with (set_stack l it).
  case_bool_decide as E; [by rewrite E|done].
Qed.

(** One turn above a subtree with a sibling [t] to its right. *)
Lemma Next_loop_sibling p ks1 ts1 k ks2 u t ts2 fs it fuel h :
  let f := mkFrame p ks1 ts1 (k :: ks2) (t :: ts2) in
  rep d (plug (f :: fs) u) -> balanced f -> Forall balanced fs -> shape h t -> filled t ->
  (S (length fs) + h < 32)%nat -> it_stack it = frame_stack (f :: fs) ->
  exists it', Next_loop (S fuel) (it, d) = Ok tt (it', d) /\ it_btree it' = it_btree it /\
    at_leaf_start (plug (f :: fs) u) (length (items_entries (left_of (f :: fs)) ++ contents u)) it'.
Proof.
  intros f Hr [Hb1 Hb2] Hb Hs Hf Hlen Hst. cbn in Hb1, Hb2. pose proof Hr as Hr0.
  set (f' := mkFrame p (ks1 ++ [k]) (ts1 ++ [u]) ks2 ts2).
  assert (Hpl : plug (f' :: fs) t = plug (f :: fs) u) by (cbn [plug]; f_equal; symmetry; apply plug1_next).
  assert (Hbf : balanced f') by (split; cbn; rewrite ?length_app; cbn; lia).
  rewrite <- Hpl in Hr. destruct (rep_hole d f' fs t Hr) as (Hp & Hok & Hc). cbn [f_pg f_ts1 f'] in *.
  assert (Hbr : IsBranch (db_node d p) = true).
  { cbn in Hr0. apply rep_plug, rep_Branch in Hr0. apply Hr0. }
  cbn [Next_loop]. cbn in Hst. rewrite (bind_ok _ _ _ _ _ (Front_ok _ _ it Hst)). cbv beta iota.
  run_step (on_db_ok _ it d _ _ (new_node_ok d p Hinv Hp)).
  run_step (set_front_ok _ _ (Z.of_nat (length ts1) + 1) _ it Hst). set (it1 := set_stack _ it).
  replace (Z.of_nat (length ts1) + 1) with (Z.of_nat (length (ts1 ++ [u]))) by (rewrite length_app; cbn; lia).
  rewrite (next_child p _ _ _ it1 Hp Hok Hbr Hc).
  destruct (First_ok t (f' :: fs) it1 h Hr Hs Hf) as (fs' & q & es & Hpl' & Hb' & Hne & Hle & Hrun);
    [by constructor|cbn; lia| |].
  { cbn. rewrite length_app. cbn. do 2 f_equal. lia. }
  eexists. split; [exact Hrun|]. split; [done|]. split; [done|]. exists fs', q, es. split_and!; try done.
  - by rewrite Hpl', Hpl.
  - rewrite Hle. cbn [left_of]. rewrite !items_entries_app.
    pose proof (frame_left_next p ks1 ts1 k ks2 u t ts2 Hb1) as Hn. fold f f' in Hn.
    by rewrite Hn, <- !app_assoc.
Qed.

Lemma Next_up fs : forall u it H fuel,
  fs <> [] -> rep d (plug fs u) -> shape H (plug fs u) -> (H < 32)%nat -> filled (plug fs u) -> Forall balanced fs ->
  it_stack it = frame_stack fs -> (length fs <= fuel)%nat ->
  exists it', Next_loop fuel (it, d) = Ok tt (it', d) /\ it_btree it' = it_btree it /\
    let n := length (items_entries (left_of fs) ++ contents u) in
    (it_stack it' = [] /\ n = length (contents (plug fs u))) \/ at_leaf_start (plug fs u) n it'.
Proof.
  induction fs as [|f fs IH]; intros u it H fuel Hne Hr Hs HH Hf Hb Hst Hfuel; [done|].
  apply Forall_cons in Hb as [Hbf Hb]. destruct fuel as [|fuel]; [cbn in Hfuel; lia|].
  destruct (f_ts2 f) as [|t ts2] eqn:Et.
  - assert (Hn : length (items_entries (left_of fs) ++ contents (plug1 f u)) =
      length (items_entries (left_of (f :: fs)) ++ contents u)).
    { unfold contents. rewrite (trace_plug1 f u Hbf). cbn [left_of]. rewrite !items_entries_app.
      unfold frame_right. rewrite Et. destruct Hbf as [_ Hb2]. rewrite Et in Hb2.
      destruct (f_ks2 f); [|done]. cbn. by rewrite app_nil_r, <- app_assoc. }
    cbv zeta. rewrite <- Hn. cbn in Hr.
    rewrite (Next_loop_last f u it fuel (frame_stack fs)); [|by apply rep_plug in Hr|done|done|done].
    destruct fs as [|f' fs].
    + eexists. split; [reflexivity|]. split; [done|]. left. done.
    + rewrite bool_decide_false by done.
      destruct (IH (plug1 f u) (set_stack (frame_stack (f' :: fs)) it) H fuel) as (it' & Hrun & Hbt & Hcase); try done.
      { cbn in Hfuel |- *. lia. }
      exists it'. split; [done|]. split; [done|exact Hcase].
  - destruct f as [p ks1 ts1 ks2 ts2']. cbn in Et. subst ts2'. pose proof Hbf as [_ Hb2]. cbn in Hb2.
    destruct ks2 as [|k ks2]; [done|].
    destruct (shape_plug H fs _ Hs) as (h & -> & Hs'). destruct h as [|h]; [done|].
    apply shape_Branch in Hs' as (_ & _ & Hts). cbn [f_ts1 f_ts2] in Hts.
    apply Forall_app in Hts as [_ [_ [Hst' _]%Forall_cons]%Forall_cons].
    pose proof (filled_plug fs _ Hf) as Hft. apply filled_Branch in Hft. cbn [f_ts1 f_ts2] in Hft.
    apply Forall_app in Hft as [_ [_ [Hft _]%Forall_cons]%Forall_cons].
    destruct (Next_loop_sibling p ks1 ts1 k ks2 u t ts2 fs it fuel h Hr Hbf Hb Hst' Hft ltac:(lia) Hst)
      as (it' & Hrun & Hbt & Hat).
    exists it'. split; [done|]. split; [done|]. by right.
Qed.

(** ** Positions: the iterator on entry [i] of the tree *)
Definition on_entry t (i : nat) it : Prop :=
  it_status it <> StInvalid /\ exists fs p es n, plug fs (Leaf p es) = t /\ Forall balanced fs /\ (n < length es)%nat /\
    i = (length (items_entries (left_of fs)) + n)%nat /\ it_stack it = (p, Z.of_nat n) :: frame_stack fs.

Lemma leaf_start_on_entry t n it : at_leaf_start t n it -> on_entry t n it.
Proof.
  intros (Hst & fs & p & es & Hpl & Hb & Hne & Hn & Hs). split; [by rewrite Hst|].
  exists fs, p, es, 0%nat. split_and!; try done; try lia. destruct es; [done|cbn; lia].
Qed.

Lemma plug_contents fs p es (n : nat) e : Forall balanced fs -> es !! n = Some e ->
  contents (plug fs (Leaf p es)) !! (length (items_entries (left_of fs)) + n)%nat = Some e.
Proof.
  intros Hb He. unfold contents. rewrite (trace_plug fs _ Hb), !items_entries_app. cbn [trace].
  rewrite items_entries_Ent, lookup_app_r by lia.
  replace (_ + n - _)%nat with n by lia. by apply lookup_app_l_Some.
Qed.

Lemma on_entry_lt t i it : on_entry t i it -> exists e, contents t !! i = Some e.
Proof.
  intros (_ & fs & p & es & n & <- & Hb & Hn & -> & _). destruct (lookup_lt_is_Some_2 es n Hn) as [e He].
  exists e. by apply plug_contents.
Qed.

Lemma Next_ok t H i it :
  rep d t -> shape H t -> (H < 32)%nat -> filled t -> on_entry t i it ->
  exists it', Next (it, d) = Ok tt (it', d) /\ it_btree it' = it_btree it /\
    ((it_stack it' = [] /\ S i = length (contents t)) \/ on_entry t (S i) it').
Proof.
  intros Hr Hs HH Hf (Hst & fs & p & es & n & <- & Hb & Hn & -> & Hstk).
  pose proof (rep_plug d fs _ Hr) as (Hp & Hok & Hes). cbn [pg] in *.
  assert (Hcnt : count (db_node d p) = Z.of_nat (length es)).
  { rewrite <- (length_recs _ _ Hok), <- Hes. unfold entries. by rewrite length_fmap. }
  unfold Next. run_step (iter_ok it d). rewrite Hstk. rewrite bind_assert by done.
  cbn [length Next_loop]. rewrite (bind_ok _ _ _ _ _ (Front_ok _ _ it Hstk)). cbv beta iota.
  run_step (on_db_ok _ it d _ _ (new_node_ok d p Hinv Hp)).
  run_step (set_front_ok _ _ (Z.of_nat n + 1) _ it Hstk). set (it1 := set_stack _ it).
  run_step (on_db_ok _ it1 d _ _ (node_count_ok d p Hinv Hp)).
  run_step (on_db_ok _ it1 d _ _ (node_is_leaf_ok d p Hinv Hp)).
  run_step (on_db_ok _ it1 d _ _ (node_is_branch_ok d p Hinv Hp)).
  rewrite (lo_leaf _ _ Hok), (leaf_not_branch _ (lo_leaf _ _ Hok)), Hcnt. cbn [andb].
  destruct (Z.ltb_spec (Z.of_nat n + 1) (Z.of_nat (length es))) as [Hlt|Hge].
  - eexists. split; [reflexivity|]. split; [done|]. right. split; [done|].
    exists fs, p, es, (S n). split_and!; try done; try lia. cbn. do 2 f_equal. lia.
  - run_step (Pop_ok (p, Z.of_nat n + 1) (frame_stack fs) it1 eq_refl).
    assert (Hn' : S (length (items_entries (left_of fs)) + n) =
      length (items_entries (left_of fs) ++ contents (Leaf p es))).
    { unfold contents. cbn. rewrite items_entries_Ent, length_app. lia. }
    rewrite Hn'. unfold Empty at 1. rewrite bind_assoc. run_step (iter_ok (set_stack (frame_stack fs) it1) d).
    unfold bind, ret. cbn [it_stack set_stack]. destruct fs as [|f fs].
    + eexists. split; [reflexivity|]. split; [done|]. left. done.
    + rewrite bool_decide_false by done.
      destruct (Next_up (f :: fs) (Leaf p es) (set_stack (frame_stack (f :: fs)) it1) H (length (frame_stack (f :: fs))))
        as (it' & Hrun & Hbt & Hcase); try done; [unfold frame_stack; by rewrite length_fmap|].
      exists it'. split; [done|]. split; [done|]. destruct Hcase as [Hc|Hc]; [left; exact Hc|right].
      by apply leaf_start_on_entry.
Qed.

(** Reading where it stands. *)
Lemma on_entry_reads t i it e :
  rep d t -> on_entry t i it -> contents t !! i = Some e ->
  exists c, let it' := set_cached c it in
    on_entry t i it' /\ iter_end it = false /\ with_iterator it iter_key d = Ok (e_key e, it') d /\
    with_iterator it' iter_value d = Ok (e_value e, it') d /\ with_iterator it' iter_is_bucket d = Ok (e_bucket e, it') d.
Proof.
  intros Hr (Hst & fs & p & es & n & <- & Hb & Hn & -> & Hstk) He.
  pose proof (rep_plug d fs _ Hr) as (Hp & Hok & Hes). cbn [pg] in *.
  destruct (lookup_lt_is_Some_2 es n Hn) as [e' He'].
  rewrite (plug_contents fs p es n e' Hb He') in He. injection He as ->. rewrite <- Hes in He'.
  exists (Some p). cbv zeta. set (it' := set_cached (Some p) it).
  assert (Hend : iter_end it = false).
  { unfold iter_end, iter_eq. rewrite bool_decide_true by done. cbn. rewrite Hstk. by rewrite bool_decide_false. }
  assert (Hmk : it' = mkIter (it_btree it) ((p, Z.of_nat n) :: frame_stack fs) (it_status it) (Some p)).
  { unfold it', set_cached. by rewrite Hstk. }
  destruct (iterator_reads d (it_btree it) p n (frame_stack fs) (it_status it) e Hinv Hp Hok He' Hst) as (Hk & Hv & Hbk).
  rewrite <- Hmk in Hk, Hv, Hbk.
  split_and!; try done.
  - split; [done|]. by exists fs, p, es, n.
  - rewrite <- Hk. unfold with_iterator, iter_key.
    assert (Hg : GetLeafNode (it, d) = GetLeafNode (it', d)); [|unfold bind; by rewrite Hg].
    unfold GetLeafNode. run_step (iter_ok it d). run_step (iter_ok it' d).
    change (iter_end it') with (iter_end it). rewrite Hend. change (it_stack it') with (it_stack it). rewrite Hstk.
    change (it_cached it') with (Some p). rewrite (bool_decide_true (Some p = Some p)) by done.
    case_bool_decide as E.
    + assert (it' = it) as -> by (unfold it', set_cached; rewrite <- E; by destruct it). done.
    + rewrite bind_assoc. run_step (on_db_ok _ it d _ _ (new_node_ok d p Hinv Hp)).
      by run_step (on_iter_ok (set_cached (Some p)) it d).
Qed.
End walk.

(** ** The loop over all entries *)
Fixpoint read_all (fuel : nat) it : M DBImpl (list entry) :=
  if iter_end it then ret []
  else
    match fuel with
    | O => stuck OutOfFuel
    | S fuel =>
        let* (k, it) := with_iterator it iter_key in
        let* (v, it) := with_iterator it iter_value in
        let* (b, it) := with_iterator it iter_is_bucket in
        let* (_, it) := with_iterator it Next in
        let* l := read_all fuel it in
        ret (mkEntry k v b :: l)
    end.

Lemma read_all_ok d t H fuel i it :
  db_inv d -> rep d t -> shape H t -> (H < 32)%nat -> filled t -> on_entry t i it ->
  (length (contents t) <= fuel + i)%nat -> read_all fuel it d = Ok (drop i (contents t)) d.
Proof.
  intros Hinv Hr Hs HH Hf. revert i it. induction fuel as [|fuel IH]; intros i it Hat Hl;
    destruct (on_entry_lt t i it Hat) as [e He]; pose proof (lookup_lt_Some _ _ _ He) as Hlt; [lia|].
  destruct (on_entry_reads d Hinv t i it e Hr Hat He) as (c & Hat' & Hend & Hk & Hv & Hb).
  cbn [read_all]. rewrite Hend. set (it' := set_cached c it) in *.
  rewrite (bind_ok _ _ _ _ _ Hk). cbv beta iota. rewrite (bind_ok _ _ _ _ _ Hv). cbv beta iota.
  rewrite (bind_ok _ _ _ _ _ Hb). cbv beta iota.
  destruct (Next_ok d Hinv t H i it' Hr Hs HH Hf Hat') as (it2 & Hn & Hbt & Hcase).
  assert (Hw : with_iterator it' Next d = Ok (tt, it2) d) by (unfold with_iterator; by rewrite Hn).
  rewrite (bind_ok _ _ _ _ _ Hw). cbv beta iota. rewrite (drop_S _ _ _ He).
  destruct Hcase as [[Hstk Hi]|Hat2].
  - assert (Hr2 : read_all fuel it2 d = Ok [] d).
    { assert (Hend2 : iter_end it2 = true) by (unfold iter_end, iter_eq; rewrite bool_decide_true by done; cbn; by rewrite Hstk).
      destruct fuel; cbn [read_all]; by rewrite Hend2. }
    run_step Hr2. rewrite drop_ge by lia. by destruct e.
  - run_step (IH (S i) it2 Hat2 ltac:(lia)). by destruct e.
Qed.

(** C10: walking a tree from [begin()] with [++] until [end()] reads exactly
    its entries, each with its key, value and kind, in their order, and stops
    after the last; the database is left as it was.  The tree may have any
    height the iterator's stack takes. *)
Theorem walk_reads_contents cmp key_ok {HO : KeyOrder cmp key_ok} bt d t h :
  tree_at cmp key_ok d bt t h -> filled t ->
  (let* it := tree_begin bt in read_all (length (contents t)) it) d = Ok (contents t) d.
Proof.
  intros [Hcmp Hinv Hr Hroot Hs Hh _] Hf.
  destruct (First_ok d Hinv t [] (new_iterator bt) h Hr Hs Hf) as (fs & p & es & Hpl & Hb & Hne & Hle & Hrun);
    [by constructor|done|done|].
  assert (Hbeg : tree_begin bt d = Ok (set_stack ((p, 0) :: frame_stack fs) (set_status StIter (new_iterator bt))) d).
  { unfold tree_begin. run_step Hroot. unfold with_iterator, bind. by rewrite Hrun. }
  run_step Hbeg. rewrite (read_all_ok d t h _ 0); try done; [|lia].
  apply leaf_start_on_entry. split; [done|]. exists fs, p, es. split_and!; try done. by rewrite Hle.
Qed.

(** ** Where [Last] ends *)
Lemma Last_loop_ok d (Hinv : db_inv d) u : forall fs it h fuel,
  rep d (plug fs u) -> shape h u -> filled u -> Forall balanced fs ->
  (length fs + h < 32)%nat -> (h < fuel)%nat -> it_stack it = frame_stack fs ->
  exists fs' p es, plug fs' (Leaf p es) = plug fs u /\ Forall balanced fs' /\ es <> [] /\
    (h = 0%nat -> fs' = fs) /\
    ((0 < h)%nat -> (length (items_entries (right_of fs)) < length (items_entries (right_of fs')))%nat) /\
    Last_loop fuel (pg u) (it, d) =
      Ok tt (set_stack ((p, Z.of_nat (pred (length es))) :: frame_stack fs') it, d).
Proof.
  induction u as [p es|p ks ts IH] using tree_induction;
    intros fs it h fuel Hr Hs Hf Hb Hlen Hfuel Hst; (destruct fuel as [|fuel]; [lia|]); cbn [Last_loop];
    pose proof (rep_plug d fs _ Hr) as Hru; pose proof (rep_used d _ Hru) as Hp; cbn [pg] in *;
    assert (Hroom : (length (it_stack it) < 32)%nat) by (rewrite Hst; unfold frame_stack; rewrite length_fmap; lia).
  - destruct h; [|done]. destruct Hru as (_ & Hok & Hes). cbn [pg] in *.
    run_step (on_db_ok _ it d _ _ (new_node_ok d p Hinv Hp)).
    run_step (on_db_ok _ it d _ _ (node_is_leaf_ok d p Hinv Hp)).
    run_step (on_db_ok _ it d _ _ (node_count_ok d p Hinv Hp)). rewrite (lo_leaf _ _ Hok).
    pose proof (length_recs _ _ Hok) as Hl. apply (f_equal length) in Hes as Hle.
    unfold entries in Hle. rewrite length_fmap in Hle. cbn in Hf.
    assert (0 < length es)%nat by (destruct es; [done|cbn; lia]).
    rewrite (proj2 (Z.eqb_neq _ _)) by lia. run_step (on_db_ok _ it d _ _ (new_node_ok d p Hinv Hp)).
    exists fs, p, es. split_and!; try done; try lia. rewrite Push_ok, Hst by done. do 4 f_equal. f_equal. lia.
  - destruct h as [|h]; [done|]. apply shape_Branch in Hs as (Hne & Hl & Hs). apply filled_Branch in Hf.
    apply rep_Branch in Hru as (_ & Hok & Hbr & _ & Hks & Hch & Hts).
    run_step (on_db_ok _ it d _ _ (new_node_ok d p Hinv Hp)).
    run_step (on_db_ok _ it d _ _ (node_is_leaf_ok d p Hinv Hp)).
    run_step (on_db_ok _ it d _ _ (node_count_ok d p Hinv Hp)). rewrite (bo_branch _ _ Hok).
    pose proof (length_keys d _ (bo_node _ _ Hok)) as Hlk. rewrite Hks in Hlk. rewrite <- Hlk.
    destruct (length ks) as [|m] eqn:Em; [by destruct ks|].
    replace (Z.of_nat (S m) - 1) with (Z.of_nat m) by lia.
    run_step (Push_ok (p, Z.of_nat m) it d Hroom). set (it1 := set_stack _ it).
    rewrite bind_assert by (apply Z.ltb_lt; lia).
    destruct (lookup_lt_is_Some_2 ts m) as [t Ht]; [lia|].
    assert (Hc : children (db_node d p) !! m = Some (pg t)) by (by rewrite Hch, list_lookup_fmap, Ht).
    run_step (on_db_ok _ it1 d _ _ (look_ok d p _ _ _ Hinv Hp (GetLeftChild_ok _ d m _ Hok Hc))).
    set (f := frame_at p ks ts m).
    assert (Hpl : plug (f :: fs) t = plug fs (Branch p ks ts)).
    { cbn [plug]. f_equal. by apply plug1_frame_at. }
    pose proof (list_elem_of_lookup_2 _ _ _ Ht) as Htin. rewrite Forall_forall in IH, Hs, Hf.
    destruct (IH t Htin (f :: fs) it1 h fuel) as (fs' & p' & es & Hpl' & Hb' & Hne' & H0 & H1 & Hrun).
    + by rewrite Hpl.
    + by apply Hs.
    + by apply Hf.
    + constructor; [|done]. apply frame_at_balanced; lia.
    + cbn. lia.
    + lia.
    + cbn [it1 it_stack set_stack]. rewrite Hst. symmetry. apply frame_at_stack. lia.
    + exists fs', p', es. rewrite Hpl' , Hpl. split_and!; try done. intros _.
      assert (Hlt : (length (items_entries (right_of fs)) < length (items_entries (right_of (f :: fs))))%nat).
      { cbn [right_of]. rewrite items_entries_app, length_app. unfold frame_right, f, frame_at. cbn [f_ks2 f_ts2].
        destruct (lookup_lt_is_Some_2 ts (S m)) as [t' Ht']; [lia|]. destruct (lookup_lt_is_Some_2 ks m) as [k Hk]; [lia|].
        rewrite (drop_S _ _ _ Ht'), (drop_S _ _ _ Hk). pose proof (list_elem_of_lookup_2 _ _ _ Ht') as Hin.
        cbn [fmap list_fmap]. unfold after_seps. cbn [zip_with concat app]. cbn. rewrite items_entries_app, length_app.
        pose proof (filled_contents h t' (Hs t' Hin) (Hf t' Hin)) as Hc'. unfold contents in Hc'.
        destruct (items_entries (trace t')); [done|cbn; lia]. }
      destruct (decide (0 < h)%nat) as [Hh|Hh]; [specialize (H1 Hh); lia|]. by rewrite (H0 ltac:(lia)).
Qed.

(** C38: [Last] goes to the last entry only when the tree is one leaf: a branch
    sends it to the last child it has a slot for, not to its tail child, so
    that in a tree with branches the entry it stops at is followed by others. *)
Theorem Last_misses_tail cmp key_ok bt d t h :
  tree_at cmp key_ok d bt t h -> filled t ->
  exists it i, with_iterator (new_iterator bt) (Last (pg t)) d = Ok (tt, it) d /\ on_entry t i it /\
    (h = 0%nat -> S i = length (contents t)) /\ ((0 < h)%nat -> (S i < length (contents t))%nat).
Proof.
  intros [Hcmp Hinv Hr Hroot Hs Hh _] Hf.
  destruct (Last_loop_ok d Hinv t [] (set_status StIter (new_iterator bt)) h depth_fuel)
    as (fs & p & es & Hpl & Hb & Hne & H0 & H1 & Hrun); try done; try (unfold depth_fuel, kStackSize; lia).
  cbn [plug] in Hpl. assert (Hes : (0 < length es)%nat) by (destruct es; [done|cbn; lia]).
  eexists _, (length (items_entries (left_of fs)) + pred (length es))%nat.
  split; [unfold with_iterator, Last, bind; cbn [on_iter modify fst snd]; by rewrite Hrun|].
  assert (Hlen : length (contents t) = (length (items_entries (left_of fs)) + length es + length (items_entries (right_of fs)))%nat).
  { rewrite <- Hpl. unfold contents. rewrite (trace_plug fs _ Hb), !items_entries_app, !length_app. cbn [trace].
    rewrite items_entries_Ent. lia. }
  split; [|split].
  - split; [done|]. exists fs, p, es, (pred (length es)). split_and!; try done. lia.
  - intros E. rewrite Hlen, (H0 E). cbn. lia.
  - intros E. specialize (H1 E). rewrite Hlen. lia.
Qed.

(** When [LowerBound] returns [end()].  The search ends in one leaf, whose
    entries it compares; the entries of the leaves before it are below the key
    and those of the leaves after it above.  It returns [end()] exactly when
    that leaf's entries (there is one) are all below the key, whether or not
    the leaves after it have entries: for a key between two leaves the next
    entry is not found. *)
Theorem LowerBound_end cmp key_ok {HO : KeyOrder cmp key_ok} bt key d t h :
  key_ok key -> tree_at cmp key_ok d bt t h ->
  exists it before here after, LowerBound bt key d = Ok it d /\ contents t = before ++ here ++ after /\
    Forall (fun e => key_lt cmp (e_key e) key) before /\ Forall (fun e => key_lt cmp key (e_key e)) after /\
    (iter_end it = true <-> here <> [] /\ Forall (fun e => key_lt cmp (e_key e) key) here).
Proof.
  intros Hkey Hta. destruct (LowerBound_ok cmp key_ok bt key Hkey d t h Hta) as (fs & p & es & n & eq & Hld & _ & Hrun).
  pose proof Hld as [Hpl Hbal Hf Hl Hr]. pose proof (ta_items _ _ _ _ _ _ Hta) as Hit.
  eexists _, (items_entries (left_of fs)), es, (items_entries (right_of fs)). split; [exact Hrun|].
  rewrite <- Hpl in Hit. rewrite (trace_plug fs _ Hbal) in Hit. pose proof Hit as [_ Hit']%items_ok_app.
  apply items_ok_app in Hit' as [Hit' _].
  destruct (leaf_keys_sorted cmp key_ok p es Hit') as [Hs Hk].
  destruct (found_split cmp key_ok _ key n eq Hs Hk Hkey Hf) as (Hm & Hlo & _ & Hhi & _).
  rewrite length_fmap in Hm. split_and!.
  - rewrite <- Hpl. unfold contents. rewrite (trace_plug fs _ Hbal), !items_entries_app. cbn [trace].
    by rewrite items_entries_Ent.
  - apply (items_entries_keys (fun k => key_lt cmp k key)). eapply Forall_impl; [exact Hl|]. by intros [k|e] [Hi|Hi].
  - apply (items_entries_keys (fun k => key_lt cmp key k)). eapply Forall_impl; [exact Hr|]. by intros [k|e].
  - unfold iter_end, iter_eq. rewrite bool_decide_true by done. cbn [negb it_stack new_iterator it_btree it_status].
    rewrite bool_decide_eq_true. unfold level_status. cbn [andb].
    assert (Hall : Forall (fun e => key_lt cmp (e_key e) key) es <-> eq = false /\ n = length es).
    { destruct Hf as (Hn & Hlt & Heq). rewrite length_fmap in Hn. split.
      - intros Ha. assert (n = length es) as ->; [|].
        + destruct (decide (n = length es)) as [|Hne]; [done|exfalso].
          destruct (lookup_lt_is_Some_2 es n) as [e He]; [lia|].
          assert (Hk' : (e_key <$> es) !! n = Some (e_key e)) by (by rewrite list_lookup_fmap, He).
          pose proof (Forall_lookup_1 _ _ _ _ Ha He) as Hb. apply (Hlt n _ Hk') in Hb. lia.
        + split; [|done]. destruct eq; [|done]. exfalso. pose proof (proj1 Heq eq_refl) as Hl'.
          apply lookup_lt_Some in Hl'. rewrite length_fmap in Hl'. lia.
      - intros [-> ->]. rewrite take_ge in Hlo by (by rewrite length_fmap). by apply Forall_fmap in Hlo. }
    rewrite Hall. destruct eq; [split; [done|by intros [_ [? _]]]|].
    destruct (Nat.eqb_spec n (length es)) as [->|Hne]; cbn [andb].
    + destruct es as [|e es]; cbn; split; try done. by intros [? _].
    + split; [done|]. by intros [_ [_ ?]].
Qed.

(** ** On the sample tree *)
Lemma sample_filled : filled sample_tree.
Proof. repeat split; discriminate. Qed.

Lemma walk_reads_contents_witness :
  (let* it := tree_begin sample_bt in read_all 4 it) tree_db =
  Ok [small x61 x01; small x62 x02; small x63 x03; small x65 x05] tree_db.
Proof.
  exact (walk_reads_contents ByteArrayComparator short_key sample_bt tree_db sample_tree 1 sample_tree_at sample_filled).
Defined.

Lemma Last_misses_tail_witness :
  exists it i, with_iterator (new_iterator sample_bt) (Last 3) tree_db = Ok (tt, it) tree_db /\
    on_entry sample_tree i it /\ (S i < 4)%nat.
Proof.
  destruct (Last_misses_tail ByteArrayComparator short_key sample_bt tree_db sample_tree 1 sample_tree_at sample_filled)
    as (it & i & Hrun & Hat & _ & H1).
  exists it, i. split; [exact Hrun|]. split; [exact Hat|]. apply H1. lia.
Defined.

(** A key between the two leaves of the sample: [end()], though two entries
    are above it. *)
Lemma LowerBound_end_witness :
  exists it before here after, LowerBound sample_bt [x62; x00] tree_db = Ok it tree_db /\
    contents sample_tree = before ++ here ++ after /\
    Forall (fun e => key_lt ByteArrayComparator [x62; x00] (e_key e)) after /\
    (iter_end it = true <-> here <> [] /\ Forall (fun e => key_lt ByteArrayComparator (e_key e) [x62; x00]) here).
Proof.
  assert (Hk : short_key [x62; x00]) by (unfold short_key, kKeyMaxSize; cbn; lia).
  destruct (LowerBound_end ByteArrayComparator short_key sample_bt [x62; x00] tree_db sample_tree 1 Hk sample_tree_at)
    as (it & l1 & l2 & l3 & Hrun & Hc & _ & H3 & Hend).
  exists it, l1, l2, l3. split; [exact Hrun|]. split; [exact Hc|]. split; [exact H3|exact Hend].
Defined.
