(* ===== verification/Copying.v ===== *)
(** Copy on write: what [Pager::Copy] and [Node::Copy] make of a page, and how
    the copy of a search path ([CopyAllPagesByPath] of
    [src/btree_iterator.cpp]) gives a tree of its own to the transaction. *)
From S2P Require Import Prelude Format Comparator State Memory FreeMap Pager PagerI PagerInst.
From S2P Require Import Node NodeWf NodeSpec Search BranchSpec Tx Iterator BTree Trails NodeDb Freed Tree TreeSearch TreeGet.

Implicit Types (d : DBImpl) (p q : Z) (nd : NodeData) (t u : tree) (fs : list frame).

(** ** The transaction's mark on a node *)
Lemma retime_recs v nd : recs (set_last_modified_txid v nd) = recs nd.
Proof. reflexivity. Qed.
Lemma retime_node {St} `{PagerLaws St} (s : St) v nd : node_ok s nd -> node_ok s (set_last_modified_txid v nd).
Proof.
  intros [[[] Hu Hl] Hv]. split; [|exact Hv]. split; [by split|exact Hu|].
  eapply Forall_impl; [exact Hl|]. intros x []. by split.
Qed.

(** ** The bucket mark of an entry *)
Definition set_r_bucket (b : bool) (r : Rec) : Rec := mkRec (r_overflow r) (r_key r) b (r_u r) (r_bytes r).
Definition mark_entry (b : bool) (e : entry) : entry := mkEntry (e_key e) (e_value e) b.

Lemma SetIsBucket_ok {St} `{PagerLaws St} nd (s : St) (i : nat) e b :
  leaf_ok s nd -> entries s nd !! i = Some e ->
  exists nd' r, SetIsBucket (Z.of_nat i) b (nd, s) = Ok tt (nd', s) /\ leaf_ok s nd' /\ header nd' = header nd /\
    entries s nd' = <[i := mark_entry b e]> (entries s nd) /\
    recs nd !! i = Some r /\ recs nd' = <[i := set_r_bucket b r]> (recs nd).
Proof.
  intros [Hok Hleaf] He. apply list_lookup_fmap_Some in He as (r & -> & Hr).
  destruct (live_split _ _ _ _ Hok Hr) as (l1 & x & l2 & dead & Hs & Hlv & -> & -> & _ & Hcnt).
  set (nd' := set_slots (l1 ++ set_is_bucket b x :: l2 ++ dead) nd). exists nd', (rec_of nd x).
  destruct (slots_split _ _ Hok) as (_ & _ & Hlen & _).
  assert (Hlv' : live_slots nd' = l1 ++ set_is_bucket b x :: l2).
  { apply (live_slots_eq nd' _ dead); [cbn; by rewrite <- app_assoc|].
    change (count nd') with (count nd). rewrite <- Hlen, Hlv, !length_app. done. }
  assert (Hrecs : recs nd' = <[length l1 := set_r_bucket b (rec_of nd x)]> (recs nd)).
  { unfold recs at 1. rewrite Hlv', fmap_app. cbn [fmap list_fmap].
    change (rec_of nd' (set_is_bucket b x)) with (set_r_bucket b (rec_of nd x)).
    by apply (fmap_replace nd l1 x l2). }
  pose proof (Forall_lookup_1 _ _ _ _ (no_live _ _ Hok) Hr) as Hlx.
  split_and!.
  - unfold SetIsBucket. run_step (data_ok nd s). rewrite bind_assert by (apply Z.ltb_lt; lia).
    exact (on_slot_ok nd s l1 x (l2 ++ dead) _ (set_is_bucket b) Hs eq_refl).
  - split; [|done]. destruct Hok as [[[Hps Hc0 Hlow Hus Htop Hsl Hpl] Hused Hlive] Hrl]. split.
    + rewrite Hlv in Hused, Hlive. split; [split; try done| |].
      * cbn. rewrite <- Hsl, Hs, !length_app. done.
      * rewrite Hlv', (sizes_ext nd nd') by done. change (space_used (header nd')) with (space_used (header nd)).
        rewrite Hused, !sizes_app, !sizes_cons. done.
      * rewrite Hlv'. apply Forall_app in Hlive as [H1 [Hx H2]%Forall_cons].
        apply Forall_app. split; [|constructor].
        -- eapply Forall_impl; [exact H1|]. intros y []. by split.
        -- destruct Hx. by split.
        -- eapply Forall_impl; [exact H2|]. intros y []. by split.
    + change (IsLeaf nd') with (IsLeaf nd). rewrite Hrecs. apply Forall_insert; [done|].
      destruct Hlx as [H1 H2]. by split.
  - done.
  - unfold entries. by rewrite Hrecs, list_fmap_insert.
  - done.
  - done.
Qed.

(** ** Copying a page *)
Lemma Alloc_writes d n : db_inv d -> 0 < n -> n <= db_space d ->
  exists g d', Alloc n d = Ok g d' /\ writes n (fun _ => False) d d' /\
    (forall q, g <= q < g + n -> ~ db_used d q /\ db_used d' q).
Proof.
  intros Hinv Hn Hsp.
  destruct (@pg_Alloc_ok DBImpl DB_PagerOps DB_PagerLaws d n Hinv Hn Hsp)
    as (g & d' & HA & Hinv' & _ & _ & He & Hfr & Hu & Hs & Hm & Hnd).
  exists g, d'. split; [exact HA|]. split.
  - split; [exact Hinv'|exact He|intros q Hq; apply Hu; by left|intros q _ _; apply Hnd|intros a _ _; apply Hm|exact Hs].
  - intros q Hq. split; [by apply Hfr|]. apply Hu. by right.
Qed.

Lemma Free_writes d g n : db_inv d -> 0 <= g < 2 ^ 32 - 1 ->
  exists d', Free g n d = Ok tt d' /\ writes 0 (fun _ => False) d d' /\
    (forall q, db_used d' q <-> db_used d q) /\ (forall q, db_node d' q = db_node d q) /\
    db_freed d' = db_freed d ++ [(g, n)].
Proof.
  intros Hinv Hg.
  destruct (@pg_Free_ok DBImpl DB_PagerOps DB_PagerLaws d g n Hinv Hg)
    as (d' & HF & Hinv' & _ & _ & He & Hu & Hs & Hm & Hnd & Hfd).
  exists d'. split; [exact HF|]. split; [|by split_and!].
  split; [exact Hinv'|exact He|intros q Hq; by apply Hu|intros q _ _; apply Hnd|intros a _ _; apply Hm|].
  cbn in Hs. lia.
Qed.

Lemma put_writes d p nd : db_inv d -> db_used d p -> node_wf (page_size d) nd -> writes 0 (eq p) d (put_node p nd d).
Proof.
  intros Hinv Hp Hwf. assert (Hok : pages_ok (page_size d) (<[p := NodePage nd]> (file_pages (db_map d)))).
  { apply pages_ok_insert; [apply Hinv|]. by apply node_page_ok. }
  split.
  - destruct Hinv as [(tx & []) _]. split; [exists tx; by split|exact Hok].
  - done.
  - intros q Hq. exact Hq.
  - intros q Hq Hne. rewrite db_node_put. by rewrite decide_False by congruence.
  - intros a Ha Hne. apply db_mem_put. congruence.
  - change (db_space (put_node p nd d)) with (db_space d). lia.
Qed.

Lemma Copy_ok d p : db_inv d -> db_used d p -> node_wf (page_size d) (db_node d p) -> 1 <= db_space d ->
  exists g d', Copy p d = Ok g d' /\ ~ db_used d g /\ db_used d' g /\ db_node d' g = db_node d p /\
    writes 1 (fun _ => False) d d' /\ frees d [p] d' [g].
Proof.
  intros Hinv Hp Hwf Hsp. destruct (Alloc_writes d 1 Hinv) as (g & d1 & HA & W1 & Hg); [lia|done|].
  destruct (Hg g ltac:(lia)) as [Hng Hg1]. pose proof (wr_inv _ _ _ _ W1) as Hinv1.
  assert (Hp1 : db_used d1 p) by (by apply (wr_used _ _ _ _ W1)).
  assert (Hnd1 : db_node d1 p = db_node d p) by (apply (wr_node _ _ _ _ W1); by auto).
  pose proof (wr_ps _ _ _ _ W1) as Hps1.
  assert (W2 : writes 0 (eq g) d1 (put_node g (db_node d p) d1)) by (apply put_writes; [done|done|by rewrite Hps1]).
  set (d2 := put_node g (db_node d p) d1) in *. pose proof (wr_inv _ _ _ _ W2) as Hinv2.
  assert (Hp2 : db_used d2 p) by (by apply (wr_used _ _ _ _ W2)).
  assert (Hg2 : db_used d2 g) by (by apply (wr_used _ _ _ _ W2)).
  destruct (used_bounds d2 p Hinv2 Hp2) as (_ & Hb & _).
  destruct (Free_writes d2 p 1 Hinv2) as (d3 & HF & W3 & Hu3 & Hn3 & Hfd); [lia|].
  assert (Hw : writes 1 (fun _ => False) d d3).
  { replace 1 with (1 + (0 + 0)) by lia. apply (writes_trans _ _ (fun _ => False) (eq g) _ _ d1 d3 W1).
    - apply (writes_trans _ _ (eq g) (fun _ => False) _ _ d2 d3 W2 W3). intros q _ [Hq|[]]. exact Hq.
    - intros q Hq [[]|<-]. by apply Hng. }
  exists g, d3. split_and!; try done.
  - unfold Copy. run_step HA. run_step (Reference_ok d1 p Hinv1 Hp1). run_step (Reference_ok d1 g Hinv1 Hg1).
    rewrite Hnd1. run_step (store_node_ok d1 g (db_node d p) Hinv1 Hg1). fold d2. run_step HF.
    unfold bind, gets, ret. f_equal.
    assert (Hg3 : db_used d3 g) by (by apply Hu3).
    destruct (used_bounds d3 g (wr_inv _ _ _ _ W3) Hg3) as (Hps3 & Hr & Ha & _).
    destruct (page_size_bounds _ Hps3). apply GetPageIdByPtr_GetPtr; lia.
  - by apply Hu3.
  - rewrite Hn3. unfold d2. by rewrite db_node_put, decide_True.
  - apply (frees_trans _ _ d2 [p; g]); [|by apply frees_page; [..|unfold kPageInvalidId; lia]].
    apply frees_none; [exact (freed_Alloc 1 d g d1 HA)|intros q Hq; by apply (wr_used _ _ _ _ W2), (wr_used _ _ _ _ W1)| |].
    + apply NoDup_cons. rewrite list_elem_of_singleton. split; [by intros ->|apply NoDup_singleton].
    + intros q. rewrite !elem_of_cons, elem_of_nil. intros [->|[->|[]]]; auto.
Qed.

(** The transaction a tree belongs to: the open write transaction. *)
Lemma get_tx_update d : db_inv d -> exists tx, get_tx UpdateTxRef d = Ok tx d /\ txid tx = db_txid d.
Proof.
  intros [(tx & Hwf) _]. pose proof (aw_tx _ _ Hwf) as Htx. exists tx. split.
  - unfold get_tx, get_update_tx. by rewrite Htx.
  - unfold db_txid, update_txid. by rewrite Htx.
Qed.

Lemma Node_Copy_ok d bt p :
  db_inv d -> bt_tx bt = UpdateTxRef -> db_used d p -> node_wf (page_size d) (db_node d p) -> 1 <= db_space d ->
  exists g d', Node_Copy bt p d = Ok g d' /\ ~ db_used d g /\ db_used d' g /\
    db_node d' g = set_last_modified_txid (db_txid d') (db_node d p) /\ writes 1 (fun _ => False) d d' /\
    frees d [p] d' [g].
Proof.
  intros Hinv Hbt Hp Hwf Hsp. destruct (Copy_ok d p Hinv Hp Hwf Hsp) as (g & d1 & HC & Hng & Hg1 & Hnd & W1 & Hfr).
  pose proof (wr_inv _ _ _ _ W1) as Hinv1. pose proof (wr_ps _ _ _ _ W1) as Hps1.
  destruct (get_tx_update d1 Hinv1) as (tx & Htx & Hid).
  set (nd := set_last_modified_txid (db_txid d1) (db_node d p)).
  assert (Hwf1 : node_wf (page_size d1) nd).
  { rewrite Hps1. destruct Hwf as [[] Hu Hl]. split; [by split|exact Hu|].
    eapply Forall_impl; [exact Hl|]. intros x []. by split. }
  pose proof (put_writes d1 g nd Hinv1 Hg1 Hwf1) as W2.
  exists g, (put_node g nd d1). split; [|split; [exact Hng|split; [exact (wr_used _ _ _ _ W2 g Hg1)|split; [|split]]]].
  - unfold Node_Copy. run_step HC. run_step (new_node_ok d1 g Hinv1 Hg1). rewrite Hbt. run_step Htx. rewrite Hid.
    assert (Hon : on_node g (on_data (set_last_modified_txid (db_txid d1))) d1 = Ok tt (put_node g nd d1)).
    { apply on_node_ok; try done. rewrite Hnd. done. }
    by run_step Hon.
  - rewrite db_node_put, decide_True by done. done.
  - replace 1 with (1 + 0) by lia. apply (writes_trans _ _ (fun _ => False) (eq g) _ _ d1 _ W1 W2).
    intros q Hq [[]|<-]. by apply Hng.
  - apply (frees_trans _ _ _ _ _ _ Hfr), frees_none; [done|by apply (wr_used _ _ _ _ W2)|apply NoDup_singleton|].
    intros q Hq. split; [by left|]. apply list_elem_of_singleton in Hq as ->. by apply (wr_used _ _ _ _ W2).
Qed.

(** ** The branches above a subtree *)

(** A branch of the path whose child in the hole is page [c]. *)
Record frame_ok d (f : frame) (c : Z) : Prop := {
  fo_used : db_used d (f_pg f);
  fo_node : branch_ok d (db_node d (f_pg f));
  fo_branch : IsBranch (db_node d (f_pg f)) = true;
  fo_inline : Forall inline (recs (db_node d (f_pg f)));
  fo_keys : keys d (db_node d (f_pg f)) = f_ks1 f ++ f_ks2 f;
  fo_children : children (db_node d (f_pg f)) = (pg <$> f_ts1 f) ++ c :: (pg <$> f_ts2 f);
  fo_left : Forall (rep d) (f_ts1 f);
  fo_right : Forall (rep d) (f_ts2 f);
}.

Lemma rep_plug1 d f t : rep d (plug1 f t) <-> frame_ok d f (pg t) /\ rep d t.
Proof.
  unfold plug1. rewrite rep_Branch, Forall_app, Forall_cons, fmap_app, fmap_cons. split.
  - intros (H1 & H2 & H3 & H4 & H5 & H6 & H7 & H8 & H9). by split.
  - intros [[H1 H2 H3 H4 H5 H6 H7 H8] H9]. done.
Qed.

Fixpoint frames_ok d fs (c : Z) : Prop :=
  match fs with [] => True | f :: fs => frame_ok d f c /\ frames_ok d fs (f_pg f) end.

Lemma rep_plug_iff d fs t : rep d (plug fs t) <-> frames_ok d fs (pg t) /\ rep d t.
Proof.
  revert t. induction fs as [|f fs IH]; intros t; cbn [plug frames_ok]; [by split; [|intros [_ ?]]|].
  rewrite IH, rep_plug1. cbn [plug1 pg]. tauto.
Qed.

(** The subtrees beside the path, and a frame kept by a step that writes
    neither its page nor theirs. *)
Definition siblings (f : frame) : list tree := f_ts1 f ++ f_ts2 f.
Definition siblings_fp d (f : frame) : list Z := siblings f ≫= footprint d.

Lemma siblings_frame W d d' f c :
  keeps_pages W d d' -> db_inv d -> frame_ok d f c -> (forall q, q ∈ siblings_fp d f -> ~ W q) ->
  Forall (rep d') (siblings f) /\ siblings_fp d' f = siblings_fp d f.
Proof.
  intros Hw Hinv [_ _ _ _ _ _ Hl Hr] HW.
  assert (Hs : Forall (rep d) (siblings f)) by (by apply Forall_app).
  assert (Hall : Forall (fun t => rep d' t /\ footprint d' t = footprint d t) (siblings f)).
  { apply Forall_forall. intros t Ht. rewrite Forall_forall in Hs. apply (rep_frame W d d' t Hw Hinv); [by apply Hs|].
    intros q Hq. apply HW. apply list_elem_of_bind. eauto. }
  split; [eapply Forall_impl; [exact Hall|by intros t [? _]]|].
  unfold siblings_fp. clear -Hall. induction Hall as [|t ts [_ Ht] Hall IH]; [done|]. cbn. by rewrite Ht, IH.
Qed.

Lemma frame_frame W d d' f c :
  keeps_pages W d d' -> db_inv d -> frame_ok d f c -> (forall q, q ∈ f_pg f :: siblings_fp d f -> ~ W q) ->
  frame_ok d' f c /\ siblings_fp d' f = siblings_fp d f.
Proof.
  intros Hw Hinv Hf HW. destruct (siblings_frame W d d' f c Hw Hinv Hf) as [Hs Hfp].
  { intros q Hq. apply HW. by apply list_elem_of_further. }
  apply Forall_app in Hs as [Hl Hr]. split; [|done]. destruct Hf as [Hu Hn Hb Hi Hk Hc _ _].
  assert (Hnd : db_node d' (f_pg f) = db_node d (f_pg f)).
  { apply (kp_node _ _ _ Hw); [done|]. apply HW, list_elem_of_here. }
  destruct (node_frame d d' (db_node d (f_pg f)) W Hw (bo_node _ _ Hn)) as (Hn' & Hk' & _).
  { rewrite inline_node_pages by done. intros q Hq. by apply elem_of_nil in Hq. }
  split; rewrite ?Hnd; try done; [by apply (kp_used _ _ _ Hw)| |congruence]. destruct Hn. by split.
Qed.

(** The copy test only looks at the node's mark and at what no write changes. *)
Definition needs_copy d q : bool :=
  copy_needed (tx_manager d) (db_txid d) (last_modified_txid (header (db_node d q))).

Lemma env_txid d d' : db_env d' = db_env d -> db_txid d' = db_txid d.
Proof.
  assert (He : forall d, db_txid (db_env d) = db_txid d).
  { intros x. unfold db_txid, update_txid, db_env, forget_pages. cbn. by destruct (update_tx (tx_manager x)). }
  intros E. by rewrite <- He, E, He.
Qed.
Lemma env_copy_needed d d' a b : db_env d' = db_env d -> copy_needed (tx_manager d') a b = copy_needed (tx_manager d) a b.
Proof.
  assert (He : forall d, copy_needed (tx_manager (db_env d)) a b = copy_needed (tx_manager d) a b) by done.
  intros E. by rewrite <- He, E, He.
Qed.
Lemma needs_copy_writes k W d d' q : writes k W d d' -> db_used d q -> ~ W q -> needs_copy d' q = needs_copy d q.
Proof.
  intros Hw Hq Hn. unfold needs_copy. rewrite (wr_node _ _ _ _ Hw q Hq Hn), (env_txid d d' (wr_env _ _ _ _ Hw)).
  apply env_copy_needed, (wr_env _ _ _ _ Hw).
Qed.

Lemma needs_copy_env d d' q :
  db_env d' = db_env d -> last_modified_txid (header (db_node d' q)) = last_modified_txid (header (db_node d q)) ->
  needs_copy d' q = needs_copy d q.
Proof. intros E Hn. unfold needs_copy. rewrite Hn, (env_txid _ _ E). by apply env_copy_needed. Qed.
Lemma needs_copy_fresh d q : last_modified_txid (header (db_node d q)) = db_txid d -> needs_copy d q = false.
Proof. intros E. unfold needs_copy, copy_needed. rewrite E, Z.ltb_irrefl. by destruct (_ && _). Qed.

(** The marks of nodes are of the open transaction at the latest. *)
Definition mark d q : Z := last_modified_txid (header (db_node d q)).
Definition marked d (N : list Z) : Prop := Forall (fun q => mark d q <= db_txid d) N.

Lemma marked_same d d' N : db_txid d' = db_txid d -> (forall q, q ∈ N -> mark d' q = mark d q) -> marked d N -> marked d' N.
Proof. intros E Hm. unfold marked. rewrite !Forall_forall, E. intros H q Hq. rewrite Hm by done. by apply H. Qed.
Lemma marked_kept W d d' N : keeps_pages W d d' -> db_txid d' = db_txid d -> (forall q, q ∈ N -> db_used d q /\ ~ W q) ->
  marked d N -> marked d' N.
Proof. intros Hw E HN. apply marked_same; [done|]. intros q Hq. unfold mark. by rewrite (kp_node _ _ _ Hw q) by apply (HN q Hq). Qed.
Lemma marked_writes k W d d' N : writes k W d d' -> (forall q, q ∈ N -> db_used d q /\ ~ W q) -> marked d N -> marked d' N.
Proof. intros Hw. apply (marked_kept W); [exact (writes_keeps _ _ _ _ Hw)|apply env_txid, Hw]. Qed.
Lemma marked_app d N1 N2 : marked d (N1 ++ N2) <-> marked d N1 /\ marked d N2.
Proof. unfold marked. by rewrite Forall_app. Qed.
#[export] Instance marked_perm d : Proper ((≡ₚ) ==> iff) (marked d).
Proof. intros N1 N2 E. unfold marked. by rewrite E. Qed.
Lemma marked_cons d q N : marked d (q :: N) <-> mark d q <= db_txid d /\ marked d N.
Proof. unfold marked. by rewrite Forall_cons. Qed.

Lemma CopyNeeded_ok d q : db_inv d ->
  CopyNeeded UpdateTxRef (last_modified_txid (header (db_node d q))) d = Ok (needs_copy d q) d.
Proof.
  intros Hinv. destruct (get_tx_update d Hinv) as (tx & Htx & Hid). unfold CopyNeeded. run_step Htx.
  unfold needs_copy. by rewrite <- Hid.
Qed.

(** The hole's child replaced in place. *)
Lemma set_child d f c c' :
  db_inv d -> frame_ok d f c -> 0 <= c' < 2 ^ 32 -> f_pg f ∉ siblings_fp d f ->
  exists d', on_node (f_pg f) (SetLeftChild (Z.of_nat (length (f_ts1 f))) c') d = Ok tt d' /\
    frame_ok d' f c' /\ writes 0 (eq (f_pg f)) d d' /\ siblings_fp d' f = siblings_fp d f /\
    needs_copy d' (f_pg f) = needs_copy d (f_pg f) /\ db_freed d' = db_freed d /\ mark d' (f_pg f) = mark d (f_pg f).
Proof.
  intros Hinv Hf Hc' Hsep. pose proof Hf as [Hu Hn Hb Hi Hk Hc Hl Hr].
  set (p := f_pg f) in *. set (i := length (f_ts1 f)) in *.
  pose proof (length_children d _ (bo_node _ _ Hn)) as Hlc. rewrite Hc, length_app, length_fmap in Hlc. cbn in Hlc.
  destruct (SetLeftChild_ok (db_node d p) d i c' Hn) as (nd & Hop & Hn' & Hh & Hk' & Hc2 & Hov); [lia|done|].
  destruct (writes_on_node d p _ tt nd d 0 Hinv Hu Hop Hinv) as (Hon & Hw & Hnd);
    [reflexivity|lia|apply Hn'|]. set (d' := put_node p nd d) in *.
  destruct (siblings_frame (eq p) d d' f c Hw Hinv Hf) as [Hs Hfp]; [by intros q Hq <-|].
  apply Forall_app in Hs as [Hl' Hr']. exists d'. split; [exact Hon|]. split; [|split; [exact Hw|split; [exact Hfp|split; [|split; [done|]]]]].
  2: { apply (needs_copy_env d d'); [apply Hw|]. unfold p in Hh. by rewrite Hnd, Hh. }
  2: { unfold mark. unfold p in Hh. by rewrite Hnd, Hh. }
  assert (Hin : Forall inline (recs nd)).
  { assert (Hf' : Forall (fun b => b = false) (r_overflow <$> recs nd)) by (rewrite Hov; by apply Forall_fmap).
    by apply Forall_fmap in Hf'. }
  destruct (node_frame d d' nd (eq p) Hw (bo_node _ _ Hn')) as (Hn2 & Hk2 & _).
  { rewrite inline_node_pages by done. intros q Hq. by apply elem_of_nil in Hq. }
  split; fold p; rewrite ?Hnd.
  - exact (wr_used _ _ _ _ Hw p Hu).
  - destruct Hn' as [_ E T]. by split.
  - unfold IsBranch. rewrite Hh. exact Hb.
  - exact Hin.
  - congruence.
  - rewrite Hc2, Hc. rewrite insert_app_r_alt by (rewrite length_fmap; lia).
    rewrite length_fmap. fold i. by rewrite Nat.sub_diag.
  - exact Hl'.
  - exact Hr'.
Qed.

Definition move_frame (g : Z) (f : frame) : frame := mkFrame g (f_ks1 f) (f_ts1 f) (f_ks2 f) (f_ts2 f).

(** The branch copied, and the hole of the copy filled with [c']. *)
Lemma copy_frame d bt f c c' :
  db_inv d -> bt_tx bt = UpdateTxRef -> frame_ok d f c -> 0 <= c' < 2 ^ 32 -> 1 <= db_space d ->
  exists g d1 d2, Node_Copy bt (f_pg f) d = Ok g d1 /\ db_inv d1 /\ db_used d1 g /\ IsBranch (db_node d1 g) = true /\
    on_node g (SetLeftChild (Z.of_nat (length (f_ts1 f))) c') d1 = Ok tt d2 /\
    frame_ok d2 (move_frame g f) c' /\ ~ db_used d g /\ siblings_fp d2 f = siblings_fp d f /\
    writes 1 (fun _ => False) d d2 /\ needs_copy d2 g = false /\ frees d [f_pg f] d2 [g] /\ mark d2 g = db_txid d2.
Proof.
  intros Hinv Hbt Hf Hc' Hsp. pose proof Hf as [Hu Hn Hb Hi Hk Hc Hl Hr].
  destruct (Node_Copy_ok d bt (f_pg f) Hinv Hbt Hu (no_wf _ _ (bo_node _ _ Hn)) Hsp)
    as (g & d1 & HC & Hng & Hg1 & Hnd & W1 & Hfr). pose proof (wr_inv _ _ _ _ W1) as Hinv1.
  destruct (siblings_frame _ d d1 f c W1 Hinv Hf) as [Hs Hfp]; [by auto|].
  pose proof Hs as [Hl1 Hr1]%Forall_app.
  destruct (node_frame d d1 (db_node d (f_pg f)) _ W1 (bo_node _ _ Hn)) as (Hn1 & Hk1 & _); [by auto|].
  assert (Hf1 : frame_ok d1 (move_frame g f) c).
  { split; cbn [f_pg f_ks1 f_ks2 f_ts1 f_ts2 move_frame]; rewrite ?Hnd; try done.
    - destruct Hn as [_ E T]. split; [by apply retime_node|exact E|exact T].
    - change (keys d1 (db_node d (f_pg f)) = f_ks1 f ++ f_ks2 f). congruence. }
  assert (Hsep : g ∉ siblings_fp d1 (move_frame g f)).
  { change (siblings_fp d1 (move_frame g f)) with (siblings_fp d1 f). rewrite Hfp.
    intros (t & Hq & Ht)%list_elem_of_bind. apply Hng. apply (footprint_used d t); [done| |done].
    assert (Hall : Forall (rep d) (siblings f)) by (by apply Forall_app). rewrite Forall_forall in Hall. by apply Hall. }
  destruct (set_child d1 (move_frame g f) c c' Hinv1 Hf1 Hc' Hsep) as (d2 & Hon & Hf2 & W2 & Hfp2 & Hown & Hfd & Hmk).
  cbn [move_frame f_pg] in Hown.
  exists g, d1, d2. split_and!; try done.
  - by rewrite Hnd.
  - rewrite <- Hfp. exact Hfp2.
  - replace 1 with (1 + 0) by lia. apply (writes_trans _ _ (fun _ => False) (eq g) _ _ d1 _ W1 W2).
    intros q Hq [[]|<-]. by apply Hng.
  - rewrite Hown. apply needs_copy_fresh. by rewrite Hnd.
  - apply (frees_trans _ _ _ _ _ _ Hfr), frees_none; [done|by apply (wr_used _ _ _ _ W2)|apply NoDup_singleton|].
    intros q Hq. split; [by left|]. apply list_elem_of_singleton in Hq as ->. by apply (wr_used _ _ _ _ W2).
  - cbn [move_frame f_pg] in Hmk. rewrite Hmk. unfold mark. rewrite Hnd. symmetry. apply env_txid, W2.
Qed.

(** ** The path *)
Lemma frames_fp_cons d f fs : frames_fp d (f :: fs) = f_pg f :: siblings_fp d f ++ frames_fp d fs.
Proof. unfold frames_fp, siblings_fp, siblings. cbn. unfold frame_fp. by rewrite bind_app. Qed.

Lemma frames_frame W d d' fs : forall c,
  keeps_pages W d d' -> db_inv d -> frames_ok d fs c -> (forall q, q ∈ frames_fp d fs -> ~ W q) ->
  frames_ok d' fs c /\ frames_fp d' fs = frames_fp d fs.
Proof.
  induction fs as [|f fs IH]; intros c Hw Hinv Hf HW; [done|]. destruct Hf as [Hf Hfs].
  rewrite frames_fp_cons in HW. destruct (frame_frame W d d' f c Hw Hinv Hf) as [Hf' Hs'].
  { intros q Hq. apply HW. rewrite app_comm_cons, elem_of_app. by left. }
  destruct (IH (f_pg f) Hw Hinv Hfs) as [Hfs' Hfp'].
  { intros q Hq. apply HW. rewrite app_comm_cons, elem_of_app. by right. }
  split; [by split|]. by rewrite !frames_fp_cons, Hs', Hfp'.
Qed.

Lemma frames_used d fs c q : db_inv d -> frames_ok d fs c -> q ∈ frames_fp d fs -> db_used d q.
Proof.
  intros Hinv. revert c. induction fs as [|f fs IH]; intros c Hf Hq; [by apply elem_of_nil in Hq|].
  destruct Hf as [Hf Hfs]. rewrite frames_fp_cons in Hq. apply elem_of_cons in Hq as [->|Hq]; [by apply Hf|].
  apply elem_of_app in Hq as [(t & Hq & Ht)%list_elem_of_bind|Hq]; [|by apply (IH (f_pg f))].
  apply (footprint_used d t); [done| |done]. destruct Hf as [_ _ _ _ _ _ Hl Hr].
  unfold siblings in Ht. rewrite Forall_forall in Hl, Hr. apply elem_of_app in Ht as [Ht|Ht]; auto.
Qed.

Definition same_frame (f f' : frame) : Prop := f' = move_frame (f_pg f') f.
Definition root_pg fs (c : Z) : Z := default c (f_pg <$> last fs).

(** The pages of the path the transaction may write in place. *)
Definition own_path d fs q : Prop := q ∈ f_pg <$> fs /\ needs_copy d q = false.

(** A page of the transaction has a parent of the transaction. *)
Fixpoint path_closed d fs : Prop :=
  match fs with
  | f :: fs => (needs_copy d (f_pg f) = false -> Forall (fun g => needs_copy d (f_pg g) = false) fs) /\ path_closed d fs
  | [] => True
  end.
Lemma path_closed_writes k W d d' fs :
  writes k W d d' -> (forall q, q ∈ f_pg <$> fs -> db_used d q /\ ~ W q) -> path_closed d fs -> path_closed d' fs.
Proof.
  intros Hw. induction fs as [|f fs IH]; intros HW Hc; [done|]. destruct Hc as [Hc Hcs]. split.
  - assert (Hsame : forall q, q ∈ f_pg <$> f :: fs -> needs_copy d' q = needs_copy d q).
    { intros q Hq. destruct (HW q Hq). by apply (needs_copy_writes _ _ _ _ _ Hw). }
    rewrite Hsame by apply list_elem_of_here. intros E. specialize (Hc E). rewrite Forall_forall in Hc |- *.
    intros g Hg. rewrite Hsame; [by apply Hc|]. apply list_elem_of_further, list_elem_of_fmap. eauto.
  - apply IH; [|done]. intros q Hq. apply HW. by apply list_elem_of_further.
Qed.

(** What [copy_path] makes of the branches above a subtree moved to [c']. *)
Record path_copied d fs c c' d' fs' (root : option Z) : Prop := {
  pc_frames : frames_ok d' fs' c';
  pc_same : Forall2 same_frame fs fs';
  pc_writes : writes (Z.of_nat (length fs)) (own_path d fs) d d';
  pc_root : match root with Some r => r = root_pg fs' c' | None => fs <> [] /\ root_pg fs' c' = root_pg fs c end;
  pc_fresh q : q ∈ f_pg <$> fs' -> q ∈ f_pg <$> fs \/ ~ db_used d q;
  pc_siblings f : f ∈ fs -> siblings_fp d' f = siblings_fp d f;
  pc_nodup : NoDup (f_pg <$> fs');
  pc_own : Forall (fun f => needs_copy d' (f_pg f) = false) fs';
  pc_frees : frees d (f_pg <$> fs) d' (f_pg <$> fs');
  pc_marks : marked d (f_pg <$> fs) -> marked d' (f_pg <$> fs');
}.

Lemma path_pages d fs q : q ∈ f_pg <$> fs -> q ∈ frames_fp d fs.
Proof.
  intros (f & -> & Hf)%list_elem_of_fmap_1. unfold frames_fp. apply list_elem_of_bind. exists f.
  split; [apply list_elem_of_here|done].
Qed.

Lemma frames_ok_elem d fs c f : frames_ok d fs c -> f ∈ fs -> exists c, frame_ok d f c.
Proof.
  revert c. induction fs as [|g fs IH]; intros c Hf Hin; [by apply elem_of_nil in Hin|]. destruct Hf as [Hg Hf].
  apply elem_of_cons in Hin as [->|Hin]; [by exists c|]. by apply (IH (f_pg g)).
Qed.
Lemma same_frame_refl f : same_frame f f.
Proof. by destruct f. Qed.
Lemma root_pg_cons f fs c : root_pg (f :: fs) c = root_pg fs (f_pg f).
Proof. unfold root_pg. rewrite last_cons. by destruct (last fs). Qed.

Lemma path_NoDup d fs : NoDup (frames_fp d fs) -> NoDup (f_pg <$> fs).
Proof.
  induction fs as [|x l IH]; intros Hl; [constructor|]. rewrite frames_fp_cons in Hl.
  apply NoDup_cons in Hl as [Hx Hl]. apply NoDup_app in Hl as (_ & _ & Hl).
  cbn. constructor; [|by apply IH]. intros Hin. apply Hx, elem_of_app. right. by apply path_pages.
Qed.

(** The branch stays, its child in the hole is set. *)
Lemma copy_stops d d1 f fs c c' :
  db_inv d -> frames_ok d (f :: fs) c -> NoDup (frames_fp d (f :: fs)) -> needs_copy d (f_pg f) = false ->
  frame_ok d1 f c' -> writes 0 (eq (f_pg f)) d d1 -> siblings_fp d1 f = siblings_fp d f ->
  needs_copy d1 (f_pg f) = needs_copy d (f_pg f) -> db_freed d1 = db_freed d -> mark d1 (f_pg f) = mark d (f_pg f) -> path_closed d (f :: fs) ->
  path_copied d (f :: fs) c c' d1 (f :: fs) None.
Proof.
  intros Hinv [Hf Hfs] Hnd En Hf1 W1 Hfp1 Eown Hfd Emk [Hcl _]. pose proof Hnd as Hnd0. rewrite frames_fp_cons in Hnd.
  apply NoDup_cons in Hnd as [Hp Hnd]. rewrite elem_of_app in Hp. apply NoDup_app in Hnd as (Hns & Hsep & Hnd).
  destruct (frames_frame _ d d1 fs (f_pg f) W1 Hinv Hfs) as [Hfs1 Hffp1]; [intros q Hq <-; tauto|].
  pose proof (path_NoDup _ _ Hnd0) as Hpath. split.
  - by split.
  - apply Forall_Forall2_diag, Forall_forall. intros x _. apply same_frame_refl.
  - apply (writes_weaken _ _ _ _ _ _ W1); [lia|]. intros q _ <-. split; [apply list_elem_of_here|done].
  - split; [done|]. by rewrite !root_pg_cons.
  - intros q Hq. by left.
  - intros g Hg. apply elem_of_cons in Hg as [->|Hg]; [done|].
    destruct (frames_ok_elem d fs (f_pg f) g Hfs Hg) as [cg Hfg].
    apply (siblings_frame _ d d1 g cg W1 Hinv Hfg). intros q Hq <-. apply Hp. right.
    unfold frames_fp. apply list_elem_of_bind. exists g. split; [|done].
    unfold frame_fp. apply list_elem_of_further. unfold siblings_fp, siblings in Hq. by rewrite bind_app in Hq.
  - exact Hpath.
  - constructor; [by rewrite Eown|]. specialize (Hcl En). rewrite Forall_forall in Hcl |- *. intros g Hg.
    assert (Hgp : f_pg g ∈ frames_fp d fs) by (apply path_pages, list_elem_of_fmap; eauto).
    rewrite (needs_copy_writes _ _ _ _ _ W1); [by apply Hcl|by apply (frames_used d fs (f_pg f))|].
    intros E. rewrite <- E in Hgp. tauto.
  - apply frees_none; [done|apply W1|done|]. intros q Hq. split; [by left|]. apply (wr_used _ _ _ _ W1).
    apply elem_of_cons in Hq as [->|Hq]; [by apply Hf|]. apply (frames_used d fs (f_pg f) q Hinv Hfs). by apply path_pages.
  - apply marked_same; [apply env_txid, W1|]. intros q Hq. apply elem_of_cons in Hq as [->|Hq]; [done|].
    apply (path_pages d fs q) in Hq. unfold mark. rewrite (wr_node _ _ _ _ W1 q); [done|by apply (frames_used d fs (f_pg f) q Hinv Hfs)|].
    intros <-. tauto.
Qed.

(** The branch was copied to page [g], and so, maybe, the ones above. *)
Lemma copy_goes_on d d2 d3 g f fs fs' c c' root :
  db_inv d -> frames_ok d (f :: fs) c -> NoDup (frames_fp d (f :: fs)) -> ~ db_used d g ->
  frame_ok d2 (move_frame g f) c' -> siblings_fp d2 f = siblings_fp d f -> writes 1 (fun _ => False) d d2 ->
  needs_copy d2 g = false -> frees d [f_pg f] d2 [g] -> mark d2 g = db_txid d2 -> path_copied d2 fs (f_pg f) g d3 fs' root ->
  path_copied d (f :: fs) c c' d3 (move_frame g f :: fs') root.
Proof.
  intros Hinv [Hf Hfs] Hnd Hng Hf2 Hfp2 W1 Hown Hfr Hmk Hpc. rewrite frames_fp_cons in Hnd.
  apply NoDup_cons in Hnd as [Hp Hnd]. rewrite elem_of_app in Hp. apply NoDup_app in Hnd as (Hns & Hsep & Hnd).
  destruct Hpc as [P1 P2 P3 P4 P5 P6 P7 P8 P9 P10]. pose proof (wr_inv _ _ _ _ W1) as Hinv2.
  assert (Hold : forall q, q ∈ f_pg <$> fs -> db_used d q).
  { intros q Hq. apply (frames_used d fs (f_pg f) q Hinv Hfs). by apply path_pages. }
  assert (Hg2 : db_used d2 g) by apply Hf2.
  destruct (frame_frame _ d2 d3 (move_frame g f) c' P3 Hinv2 Hf2) as [Hf3 Hfp3].
  { intros q Hq [Hin _]. apply elem_of_cons in Hq as [->|Hq]; [by apply Hng, Hold|].
    change (siblings_fp d2 (move_frame g f)) with (siblings_fp d2 f) in Hq. rewrite Hfp2 in Hq.
    apply (Hsep q Hq). by apply path_pages. }
  split.
  - by split.
  - by constructor.
  - replace (Z.of_nat (length (f :: fs))) with (1 + Z.of_nat (length fs)) by (cbn; lia).
    apply (writes_trans _ _ _ _ _ _ d2 _ W1 P3). intros q Hq [[]|[Hin Hnc]].
    split; [by apply list_elem_of_further|]. rewrite <- Hnc. symmetry. apply (needs_copy_writes _ _ _ _ _ W1); auto.
  - rewrite !root_pg_cons. destruct root as [r|]; [done|]. split; [done|]. apply P4.
  - intros q Hq. apply elem_of_cons in Hq as [->|Hq]; [by right|].
    destruct (P5 q Hq) as [Hin|Hn]; [left; by apply list_elem_of_further|right].
    intros Hu. apply Hn. by apply (wr_used _ _ _ _ W1).
  - intros x Hx. apply elem_of_cons in Hx as [->|Hx].
    + rewrite <- Hfp2. exact Hfp3.
    + rewrite P6 by done. destruct (frames_ok_elem d fs (f_pg f) x Hfs Hx) as [cx Hfx].
      apply (siblings_frame _ d d2 x cx W1 Hinv Hfx). by auto.
  - cbn. constructor; [|done]. intros Hin. destruct (P5 g Hin) as [Hin'|Hn]; [by apply Hng, Hold|done].
  - constructor; [|done]. cbn. rewrite (needs_copy_writes _ _ _ _ _ P3 Hg2); [done|].
    intros [Hin _]. by apply Hng, Hold.
  - apply (frees_trans _ _ d2 ([g] ++ (f_pg <$> fs))); [exact (frees_frame _ _ _ _ _ Hfr)|].
    by apply (frees_beside _ _ _ _ [g]).
  - cbn [fmap list_fmap move_frame f_pg]. rewrite !marked_cons. intros [_ Hm]. split.
    + unfold mark. rewrite (wr_node _ _ _ _ P3 g Hg2); [|intros [Hin _]; by apply Hng, Hold].
      rewrite (env_txid _ _ (wr_env _ _ _ _ P3)). unfold mark in Hmk. lia.
    + apply P10, (marked_writes _ _ _ _ _ W1); [|done]. intros q Hq. split; [by apply Hold|by intros []].
Qed.

Lemma copy_path_frames bt fs : forall d c c',
  bt_tx bt = UpdateTxRef -> db_inv d -> frames_ok d fs c -> NoDup (frames_fp d fs) -> path_closed d fs ->
  0 <= c' < 2 ^ 32 - 1 -> Z.of_nat (length fs) <= db_space d ->
  exists fs' root d', copy_path bt (frame_stack fs) c' d = Ok (frame_stack fs', root) d' /\
    path_copied d fs c c' d' fs' root.
Proof.
  induction fs as [|f fs IH]; intros d c c' Hbt Hinv Hf Hnd Hcl Hc' Hsp.
  { exists [], (Some c'), d. split; [done|].
    split; [done|constructor| |done|by left|done|constructor|constructor|apply frees_refl|done].
    eapply writes_weaken; [by apply writes_refl|cbn; lia|done]. }
  pose proof Hf as [Hf0 Hfs]. pose proof Hnd as Hnd'. rewrite frames_fp_cons in Hnd'. apply NoDup_cons in Hnd' as [Hp Hnd'].
  rewrite elem_of_app in Hp. apply NoDup_app in Hnd' as (_ & _ & Hnd').
  pose proof (fo_used _ _ _ Hf0) as Hu. cbn [frame_stack fmap list_fmap copy_path].
  assert (Hc0 : negb (c' =? kPageInvalidId) = true) by (apply negb_true_iff, Z.eqb_neq; unfold kPageInvalidId; lia).
  run_step (new_node_ok d _ Hinv Hu). run_step (node_txid_ok d _ Hinv Hu). rewrite Hbt.
  run_step (CopyNeeded_ok d (f_pg f) Hinv). destruct (needs_copy d (f_pg f)) eqn:En; cbn [negb].
  - destruct (copy_frame d bt f c c' Hinv Hbt Hf0) as (g & d1 & d2 & HC & Hinv1 & Hg1 & Hb1 & Hon & Hf2 & Hng & Hfp & W1 & Hown & Hfr & Hmk);
      [lia|cbn in Hsp; lia|].
    pose proof (wr_inv _ _ _ _ W1) as Hinv2. pose proof (wr_space _ _ _ _ W1) as Hs2.
    destruct (used_bounds d2 g Hinv2 (fo_used _ _ _ Hf2)) as (_ & Hgr & _).
    destruct (frames_frame _ d d2 fs (f_pg f) W1 Hinv Hfs) as [Hfs2 Hffp2]; [by auto|].
    destruct (IH d2 (f_pg f) g Hbt Hinv2 Hfs2) as (fs' & root & d3 & Hrun & Hpc);
      [by rewrite Hffp2| |lia|cbn in Hsp; lia|].
    { destruct Hcl as [_ Hcl]. apply (path_closed_writes _ _ _ _ _ W1); [|done]. intros q Hq. split; [|by intros []].
      apply (frames_used d fs (f_pg f) q Hinv Hfs). by apply path_pages. }
    run_step HC. run_step (node_is_branch_ok d1 g Hinv1 Hg1). rewrite Hb1, bind_assoc, bind_assert by done.
    run_step Hon. exists (move_frame g f :: fs'), root, d3. split; [|by apply (copy_goes_on d d2)].
    fold (frame_stack fs). by run_step Hrun.
  - run_step (node_is_branch_ok d _ Hinv Hu). rewrite (fo_branch _ _ _ Hf0), bind_assoc, bind_assert by done.
    destruct (set_child d f c c' Hinv Hf0) as (d1 & Hon & Hf1 & W1 & Hfp1 & Eown & Hfd & Emk); [lia|tauto|].
    run_step Hon. exists (f :: fs), None, d1. split; [done|]. by apply copy_stops.
Qed.

(** ** The pages of a tree, split at the path *)
Definition path_siblings d fs : list Z := fs ≫= siblings_fp d.

Lemma frames_fp_perm d fs : frames_fp d fs ≡ₚ (f_pg <$> fs) ++ path_siblings d fs.
Proof.
  induction fs as [|f fs IH]; [done|]. rewrite frames_fp_cons, IH. cbn. f_equiv.
  change (siblings_fp d f ++ (f_pg <$> fs) ++ path_siblings d fs ≡ₚ (f_pg <$> fs) ++ siblings_fp d f ++ path_siblings d fs).
  solve_Permutation.
Qed.

Lemma footprint_plug d fs t : footprint d (plug fs t) ≡ₚ footprint d t ++ frames_fp d fs.
Proof.
  revert t. induction fs as [|f fs IH]; intros t; cbn [plug]; [by rewrite app_nil_r|].
  rewrite IH, frames_fp_cons. cbn [footprint plug1 pg]. unfold siblings_fp, siblings.
  rewrite !bind_app, bind_cons. solve_Permutation.
Qed.

Lemma pg_plug fs t : pg (plug fs t) = root_pg fs (pg t).
Proof. revert t. induction fs as [|f fs IH]; intros t; [done|]. cbn [plug]. by rewrite IH, root_pg_cons. Qed.

(** Pages replaced by fresh ones stay distinct from those in use. *)
Lemma NoDup_refresh (used : Z -> Prop) l1 l1' l2 :
  NoDup (l1 ++ l2) -> NoDup l1' -> (forall q, q ∈ l1' -> q ∈ l1 \/ ~ used q) -> (forall q, q ∈ l2 -> used q) ->
  NoDup (l1' ++ l2).
Proof.
  intros (H1 & H12 & H2)%NoDup_app H1' Hin Hu. apply NoDup_app. split; [done|]. split; [|done].
  intros q Hq Hq2. destruct (Hin q Hq) as [Hq1|Hn]; [by apply (H12 q)|]. by apply Hn, Hu.
Qed.

(** A tree with the same branches above, its path on other pages. *)
Lemma same_frames_siblings d d' fs fs' :
  Forall2 same_frame fs fs' -> (forall f, f ∈ fs -> siblings_fp d' f = siblings_fp d f) ->
  path_siblings d' fs' = path_siblings d fs.
Proof.
  unfold path_siblings. induction 1 as [|f f' fs fs' Hf Hfs IH]; intros Hs; [done|]. cbn.
  rewrite IH by (intros g Hg; apply Hs; by apply list_elem_of_further).
  rewrite Hf. change (siblings_fp d' (move_frame (f_pg f') f)) with (siblings_fp d' f).
  by rewrite Hs by apply list_elem_of_here.
Qed.

Lemma same_frames_items fs fs' : Forall2 same_frame fs fs' ->
  left_of fs' = left_of fs /\ right_of fs' = right_of fs /\ length fs' = length fs /\
  (Forall balanced fs -> Forall balanced fs').
Proof.
  induction 1 as [|f f' fs fs' Hf Hfs (IHl & IHr & IHn & IHb)]; [done|]. cbn [left_of right_of length].
  rewrite Hf. unfold move_frame, frame_left, frame_right. cbn. rewrite IHl, IHr, IHn. split_and!; try done.
  intros [Hb1 Hb2]%Forall_cons. constructor; [exact Hb1|by apply IHb].
Qed.

Lemma same_frames_shape fs fs' : Forall2 same_frame fs fs' -> forall h t t',
  (forall n, shape n t -> shape n t') -> shape h (plug fs t) -> shape h (plug fs' t').
Proof.
  induction 1 as [|f f' fs fs' Hf Hfs IH]; intros h t t' Ht; cbn [plug]; [apply Ht|].
  apply IH. intros n. rewrite Hf. unfold plug1, move_frame. cbn [f_pg f_ks1 f_ks2 f_ts1 f_ts2].
  destruct n as [|n]; [done|]. cbn [shape]. rewrite !foldr_Forall, !Forall_app, !Forall_cons, !length_app.
  intros (H1 & H2 & H3 & H4 & H5). split_and!; auto.
Qed.

Lemma forest_nodes_one t : forest_nodes [t] = tree_nodes t.
Proof. unfold forest_nodes. cbn. by rewrite app_nil_r. Qed.

(** The nodes of the branches above. *)
Definition frame_nodes (f : frame) : list Z := f_pg f :: forest_nodes (siblings f).
Lemma plug_nodes fs t us : forest_nodes (plug fs t :: us) ≡ₚ (fs ≫= frame_nodes) ++ forest_nodes (t :: us).
Proof.
  revert t. induction fs as [|f fs IH]; intros t; [done|]. cbn [plug]. rewrite IH. unfold forest_nodes. cbn.
  unfold frame_nodes, forest_nodes, siblings. rewrite !bind_app, bind_cons. solve_Permutation.
Qed.

(** The nodes of such a tree are its path, and what
    stands beside the path. *)
Lemma plug_path_nodes fs p es q :
  q ∈ tree_nodes (plug fs (Leaf p es)) <-> q ∈ p :: (f_pg <$> fs) \/ q ∈ fs ≫= (fun f => forest_nodes (siblings f)).
Proof.
  rewrite <- forest_nodes_one, plug_nodes, forest_nodes_one, elem_of_app, elem_of_cons. cbn [tree_nodes].
  rewrite list_elem_of_singleton. assert (H : fs ≫= frame_nodes ≡ₚ (f_pg <$> fs) ++ (fs ≫= (fun f => forest_nodes (siblings f)))).
  { induction fs as [|f fs IH]; [done|]. cbn. fold (forest_nodes (siblings f)). rewrite IH. solve_Permutation. }
  rewrite H, elem_of_app. tauto.
Qed.

Lemma same_frames_nodes fs fs' : Forall2 same_frame fs fs' ->
  fs' ≫= (fun f => forest_nodes (siblings f)) = fs ≫= (fun f => forest_nodes (siblings f)).
Proof. induction 1 as [|f f' fs fs' -> _ IH]; [done|]. cbn. by rewrite IH. Qed.
Lemma sibling_nodes_fp d fs q : q ∈ fs ≫= (fun f => forest_nodes (siblings f)) -> q ∈ path_siblings d fs.
Proof.
  intros (f & Hq & Hf)%list_elem_of_bind. apply list_elem_of_bind. exists f. split; [|done].
  apply list_elem_of_bind in Hq as (t & Hq & Ht). apply list_elem_of_bind. exists t. split; [by apply tree_nodes_footprint|done].
Qed.

(** ** The path with its leaf *)
Record path_owned d fs p es d' fs' p' (root : option Z) : Prop := {
  po_rep : rep d' (plug fs' (Leaf p' es));
  po_same : Forall2 same_frame fs fs';
  po_writes : writes (Z.of_nat (S (length fs))) (own_path d fs) d d';
  po_root : match root with Some r => r = root_pg fs' p' | None => root_pg fs' p' = root_pg fs p end;
  po_own : needs_copy d' p' = false;
  po_own_path : Forall (fun f => needs_copy d' (f_pg f) = false) fs';
  po_nodup : NoDup (footprint d' (plug fs' (Leaf p' es)));
  po_fresh q : q ∈ p' :: (f_pg <$> fs') -> q ∈ p :: (f_pg <$> fs) \/ ~ db_used d q;
  po_frees : frees d (footprint d (plug fs (Leaf p es))) d' (footprint d' (plug fs' (Leaf p' es)));
  po_marks : marked d (tree_nodes (plug fs (Leaf p es))) -> marked d' (tree_nodes (plug fs' (Leaf p' es)));
}.

Lemma leaf_copied d d1 p g es :
  rep d (Leaf p es) -> db_inv d -> db_used d1 g -> writes 1 (fun _ => False) d d1 ->
  db_node d1 g = set_last_modified_txid (db_txid d1) (db_node d p) ->
  rep d1 (Leaf g es) /\ footprint d1 (Leaf g es) = g :: node_pages (page_size d) (db_node d p).
Proof.
  intros (Hp & Hok & Hes) Hinv Hg W1 Hnd. cbn [pg] in *.
  destruct (node_frame d d1 (db_node d p) _ W1 (lo_node _ _ Hok)) as (Hok' & _ & Hes'); [by auto|].
  split; [split; [done|]|]; cbn [pg footprint]; rewrite Hnd.
  - split; [split; [by apply retime_node|apply Hok]|].
    change (entries d1 (db_node d p) = es). rewrite Hes'; [done|apply Hok].
  - by rewrite (wr_ps _ _ _ _ W1).
Qed.

Lemma path_footprint d fs p es : footprint d (plug fs (Leaf p es)) ≡ₚ
  (p :: (f_pg <$> fs)) ++ node_pages (page_size d) (db_node d p) ++ path_siblings d fs.
Proof. rewrite footprint_plug, frames_fp_perm. cbn [footprint pg]. solve_Permutation. Qed.

Lemma path_nodup d fs p es d' fs' p' :
  db_inv d -> rep d (plug fs (Leaf p es)) -> NoDup (footprint d (plug fs (Leaf p es))) ->
  node_pages (page_size d') (db_node d' p') = node_pages (page_size d) (db_node d p) ->
  path_siblings d' fs' = path_siblings d fs -> NoDup (p' :: (f_pg <$> fs')) ->
  (forall q, q ∈ p' :: (f_pg <$> fs') -> q ∈ p :: (f_pg <$> fs) \/ ~ db_used d q) ->
  NoDup (footprint d' (plug fs' (Leaf p' es))).
Proof.
  intros Hinv Hr Hnd Hnp Hsib Hnd' Hin.
  rewrite path_footprint, Hnp, Hsib. rewrite path_footprint in Hnd.
  apply (NoDup_refresh (db_used d) _ _ _ Hnd Hnd' Hin). intros q Hq.
  apply (footprint_used d _ q Hinv Hr). rewrite path_footprint, elem_of_app. by right.
Qed.

Lemma copy_path_ok bt d fs p (n : Z) es :
  bt_tx bt = UpdateTxRef -> db_inv d -> rep d (plug fs (Leaf p es)) -> NoDup (footprint d (plug fs (Leaf p es))) ->
  Z.of_nat (S (length fs)) <= db_space d ->
  (needs_copy d p = false -> Forall (fun f => needs_copy d (f_pg f) = false) fs) -> path_closed d fs ->
  exists fs' p' root d', copy_path bt ((p, n) :: frame_stack fs) kPageInvalidId d = Ok ((p', n) :: frame_stack fs', root) d' /\
    path_owned d fs p es d' fs' p' root.
Proof.
  intros Hbt Hinv Hr Hnd Hsp Hcl0 Hcl. pose proof Hr as Hr0. apply rep_plug_iff in Hr as [Hfs Hleaf].
  pose proof Hleaf as (Hp & Hok & Hes). cbn [pg] in *.
  pose proof Hnd as Hnd0. rewrite footprint_plug in Hnd. apply NoDup_app in Hnd as (_ & Hsep & Hndf).
  cbn [copy_path]. run_step (new_node_ok d p Hinv Hp). run_step (node_txid_ok d p Hinv Hp). rewrite Hbt.
  run_step (CopyNeeded_ok d p Hinv). destruct (needs_copy d p) eqn:En; cbn [negb].
  2: { run_step (node_is_branch_ok d p Hinv Hp). rewrite (leaf_not_branch _ (lo_leaf _ _ Hok)).
       exists fs, p, None, d. split; [done|]. split; try done; [| |by apply Hcl0|by left|apply frees_refl].
       - apply Forall_Forall2_diag, Forall_forall. intros x _. apply same_frame_refl.
       - eapply writes_weaken; [by apply writes_refl|lia|done]. }
  destruct (Node_Copy_ok d bt p Hinv Hbt Hp (no_wf _ _ (lo_node _ _ Hok))) as (g & d1 & HC & Hng & Hg1 & Hnd1 & W1 & Hfr1); [lia|].
  run_step HC. pose proof (wr_inv _ _ _ _ W1) as Hinv1.
  destruct (leaf_copied d d1 p g es Hleaf Hinv Hg1 W1 Hnd1) as [Hleaf1 Hfp1].
  run_step (node_is_branch_ok d1 g Hinv1 Hg1). rewrite (leaf_not_branch (db_node d1 g) (lo_leaf _ _ (proj1 (proj2 Hleaf1)))).
  destruct (frames_frame _ d d1 fs p W1 Hinv Hfs) as [Hfs1 Hffp1]; [by auto|].
  destruct (used_bounds d1 g Hinv1 Hg1) as (_ & Hgr & _). pose proof (wr_space _ _ _ _ W1).
  destruct (copy_path_frames bt fs d1 p g Hbt Hinv1 Hfs1) as (fs' & root & d' & Hrun & Hpc); [by rewrite Hffp1| |lia|lia|].
  { apply (path_closed_writes _ _ _ _ _ W1); [|done]. intros q Hq. split; [|by intros []].
    apply (frames_used d fs p q Hinv Hfs). by apply path_pages. }
  rewrite (bind_ok _ _ d1 tt d1) by done. run_step Hrun. exists fs', g, root, d'. split; [done|]. destruct Hpc as [P1 P2 P3 P4 P5 P6 P7 P8 P9 P10].
  assert (Hold : forall q, q ∈ f_pg <$> fs -> db_used d q).
  { intros q Hq. apply (frames_used d fs p q Hinv Hfs). by apply path_pages. }
  assert (Hkeep : forall q, q ∈ g :: node_pages (page_size d) (db_node d p) -> ~ own_path d1 fs q).
  { intros q Hq [Hin _]. apply elem_of_cons in Hq as [->|Hq]; [by apply Hng, Hold|].
    apply (Hsep q); [by apply list_elem_of_further|by apply path_pages]. }
  destruct (rep_frame _ d1 d' (Leaf g es) P3 Hinv1 Hleaf1) as [Hleaf' Hfp']; [by rewrite Hfp1|].
  assert (Hnp : node_pages (page_size d') (db_node d' g) = node_pages (page_size d) (db_node d p)).
  { rewrite Hfp1 in Hfp'. cbn in Hfp'. by injection Hfp'. }
  assert (Hfresh : forall q, q ∈ g :: (f_pg <$> fs') -> q ∈ p :: (f_pg <$> fs) \/ ~ db_used d q).
  { intros q Hq. apply elem_of_cons in Hq as [->|Hq]; [by right|].
    destruct (P5 q Hq) as [Hin|Hn]; [left; by apply list_elem_of_further|right].
    intros Hu. apply Hn. by apply (wr_used _ _ _ _ W1). }
  assert (Hsib : path_siblings d' fs' = path_siblings d fs).
  { apply same_frames_siblings; [done|]. intros f Hf. rewrite P6 by done.
    destruct (frames_ok_elem d fs p f Hfs Hf) as [cf Hff]. apply (siblings_frame _ d d1 f cf W1 Hinv Hff). by auto. }
  assert (Hw : writes (Z.of_nat (S (length fs))) (own_path d fs) d d').
  { replace (Z.of_nat (S (length fs))) with (1 + Z.of_nat (length fs)) by lia.
    apply (writes_trans _ _ _ _ _ _ d1 _ W1 P3). intros q Hq [[]|[Hin Hnc]]. split; [done|].
    rewrite <- Hnc. symmetry. apply (needs_copy_writes _ _ _ _ _ W1); auto. }
  split.
  - apply rep_plug_iff. by split.
  - done.
  - exact Hw.
  - destruct root as [r|]; [done|]. destruct P4 as [Hne ->]. unfold root_pg.
    destruct (last fs) eqn:El; [done|]. by apply last_None in El.
  - rewrite (needs_copy_writes _ _ _ _ g P3 Hg1); [|by intros [Hin _]; apply Hng, Hold].
    apply needs_copy_fresh. by rewrite Hnd1.
  - done.
  - apply (path_nodup d fs p es d' fs' g Hinv Hr0 Hnd0 Hnp Hsib).
    + constructor; [|done]. intros Hin. destruct (P5 g Hin) as [Hin'|Hn]; [by apply Hng, Hold|done].
    + exact Hfresh.
  - intros q Hq. destruct (Hfresh q Hq) as [Hin|Hn]; [left|by right]. done.
  - rewrite !path_footprint, Hnp, Hsib. apply frees_frame.
    apply (frees_trans _ _ d1 ([g] ++ (f_pg <$> fs))); [exact (frees_frame _ _ _ _ _ Hfr1)|].
    by apply (frees_beside _ _ _ _ [g]).
  - unfold marked. rewrite !Forall_forall. intros Hm.
    assert (Hm' : marked d' (g :: (f_pg <$> fs'))).
    { apply marked_cons. split.
      - unfold mark. rewrite (wr_node _ _ _ _ P3 g Hg1), Hnd1; [|by intros [Hin _]; apply Hng, Hold].
        cbn [header set_last_modified_txid set_header last_modified_txid]. rewrite (env_txid _ _ (wr_env _ _ _ _ P3)). lia.
      - apply P10, (marked_writes _ _ _ _ _ W1); [intros q Hq; split; [by apply Hold|by intros []]|].
        apply Forall_forall. intros q Hq. apply Hm, plug_path_nodes. left. by apply list_elem_of_further. }
    intros q Hq. apply plug_path_nodes in Hq as [Hq|Hq].
    + unfold marked in Hm'. rewrite Forall_forall in Hm'. by apply Hm'.
    + rewrite (same_frames_nodes _ _ P2) in Hq. rewrite (env_txid _ _ (wr_env _ _ _ _ Hw)). pose proof (sibling_nodes_fp d fs q Hq) as Hs.
      unfold mark. rewrite (wr_node _ _ _ _ Hw).
      * apply Hm, plug_path_nodes. by right.
      * apply (footprint_used d _ q Hinv Hr0). rewrite path_footprint, !elem_of_app. tauto.
      * intros [Hin _]. rewrite path_footprint in Hnd0. apply NoDup_app in Hnd0 as (_ & Hd & _).
        apply (Hd q); [by apply list_elem_of_further|]. rewrite elem_of_app. by right.
Qed.
