(* ===== verification/TreeSteps.v ===== *)
(** Steps of a write transaction on its trees: the page of a tree's root moves
    with copies, splits and merges ([BTree::root_pgid_], a reference into the
    transaction's meta or into the parent bucket), and
    [Iterator::CopyAllPagesByPath] of [src/btree_iterator.cpp] gives a search
    path to the transaction. *)
From S2P Require Import Prelude Format Comparator State Memory FreeMap Pager PagerI PagerInst.
From S2P Require Import Node NodeWf NodeSpec Search BranchSpec Tx Iterator BTree Trails NodeDb Freed Tree TreeSearch TreeGet TreeWalk Copying.

Implicit Types (d : DBImpl) (p q : Z) (nd : NodeData) (t u : tree) (fs : list frame).

(** ** What the trees of the transaction are not: the environment but the roots,
    in the meta and in the entries of the open sub buckets *)
Definition forget_entries (b : BucketImpl) : BucketImpl :=
  set_sub_bucket_map (option_map (map (fun e : list byte * (Z * Z) => (e.1, (0, 0)))) (sub_bucket_map b)) b.
Definition forget_tx (t : TxImpl) : TxImpl :=
  mkTx (set_user_root 0 (meta_format t)) (tx_writable t) (forget_entries (user_bucket t)) (map (option_map forget_entries) (sub_bucket_cache t)).
Definition forget_roots (m : TxManager) : TxManager := set_update_tx (forget_tx <$> update_tx m) m.
Definition forget_trees d : DBImpl := set_tx_manager (forget_roots (tx_manager d)) d.
Definition tx_env d : DBImpl := forget_trees (db_env d).

Lemma env_tx_env d d' : db_env d' = db_env d -> tx_env d' = tx_env d.
Proof. unfold tx_env. by intros ->. Qed.
Lemma tx_env_options d d' : tx_env d' = tx_env d -> options d' = options d.
Proof. intros E. change (options (tx_env d') = options (tx_env d)). by rewrite E. Qed.
Lemma tx_env_views d d' : tx_env d' = tx_env d -> view_txs d' = view_txs d.
Proof. intros E. change (view_txs (tx_env d') = view_txs (tx_env d)). by rewrite E. Qed.

Lemma tx_env_txid d d' : tx_env d' = tx_env d -> db_txid d' = db_txid d.
Proof.
  assert (He : forall d, db_txid (tx_env d) = db_txid d).
  { intros x. unfold db_txid, update_txid, tx_env, forget_trees, forget_roots, db_env, forget_pages. cbn.
    by destruct (update_tx (tx_manager x)). }
  intros E. by rewrite <- He, E, He.
Qed.
Lemma tx_env_needs_copy d d' q :
  tx_env d' = tx_env d -> db_node d' q = db_node d q -> needs_copy d' q = needs_copy d q.
Proof.
  intros E Hn. unfold needs_copy. rewrite Hn, (tx_env_txid _ _ E).
  assert (He : forall d a b, copy_needed (tx_manager (tx_env d)) a b = copy_needed (tx_manager d) a b) by done.
  by rewrite <- He, E, He.
Qed.

(** ** Steps that may also move roots *)
Record steps (k : Z) (W : Z -> Prop) d d' : Prop := {
  st_inv : db_inv d';
  st_env : tx_env d' = tx_env d;
  st_keeps :> keeps_pages W d d';
  st_space : db_space d - k <= db_space d';
}.

Lemma writes_steps k W d d' : writes k W d d' -> steps k W d d'.
Proof. intros Hw. split; [apply Hw|apply env_tx_env, Hw|by eapply writes_keeps|apply Hw]. Qed.

Lemma keeps_pages_trans (W1 W2 W : Z -> Prop) d d1 d2 :
  keeps_pages W1 d d1 -> keeps_pages W2 d1 d2 -> (forall q, db_used d q -> W1 q \/ W2 q -> W q) -> keeps_pages W d d2.
Proof.
  intros [P1 U1 N1 M1] [P2 U2 N2 M2] HW. split.
  - congruence.
  - auto.
  - intros q Hq Hn. rewrite N2, N1; auto.
  - intros a Ha Hn. rewrite M2, M1; try rewrite P1; auto.
Qed.
Lemma keeps_pages_weaken (W W' : Z -> Prop) d d' :
  keeps_pages W d d' -> (forall q, db_used d q -> W q -> W' q) -> keeps_pages W' d d'.
Proof. intros [P U N M] HW. split; auto. Qed.

Lemma steps_trans k1 k2 (W1 W2 W : Z -> Prop) d d1 d2 :
  steps k1 W1 d d1 -> steps k2 W2 d1 d2 -> (forall q, db_used d q -> W1 q \/ W2 q -> W q) -> steps (k1 + k2) W d d2.
Proof.
  intros [I1 E1 K1 S1] [I2 E2 K2 S2] HW. split; [done|congruence|by apply (keeps_pages_trans W1 W2 W d d1)|lia].
Qed.
Lemma steps_weaken k k' (W W' : Z -> Prop) d d' :
  steps k W d d' -> k <= k' -> (forall q, db_used d q -> W q -> W' q) -> steps k' W' d d'.
Proof. intros [I E K S] Hk HW. split; [done|done|by eapply keeps_pages_weaken|lia]. Qed.

Lemma steps_needs_copy k W d d' q : steps k W d d' -> db_used d q -> ~ W q -> needs_copy d' q = needs_copy d q.
Proof. intros Hs Hq Hn. apply tx_env_needs_copy; [apply Hs|by apply (kp_node _ _ _ Hs)]. Qed.

(** ** The root reference *)
Lemma tree_root_writes bt r k W d d' :
  bt_tx bt = UpdateTxRef -> writes k W d d' -> db_inv d -> tree_root bt d = Ok r d -> tree_root bt d' = Ok r d'.
Proof.
  intros Hbt Hw [(tx & Hwf) _]. pose proof (wr_inv _ _ _ _ Hw) as [(tx' & Hwf') _].
  pose proof (aw_tx _ _ Hwf) as Htx. pose proof (aw_tx _ _ Hwf') as Htx'.
  pose proof (f_equal (fun d => update_tx (tx_manager d)) (wr_env _ _ _ _ Hw)) as E. cbn in E. rewrite Htx, Htx' in E. cbn in E.
  apply (inj Some) in E. pose proof (f_equal (fun t : TxImpl => m_user_root (meta_format t)) E :
    m_user_root (meta_format tx') = m_user_root (meta_format tx)) as Hm.
  pose proof (f_equal user_bucket E : user_bucket tx' = user_bucket tx) as Hub.
  pose proof (f_equal sub_bucket_cache E : sub_bucket_cache tx' = sub_bucket_cache tx) as Hsc.
  assert (Hf : forall id, find_bucket tx' id = find_bucket tx id).
  { intros id. unfold find_bucket. by rewrite Hub, Hsc. }
  unfold tree_root, get_root. rewrite Hbt. destruct (bt_root bt) as [|parent key].
  - unfold get_tx, get_update_tx, bind. rewrite Htx, Htx'. cbn. intros [= <-]. by rewrite Hm.
  - unfold at_bucket, get_tx, get_update_tx, bind. rewrite Htx, Htx'.
    rewrite Hf. destruct (find_bucket tx parent) as [b|]; [|done]. cbn.
    destruct (sub_bucket_map b ≫= smap_find key) as [[id g]|]; [|done]. by intros [= <-].
Qed.

Lemma smap_find_assign {A} k (v w : A) (m : smap A) : smap_find k m = Some v -> smap_find k (smap_assign k w m) = Some w.
Proof.
  unfold smap_find, smap_assign. induction m as [|[k' v'] m IH]; [done|]. cbn.
  destruct (decide (k' = k)) as [->|Hne].
  - intros _. rewrite !(bool_decide_true (k = k)) by done. by cbn.
  - rewrite !(bool_decide_false (k' = k)) by done. exact IH.
Qed.

Lemma find_store_bucket id b b' (tx : TxImpl) : find_bucket tx id = Some b -> find_bucket (store_bucket id b' tx) id = Some b'.
Proof.
  unfold find_bucket, store_bucket. destruct (id =? kUserRootBucketId); [done|]. destruct (0 <=? id); [|done].
  intros H. cbn. rewrite list_lookup_insert_eq; [done|].
  destruct (sub_bucket_cache tx !! Z.to_nat id) eqn:E; [by apply lookup_lt_Some in E|done].
Qed.

Lemma forget_assign k v (m : smap (Z * Z)) :
  map (fun e : list byte * (Z * Z) => (e.1, (0, 0))) (smap_assign k v m) = map (fun e => (e.1, (0, 0))) m.
Proof.
  induction m as [|[k' w] m IH]; [done|]. change (smap_assign k v ((k', w) :: m)) with ((if bool_decide (k' = k) then (k', v) else (k', w)) :: smap_assign k v m).
  cbn [map]. rewrite IH. by case_bool_decide.
Qed.

Lemma map_insert_same {A B} (f : A -> B) (l : list A) i x y : l !! i = Some x -> f y = f x -> map f (<[i := y]> l) = map f l.
Proof. revert i. induction l as [|a l IH]; intros [|i] Hi E; cbn in *; [done|done| |by rewrite IH]. injection Hi as ->. by rewrite E. Qed.

Lemma forget_store_bucket id b b' (tx : TxImpl) : find_bucket tx id = Some b -> forget_entries b' = forget_entries b ->
  forget_tx (store_bucket id b' tx) = forget_tx tx.
Proof.
  unfold find_bucket, store_bucket, forget_tx. destruct (id =? kUserRootBucketId).
  - intros [= <-] E. cbn. by rewrite E.
  - destruct (0 <=? id); [|done]. intros Hb E. cbn. f_equal.
    destruct (sub_bucket_cache tx !! Z.to_nat id) as [[b0|]|] eqn:Ec; [|done..]. cbn in Hb. injection Hb as ->.
    apply (map_insert_same _ _ _ (Some b)); [done|]. cbn. by rewrite E.
Qed.

(** Storing the write transaction with another root or bucket: the pages stay. *)
Lemma put_tx_steps d tx tx' :
  db_inv d -> update_tx (tx_manager d) = Some tx -> forget_tx tx' = forget_tx tx ->
  steps 0 (fun _ => False) d (set_tx_manager (set_update_tx (Some tx') (tx_manager d)) d).
Proof.
  intros Hinv Htx Hf. set (d' := set_tx_manager _ d).
  pose proof (f_equal meta_format Hf : set_user_root 0 (meta_format tx') = set_user_root 0 (meta_format tx)) as Hm.
  assert (Hc : m_page_count (meta_format tx') = m_page_count (meta_format tx)) by exact (f_equal m_page_count Hm).
  split.
  - destruct Hinv as [(tx0 & [H1 H2 H3 H4 H5 H6 H7 H8]) Hok]. rewrite Htx in H1. injection H1 as <-. split; [|done].
    exists tx'. split; try done; rewrite Hc; done.
  - assert (Hp : db_pending d' = db_pending d).
    { unfold db_pending, db_txid, update_txid. cbn. rewrite Htx. cbn. by rewrite (f_equal m_txid Hm : m_txid (meta_format tx') = m_txid (meta_format tx)). }
    set (bare := fun t : TxImpl => set_meta_format (set_page_count 0 (meta_format t)) t).
    assert (Ef : forget_tx (bare tx') = forget_tx (bare tx)).
    { unfold forget_tx. f_equal; [exact (f_equal (set_page_count 0) Hm)|exact (f_equal tx_writable Hf)|exact (f_equal user_bucket Hf)|].
      exact (f_equal sub_bucket_cache Hf). }
    unfold tx_env, forget_trees, forget_roots, db_env. rewrite Hp. unfold forget_pages, d'.
    cbn -[forget_tx set_meta_format]. rewrite Htx. cbn -[forget_tx set_meta_format]. fold (bare tx') (bare tx). by rewrite Ef.
  - split; [done| |done|done]. intros q (tx0 & H1 & Hq & Hn). rewrite Htx in H1. injection H1 as <-.
    exists tx'. split; [done|]. split; [by rewrite Hc|done].
  - assert (db_space d' = db_space d) as ->; [|lia]. unfold db_space. rewrite Htx, <- Hc. done.
Qed.

Lemma set_tree_root_ok bt r r0 d :
  bt_tx bt = UpdateTxRef -> db_inv d -> tree_root bt d = Ok r0 d ->
  exists d', set_tree_root bt r d = Ok tt d' /\ tree_root bt d' = Ok r d' /\ steps 0 (fun _ => False) d d' /\
    (forall q, db_node d' q = db_node d q) /\ (forall q, db_used d' q -> db_used d q) /\ db_freed d' = db_freed d.
Proof.
  intros Hbt Hinv Hroot0. cut (exists d', set_tree_root bt r d = Ok tt d' /\ tree_root bt d' = Ok r d' /\ steps 0 (fun _ => False) d d' /\
    (forall q, db_node d' q = db_node d q) /\ (forall q, db_used d' q -> db_used d q) /\ pager d' = pager d).
  { intros (d' & H1 & H2 & H3 & H4 & H5 & H6). exists d'. split_and!; try done.
    unfold db_freed. by rewrite H6, (tx_env_txid _ _ (st_env _ _ _ _ H3)). }
  revert Hroot0. pose proof Hinv as [(tx & Hwf) _]. pose proof (aw_tx _ _ Hwf) as Htx.
  unfold set_tree_root, set_root, tree_root, get_root. rewrite Hbt.
  assert (Hback : forall tx' q, m_page_count (meta_format tx') = m_page_count (meta_format tx) ->
    db_used (set_tx_manager (set_update_tx (Some tx') (tx_manager d)) d) q -> db_used d q).
  { intros tx' q Hc (tx0 & [= <-] & Hq & Hf). exists tx. split; [done|]. split; [by rewrite <- Hc|done]. }
  destruct (bt_root bt) as [|parent key].
  - intros _. unfold get_tx, get_update_tx, put_tx, put_update_tx, bind, modify. rewrite Htx.
    eexists. split; [done|]. split; [done|]. split; [by apply (put_tx_steps d tx)|]. split; [done|].
    split; [|done]. intros q. by apply Hback.
  - unfold put_bucket, at_bucket, get_tx, get_update_tx, put_tx, put_update_tx, bind, modify. rewrite Htx.
    destruct (find_bucket tx parent) as [b|] eqn:Eb; [|done]. cbn. rewrite ?Htx.
    destruct (sub_bucket_map b) as [m|] eqn:Em; [|done]. cbn.
    destruct (smap_find key m) as [[id g]|] eqn:Ef; [|done]. intros _. rewrite Htx.
    eexists. split; [done|]. split.
    + cbn. rewrite (find_store_bucket _ b) by done. cbn. by rewrite (smap_find_assign _ _ _ _ Ef).
    + split; [apply (put_tx_steps d tx); try done|split; [done|split; [|done]]].
      * apply (forget_store_bucket _ b); [done|]. unfold forget_entries. rewrite Em. cbn [option_map sub_bucket_map set_sub_bucket_map]. by rewrite forget_assign.
      * intros q. apply Hback. unfold store_bucket. by destruct (_ =? _).
Qed.

(** ** Pages of the transaction come with their ancestors *)
Definition own d q : Prop := needs_copy d q = false.

Fixpoint own_closed d t : Prop :=
  match t with
  | Leaf _ _ => True
  | Branch p _ ts => foldr (fun t P => ((own d (pg t) -> own d p) /\ own_closed d t) /\ P) True ts
  end.

Lemma own_closed_Branch d p ks ts :
  own_closed d (Branch p ks ts) <-> Forall (fun t => (own d (pg t) -> own d p) /\ own_closed d t) ts.
Proof. cbn. apply foldr_Forall. Qed.

Lemma own_closed_ext d d' t :
  (forall q, q ∈ footprint d t -> needs_copy d' q = needs_copy d q) -> own_closed d t -> own_closed d' t.
Proof.
  induction t as [p es|p ks ts IH] using tree_induction; [done|]. intros Hq. rewrite !own_closed_Branch.
  intros Hc. rewrite Forall_forall in IH, Hc. apply Forall_forall. intros t Ht. destruct (Hc t Ht) as [Hown Hct].
  assert (Hin : forall q, q ∈ footprint d t -> q ∈ footprint d (Branch p ks ts)).
  { intros q Hqt. apply list_elem_of_further, list_elem_of_bind. eauto. }
  split; [|by apply IH; auto]. unfold own in *. rewrite (Hq p) by apply (footprint_pg d (Branch p ks ts)).
  by rewrite (Hq (pg t)) by (apply Hin, footprint_pg).
Qed.

Lemma own_closed_steps k W d d' t :
  steps k W d d' -> db_inv d -> rep d t -> (forall q, q ∈ footprint d t -> ~ W q) -> own_closed d t -> own_closed d' t.
Proof.
  intros Hst Hinv Hr HW. apply own_closed_ext. intros q Hq. apply (steps_needs_copy _ _ _ _ _ Hst); [|by apply HW].
  by apply (footprint_used d t).
Qed.

(** Along a path. *)
Fixpoint frames_closed d fs (c : Z) : Prop :=
  match fs with
  | f :: fs => (own d c -> own d (f_pg f)) /\
      Forall (fun t => (own d (pg t) -> own d (f_pg f)) /\ own_closed d t) (siblings f) /\ frames_closed d fs (f_pg f)
  | [] => True
  end.

Lemma own_closed_plug d fs t : own_closed d (plug fs t) <-> frames_closed d fs (pg t) /\ own_closed d t.
Proof.
  revert t. induction fs as [|f fs IH]; intros t; cbn [plug frames_closed]; [tauto|].
  rewrite IH. unfold plug1. rewrite own_closed_Branch. unfold siblings. rewrite !Forall_app, Forall_cons. cbn [pg]. tauto.
Qed.

Lemma frames_closed_up d fs c : frames_closed d fs c -> own d c -> Forall (fun f => own d (f_pg f)) fs.
Proof.
  revert c. induction fs as [|f fs IH]; intros c Hc Ho; [done|]. destruct Hc as (H1 & _ & H3).
  constructor; [auto|]. apply (IH (f_pg f)); auto.
Qed.
Lemma frames_closed_path d fs c : frames_closed d fs c -> path_closed d fs.
Proof.
  revert c. induction fs as [|f fs IH]; intros c Hc; [done|]. destruct Hc as (_ & _ & H3).
  split; [|by apply (IH (f_pg f))]. intros Ho. by apply (frames_closed_up d fs (f_pg f)).
Qed.
Lemma frames_closed_own d fs c :
  Forall (fun f => own d (f_pg f)) fs -> Forall (fun f => Forall (own_closed d) (siblings f)) fs -> frames_closed d fs c.
Proof.
  revert c. induction fs as [|f fs IH]; intros c Ho Hs; [done|].
  apply Forall_cons in Ho as [Hof Ho]. apply Forall_cons in Hs as [Hsf Hs]. split; [done|]. split; [|by apply IH].
  eapply Forall_impl; [exact Hsf|]. done.
Qed.
Lemma frames_closed_siblings d fs c : frames_closed d fs c -> Forall (fun f => Forall (own_closed d) (siblings f)) fs.
Proof.
  revert c. induction fs as [|f fs IH]; intros c Hc; [constructor|]. destruct Hc as (_ & Hs & Hc).
  constructor; [|by apply (IH (f_pg f))]. eapply Forall_impl; [exact Hs|]. by intros t [].
Qed.

(** ** A tree of the write transaction *)
Record own_tree (cmp : comparator) (key_ok : list byte -> Prop) d bt t (h : nat) : Prop := {
  ot_at :> tree_at cmp key_ok d bt t h;
  ot_tx : bt_tx bt = UpdateTxRef;
  ot_nodup : NoDup (footprint d t);
  ot_closed : own_closed d t;
}.

(** The path of a search, given to the transaction. *)
Record path_taken d bt fs p es d' fs' p' : Prop := {
  pt_rep : rep d' (plug fs' (Leaf p' es));
  pt_same : Forall2 same_frame fs fs';
  pt_steps : steps (Z.of_nat (S (length fs))) (own_path d fs) d d';
  pt_root : tree_root bt d' = Ok (root_pg fs' p') d';
  pt_own : own d' p';
  pt_path : Forall (fun f => own d' (f_pg f)) fs';
  pt_closed : own_closed d' (plug fs' (Leaf p' es));
  pt_nodup : NoDup (footprint d' (plug fs' (Leaf p' es)));
  pt_fresh q : q ∈ p' :: (f_pg <$> fs') -> q ∈ p :: (f_pg <$> fs) \/ ~ db_used d q;
  pt_frees : frees d (footprint d (plug fs (Leaf p es))) d' (footprint d' (plug fs' (Leaf p' es)));
  pt_marks : marked d (tree_nodes (plug fs (Leaf p es))) -> marked d' (tree_nodes (plug fs' (Leaf p' es)));
}.

Lemma copied_closed d fs p es d' fs' p' root :
  db_inv d -> rep d (plug fs (Leaf p es)) -> NoDup (footprint d (plug fs (Leaf p es))) -> frames_closed d fs p ->
  path_owned d fs p es d' fs' p' root -> own_closed d' (plug fs' (Leaf p' es)).
Proof.
  intros Hinv Hr Hnd Hcl [_ P2 P3 _ _ P5 _ _ _ _]. apply own_closed_plug. split; [|done].
  apply frames_closed_own; [done|]. apply rep_plug_iff in Hr as [Hfs _].
  rewrite footprint_plug, frames_fp_perm in Hnd. apply NoDup_app in Hnd as (_ & _ & Hnd).
  apply NoDup_app in Hnd as (_ & Hsep & _).
  apply frames_closed_siblings in Hcl. apply Forall_forall. intros f' Hf'.
  apply list_elem_of_lookup_1 in Hf' as (i & Hi). destruct (Forall2_lookup_r _ _ _ _ _ P2 Hi) as (f & Hf & ->).
  apply list_elem_of_lookup_2 in Hf. change (siblings (move_frame _ f)) with (siblings f).
  rewrite Forall_forall in Hcl. specialize (Hcl f Hf). destruct (frames_ok_elem d fs p f Hfs Hf) as [c Hfo].
  apply Forall_forall. intros t Ht. rewrite Forall_forall in Hcl.
  apply (own_closed_steps _ _ d d' t (writes_steps _ _ _ _ P3) Hinv); [| |by apply Hcl].
  - destruct Hfo as [_ _ _ _ _ _ Hl Hrr]. rewrite Forall_forall in Hl, Hrr.
    unfold siblings in Ht. apply elem_of_app in Ht as [Ht|Ht]; auto.
  - intros q Hq [Hin _]. apply (Hsep q Hin). unfold path_siblings, siblings_fp. apply list_elem_of_bind. exists f.
    split; [|done]. apply list_elem_of_bind. eauto.
Qed.

Lemma CopyAllPagesByPath_ok bt d fs p (n : Z) es it :
  bt_tx bt = UpdateTxRef -> db_inv d -> rep d (plug fs (Leaf p es)) -> NoDup (footprint d (plug fs (Leaf p es))) ->
  tree_root bt d = Ok (root_pg fs p) d -> Z.of_nat (S (length fs)) <= db_space d ->
  own_closed d (plug fs (Leaf p es)) -> it_btree it = bt -> it_stack it = (p, n) :: frame_stack fs ->
  exists fs' p' d', CopyAllPagesByPath (it, d) = Ok tt (set_stack ((p', n) :: frame_stack fs') it, d') /\
    path_taken d bt fs p es d' fs' p'.
Proof.
  intros Hbt Hinv Hr Hnd Hroot Hsp Hcl Eit Est. apply own_closed_plug in Hcl as [Hcl _].
  destruct (copy_path_ok bt d fs p n es Hbt Hinv Hr Hnd Hsp (frames_closed_up d fs p Hcl) (frames_closed_path d fs p Hcl))
    as (fs' & p' & root & d1 & Hrun & [P1 P2 P3 P4 P5 P5' P6 P7 P8 P9]).
  pose proof (copied_closed _ _ _ _ _ _ _ _ Hinv Hr Hnd Hcl (Build_path_owned _ _ _ _ _ _ _ _ P1 P2 P3 P4 P5 P5' P6 P7 P8 P9)) as Hcl1.
  unfold CopyAllPagesByPath. run_step (iter_ok it d). rewrite Est, Eit.
  run_step (on_db_ok _ it d _ _ Hrun). run_step (on_iter_ok (set_stack ((p', n) :: frame_stack fs')) it d1).
  pose proof (tree_root_writes bt _ _ _ _ _ Hbt P3 Hinv Hroot) as Hroot1. pose proof (wr_inv _ _ _ _ P3) as Hinv1.
  destruct root as [r|].
  2: { exists fs', p', d1. split; [done|]. split; try done; [by apply writes_steps|]. by rewrite P4. }
  subst r. destruct (set_tree_root_ok bt (root_pg fs' p') _ d1 Hbt Hinv1 Hroot1) as (d' & Hset & Hroot' & Hst & Hn & _ & Hfd).
  exists fs', p', d'. split; [exact (on_db_ok _ _ d1 _ _ Hset)|].
  destruct (rep_frame _ d1 d' _ Hst Hinv1 P1) as [Hr' Hfp']; [by auto|].
  assert (Hown : forall q, needs_copy d' q = needs_copy d1 q) by (intros q; by apply tx_env_needs_copy; [apply Hst|]).
  split; try done.
  - replace (Z.of_nat (S (length fs))) with (Z.of_nat (S (length fs)) + 0) by lia.
    apply (steps_trans _ _ (own_path d fs) (fun _ => False) _ d d1 d'); [by apply writes_steps|done|].
    intros q _ [Hq|[]]. exact Hq.
  - unfold own. by rewrite Hown.
  - eapply Forall_impl; [exact P5'|]. intros f Hf. unfold own. by rewrite Hown.
  - apply (own_closed_ext d1); [by auto|done].
  - by rewrite Hfp'.
  - rewrite Hfp'. apply (frees_trans _ _ _ _ _ _ P8), frees_none; [done|by apply (kp_used _ _ _ Hst)|done|].
    intros q Hq. split; [by left|]. by apply (kp_used _ _ _ Hst), (footprint_used d1 _ q Hinv1 P1).
  - intros Hm. apply (marked_same d1); [exact (tx_env_txid _ _ (st_env _ _ _ _ Hst))| |by apply P9].
    intros q _. unfold mark. by rewrite Hn.
Qed.

Lemma path_taken_trace d bt fs p es d' fs' p' :
  path_taken d bt fs p es d' fs' p' -> Forall balanced fs -> trace (plug fs' (Leaf p' es)) = trace (plug fs (Leaf p es)).
Proof.
  intros [_ Hs _ _ _ _ _ _ _ _ _] Hb. destruct (same_frames_items _ _ Hs) as (Hl & Hr & _ & Hb').
  rewrite !trace_plug by auto. by rewrite Hl, Hr.
Qed.

Lemma shape_balanced h fs t : shape h (plug fs t) -> Forall (fun f => length (f_ks1 f) = length (f_ts1 f)) fs -> Forall balanced fs.
Proof.
  intros Hs Hf. revert h t Hs. induction Hf as [|f fs Hf Hfs IH]; intros h t Hs; [constructor|]. cbn [plug] in Hs.
  constructor; [|by apply (IH h (plug1 f t))]. destruct (shape_plug _ _ _ Hs) as (m & _ & Hm).
  destruct m as [|m]; [done|]. destruct Hm as (_ & Hm & _). rewrite !length_app in Hm. cbn in Hm. split; [done|lia].
Qed.
