(* ===== verification/Height.v ===== *)
(** How high a tree can be: every branch has two children or more, the pages of
    a tree are distinct, and page ids have 24 bits; so no tree on a file reaches
    the 32 levels of the iterator's stack. *)
From S2P Require Import Prelude Format Comparator State Memory FreeMap Pager PagerI PagerInst.
From S2P Require Import Node NodeWf NodeSpec Search BranchSpec Tx Iterator BTree NodeDb Tree TreeSearch TreeGet TreeWalk Copying TreeSteps.

Implicit Types (d : DBImpl) (p q : Z) (t u : tree) (ts : list tree).

(** ** Counting nodes *)
Lemma tree_nodes_many h t : shape h t -> 2 ^ Z.of_nat h <= Z.of_nat (length (tree_nodes t)).
Proof.
  revert t. induction h as [|h IH]; intros [p es|p ks ts] Hs; try done. apply shape_Branch in Hs as (Hks & Hlen & Hts).
  destruct ks as [|k ks]; [done|]. destruct ts as [|t1 [|t2 ts]]; [done..|]. clear Hlen Hks.
  apply Forall_cons in Hts as [H1 [H2 _]%Forall_cons]. pose proof (IH _ H1). pose proof (IH _ H2). rewrite Nat2Z.inj_succ, Z.pow_succ_r by lia.
  cbn [tree_nodes]. rewrite !bind_cons. cbn [length]. rewrite !length_app. lia.
Qed.

Lemma bind_sublist {A B} (f g : A -> list B) l : Forall (fun x => f x `sublist_of` g x) l -> (l ≫= f) `sublist_of` (l ≫= g).
Proof. induction 1 as [|x l Hx _ IH]; [done|]. rewrite !bind_cons. by apply sublist_app. Qed.

Lemma tree_nodes_sublist d t : tree_nodes t `sublist_of` footprint d t.
Proof.
  induction t as [p es|p ks ts IH] using tree_induction; cbn [tree_nodes footprint pg]; apply sublist_skip; [apply sublist_nil_l|].
  by apply bind_sublist.
Qed.

Lemma NoDup_sublist {A} (l k : list A) : l `sublist_of` k -> NoDup k -> NoDup l.
Proof.
  induction 1 as [|x l k Hlk IH|x l k Hlk IH]; [done| |]; rewrite NoDup_cons; intros [Hx Hk].
  - apply NoDup_cons. split; [|by apply IH]. contradict Hx. by eapply elem_of_sublist.
  - by apply IH.
Qed.

(** Distinct numbers below a bound. *)
Lemma NoDup_bound (l : list Z) n : NoDup l -> 0 <= n -> (forall q, q ∈ l -> 0 <= q < n) -> Z.of_nat (length l) <= n.
Proof.
  intros Hnd Hn Hl. assert (Hsub : l ⊆+ seqZ 0 n) by (apply NoDup_submseteq; [done|]; intros q Hq; apply elem_of_seqZ; specialize (Hl q Hq); lia).
  apply submseteq_length in Hsub. rewrite length_seqZ in Hsub. lia.
Qed.

(** ** The height *)
Lemma height_bound d t h : db_inv d -> rep d t -> NoDup (footprint d t) -> shape h t -> (h <= 24)%nat.
Proof.
  intros Hinv Hrep Hnd Hs. pose proof (tree_nodes_many h t Hs) as Hmany. pose proof (tree_nodes_sublist d t) as Hsub.
  assert (Hle : Z.of_nat (length (tree_nodes t)) <= 2 ^ 24).
  { apply NoDup_bound; [by apply (NoDup_sublist _ (footprint d t))|lia|]. intros q Hq.
    apply (used_bounds d q Hinv), (footprint_used d t q Hinv Hrep), (elem_of_sublist _ _ _ Hq Hsub). }
  apply Nat2Z.inj_le. apply (Z.pow_le_mono_r_iff 2); lia.
Qed.

Lemma own_tree_height cmp key_ok d bt t h : own_tree cmp key_ok d bt t h -> (h <= 24)%nat.
Proof. intros [[_ Hinv Hrep _ Hs _ _] _ Hnd _]. by apply (height_bound d t). Qed.
