(* ===== verification/Forest.v ===== *)
(** Forests: trees on disjoint pages, and the steps that rebuild some of them,
    with a frame rule.  Splits, merges and the climb after a split work on a
    few trees at a time; these lemmas carry the others along. *)
From S2P Require Import Prelude Format Comparator State Memory FreeMap Pager PagerI PagerInst.
From S2P Require Import Node NodeWf NodeSpec Search BranchSpec Tx Iterator BTree NodeDb Freed Tree Copying TreeSteps.

Implicit Types (d : DBImpl) (p q : Z) (t u : tree) (ts us : list tree).

Definition forest_fp d ts : list Z := ts ≫= footprint d.

Record forest d ts : Prop := {
  fr_inv : db_inv d;
  fr_rep : Forall (rep d) ts;
  fr_nodup : NoDup (forest_fp d ts);
}.

(** The trees [ts] become [ts']: the pages [W] are written in place, every
    other page of the new trees was theirs or was not in use, so is every node,
    no page in use changes hands between transactions, and what is freed is no
    page of the new trees. *)
Record moves (k : Z) (W : Z -> Prop) d ts d' ts' : Prop := {
  mv_writes : writes k W d d';
  mv_rep : Forall (rep d') ts';
  mv_pages q : q ∈ forest_fp d' ts' -> q ∈ forest_fp d ts \/ ~ db_used d q;
  mv_nodup : NoDup (forest_fp d' ts');
  mv_own q : db_used d q -> needs_copy d' q = needs_copy d q;
  mv_nodes q : q ∈ forest_nodes ts' -> q ∈ forest_nodes ts \/ ~ db_used d q;
  mv_frees : frees d (forest_fp d ts) d' (forest_fp d' ts');
  mv_marks : marked d (forest_nodes ts) -> marked d' (forest_nodes ts');
}.

Lemma moves_forest k W d ts d' ts' : moves k W d ts d' ts' -> forest d' ts'.
Proof. intros [Hw Hr _ Hn _ _ _ _]. split; [apply Hw|done|done]. Qed.

Lemma moves_refl d ts : forest d ts -> moves 0 (fun _ => False) d ts d ts.
Proof. intros [Hi Hr Hn]. split; [by apply writes_refl|done|by left|done|done|by left|apply frees_refl|done]. Qed.

Lemma moves_weaken k k' (W W' : Z -> Prop) d ts d' ts' :
  moves k W d ts d' ts' -> k <= k' -> (forall q, db_used d q -> W q -> W' q) -> moves k' W' d ts d' ts'.
Proof. intros [Hw Hr Hp Hn Ho Hno Hfr Hm] Hk HW. split; [by eapply writes_weaken|done..]. Qed.

Lemma moves_trans k1 k2 (W1 W2 W : Z -> Prop) d ts d1 ts1 d2 ts2 :
  moves k1 W1 d ts d1 ts1 -> moves k2 W2 d1 ts1 d2 ts2 -> (forall q, db_used d q -> W1 q \/ W2 q -> W q) ->
  moves (k1 + k2) W d ts d2 ts2.
Proof.
  intros [Hw1 Hr1 Hp1 Hn1 Ho1 Hno1 Hf1 Hm1] [Hw2 Hr2 Hp2 Hn2 Ho2 Hno2 Hf2 Hm2] HW. split; [by eapply writes_trans|done| |done| | |by eapply frees_trans|tauto].
  - intros q Hq. destruct (Hp2 q Hq) as [Hq1|Hf]; [by apply Hp1|right]. intros Hu. apply Hf. by apply (wr_used _ _ _ _ Hw1).
  - intros q Hq. rewrite Ho2, Ho1; [done|done|by apply (wr_used _ _ _ _ Hw1)].
  - intros q Hq. destruct (Hno2 q Hq) as [Hq1|Hf]; [by apply Hno1|right]. intros Hu. apply Hf. by apply (wr_used _ _ _ _ Hw1).
Qed.

Lemma nodes_fp d ts q : q ∈ forest_nodes ts -> q ∈ forest_fp d ts.
Proof.
  intros (t & Hq & Ht)%list_elem_of_bind. apply list_elem_of_bind. exists t. split; [by apply tree_nodes_footprint|done].
Qed.

(** ** Permutations and the frame rule *)
#[export] Instance forest_fp_perm d : Proper ((≡ₚ) ==> (≡ₚ)) (forest_fp d).
Proof. intros ts ts' H. unfold forest_fp. by rewrite H. Qed.

Lemma forest_perm d ts ts' : ts ≡ₚ ts' -> forest d ts -> forest d ts'.
Proof. intros E [Hi Hr Hn]. split; [done|by rewrite <- E|by rewrite <- E]. Qed.

Lemma moves_perm k W d ts1 ts2 d' ts1' ts2' :
  ts1 ≡ₚ ts2 -> ts1' ≡ₚ ts2' -> moves k W d ts1 d' ts1' -> moves k W d ts2 d' ts2'.
Proof.
  intros E1 E2 [Hw Hr Hp Hn Ho Hno Hfr Hm]. split; [done|by rewrite <- E2| |by rewrite <- E2|done| |by rewrite <- E1, <- E2|by rewrite <- E1, <- E2];
    intros q; rewrite <- E1, <- E2; [apply Hp|apply Hno].
Qed.

Lemma forest_fp_app d ts us : forest_fp d (ts ++ us) = forest_fp d ts ++ forest_fp d us.
Proof. apply bind_app. Qed.

Lemma forest_app d ts us :
  forest d (ts ++ us) <-> forest d ts /\ forest d us /\ (forall q, q ∈ forest_fp d ts -> q ∉ forest_fp d us).
Proof.
  split.
  - intros [Hi [H1 H2]%Forall_app Hn]. rewrite forest_fp_app in Hn. apply NoDup_app in Hn as (? & ? & ?). done.
  - intros ([Hi H1 N1] & [_ H2 N2] & Hs). split; [done|by apply Forall_app|]. rewrite forest_fp_app. by apply NoDup_app.
Qed.

Lemma forest_used d ts q : forest d ts -> q ∈ forest_fp d ts -> db_used d q.
Proof.
  intros [Hi Hr _] (t & Hq & Ht)%list_elem_of_bind. rewrite Forall_forall in Hr.
  apply (footprint_used d t q Hi); auto.
Qed.

Lemma forest_frame k W d d' us :
  writes k W d d' -> forest d us -> (forall q, q ∈ forest_fp d us -> ~ W q) ->
  Forall (rep d') us /\ forest_fp d' us = forest_fp d us.
Proof.
  intros Hw [Hi Hr _] HW.
  assert (Hall : Forall (fun u => rep d' u /\ footprint d' u = footprint d u) us).
  { apply Forall_forall. intros u Hu. rewrite Forall_forall in Hr. apply (rep_frame W d d' u Hw Hi); [by apply Hr|].
    intros q Hq. apply HW. apply list_elem_of_bind. eauto. }
  split; [eapply Forall_impl; [exact Hall|by intros u [? _]]|].
  unfold forest_fp. clear -Hall. induction Hall as [|u us [_ Hu] Hus IH]; [done|]. cbn. by rewrite Hu, IH.
Qed.

Lemma moves_frame k W d ts d' ts' us :
  moves k W d ts d' ts' -> forest d (ts ++ us) -> (forall q, W q -> q ∈ forest_fp d ts) ->
  moves k W d (ts ++ us) d' (ts' ++ us) /\ forest_fp d' us = forest_fp d us.
Proof.
  intros [Hw Hr Hp Hn Ho Hno Hfr Hm] Hf HW. apply forest_app in Hf as (Hts & Hus & Hsep).
  destruct (forest_frame k W d d' us Hw Hus) as [Hr' Hfp]; [intros q Hq Hq'; by apply (Hsep q); auto|].
  split; [|done]. split; [done|by apply Forall_app| | |done| |rewrite !forest_fp_app, Hfp; by apply frees_frame|].
  - intros q. rewrite !forest_fp_app, Hfp, !elem_of_app. intros [Hq|Hq]; [destruct (Hp q Hq); tauto|tauto].
  - rewrite forest_fp_app, Hfp. apply NoDup_app. split; [done|]. split; [|apply Hus].
    intros q Hq Hq2. destruct (Hp q Hq) as [Hq1|Hq1]; [by apply (Hsep q)|].
    apply Hq1. by apply (forest_used d us).
  - intros q. rewrite !forest_nodes_app, !elem_of_app. intros [Hq|Hq]; [destruct (Hno q Hq); tauto|tauto].
  - rewrite !forest_nodes_app, !marked_app. intros [Hm1 Hm2]. split; [by apply Hm|]. apply (marked_writes _ _ _ _ _ Hw); [|done].
    intros q Hq%(nodes_fp d). split; [by apply (forest_used d us)|]. intros HWq. by apply (Hsep q); [apply HW|].
Qed.

(** ** Trees in a context *)
Lemma forest_plug d fs t us :
  forest d (plug fs t :: us) <->
  forest d (t :: us) /\ frames_ok d fs (pg t) /\ NoDup (frames_fp d fs) /\
  (forall q, q ∈ frames_fp d fs -> q ∉ forest_fp d (t :: us)).
Proof.
  assert (Hperm : forest_fp d (plug fs t :: us) ≡ₚ frames_fp d fs ++ forest_fp d (t :: us)).
  { unfold forest_fp. cbn. rewrite footprint_plug. solve_Permutation. }
  split.
  - intros [Hi [Hr Hus]%Forall_cons Hn]. rewrite Hperm in Hn. apply NoDup_app in Hn as (H1 & H2 & H3).
    apply rep_plug_iff in Hr as [Hfs Ht]. split; [|by split_and!]. split; [done|by constructor|done].
  - intros ([Hi [Ht Hus]%Forall_cons Hn] & Hfs & Hnf & Hs). split; [done| |].
    + constructor; [|done]. by apply rep_plug_iff.
    + rewrite Hperm. by apply NoDup_app.
Qed.

(** A step on a tree in a context, when its root stays on its page. *)
Lemma moves_plug k W d fs t us d' t' us' :
  moves k W d (t :: us) d' (t' :: us') -> pg t' = pg t -> forest d (plug fs t :: us) ->
  (forall q, W q -> q ∈ forest_fp d (t :: us)) ->
  moves k W d (plug fs t :: us) d' (plug fs t' :: us').
Proof.
  intros [Hw Hr Hp Hn Ho Hno Hfr Hm] Hpg Hf HW. apply forest_plug in Hf as (Hts & Hfs & Hnf & Hsep).
  destruct (frames_frame W d d' fs (pg t) Hw (fr_inv _ _ Hts) Hfs) as [Hfs' Hfp].
  { intros q Hq Hq'. apply (Hsep q Hq). by apply HW. }
  assert (Hperm : forall d t us, forest_fp d (plug fs t :: us) ≡ₚ frames_fp d fs ++ forest_fp d (t :: us)).
  { intros x v vs. unfold forest_fp. cbn. rewrite footprint_plug. solve_Permutation. }
  assert (Hfr' : frees d (frames_fp d fs ++ forest_fp d (t :: us)) d' (frames_fp d fs ++ forest_fp d' (t' :: us'))).
  { by apply frees_beside. }
  apply Forall_cons in Hr as [Hrt Hru]. split; [done| | | |done| |by rewrite !Hperm, Hfp|].
  - constructor; [|done]. apply rep_plug_iff. by rewrite Hpg.
  - intros q. rewrite !Hperm, Hfp, !elem_of_app. intros [Hq|Hq]; [tauto|]. destruct (Hp q Hq); tauto.
  - rewrite Hperm, Hfp. apply NoDup_app. split; [done|]. split; [|done].
    intros q Hq Hq2. destruct (Hp q Hq2) as [Hq1|Hq1]; [by apply (Hsep q)|].
    apply Hq1. by apply (frames_used d fs (pg t) q (fr_inv _ _ Hts)).
  - intros q. rewrite !plug_nodes, !elem_of_app. intros [Hq|Hq]; [tauto|]. destruct (Hno q Hq); tauto.
  - rewrite !plug_nodes, !marked_app. intros [Hm1 Hm2]. split; [|by apply Hm]. apply (marked_writes _ _ _ _ _ Hw); [|done].
    intros q Hq. assert (Hqf : q ∈ frames_fp d fs).
    { apply list_elem_of_bind in Hq as (f & Hq & Hfin). apply list_elem_of_bind. exists f. split; [|done].
      unfold frame_nodes in Hq. apply elem_of_cons in Hq as [->|Hq]; [apply list_elem_of_here|apply list_elem_of_further].
      apply (nodes_fp d) in Hq. unfold forest_fp, siblings in Hq. by rewrite bind_app in Hq. }
    split; [by apply (frames_used d fs (pg t) q (fr_inv _ _ Hts))|]. intros HWq. by apply (Hsep q); [|apply HW].
Qed.

(** The account of a step that freed the ranges [F], or nothing. *)
Lemma forest_frees F k W d ts d' ts' :
  writes k W d d' -> Forall (rep d') ts' -> NoDup (forest_fp d' ts') ->
  (forall q, q ∈ forest_fp d' ts' -> q ∈ forest_fp d ts \/ ~ db_used d q) ->
  db_freed d' = db_freed d ++ F -> disjoint_pairs F ->
  (forall q, covers F q -> (q ∉ forest_fp d' ts') /\ db_used d' q /\ (q ∈ forest_fp d ts \/ ~ db_used d q)) ->
  frees d (forest_fp d ts) d' (forest_fp d' ts').
Proof.
  intros Hw Hr Hn Hp E HF Hq. apply (frees_step F); try done.
  - apply Hw.
  - intros q Hin Hc. by apply (Hq q Hc).
  - intros q [Hin|Hc]; [|by split; apply Hq]. split; [by apply Hp|]. apply (forest_used d' ts'); [by split; [apply Hw| |]|done].
Qed.

Lemma forest_frees_none k W d ts d' ts' :
  writes k W d d' -> Forall (rep d') ts' -> NoDup (forest_fp d' ts') ->
  (forall q, q ∈ forest_fp d' ts' -> q ∈ forest_fp d ts \/ ~ db_used d q) ->
  db_freed d' = db_freed d -> frees d (forest_fp d ts) d' (forest_fp d' ts').
Proof.
  intros Hw Hr Hn Hp E. apply (forest_frees [] k W); try done; [by rewrite app_nil_r|]. intros q Hq. by apply covers_nil in Hq.
Qed.

(** A page given back, and a tree whose root it is. *)
Lemma free_page d q : db_inv d -> db_used d q ->
  exists d', Free q 1 d = Ok tt d' /\ writes 0 (fun _ => False) d d' /\ forall P, frees d (q :: P) d' P.
Proof.
  intros Hinv Hq. destruct (used_bounds d q Hinv Hq) as (_ & Hr & _). destruct (Free_writes d q 1 Hinv) as (d' & Hfree & Hw & Hu & _ & Hfd); [lia|].
  exists d'. split; [done|]. split; [done|]. intros P. apply frees_page; [done|done|]. unfold kPageInvalidId in *. lia.
Qed.

Lemma moves_free d t us : forest d (t :: us) ->
  exists d', Free (pg t) 1 d = Ok tt d' /\ moves 0 (fun _ => False) d (t :: us) d' us.
Proof.
  intros Hf. pose proof Hf as [Hinv [Hr _]%Forall_cons _]. destruct (proj1 (forest_app d [t] us) Hf) as (_ & Hus & _).
  destruct (free_page d (pg t) Hinv (rep_used _ _ Hr)) as (d' & Hfree & Hw & Hfr). destruct (forest_frame _ _ _ _ _ Hw Hus) as [Hr' Hfp]; [by auto|].
  exists d'. split; [done|]. change (t :: us) with ([t] ++ us). split; try done.
  - intros q Hq. rewrite Hfp in Hq. left. rewrite (forest_fp_app d [t] us), elem_of_app. by right.
  - rewrite Hfp. apply Hus.
  - intros q Hq. apply (needs_copy_writes _ _ _ _ _ Hw); [done|auto].
  - intros q Hq. left. rewrite (forest_nodes_app [t] us), elem_of_app. by right.
  - rewrite Hfp. assert (E : exists rest, footprint d t = pg t :: rest) by (destruct t; by eexists). destruct E as [rest E].
    rewrite (forest_fp_app d [t] us). unfold forest_fp at 1. cbn [mbind list_bind]. rewrite app_nil_r, E. cbn [app].
    apply (frees_trans _ _ d' (rest ++ forest_fp d us)); [apply Hfr|]. rewrite Permutation_app_comm. apply frees_drop.
  - rewrite (forest_nodes_app [t] us), marked_app. intros [_ Hm]. apply (marked_writes _ _ _ _ _ Hw); [|done].
    intros q Hq. split; [|tauto]. apply (forest_used d us); [done|]. by apply nodes_fp.
Qed.
