(* ===== verification/LeafPage.v ===== *)
(** The operations of a leaf on its page: each is a step that turns one leaf of
    the forest into another, with the room it needs told from the entries. *)
From S2P Require Import Prelude Format Comparator State Memory FreeMap Pager PagerI PagerInst.
From S2P Require Import Node NodeWf NodeSpec LeafTheorems Search BranchSpec Tx Iterator BTree Trails NodeDb Freed Tree TreeGet Copying TreeSteps Forest.

Implicit Types (d : DBImpl) (p q : Z) (nd : NodeData) (es : list entry) (e : entry).

(** ** Sizes of entries *)
Definition entry_len e : Z := Z.of_nat (length (e_key e) + length (e_value e)).
(** What an entry takes of a page of [ps] bytes, its slot included. *)
Definition entry_cost (ps : Z) e : Z := record_need ps (entry_len e) true.
Definition fill (ps : Z) es : Z := foldr (fun e n => entry_cost ps e + n) 0 es.
(** The overflow pages of an entry. *)
Definition entry_pages (ps : Z) e : Z := store_pages ps (entry_len e).
Definition overflow_pages (ps : Z) es : Z := foldr (fun e n => entry_pages ps e + n) 0 es.

(** Entries that can be stored again: a key that fits in a node, and a total
    size of 32 bits. *)
Definition storable (ps : Z) e : Prop := Z.of_nat (length (e_key e)) <= (ps - 34) / 2 /\ entry_len e < 2 ^ 32.

Lemma fill_app ps l1 l2 : fill ps (l1 ++ l2) = fill ps l1 + fill ps l2.
Proof. induction l1 as [|e l1 IH]; cbn; [done|]. fold (fill ps (l1 ++ l2)) (fill ps l1). lia. Qed.
Lemma fill_cons ps e l : fill ps (e :: l) = entry_cost ps e + fill ps l.
Proof. done. Qed.
Lemma overflow_pages_app ps l1 l2 : overflow_pages ps (l1 ++ l2) = overflow_pages ps l1 + overflow_pages ps l2.
Proof. induction l1 as [|e l1 IH]; cbn; [done|]. fold (overflow_pages ps (l1 ++ l2)) (overflow_pages ps l1). lia. Qed.
Lemma overflow_pages_cons ps e l : overflow_pages ps (e :: l) = entry_pages ps e + overflow_pages ps l.
Proof. done. Qed.

Lemma entry_cost_bounds ps e : page_size_ok ps -> 8 <= entry_cost ps e /\ 2 * entry_cost ps e <= ps - 18.
Proof.
  intros Hps. destruct (page_size_bounds _ Hps) as [Hr Hdvd]. unfold entry_cost, record_need, entry_len.
  pose proof (Z.div_mod ps 8 ltac:(lia)). pose proof (Z.div_mod (ps - 34) 2 ltac:(lia)).
  pose proof (Z.mod_pos_bound (ps - 34) 2 ltac:(lia)).
  destruct (Z.ltb_spec ((ps - 34) / 2) (Z.of_nat (length (e_key e) + length (e_value e)))); lia.
Qed.
Lemma entry_pages_nonneg ps e : 0 <= entry_pages ps e.
Proof.
  unfold entry_pages, store_pages. destruct (_ <? _); [|lia]. unfold GetPageCount.
  destruct (_ =? _); apply u32_range.
Qed.
Lemma overflow_pages_nonneg ps es : 0 <= overflow_pages ps es.
Proof.
  induction es as [|e es IH]; [done|]. rewrite overflow_pages_cons. pose proof (entry_pages_nonneg ps e). lia.
Qed.

(** The room taken in a leaf is that of its entries. *)
Lemma rec_entry_len d nd r :
  leaf_ok d nd -> r ∈ recs nd -> entry_len (rec_entry (db_mem d) (page_size d) r) = rec_total true r.
Proof.
  intros [Hok Hleaf] Hr. apply list_elem_of_lookup_1 in Hr as (i & Hi).
  destruct (rec_content_length d nd i r Hok Hi) as (Hk & Hu & Hlen). rewrite Hleaf in Hlen.
  unfold entry_len, rec_entry. cbn [e_key e_value]. rewrite length_take, length_drop.
  change (pg_mem d) with (db_mem d) in Hlen. change (pg_page_size d) with (page_size d) in Hlen.
  unfold rec_total in *. lia.
Qed.

Lemma leaf_fill d nd : leaf_ok d nd -> fill (page_size d) (entries d nd) = 8 * count nd + space_used (header nd).
Proof.
  intros Hok. pose proof (rec_entry_len d nd) as Hlen. specialize (fun r => Hlen r Hok). pose proof Hok as [Hnode Hleaf].
  rewrite (nw_used _ _ Hnode), <- (length_recs d nd Hnode). pose proof (no_live _ _ Hnode) as Hlv. rewrite Hleaf in Hlv.
  unfold entries, recs in *. change (pg_mem d) with (db_mem d). change (pg_page_size d) with (page_size d).
  pose proof (nw_live _ _ Hnode) as Hsl. revert Hlen Hlv Hsl. generalize (live_slots nd) as l.
  induction l as [|x l IH]; intros Hlen Hlv Hsl; [done|].
  apply Forall_cons in Hlv as [[Hx _] Hlv]. apply Forall_cons in Hsl as [Hxo Hsl].
  rewrite !fmap_cons, fill_cons, sizes_cons, IH; [|intros r Hr; apply Hlen; by apply list_elem_of_further|done|done].
  unfold entry_cost. rewrite Hlen by apply list_elem_of_here. unfold record_need.
  change (pg_page_size d) with (page_size d) in Hx. rewrite <- Hx. cbn [rec_of r_overflow length].
  unfold sizeof_record, sizeof_OverflowRecord, rec_total, rec_of. cbn [r_key r_u]. rewrite Hleaf.
  unfold value_size. destruct (is_overflow_pages x); lia.
Qed.

(** ** A node operation as a step of the leaf *)
Definition leaf_moves (k : Z) d p es d' es' : Prop := moves k (eq p) d [Leaf p es] d' [Leaf p es'].
Definition leaf_page d p es : Prop := forest d [Leaf p es].

Lemma forest_fp_leaf d p es : forest_fp d [Leaf p es] = p :: node_pages (page_size d) (db_node d p).
Proof. unfold forest_fp. cbn. by rewrite app_nil_r. Qed.

Lemma leaf_page_node d p es : leaf_page d p es -> db_inv d /\ db_used d p /\ leaf_ok d (db_node d p) /\ entries d (db_node d p) = es.
Proof. intros [Hi [(Hp & Hok & He) _]%Forall_cons _]. done. Qed.

Lemma leaf_step_freeing {A} F d p es (op : NodeM A) a nd d1 k :
  leaf_page d p es -> op (db_node d p, d) = Ok a (nd, d1) -> leaf_ok d1 nd -> db_inv d1 -> pg_extends d d1 ->
  db_space d - k <= db_space d1 -> last_modified_txid (header nd) = last_modified_txid (header (db_node d p)) ->
  (forall q, q ∈ node_pages (page_size d) nd -> q ∈ node_pages (page_size d) (db_node d p) \/ ~ db_used d q) ->
  NoDup (node_pages (page_size d) nd) -> db_freed d1 = db_freed d ++ F -> disjoint_pairs F ->
  (forall q, covers F q -> q ∈ node_pages (page_size d) (db_node d p) /\ q ∉ node_pages (page_size d) nd) ->
  exists d', on_node p op d = Ok a d' /\ leaf_moves k d p es d' (entries d1 nd).
Proof.
  intros Hlp Hop Hok Hinv1 Hext Hsp Htx Hpages Hnd Hfd HF HFq. pose proof Hlp as [_ _ Hn]. rewrite forest_fp_leaf in Hn.
  destruct (leaf_page_node _ _ _ Hlp) as (Hinv & Hp & _ & _).
  pose proof (pe_ps _ _ Hext) as Hps. cbn in Hps.
  assert (Hwf : node_wf (page_size d) nd) by (rewrite <- Hps; apply Hok).
  destruct (writes_on_node d p op a nd d1 k Hinv Hp Hop Hinv1 Hext Hsp Hwf) as (Hon & Hw & Hnode).
  set (d' := put_node p nd d1) in *. exists d'. split; [exact Hon|].
  assert (Hpn : p ∉ node_pages (page_size d) nd).
  { intros Hin. destruct (Hpages p Hin) as [Hin'|Hu]; [by apply NoDup_cons in Hn as [Hn _]|by apply Hu]. }
  assert (Hw1 : writes 0 (eq p) d1 d').
  { apply put_writes; [done|by apply (pe_used _ _ Hext)|by rewrite Hps]. }
  destruct (node_frame d1 d' nd (eq p) Hw1 (lo_node _ _ Hok)) as (Hok' & _ & He'); [rewrite Hps; by intros q Hq <-|].
  assert (Hrep : Forall (rep d') [Leaf p (entries d1 nd)]).
  { apply Forall_singleton. split; [by apply (wr_used _ _ _ _ Hw)|]. cbn [pg]. rewrite Hnode.
    split; [split; [done|apply Hok]|]. apply He', Hok. }
  assert (Hfp : forall es', forest_fp d' [Leaf p es'] = p :: node_pages (page_size d) nd).
  { intros es'. by rewrite forest_fp_leaf, Hnode, (wr_ps _ _ _ _ Hw). }
  assert (Hpg : forall q, q ∈ forest_fp d' [Leaf p (entries d1 nd)] -> q ∈ forest_fp d [Leaf p es] \/ ~ db_used d q).
  { intros q. rewrite Hfp, forest_fp_leaf, !elem_of_cons. intros [->|Hq]; [by left; left|]. destruct (Hpages q Hq); tauto. }
  assert (Hnd' : NoDup (forest_fp d' [Leaf p (entries d1 nd)])) by (rewrite Hfp; by constructor).
  split; [done|done|done|done| |by left| |].
  - intros q Hq. destruct (decide (p = q)) as [<-|Hne]; [|by apply (needs_copy_writes _ _ _ _ _ Hw)].
    apply needs_copy_env; [apply Hw|]. by rewrite Hnode.
  - apply (forest_frees F k (eq p)); try done. intros q Hq. destruct (HFq q Hq) as [Hin Hout]. rewrite Hfp, forest_fp_leaf, not_elem_of_cons.
    apply NoDup_cons in Hn as [Hn _]. split_and!; [by intros ->|done| |left; by apply list_elem_of_further].
    apply (wr_used _ _ _ _ Hw), (forest_used d _ q Hlp). rewrite forest_fp_leaf. by apply list_elem_of_further.
  - apply marked_same; [apply env_txid, Hw|]. intros q Hq%list_elem_of_singleton. subst q. unfold mark. by rewrite Hnode.
Qed.

Lemma leaf_step {A} d p es (op : NodeM A) a nd d1 k :
  leaf_page d p es -> op (db_node d p, d) = Ok a (nd, d1) -> leaf_ok d1 nd -> db_inv d1 -> pg_extends d d1 ->
  db_space d - k <= db_space d1 -> last_modified_txid (header nd) = last_modified_txid (header (db_node d p)) ->
  (forall q, q ∈ node_pages (page_size d) nd -> q ∈ node_pages (page_size d) (db_node d p) \/ ~ db_used d q) ->
  NoDup (node_pages (page_size d) nd) -> trails_on unfreed op ->
  exists d', on_node p op d = Ok a d' /\ leaf_moves k d p es d' (entries d1 nd).
Proof.
  intros Hlp Hop Hok Hinv1 Hext Hsp Htx Hpages Hnd Ht. apply (leaf_step_freeing []); try done.
  - rewrite app_nil_r. by apply (unfreed_on op (db_node d p) d a nd d1).
  - intros q Hq. by apply covers_nil in Hq.
Qed.

(** The pages of a node whose record list is edited. *)
Lemma node_pages_recs ps nd l leaf : recs nd = l -> IsLeaf nd = leaf -> node_pages ps nd = l ≫= rec_pages ps leaf.
Proof. unfold node_pages. by intros -> ->. Qed.
Lemma rec_pages_NoDup ps leaf r : NoDup (rec_pages ps leaf r).
Proof. unfold rec_pages. destruct (r_overflow r); [apply NoDup_seqZ|constructor]. Qed.

Lemma insert_pages ps leaf (i : nat) r l (used : Z -> Prop) :
  NoDup (l ≫= rec_pages ps leaf) -> (forall q, q ∈ l ≫= rec_pages ps leaf -> used q) ->
  (forall q, q ∈ rec_pages ps leaf r -> ~ used q) ->
  let l' := take i l ++ r :: drop i l in
  NoDup (l' ≫= rec_pages ps leaf) /\
  (forall q, q ∈ l' ≫= rec_pages ps leaf -> q ∈ l ≫= rec_pages ps leaf \/ ~ used q).
Proof.
  intros Hn Hu Hr l'.
  assert (Hperm : l' ≫= rec_pages ps leaf ≡ₚ rec_pages ps leaf r ++ (l ≫= rec_pages ps leaf)).
  { transitivity ((r :: l) ≫= rec_pages ps leaf); [|done]. f_equiv. unfold l'.
    rewrite <- Permutation_middle. by rewrite take_drop. }
  rewrite Hperm. split.
  - apply NoDup_app. split; [apply rec_pages_NoDup|]. split; [|done]. intros q Hq Hq2. by apply (Hr q), Hu.
  - intros q. rewrite Hperm, elem_of_app. intros [Hq|Hq]; [right; by apply Hr|by left].
Qed.

Lemma insert_at_entries d d1 nd nd1 (i : nat) r :
  leaf_ok d nd -> pg_extends d d1 -> recs nd1 = take i (recs nd) ++ r :: drop i (recs nd) ->
  entries d1 nd1 = insert_at i (rec_entry (db_mem d1) (page_size d1) r) (entries d nd).
Proof.
  intros Hok Hext Hr. rewrite <- (leaf_entries_extends nd d d1 Hok Hext). unfold entries, insert_at.
  by rewrite Hr, fmap_app, fmap_cons, fmap_take, fmap_drop.
Qed.

Lemma page_size_leaf d nd : leaf_ok d nd -> page_size_ok (page_size d).
Proof. intros Hok. exact (sw_ps _ _ (nw_space _ _ Hok)). Qed.
Lemma leaf_count d nd : leaf_ok d nd -> count nd = Z.of_nat (length (entries d nd)).
Proof. intros Hok. unfold entries. by rewrite length_fmap, (length_recs d nd Hok). Qed.

(** ** Inserting, marking, deleting *)
Lemma page_insert d p es (i : nat) k v :
  leaf_page d p es -> (i <= length es)%nat -> storable (page_size d) (mkEntry k v false) ->
  entry_pages (page_size d) (mkEntry k v false) <= db_space d ->
  let ok := fill (page_size d) es + entry_cost (page_size d) (mkEntry k v false) <=? page_size d - 18 in
  exists d', on_node p (Leaf_Insert (Z.of_nat i) (Ext k) v) d = Ok ok d' /\
    if ok then exists b, leaf_moves (entry_pages (page_size d) (mkEntry k v false)) d p es d' (insert_at i (mkEntry k v b) es)
    else leaf_moves 0 d p es d' es.
Proof.
  intros Hlp Hi [Hk Hlen] Hsp. destruct (leaf_page_node _ _ _ Hlp) as (Hinv & Hp & Hok & <-).
  set (nd := db_node d p) in *. pose proof (page_size_bounds _ (page_size_leaf _ _ Hok)) as [Hr _].
  pose proof (length_recs d nd Hok) as Hlr. pose proof (leaf_count d nd Hok) as Hcnt.
  unfold entry_len in Hlen. cbn [e_key e_value] in Hk, Hlen.
  destruct (Leaf_Insert_recs nd d i k v Hok Hinv) as (nd' & d1 & Hop & Hok' & Hinv1 & Hext & Htx & Hres).
  { lia. }
  { change (pg_page_size d) with (page_size d). pose proof (Z.div_le_upper_bound (page_size d - 34) 2 (page_size d)). lia. }
  { intros _. split; [lia|exact Hsp]. }
  change (pg_page_size d) with (page_size d) in *. rewrite (leaf_fill d nd Hok).
  replace (8 * count nd + space_used (header nd) + entry_cost (page_size d) (mkEntry k v false) <=? page_size d - 18)
    with (entry_cost (page_size d) (mkEntry k v false) <=? page_size d - (18 + 8 * count nd) - space_used (header nd))
    by (destruct (Z.leb_spec (entry_cost (page_size d) (mkEntry k v false)) (page_size d - (18 + 8 * count nd) - space_used (header nd))),
        (Z.leb_spec (8 * count nd + space_used (header nd) + entry_cost (page_size d) (mkEntry k v false)) (page_size d - 18)); lia || done).
  change (record_need (page_size d) (Z.of_nat (length k + length v)) true)
    with (entry_cost (page_size d) (mkEntry k v false)) in Hop, Hres.
  set (ok := _ <=? _) in *. destruct ok.
  2: { destruct Hres as [-> ->].
       assert (Hps : node_pages (page_size d) nd = node_pages (page_size d) (db_node d p)) by done.
       destruct (leaf_step d p (entries d nd) _ false nd d 0 Hlp Hop Hok Hinv) as (d' & Hon & Hm); try done.
       - lia.
       - by left.
       - pose proof (fr_nodup _ _ Hlp) as Hn. rewrite forest_fp_leaf in Hn. by apply NoDup_cons in Hn as [_ Hn].
       - apply (trails_Leaf_Insert unfreed unfreed_map unfreed_Alloc).
       - by exists d'. }
  destruct Hres as (r & Hrecs & [Hhold Hfresh Hspace]). change (pg_page_size d) with (page_size d) in Hfresh.
  pose proof (fr_nodup _ _ Hlp) as Hn. rewrite forest_fp_leaf in Hn. apply NoDup_cons in Hn as [_ Hn].
  pose proof (lo_leaf _ _ Hok) as Hl. pose proof (lo_leaf _ _ Hok') as Hl'.
  rewrite (node_pages_recs _ _ _ true eq_refl Hl) in Hn.
  destruct (insert_pages (page_size d) true i r (recs nd) (db_used d) Hn) as [Hn' Hq'].
  { intros q Hq. apply (node_pages_used d nd q Hinv Hok). by rewrite (node_pages_recs _ _ _ true eq_refl Hl). }
  { intros q Hq. apply Hfresh. by apply rec_pages_page; [lia|]. }
  destruct (leaf_step d p (entries d nd) _ true nd' d1 (entry_pages (page_size d) (mkEntry k v false)) Hlp Hop Hok' Hinv1 Hext)
    as (d' & Hon & Hm); try done.
  - intros q. rewrite (node_pages_recs _ _ _ true Hrecs Hl'), (node_pages_recs _ (db_node d p) _ true eq_refl Hl). apply Hq'.
  - by rewrite (node_pages_recs _ _ _ true Hrecs Hl').
  - apply (trails_Leaf_Insert unfreed unfreed_map unfreed_Alloc).
  - exists d'. split; [exact Hon|]. exists (r_bucket r).
    rewrite (insert_at_entries d d1 nd nd' i r Hok Hext Hrecs) in Hm.
    by rewrite (holds_entry d1 k v r Hhold : rec_entry (db_mem d1) (page_size d1) r = _) in Hm.
Qed.

Lemma delete_pages ps leaf (i : nat) r l (used : Z -> Prop) :
  l !! i = Some r -> NoDup (l ≫= rec_pages ps leaf) ->
  let l' := take i l ++ drop (S i) l in
  NoDup (l' ≫= rec_pages ps leaf) /\
  (forall q, q ∈ l' ≫= rec_pages ps leaf -> q ∈ l ≫= rec_pages ps leaf \/ ~ used q) /\
  (forall q, q ∈ rec_pages ps leaf r -> q ∈ l ≫= rec_pages ps leaf /\ q ∉ l' ≫= rec_pages ps leaf).
Proof.
  intros Hr Hn l'. assert (l' = delete i l) as -> by (by rewrite delete_take_drop).
  assert (Hperm : l ≫= rec_pages ps leaf ≡ₚ rec_pages ps leaf r ++ (delete i l ≫= rec_pages ps leaf)).
  { rewrite (delete_Permutation l i r Hr) at 1. done. }
  rewrite Hperm in Hn. apply NoDup_app in Hn as (_ & Hd & Hn). split; [done|]. split.
  - intros q Hq. left. rewrite Hperm. apply elem_of_app. by right.
  - intros q Hq. split; [|by apply Hd]. rewrite Hperm. apply elem_of_app. by left.
Qed.

(** Operations that only need the leaf. *)
Lemma page_mark d p es (i : nat) b e :
  leaf_page d p es -> es !! i = Some e ->
  exists d', on_node p (SetIsBucket (Z.of_nat i) b) d = Ok tt d' /\ leaf_moves 0 d p es d' (<[i := mark_entry b e]> es).
Proof.
  intros Hlp He. destruct (leaf_page_node _ _ _ Hlp) as (Hinv & Hp & Hok & <-).
  destruct (SetIsBucket_ok (db_node d p) d i e b Hok He) as (nd' & r & Hop & Hok' & Hh & He' & Hr & Hrecs).
  assert (Hpages : node_pages (page_size d) nd' = node_pages (page_size d) (db_node d p)).
  { rewrite (node_pages_recs _ _ _ true Hrecs (lo_leaf _ _ Hok')), (node_pages_recs _ _ _ true eq_refl (lo_leaf _ _ Hok)).
    rewrite <- (take_drop_middle _ _ _ Hr) at 2. rewrite insert_take_drop by (by eapply lookup_lt_Some).
    by rewrite !bind_app, !bind_cons. }
  destruct (leaf_step d p (entries d (db_node d p)) _ tt nd' d 0 Hlp Hop Hok' Hinv) as (d' & Hon & Hm); try done.
  - lia.
  - by rewrite Hh.
  - rewrite Hpages. by left.
  - rewrite Hpages. pose proof (fr_nodup _ _ Hlp) as Hn. rewrite forest_fp_leaf in Hn. by apply NoDup_cons in Hn as [_ Hn].
  - apply (trails_SetIsBucket unfreed).
  - exists d'. split; [exact Hon|]. by rewrite <- He'.
Qed.

Lemma page_delete d p es (i : nat) :
  leaf_page d p es -> (i < length es)%nat ->
  exists d', on_node p (Leaf_Delete (Z.of_nat i)) d = Ok tt d' /\ leaf_moves 0 d p es d' (delete i es).
Proof.
  intros Hlp Hi. destruct (leaf_page_node _ _ _ Hlp) as (Hinv & Hp & Hok & <-).
  unfold entries in Hi. rewrite length_fmap in Hi. destruct (lookup_lt_is_Some_2 _ _ Hi) as [r Hr].
  destruct (Leaf_Delete_recs _ d i r Hok Hinv Hr) as (nd' & d1 & Hop & Hok' & Hinv1 & Hext & Hsp & Htx & Hrecs & Hfr).
  pose proof (fr_nodup _ _ Hlp) as Hn. rewrite forest_fp_leaf in Hn. apply NoDup_cons in Hn as [_ Hn].
  pose proof (lo_leaf _ _ Hok) as Hl. rewrite (node_pages_recs _ _ _ true eq_refl Hl) in Hn.
  destruct (delete_pages (page_size d) true i r _ (db_used d) Hr Hn) as (Hn' & Hq' & Hgone).
  change (pg_page_size d) with (page_size d) in Hfr. cbn [pg_freed DB_PagerLaws] in Hfr.
  assert (Hpages : forall q, q ∈ rec_pages (page_size d) true r -> q ∈ node_pages (page_size d) (db_node d p)).
  { intros q Hq. rewrite (node_pages_recs _ (db_node d p) _ true eq_refl Hl). by apply Hgone. }
  pose proof (Forall_lookup_1 _ _ _ _ (no_live _ _ (lo_node _ _ Hok)) Hr) as Hlive. rewrite Hl in Hlive.
  assert (Htot : r_overflow r = true -> 0 < rec_total true r < 2 ^ 32).
  { apply (rec_total_bounds d p true r Hinv Hp Hlive). intros Hin%Hpages. pose proof (fr_nodup _ _ Hlp) as Hnp.
    rewrite forest_fp_leaf in Hnp. by apply NoDup_cons in Hnp as [Hnp _]. }
  pose proof (page_size_leaf _ _ Hok) as Hps.
  destruct (leaf_step_freeing (rec_pairs (page_size d) true r) d p (entries d (db_node d p)) _ tt nd' d1 0 Hlp Hop Hok' Hinv1 Hext)
    as (d' & Hon & Hm); try done.
  - cbn in Hsp. lia.
  - intros q. rewrite (node_pages_recs _ _ _ true Hrecs (lo_leaf _ _ Hok')), (node_pages_recs _ (db_node d p) _ true eq_refl Hl). apply Hq'.
  - by rewrite (node_pages_recs _ _ _ true Hrecs (lo_leaf _ _ Hok')).
  - apply rec_pairs_disjoint; [done|done|]. intros q Hq%Hpages. apply (node_pages_used d _ q Hinv Hok) in Hq.
    destruct (used_bounds d q Hinv Hq) as (_ & ? & _). unfold kPageInvalidId. lia.
  - intros q Hq%rec_pairs_covers; [|done|done]. rewrite (node_pages_recs _ _ _ true Hrecs (lo_leaf _ _ Hok')).
    split; [by apply Hpages|by apply Hgone].
  - exists d'. split; [exact Hon|]. assert (E : entries d1 nd' = delete i (entries d (db_node d p))).
    { rewrite <- (leaf_entries_extends _ d d1 Hok Hext). unfold entries.
      by rewrite Hrecs, fmap_app, fmap_take, fmap_drop, delete_take_drop. }
    by rewrite <- E.
Qed.

(** ** Appending, and reading *)
Lemma on_node_ext {A} d p (op1 op2 : NodeM A) :
  db_inv d -> db_used d p -> op1 (db_node d p, d) = op2 (db_node d p, d) -> on_node p op1 d = on_node p op2 d.
Proof. intros Hinv Hp E. unfold on_node. by rewrite (Reference_ok d p Hinv Hp), E. Qed.

Lemma insert_at_end {A} (x : A) l : insert_at (length l) x l = l ++ [x].
Proof. unfold insert_at. by rewrite firstn_all, drop_all. Qed.
Lemma mark_insert_at (i : nat) k v b0 b es :
  (i <= length es)%nat -> <[i := mark_entry b (mkEntry k v b0)]> (insert_at i (mkEntry k v b0) es) = insert_at i (mkEntry k v b) es.
Proof.
  intros Hi. unfold insert_at. rewrite insert_app_r_alt by (rewrite length_take; lia).
  rewrite length_take, Nat.min_l, Nat.sub_diag by done. done.
Qed.
Lemma lookup_insert_at {A} (i : nat) (x : A) l : (i <= length l)%nat -> insert_at i x l !! i = Some x.
Proof. intros Hi. unfold insert_at. rewrite lookup_app_r by (rewrite length_take; lia). by rewrite length_take, Nat.min_l, Nat.sub_diag. Qed.
Lemma length_insert_at {A} (i : nat) (x : A) l : length (insert_at i x l) = S (length l).
Proof. unfold insert_at. rewrite length_app. cbn. rewrite length_take, length_drop. lia. Qed.

Lemma page_append d p es k v :
  leaf_page d p es -> storable (page_size d) (mkEntry k v false) ->
  entry_pages (page_size d) (mkEntry k v false) <= db_space d ->
  fill (page_size d) es + entry_cost (page_size d) (mkEntry k v false) <= page_size d - 18 ->
  exists d' b, on_node p (Leaf_Append (Ext k) v) d = Ok true d' /\
    leaf_moves (entry_pages (page_size d) (mkEntry k v false)) d p es d' (es ++ [mkEntry k v b]).
Proof.
  intros Hlp Hst Hsp Hroom. destruct (leaf_page_node _ _ _ Hlp) as (Hinv & Hp & Hok & He).
  destruct (page_insert d p es (length es) k v Hlp) as (d' & Hon & Hm); [lia|done|done|].
  rewrite (proj2 (Z.leb_le _ _) Hroom) in Hon, Hm. destruct Hm as (b & Hm). exists d', b.
  rewrite insert_at_end in Hm. split; [|done]. rewrite <- Hon. apply on_node_ext; [done|done|].
  unfold Leaf_Append. run_step (data_ok (db_node d p) d). by rewrite (leaf_count d _ Hok), He.
Qed.

Lemma page_pop d p es e :
  leaf_page d p (es ++ [e]) ->
  exists d', on_node p Leaf_Pop d = Ok tt d' /\ leaf_moves 0 d p (es ++ [e]) d' es.
Proof.
  intros Hlp. destruct (leaf_page_node _ _ _ Hlp) as (Hinv & Hp & Hok & He).
  destruct (page_delete d p (es ++ [e]) (length es) Hlp) as (d' & Hon & Hm); [rewrite length_app; cbn; lia|].
  exists d'. assert (E : delete (length es) (es ++ [e]) = es).
  { replace (length es) with (length es + 0)%nat by lia. by rewrite delete_app_add, app_nil_r. }
  rewrite E in Hm. split; [|done]. rewrite <- Hon. apply on_node_ext; [done|done|].
  unfold Leaf_Pop. run_step (data_ok (db_node d p) d). rewrite (leaf_count d _ Hok), He, length_app. cbn [length].
  by replace (Z.of_nat (length es + 1) - 1) with (Z.of_nat (length es)) by lia.
Qed.

Lemma max_space_18 ps : max_space ps = ps - 18.
Proof. unfold max_space, sizeof_NodeHeader, sizeof_padding. lia. Qed.

Section reads.
Context d p es (Hinv : db_inv d) (Hr : rep d (Leaf p es)).

Lemma read_entry (i : nat) e : es !! i = Some e ->
  node_key p (Z.of_nat i) d = Ok (e_key e) d /\ node_value p (Z.of_nat i) d = Ok (e_value e) d /\
  node_is_bucket p (Z.of_nat i) d = Ok (e_bucket e) d.
Proof.
  intros He. destruct Hr as (Hp & Hok & Hes). cbn [pg] in *. rewrite <- Hes in He.
  destruct (entry_reads d (db_node d p) i e Hok Hinv He) as (Hk & Hv & Hb).
  by split_and!; [exact (look_ok d p _ _ _ Hinv Hp Hk)|exact (look_ok d p _ _ _ Hinv Hp Hv)|exact (look_ok d p _ _ _ Hinv Hp Hb)].
Qed.

Lemma read_count : node_count p d = Ok (Z.of_nat (length es)) d.
Proof.
  destruct Hr as (Hp & Hok & Hes). cbn [pg] in *. rewrite (node_count_ok d p Hinv Hp). by rewrite (leaf_count d _ Hok), Hes.
Qed.

Lemma read_rate : fill_rate p d = Ok (fill (page_size d) es) d.
Proof.
  destruct Hr as (Hp & Hok & Hes). cbn [pg] in *. rewrite <- Hes, (leaf_fill d _ Hok).
  set (nd := db_node d p) in *.
  assert (Hrate : GetFillRate (nd, d) = Ok (8 * count nd + space_used (header nd)) (nd, d)).
  { unfold GetFillRate. run_step (page_size_run nd d). run_step (FreeSpaceAfterCompaction_ok nd d (nw_space _ _ Hok)).
    unfold ret, max_space, sizeof_NodeHeader, sizeof_padding. f_equal. cbn. lia. }
  exact (look_ok d p _ _ _ Hinv Hp Hrate).
Qed.

Lemma read_above_half : fill_above_half p d = Ok (page_size d - 18 <? 2 * fill (page_size d) es) d.
Proof. unfold fill_above_half. run_step read_rate. by rewrite <- (max_space_18 (page_size d)). Qed.
Lemma read_at_least_40 : fill_at_least_40 p d = Ok (4 * (page_size d - 18) <=? 10 * fill (page_size d) es) d.
Proof. unfold fill_at_least_40. run_step read_rate. by rewrite <- (max_space_18 (page_size d)). Qed.
End reads.

(** The other leaves of the forest stay. *)
Lemma leaf_moves_frame k d p es d' es' us :
  leaf_moves k d p es d' es' -> forest d (Leaf p es :: us) ->
  moves k (eq p) d (Leaf p es :: us) d' (Leaf p es' :: us).
Proof.
  intros Hm Hf. apply (moves_frame k (eq p) d [Leaf p es] d' [Leaf p es'] us Hm Hf).
  intros q <-. rewrite forest_fp_leaf. apply list_elem_of_here.
Qed.
