(* ===== verification/LeafSplit.v ===== *)
(** Splitting a leaf: the leaf [Split] of [src/btree.cpp] moves the upper part
    of a full leaf to a new page and inserts the new entry on its side. *)
From S2P Require Import Prelude Format Comparator State Memory FreeMap Pager PagerI PagerInst.
From S2P Require Import Node NodeWf NodeSpec LeafTheorems Search BranchSpec Tx Iterator BTree Trails NodeDb Freed Tree TreeGet Copying TreeSteps Forest LeafPage.

Implicit Types (d : DBImpl) (p q : Z) (nd : NodeData) (es : list entry) (e : entry) (us : list tree).

(** ** A node built on a page *)
Lemma page_size_inv d : db_inv d -> page_size_ok (page_size d).
Proof. intros [(tx & Hwf) _]. apply Hwf. Qed.

Lemma build_node {A} d g (op : NodeM A) a nd :
  db_inv d -> db_used d g -> op (db_node d g, d) = Ok a (nd, d) -> node_wf (page_size d) nd ->
  last_modified_txid (header nd) = db_txid d ->
  exists d', on_node g op d = Ok a d' /\ writes 0 (eq g) d d' /\ db_node d' g = nd /\ own d' g /\ mark d' g = db_txid d'.
Proof.
  intros Hinv Hg Hop Hwf Hid. pose proof (put_writes d g nd Hinv Hg Hwf) as Hw. exists (put_node g nd d).
  assert (Hnd : db_node (put_node g nd d) g = nd) by (by rewrite db_node_put, decide_True).
  split; [by apply on_node_ok|]. split; [done|]. split; [done|].
  assert (Hm : mark (put_node g nd d) g = db_txid (put_node g nd d)) by (unfold mark; by rewrite Hnd, (env_txid _ _ (wr_env _ _ _ _ Hw))).
  split; [by apply needs_copy_fresh|done].
Qed.

Lemma build_leaf d g : db_inv d -> db_used d g ->
  exists d', on_node g Leaf_Build d = Ok tt d' /\ writes 0 (eq g) d d' /\ rep d' (Leaf g []) /\
    node_pages (page_size d') (db_node d' g) = [] /\ own d' g /\ mark d' g = db_txid d'.
Proof.
  intros Hinv Hg. destruct (db_node_room d g Hinv) as [Hsl Hpl].
  destruct (@Leaf_Build_ok DBImpl DB_PagerOps DB_PagerLaws (db_node d g) d (page_size_inv d Hinv) Hinv Hsl Hpl)
    as (nd & Hop & Hok & Hrecs & Hid).
  destruct (build_node d g Leaf_Build tt nd Hinv Hg Hop (no_wf _ _ (lo_node _ _ Hok)) Hid) as (d' & Hon & Hw & Hnd & Hown & Hmk).
  assert (Hnp : forall ps, node_pages ps nd = []) by (intros ps; unfold node_pages; by rewrite Hrecs).
  destruct (node_frame d d' nd (eq g) Hw (lo_node _ _ Hok)) as (Hok' & _ & _).
  { rewrite Hnp. intros q Hq. by apply elem_of_nil in Hq. }
  exists d'. split; [done|]. split; [done|]. assert (H : own d' g /\ mark d' g = db_txid d') by done. rewrite Hnd. split; [|by split].
  split; [by apply (wr_used _ _ _ _ Hw)|]. cbn [pg]. rewrite Hnd. split; [split; [done|apply Hok]|].
  unfold entries. by rewrite Hrecs.
Qed.

Lemma alloc_leaf d us : forest d us -> 1 <= db_space d ->
  exists g d1 d2, Alloc 1 d = Ok g d1 /\ new_node g d1 = Ok tt d1 /\ on_node g Leaf_Build d1 = Ok tt d2 /\
    moves 1 (fun _ => False) d us d2 (Leaf g [] :: us) /\ ~ db_used d g /\ own d2 g.
Proof.
  intros Hf Hsp. destruct (Alloc_writes d 1 (fr_inv _ _ Hf)) as (g & d1 & HA & W1 & Hg); [lia|done|].
  destruct (Hg g ltac:(lia)) as [Hng Hg1]. pose proof (wr_inv _ _ _ _ W1) as Hinv1.
  destruct (build_leaf d1 g Hinv1 Hg1) as (d2 & Hon & W2 & Hr & Hnp & Hown & Hmk).
  exists g, d1, d2. split; [done|]. split; [by apply new_node_ok|]. split; [done|]. split; [|done].
  assert (Hw : writes 1 (fun _ => False) d d2).
  { replace 1 with (1 + 0) by lia. apply (writes_trans _ _ (fun _ => False) (eq g) _ _ d1 _ W1 W2).
    intros q Hq [[]|<-]. by apply Hng. }
  destruct (forest_frame _ _ _ _ us Hw Hf) as [Hr' Hfp']; [by auto|].
  assert (Hfp2 : forest_fp d2 (Leaf g [] :: us) = g :: forest_fp d us).
  { change (Leaf g [] :: us) with ([Leaf g []] ++ us). by rewrite forest_fp_app, forest_fp_leaf, Hnp, Hfp'. }
  assert (Hpg : forall q, q ∈ forest_fp d2 (Leaf g [] :: us) -> q ∈ forest_fp d us \/ ~ db_used d q).
  { intros q. rewrite Hfp2, elem_of_cons. intros [->|Hq]; [by right|by left]. }
  assert (Hnd : NoDup (forest_fp d2 (Leaf g [] :: us))).
  { rewrite Hfp2. constructor; [|apply Hf]. intros Hin. apply Hng. by apply (forest_used d us). }
  assert (Hrs : Forall (rep d2) (Leaf g [] :: us)) by (by constructor).
  split; [done|done|done|done| | | |].
  - intros q Hq. apply (needs_copy_writes _ _ _ _ _ Hw); [done|by auto].
  - intros q. change (forest_nodes (Leaf g [] :: us)) with (g :: forest_nodes us). rewrite elem_of_cons.
    intros [->|Hq]; [by right|by left].
  - apply (forest_frees_none 1 (fun _ => False)); try done. rewrite <- (freed_Alloc 1 d g d1 HA).
    apply (freed_on_node g Leaf_Build d1 tt d2); [apply (trails_Leaf_Build unfreed)|done].
  - intros Hm. change (forest_nodes (Leaf g [] :: us)) with (g :: forest_nodes us). apply marked_cons. split; [lia|].
    apply (marked_writes _ _ _ _ _ Hw); [|done]. intros q Hq%(nodes_fp d). split; [by apply (forest_used d us)|by intros []].
Qed.

(** ** One entry to the other leaf *)
Lemma append_entry_ok d p1 es1 p2 es2 us (i : nat) e :
  forest d (Leaf p1 es1 :: Leaf p2 es2 :: us) -> es2 !! i = Some e -> storable (page_size d) e ->
  entry_pages (page_size d) e <= db_space d -> fill (page_size d) es1 + entry_cost (page_size d) e <= page_size d - 18 ->
  exists d', append_entry p1 p2 (Z.of_nat i) d = Ok tt d' /\
    moves (entry_pages (page_size d) e) (eq p1) d (Leaf p1 es1 :: Leaf p2 es2 :: us) d' (Leaf p1 (es1 ++ [e]) :: Leaf p2 es2 :: us).
Proof.
  intros Hf He Hst Hsp Hroom. pose proof (fr_inv _ _ Hf) as Hinv.
  pose proof (proj1 (forest_app d [Leaf p1 es1] _) Hf) as (H1 & _ & _).
  pose proof (fr_rep _ _ Hf) as [_ [Hr2 _]%Forall_cons]%Forall_cons.
  destruct (read_entry d p2 es2 Hinv Hr2 i e He) as (Hk & Hv & _).
  destruct e as [k v b]. cbn [e_key e_value] in *.
  destruct (page_append d p1 es1 k v H1 Hst Hsp Hroom) as (d1 & b0 & Hop1 & Hm1).
  pose proof (leaf_moves_frame _ _ _ _ _ _ _ Hm1 Hf) as M1. pose proof (moves_forest _ _ _ _ _ _ M1) as Hf1.
  pose proof (fr_inv _ _ Hf1) as Hinv1. pose proof (fr_rep _ _ Hf1) as [Hr1 [Hr2' _]%Forall_cons]%Forall_cons.
  destruct (read_entry d1 p2 es2 Hinv1 Hr2' i _ He) as (_ & _ & Hb). cbn [e_bucket] in Hb.
  pose proof (read_count d1 p1 _ Hinv1 Hr1) as Hc. rewrite length_app in Hc. cbn [length] in Hc.
  destruct (page_mark d1 p1 (es1 ++ [mkEntry k v b0]) (length es1) b (mkEntry k v b0)) as (d2 & Hop2 & Hm2).
  { by apply (forest_app d1 [Leaf p1 _]) in Hf1 as (? & _ & _). }
  { rewrite lookup_app_r by lia. by rewrite Nat.sub_diag. }
  pose proof (leaf_moves_frame _ _ _ _ _ _ _ Hm2 Hf1) as M2.
  exists d2. split.
  - unfold append_entry. run_step Hk. run_step Hv. unfold must. rewrite bind_assoc. run_step Hop1. rewrite bind_assert by done.
    run_step Hb. run_step Hc. replace (Z.of_nat (length es1 + 1) - 1) with (Z.of_nat (length es1)) by lia. exact Hop2.
  - replace (entry_pages _ _) with (entry_pages (page_size d) (mkEntry k v b) + 0) by lia.
    assert (E : <[length es1 := mark_entry b (mkEntry k v b0)]> (es1 ++ [mkEntry k v b0]) = es1 ++ [mkEntry k v b]).
    { by rewrite <- (insert_at_end (mkEntry k v b0)), mark_insert_at, insert_at_end by done. }
    rewrite E in M2. apply (moves_trans _ _ _ _ _ _ _ _ _ _ _ M1 M2). by intros q _ [<-|<-].
Qed.

(** ** The loop *)
Lemma moves_swap k W d t1 t2 us d' t1' t2' us' :
  moves k W d (t1 :: t2 :: us) d' (t1' :: t2' :: us') -> moves k W d (t2 :: t1 :: us) d' (t2' :: t1' :: us').
Proof. apply moves_perm; apply perm_swap. Qed.
Lemma forest_swap d t1 t2 us : forest d (t1 :: t2 :: us) -> forest d (t2 :: t1 :: us).
Proof. apply forest_perm, perm_swap. Qed.

Lemma split_step d l r us es e rs :
  forest d (Leaf l (es ++ [e]) :: Leaf r rs :: us) -> storable (page_size d) e ->
  entry_pages (page_size d) e <= db_space d -> fill (page_size d) rs + entry_cost (page_size d) e <= page_size d - 18 ->
  exists d1 d', append_entry r l (Z.of_nat (length es)) d = Ok tt d1 /\ on_node l Leaf_Pop d1 = Ok tt d' /\
    moves (entry_pages (page_size d) e) (fun q => q = l \/ q = r) d (Leaf l (es ++ [e]) :: Leaf r rs :: us)
      d' (Leaf l es :: Leaf r (rs ++ [e]) :: us).
Proof.
  intros Hf Hst Hsp Hroom.
  destruct (append_entry_ok d r rs l (es ++ [e]) us (length es) e (forest_swap _ _ _ _ Hf)) as (d1 & Hop1 & M1);
    [by rewrite lookup_app_r, Nat.sub_diag by lia|done..|].
  apply moves_swap in M1. pose proof (moves_forest _ _ _ _ _ _ M1) as Hf1.
  destruct (page_pop d1 l es e) as (d2 & Hop2 & Hm2); [by apply (forest_app d1 [Leaf l _]) in Hf1 as (? & _ & _)|].
  pose proof (leaf_moves_frame _ _ _ _ _ _ _ Hm2 Hf1) as M2.
  exists d1, d2. split; [done|]. split; [done|].
  replace (entry_pages _ _) with (entry_pages (page_size d) e + 0) by lia.
  apply (moves_trans _ _ _ _ _ _ _ _ _ _ _ M1 M2). by intros q _ [<-|<-]; [right|left].
Qed.

Lemma split_loop ps l r us : forall n d es rs,
  page_size d = ps -> page_size_ok ps -> forest d (Leaf l es :: Leaf r rs :: us) -> length es = n ->
  Forall (storable ps) es -> overflow_pages ps es <= db_space d ->
  fill ps es + fill ps rs <= ps - 18 -> ps - 18 < 2 * fill ps es ->
  exists es1 e es2 d', es = es1 ++ e :: es2 /\ split_leaf_loop l r n d = Ok tt d' /\
    moves (overflow_pages ps (e :: es2)) (fun q => q = l \/ q = r) d (Leaf l es :: Leaf r rs :: us)
      d' (Leaf l es1 :: Leaf r (rs ++ rev (e :: es2)) :: us) /\
    2 * fill ps es1 <= ps - 18 /\ ps - 18 < 2 * fill ps (es1 ++ [e]).
Proof.
  induction n as [|n IH]; intros d es rs Hps Hpsok Hf Hlen Hst Hsp Hroom Habove.
  { destruct es; [|done]. cbn in Habove. destruct (page_size_bounds _ Hpsok). lia. }
  destruct es as [|e0 es0] using rev_ind; [done|]. clear IHes0. rename e0 into e, es0 into es.
  rewrite length_app in Hlen. cbn in Hlen. apply Forall_app in Hst as [Hst [Hse _]%Forall_cons].
  pose proof (overflow_pages_nonneg ps es). rewrite overflow_pages_app, overflow_pages_cons in Hsp. cbn in Hsp.
  rewrite fill_app, fill_cons in Hroom. cbn in Hroom. pose proof (entry_pages_nonneg ps e).
  assert (Hfn : 0 <= fill ps es).
  { clear -Hpsok. induction es as [|x l IH]; [done|]. rewrite fill_cons. destruct (entry_cost_bounds ps x Hpsok). lia. }
  destruct (split_step d l r us es e rs Hf) as (d1 & d2 & Hop1 & Hop2 & M1); rewrite ?Hps; try done; try lia.
  rewrite Hps in M1. pose proof (moves_forest _ _ _ _ _ _ M1) as Hf2. pose proof (mv_writes _ _ _ _ _ _ M1) as W1.
  pose proof (wr_ps _ _ _ _ W1) as Hps2. rewrite Hps in Hps2.
  pose proof (fr_rep _ _ Hf2) as [Hrl _]%Forall_cons.
  pose proof (read_above_half d2 l es (fr_inv _ _ Hf2) Hrl) as Hread. rewrite Hps2 in Hread.
  cbn [split_leaf_loop]. replace n with (length es) by lia.
  destruct (Z.ltb_spec (ps - 18) (2 * fill ps es)) as [Hab|Hab].
  - destruct (IH d2 es (rs ++ [e]) Hps2 Hpsok Hf2) as (es1 & e1 & es2 & d' & -> & Hrun & M2 & Hle & Hgt); try done; try lia.
    + pose proof (wr_space _ _ _ _ W1). lia.
    + rewrite fill_app, fill_cons. cbn. lia.
    + exists es1, e1, (es2 ++ [e]), d'. split; [by rewrite <- app_assoc|]. split.
      * run_step Hop1. run_step Hop2. run_step Hread. cbn [negb]. replace (length _) with n by lia. exact Hrun.
      * split; [|done]. rewrite !overflow_pages_cons, overflow_pages_app, overflow_pages_cons. cbn [overflow_pages foldr].
        rewrite overflow_pages_cons in M2.
        replace (entry_pages ps e1 + (overflow_pages ps es2 + (entry_pages ps e + 0)))
          with (entry_pages ps e + (entry_pages ps e1 + overflow_pages ps es2)) by lia.
        replace (rs ++ rev (e1 :: es2 ++ [e])) with ((rs ++ [e]) ++ rev (e1 :: es2))
          by (cbn; rewrite rev_app_distr, <- !app_assoc; done).
        apply (moves_trans _ _ _ _ _ _ _ _ _ _ _ M1 M2). tauto.
  - exists es, e, [], d2. split; [done|]. split; [by run_step Hop1; run_step Hop2; run_step Hread|].
    split; [|split; [done|exact Habove]]. rewrite overflow_pages_cons. cbn [overflow_pages foldr rev app]. by rewrite Z.add_0_r.
Qed.

(** ** The slots reversed *)
Definition reversed nd : NodeData := set_slots (rev (live_slots nd) ++ drop (Z.to_nat (count nd)) (slots nd)) nd.

Lemma sizes_rev nd l : sizes nd (rev l) = sizes nd l.
Proof.
  induction l as [|x l IH]; [done|]. cbn [rev]. rewrite sizes_app, !sizes_cons, IH. cbn. lia.
Qed.

Lemma reversed_ok d nd : node_ok d nd -> node_ok d (reversed nd) /\ recs (reversed nd) = rev (recs nd).
Proof.
  intros Hok. destruct (slots_split _ _ Hok) as (dead & Hs & Hlen & _).
  assert (Hdead : drop (Z.to_nat (count nd)) (slots nd) = dead).
  { rewrite Hs. apply drop_app_length'. lia. }
  assert (Hlv : live_slots (reversed nd) = rev (live_slots nd)).
  { apply (live_slots_eq (reversed nd) _ dead); [unfold reversed; cbn; by rewrite Hdead|].
    change (count (reversed nd)) with (count nd). by rewrite length_rev. }
  assert (Hrecs : recs (reversed nd) = rev (recs nd)).
  { unfold recs. rewrite Hlv. by rewrite <- fmap_rev || rewrite <- map_rev. }
  split; [|done]. destruct Hok as [[[Hps Hc0 Hlow Hus Htop Hsl Hpl] Hused Hlive] Hrl]. split.
  - split.
    + split; try done. unfold reversed. cbn [slots set_slots]. rewrite Hdead, <- Hsl. f_equal.
      rewrite length_app, length_rev, <- length_app. by rewrite <- Hs.
    + rewrite Hlv, (sizes_ext nd (reversed nd)), sizes_rev by done. exact Hused.
    + rewrite Hlv. apply Forall_rev. eapply Forall_impl; [exact Hlive|]. intros x []. by split.
  - rewrite Hrecs. apply Forall_rev. exact Hrl.
Qed.

Lemma page_reverse d p es : leaf_page d p es ->
  exists d', on_node p reverse_slots d = Ok tt d' /\ leaf_moves 0 d p es d' (rev es).
Proof.
  intros Hlp. destruct (leaf_page_node _ _ _ Hlp) as (Hinv & Hp & Hok & <-).
  destruct (reversed_ok d _ (lo_node _ _ Hok)) as [Hok' Hrecs].
  assert (Hpages : node_pages (page_size d) (reversed (db_node d p)) ≡ₚ node_pages (page_size d) (db_node d p)).
  { unfold node_pages. rewrite Hrecs. f_equiv. symmetry. apply Permutation_rev. }
  pose proof (fr_nodup _ _ Hlp) as Hn. rewrite forest_fp_leaf in Hn. apply NoDup_cons in Hn as [_ Hn].
  destruct (leaf_step d p (entries d (db_node d p)) reverse_slots tt (reversed (db_node d p)) d 0 Hlp eq_refl)
    as (d' & Hon & Hm); try done.
  - split; [done|apply Hok].
  - lia.
  - intros q. rewrite Hpages. by left.
  - by rewrite Hpages.
  - exists d'. split; [exact Hon|]. unfold entries in Hm at 2. rewrite Hrecs in Hm.
    rewrite (map_rev _ _ : _ <$> rev _ = _) in Hm. exact Hm.
Qed.

(** ** The new entry on its side *)


(** Inserting at a slot, then marking the entry. *)
Lemma insert_marked d p es us (i : nat) k v b :
  forest d (Leaf p es :: us) -> (i <= length es)%nat -> storable (page_size d) (mkEntry k v b) ->
  entry_pages (page_size d) (mkEntry k v b) <= db_space d ->
  fill (page_size d) es + entry_cost (page_size d) (mkEntry k v b) <= page_size d - 18 ->
  exists b0 d1 d2, on_node p (Leaf_Insert (Z.of_nat i) (Ext k) v) d = Ok true d1 /\
    on_node p (SetIsBucket (Z.of_nat i) b) d1 = Ok tt d2 /\
    forest d1 (Leaf p (insert_at i (mkEntry k v b0) es) :: us) /\
    moves (entry_pages (page_size d) (mkEntry k v b)) (eq p) d (Leaf p es :: us) d2 (Leaf p (insert_at i (mkEntry k v b) es) :: us).
Proof.
  intros Hf Hi Hst Hsp Hroom. pose proof (proj1 (forest_app d [Leaf p es] _) Hf) as (H1 & _ & _).
  destruct (page_insert d p es i k v H1 Hi Hst Hsp) as (d1 & Hop1 & Hm1).
  change (entry_cost (page_size d) (mkEntry k v b)) with (entry_cost (page_size d) (mkEntry k v false)) in Hroom.
  rewrite (proj2 (Z.leb_le _ _) Hroom) in Hop1, Hm1. destruct Hm1 as (b0 & Hm1).
  pose proof (leaf_moves_frame _ _ _ _ _ _ _ Hm1 Hf) as M1. pose proof (moves_forest _ _ _ _ _ _ M1) as Hf1.
  pose proof (proj1 (forest_app d1 [Leaf p _] _) Hf1) as (H1' & _ & _).
  destruct (page_mark d1 p _ i b _ H1' (lookup_insert_at i _ es Hi)) as (d2 & Hop2 & Hm2).
  rewrite mark_insert_at in Hm2 by done.
  pose proof (leaf_moves_frame _ _ _ _ _ _ _ Hm2 Hf1) as M2.
  exists b0, d1, d2. split_and!; try done.
  replace (entry_pages _ _) with (entry_pages (page_size d) (mkEntry k v false) + 0) by (unfold entry_pages, entry_len; cbn; lia).
  apply (moves_trans _ _ _ _ _ _ _ _ _ _ _ M1 M2). by intros q _ [<-|<-].
Qed.

Lemma insert_at_app_l {A} (i : nat) (x : A) l1 l2 : (i <= length l1)%nat -> insert_at i x (l1 ++ l2) = insert_at i x l1 ++ l2.
Proof.
  intros Hi. unfold insert_at. rewrite take_app_le, drop_app_le by done. by rewrite <- app_assoc.
Qed.
Lemma insert_at_app_r {A} (i : nat) (x : A) l1 l2 :
  insert_at (length l1 + i) x (l1 ++ l2) = l1 ++ insert_at i x l2.
Proof.
  unfold insert_at. rewrite take_app_ge, drop_app_ge by lia. rewrite <- app_assoc.
  by replace (length l1 + i - length l1)%nat with i by lia.
Qed.

Lemma fill_nonneg ps es : page_size_ok ps -> 0 <= fill ps es.
Proof. intros Hps. induction es as [|x l IH]; [done|]. rewrite fill_cons. destruct (entry_cost_bounds ps x Hps). lia. Qed.

(** The first entry of the right leaf moved to the left one. *)
Lemma shift_left d l r us es1 e es2 :
  forest d (Leaf l es1 :: Leaf r (e :: es2) :: us) -> storable (page_size d) e -> entry_pages (page_size d) e <= db_space d ->
  fill (page_size d) es1 + entry_cost (page_size d) e <= page_size d - 18 ->
  exists d1 d2, append_entry l r 0 d = Ok tt d1 /\ on_node r (Leaf_Delete 0) d1 = Ok tt d2 /\
    moves (entry_pages (page_size d) e) (fun q => q = l \/ q = r) d (Leaf l es1 :: Leaf r (e :: es2) :: us)
      d2 (Leaf l (es1 ++ [e]) :: Leaf r es2 :: us).
Proof.
  intros Hf Hst Hsp Hroom.
  destruct (append_entry_ok d l es1 r (e :: es2) us 0 e Hf eq_refl Hst Hsp Hroom) as (d1 & Hop1 & M1).
  pose proof (moves_forest _ _ _ _ _ _ M1) as Hf1. apply forest_swap in Hf1.
  destruct (page_delete d1 r (e :: es2) 0) as (d2 & Hop2 & Hm2).
  { by apply (forest_app d1 [Leaf r _]) in Hf1 as (? & _ & _). }
  { cbn. lia. }
  pose proof (leaf_moves_frame _ _ _ _ _ _ _ Hm2 Hf1) as M2. apply moves_swap in M2.
  exists d1, d2. split; [done|]. split; [done|].
  replace (entry_pages _ _) with (entry_pages (page_size d) e + 0) by lia.
  apply (moves_trans _ _ _ _ _ _ _ _ _ _ _ M1 M2). intros q _ [<-|<-]; tauto.
Qed.

Lemma split_leaf_insert_ok ps d l r us es1 e0 es2 (i : nat) k v b :
  page_size d = ps -> page_size_ok ps -> forest d (Leaf l es1 :: Leaf r (e0 :: es2) :: us) -> es1 <> [] ->
  (i <= length es1 + S (length es2))%nat -> Forall (storable ps) [mkEntry k v b; e0] ->
  overflow_pages ps [mkEntry k v b; e0] <= db_space d -> fill ps es1 + fill ps (e0 :: es2) <= ps - 18 ->
  2 * fill ps es1 <= ps - 18 -> ps - 18 < 2 * fill ps (es1 ++ [e0]) ->
  exists es1' es2' d', split_leaf_insert l r (Z.of_nat i) k v b d = Ok tt d' /\
    moves (overflow_pages ps [mkEntry k v b; e0]) (fun q => q = l \/ q = r) d (Leaf l es1 :: Leaf r (e0 :: es2) :: us)
      d' (Leaf l es1' :: Leaf r es2' :: us) /\
    es1' ++ es2' = insert_at i (mkEntry k v b) (es1 ++ e0 :: es2) /\ es1' <> [] /\ es2' <> [].
Proof.
  intros Hps Hpsok Hf Hne Hi [Hst [Hst0 _]%Forall_cons]%Forall_cons Hsp Hroom Hle Hgt. set (new := mkEntry k v b) in *.
  pose proof (fr_inv _ _ Hf) as Hinv. pose proof (fr_rep _ _ Hf) as [Hrl [Hrr _]%Forall_cons]%Forall_cons.
  destruct (entry_cost_bounds ps new Hpsok) as [_ Hc]. destruct (entry_cost_bounds ps e0 Hpsok) as [_ Hc0].
  pose proof (fill_nonneg ps es2 Hpsok). rewrite !overflow_pages_cons in *. cbn [overflow_pages foldr] in *.
  pose proof (entry_pages_nonneg ps new). pose proof (entry_pages_nonneg ps e0).
  rewrite fill_cons in Hroom. rewrite fill_app, fill_cons in Hgt. cbn [fill foldr] in Hgt.
  unfold split_leaf_insert. run_step (read_count d l es1 Hinv Hrl).
  destruct (Z.ltb_spec (Z.of_nat (length es1)) (Z.of_nat i)) as [Hlt|Hlt].
  2: { destruct (insert_marked d l es1 (Leaf r (e0 :: es2) :: us) i k v b Hf) as (b0 & d1 & d2 & Hop1 & Hop2 & _ & M);
         rewrite ?Hps; fold new; try done; try lia.
       exists (insert_at i new es1), (e0 :: es2), d2. split.
       - unfold must. rewrite bind_assoc. run_step Hop1. by rewrite bind_assert.
       - split; [|split; [symmetry; apply insert_at_app_l; lia|split; [|done]]].
         + rewrite Hps in M. apply (moves_weaken _ _ _ _ _ _ _ _ M); [unfold new; lia|]. intros q _ <-. by left.
         + intros E. apply (f_equal length) in E. by rewrite length_insert_at in E. }
  rewrite bind_assert by (apply negb_true_iff, Z.eqb_neq; lia).
  set (j := (i - length es1)%nat). replace (Z.of_nat i - Z.of_nat (length es1)) with (Z.of_nat j) by (unfold j; lia).
  assert (Hij : i = (length es1 + j)%nat) by (unfold j; lia).
  destruct (Z.leb_spec (fill ps (e0 :: es2) + entry_cost ps new) (ps - 18)) as [Hfit|Hfit].
  - destruct (insert_marked d r (e0 :: es2) (Leaf l es1 :: us) j k v b (forest_swap _ _ _ _ Hf))
      as (b0 & d1 & d2 & Hop1 & Hop2 & Hf1 & M); rewrite ?Hps; fold new; try done; try lia; [unfold j; cbn; lia|].
    pose proof (fr_rep _ _ Hf1) as [_ [Hrl1 _]%Forall_cons]%Forall_cons.
    exists es1, (insert_at j new (e0 :: es2)), d2. split.
    + run_step Hop1. rewrite (bind_ok _ _ d1 tt d1) by done.
      run_step (read_count d1 l es1 (fr_inv _ _ Hf1) Hrl1).
      by replace (Z.of_nat i - Z.of_nat (length es1)) with (Z.of_nat j) by lia.
    + split; [|split; [by rewrite Hij, insert_at_app_r|split; [done|]]].
      * apply moves_swap in M. rewrite Hps in M. apply (moves_weaken _ _ _ _ _ _ _ _ M); [unfold new; lia|].
        intros q _ <-. by right.
      * intros E. apply (f_equal length) in E. by rewrite length_insert_at in E.
  - destruct (page_insert d r (e0 :: es2) j k v) as (d1 & Hop1 & M1).
    { apply forest_swap in Hf. by apply (forest_app d [Leaf r _]) in Hf as (? & _ & _). }
    { unfold j. cbn. lia. }
    { by rewrite Hps. }
    { rewrite Hps. change (entry_pages ps new <= db_space d). lia. }
    rewrite Hps in Hop1, M1. rewrite (proj2 (Z.leb_gt _ _)) in Hop1, M1 by exact Hfit.
    pose proof (leaf_moves_frame _ _ _ _ _ _ _ M1 (forest_swap _ _ _ _ Hf)) as M1'. apply moves_swap in M1'.
    clear M1. rename M1' into M1. pose proof (mv_writes _ _ _ _ _ _ M1) as W1.
    pose proof (wr_ps _ _ _ _ W1) as Hps1. rewrite Hps in Hps1. pose proof (wr_space _ _ _ _ W1).
    destruct (shift_left d1 l r us es1 e0 es2 (moves_forest _ _ _ _ _ _ M1)) as (d2 & d3 & Hop2 & Hop3 & M2);
      rewrite ?Hps1; try done; try lia.
    rewrite Hps1 in M2. pose proof (mv_writes _ _ _ _ _ _ M2) as W2. pose proof (wr_ps _ _ _ _ W2) as Hps3.
    rewrite Hps1 in Hps3. pose proof (wr_space _ _ _ _ W2). pose proof (moves_forest _ _ _ _ _ _ M2) as Hf3.
    pose proof (fr_rep _ _ Hf3) as [Hrl3 _]%Forall_cons.
    pose proof (read_count d3 l _ (fr_inv _ _ Hf3) Hrl3) as Hcount3. rewrite length_app in Hcount3. cbn [length] in Hcount3.
    set (m := (j - 1)%nat). assert (Em : Z.of_nat i - Z.of_nat (length es1 + 1) = Z.of_nat m) by (unfold m, j; lia).
    destruct (insert_marked d3 r es2 (Leaf l (es1 ++ [e0]) :: us) m k v b (forest_swap _ _ _ _ Hf3))
      as (b0 & d4 & d5 & Hop4 & Hop5 & Hf4 & M3); rewrite ?Hps3; fold new; try done; try lia.
    pose proof (fr_rep _ _ Hf4) as [_ [Hrl4 _]%Forall_cons]%Forall_cons.
    pose proof (read_count d4 l _ (fr_inv _ _ Hf4) Hrl4) as Hcount4. rewrite length_app in Hcount4. cbn [length] in Hcount4.
    exists (es1 ++ [e0]), (insert_at m new es2), d5. split; [|split; [|split; [|split; [by destruct es1|]]]].
    + run_step Hop1. rewrite bind_assoc. run_step Hop2. rewrite bind_assoc. run_step Hop3.
      rewrite bind_assoc. run_step Hcount3. rewrite Em. unfold must. rewrite bind_assoc. run_step Hop4.
      rewrite bind_assert by done. run_step Hcount4. rewrite Em. exact Hop5.
    + apply moves_swap in M3. rewrite Hps3 in M3. change (mkEntry k v b) with new in M3.
      replace (entry_pages ps new + (entry_pages ps e0 + 0)) with (0 + (entry_pages ps e0 + entry_pages ps new)) by lia.
      apply (moves_trans _ _ _ _ _ _ _ _ _ _ _ M1 (moves_trans _ _ _ _ (fun q => q = l \/ q = r) _ _ _ _ _ _ M2 M3 ltac:(intros q _ [?|<-]; tauto))).
      intros q _ [<-|?]; tauto.
    + replace i with (length es1 + S m)%nat by (unfold m, j; lia).
      rewrite insert_at_app_r, <- app_assoc. done.
    + intros E. apply (f_equal length) in E. by rewrite length_insert_at in E.
Qed.

(** ** The split *)

(** The pages a split may take: a new leaf, the records moved (one of them
    maybe twice), and the new one. *)
Definition split_space (ps : Z) es e : Z := 1 + 2 * overflow_pages ps es + entry_pages ps e.

Lemma Leaf_Split_ok ps d p es us (i : nat) k v b :
  let e := mkEntry k v b in
  page_size d = ps -> page_size_ok ps -> forest d (Leaf p es :: us) -> (i <= length es)%nat ->
  Forall (storable ps) (e :: es) -> split_space ps es e <= db_space d ->
  fill ps es <= ps - 18 < fill ps es + entry_cost ps e ->
  exists r es1 es2 d', Leaf_Split p (Z.of_nat i) k v b d = Ok r d' /\
    moves (split_space ps es e) (eq p) d (Leaf p es :: us) d' (Leaf p es1 :: Leaf r es2 :: us) /\
    es1 ++ es2 = insert_at i e es /\ es1 <> [] /\ es2 <> [] /\ ~ db_used d r /\ own d' r.
Proof.
  intros e Hps Hpsok Hf Hi [Hste Hst]%Forall_cons Hsp [Hfit Hfull]. unfold split_space in Hsp.
  pose proof (overflow_pages_nonneg ps es). pose proof (entry_pages_nonneg ps e).
  destruct (entry_cost_bounds ps e Hpsok) as [_ Hc]. pose proof (fr_inv _ _ Hf) as Hinv.
  pose proof (fr_rep _ _ Hf) as [Hrp _]%Forall_cons.
  destruct (alloc_leaf d _ Hf) as (r & d1 & d2 & HA & Hnew & Hbuild & M1 & Hng & Hown); [lia|].
  pose proof (mv_writes _ _ _ _ _ _ M1) as W1. pose proof (wr_ps _ _ _ _ W1) as Hps2. rewrite Hps in Hps2.
  pose proof (wr_space _ _ _ _ W1). apply (moves_perm _ _ _ _ (Leaf p es :: us) _ _ (Leaf p es :: Leaf r [] :: us)) in M1;
    [|done|apply perm_swap]. pose proof (moves_forest _ _ _ _ _ _ M1) as Hf2.
  pose proof (fr_rep _ _ Hf2) as [Hrp2 _]%Forall_cons. pose proof (read_above_half d2 p es (fr_inv _ _ Hf2) Hrp2) as Hab2.
  rewrite Hps2, (proj2 (Z.ltb_lt _ _)) in Hab2 by lia.
  destruct (split_loop ps p r us (length es) d2 es [] Hps2 Hpsok Hf2) as (es1 & e0 & es2 & d3 & -> & Hloop & M2 & Hle & Hgt);
    try done; try (cbn; lia).
  pose proof (mv_writes _ _ _ _ _ _ M2) as W2. pose proof (wr_ps _ _ _ _ W2) as Hps3. rewrite Hps2 in Hps3.
  pose proof (wr_space _ _ _ _ W2). pose proof (moves_forest _ _ _ _ _ _ M2) as Hf3.
  destruct (page_reverse d3 r ([] ++ rev (e0 :: es2))) as (d4 & Hrev & Hm3).
  { apply forest_swap in Hf3. by apply (forest_app d3 [Leaf r _]) in Hf3 as (? & _ & _). }
  pose proof (leaf_moves_frame _ _ _ _ _ _ _ Hm3 (forest_swap _ _ _ _ Hf3)) as M3. apply moves_swap in M3.
  cbn [app] in M3. rewrite rev_involutive in M3.
  pose proof (mv_writes _ _ _ _ _ _ M3) as W3. pose proof (wr_ps _ _ _ _ W3) as Hps4. rewrite Hps3 in Hps4.
  pose proof (wr_space _ _ _ _ W3). pose proof (moves_forest _ _ _ _ _ _ M3) as Hf4.
  pose proof (fr_rep _ _ Hf4) as [Hrp4 _]%Forall_cons. pose proof (read_above_half d4 p es1 (fr_inv _ _ Hf4) Hrp4) as Hab4.
  rewrite Hps4, (proj2 (Z.ltb_ge _ _)) in Hab4 by lia.
  assert (Hne : es1 <> []).
  { intros ->. cbn in Hgt. destruct (entry_cost_bounds ps e0 Hpsok). lia. }
  rewrite overflow_pages_app, overflow_pages_cons in *. pose proof (overflow_pages_nonneg ps es1).
  pose proof (overflow_pages_nonneg ps es2). pose proof (entry_pages_nonneg ps e0).
  rewrite fill_app in Hfit. rewrite length_app in Hi. cbn [length] in Hi.
  apply Forall_app in Hst as [_ [Hst0 _]%Forall_cons].
  destruct (split_leaf_insert_ok ps d4 p r us es1 e0 es2 i k v b Hps4 Hpsok Hf4 Hne)
    as (es1' & es2' & d5 & Hins & M4 & Hcat & Hne1 & Hne2); try done.
  { apply Forall_cons. split; [done|]. by apply Forall_singleton. }
  { rewrite !overflow_pages_cons. cbn [overflow_pages foldr]. fold e. lia. }
  pose proof (moves_forest _ _ _ _ _ _ M4) as Hf5. pose proof (fr_rep _ _ Hf5) as [Hrp5 [Hrr5 _]%Forall_cons]%Forall_cons.
  pose proof (read_count d5 p es1' (fr_inv _ _ Hf5) Hrp5) as Hc1. pose proof (read_count d5 r es2' (fr_inv _ _ Hf5) Hrr5) as Hc2.
  assert (Hlen : (length es1' + length es2' = length es1 + S (length es2) + 1)%nat).
  { apply (f_equal length) in Hcat. rewrite length_app, length_insert_at, length_app in Hcat. cbn in Hcat. lia. }
  assert (Hl1 : (1 <= length es1')%nat) by (destruct es1'; [done|cbn; lia]).
  assert (Hl2 : (1 <= length es2')%nat) by (destruct es2'; [done|cbn; lia]).
  assert (Hl : (1 <= length es1)%nat) by (destruct es1; [done|cbn; lia]).
  exists r, es1', es2', d5. split; [|split; [|split; [done|split; [done|split; [done|split; [done|]]]]]].
  - unfold Leaf_Split. run_step (read_count d p _ Hinv Hrp). rewrite bind_assert by (apply Z.leb_le; rewrite length_app; cbn; lia).
    run_step HA. run_step Hnew. run_step Hbuild. rewrite bind_assert by (apply Z.leb_le; rewrite length_app; cbn; lia).
    run_step Hab2. rewrite bind_assert by done. rewrite Nat2Z.id. run_step Hloop. run_step Hrev. run_step Hab4.
    rewrite bind_assert by done. run_step Hins. run_step Hc1. run_step Hc2. rewrite bind_assert; [done|].
    apply orb_true_iff. rewrite !andb_true_iff, !Z.leb_le. lia.
  - rewrite !overflow_pages_cons in *. cbn [overflow_pages foldr] in M4. fold e in M4. unfold split_space.
    rewrite overflow_pages_app, overflow_pages_cons.
    pose proof (moves_trans _ _ _ _ (fun q => q = p \/ q = r) _ _ _ _ _ _ M2 M3 ltac:(intros q _ [?|<-]; tauto)) as M23.
    pose proof (moves_trans _ _ _ _ (fun q => q = p \/ q = r) _ _ _ _ _ _ M23 M4 ltac:(intros q _ [?|?]; tauto)) as M234.
    pose proof (moves_trans _ _ _ _ (eq p) _ _ _ _ _ _ M1 M234) as M. eapply moves_weaken; [apply M| |done].
    + intros q Hq [[]|[->| ->]]; [done|by destruct Hng].
    + lia.
  - unfold own in *. pose proof (fr_rep _ _ Hf2) as [_ [Hr2 _]%Forall_cons]%Forall_cons. apply rep_used in Hr2.
    pose proof (wr_used _ _ _ _ W2 _ Hr2). pose proof (wr_used _ _ _ _ W3 _ ltac:(eassumption)).
    by rewrite (mv_own _ _ _ _ _ _ M4), (mv_own _ _ _ _ _ _ M3), (mv_own _ _ _ _ _ _ M2).
Qed.
