(* ===== verification/BranchPage.v ===== *)
(** The operations of a branch on its page.  Keys of a branch are short enough
    to be kept in the page, so that no operation takes or frees a page. *)
From S2P Require Import Prelude Format Comparator State Memory FreeMap Pager PagerI PagerInst.
From S2P Require Import Node NodeWf NodeSpec Search BranchSpec BranchTheorems Tx Iterator BTree Trails NodeDb Freed Tree TreeSearch TreeGet Copying TreeSteps Forest LeafPage LeafSplit.

Implicit Types (d : DBImpl) (p q : Z) (nd : NodeData) (k : list byte) (ks : list (list byte)) (cs : list Z) (ts us : list tree).

(** ** A branch of a page, with its keys and children *)
Record branch_at d p ks cs : Prop := {
  ba_used : db_used d p;
  ba_ok : branch_ok d (db_node d p);
  ba_type : IsBranch (db_node d p) = true;
  ba_inline : Forall inline (recs (db_node d p));
  ba_keys : keys d (db_node d p) = ks;
  ba_children : children (db_node d p) = cs;
}.

Lemma rep_branch_at d p ks ts : rep d (Branch p ks ts) <-> branch_at d p ks (pg <$> ts) /\ Forall (rep d) ts.
Proof.
  rewrite rep_Branch. split; [intros (? & ? & ? & ? & ? & ? & ?)|intros [[] ?]; by split_and!]. by split.
Qed.

Definition short (ps : Z) k : Prop := Z.of_nat (length k) <= (ps - 34) / 2.

(** What the keys take of a page, slots included. *)
Definition key_cost k : Z := Z.of_nat (length k) + 8.
Definition keys_fill ks : Z := foldr (fun k n => key_cost k + n) 0 ks.
Lemma keys_fill_app l1 l2 : keys_fill (l1 ++ l2) = keys_fill l1 + keys_fill l2.
Proof. induction l1 as [|k l1 IH]; cbn; [done|]. fold (keys_fill (l1 ++ l2)) (keys_fill l1). lia. Qed.
Lemma keys_fill_cons k l : keys_fill (k :: l) = key_cost k + keys_fill l.
Proof. done. Qed.
Lemma keys_fill_nonneg ks : 0 <= keys_fill ks.
Proof. induction ks as [|k ks IH]; [done|]. rewrite keys_fill_cons. unfold key_cost. lia. Qed.

(** Records are inline exactly when the keys are short. *)
Lemma rec_key_length d nd r : branch_ok d nd -> r ∈ recs nd -> Z.of_nat (length (rec_key false d r)) = r_key r.
Proof.
  intros [Hok E _] Hr. apply list_elem_of_lookup_1 in Hr as (i & Hi).
  destruct (rec_content_length d nd i r Hok Hi) as (Hk & _ & Hlen). rewrite E in Hlen. unfold rec_total in Hlen.
  unfold rec_key. rewrite length_take. lia.
Qed.

Lemma inline_short d nd : branch_ok d nd -> Forall inline (recs nd) <-> Forall (short (page_size d)) (keys d nd).
Proof.
  intros Hok. pose proof (rec_key_length d nd) as Hlen. specialize (fun r => Hlen r Hok).
  destruct Hok as [[_ Hlv] E _]. unfold keys. rewrite E in *. rewrite Forall_fmap, !Forall_forall. rewrite Forall_forall in Hlv.
  split; intros H r Hr; specialize (H r Hr); destruct (Hlv r Hr) as [Ho _]; specialize (Hlen r Hr);
    unfold inline, short, compose in *; change (pg_page_size d) with (page_size d) in Ho; unfold rec_total in Ho.
  - rewrite H in Ho. symmetry in Ho. apply Z.ltb_ge in Ho. lia.
  - rewrite Ho. apply Z.ltb_ge. lia.
Qed.

Lemma branch_at_short d p ks cs : branch_at d p ks cs -> Forall (short (page_size d)) ks.
Proof. intros [_ Hok _ Hin <- _]. by apply inline_short. Qed.

Lemma branch_fill d p ks cs : branch_at d p ks cs ->
  keys_fill ks = 8 * count (db_node d p) + space_used (header (db_node d p)) /\ count (db_node d p) = Z.of_nat (length ks).
Proof.
  intros [_ Hok _ Hin <- _]. set (nd := db_node d p) in *. pose proof (length_recs d nd (bo_node _ _ Hok)) as Hc.
  split; [|unfold keys; rewrite length_fmap; lia].
  pose proof (rec_key_length d nd) as Hlen. specialize (fun r => Hlen r Hok). destruct Hok as [[Hwf _] E _].
  rewrite (nw_used _ _ Hwf), <- Hc. unfold keys, recs in *. rewrite E.
  revert Hlen Hin. generalize (live_slots nd) as l. induction l as [|x l IH]; intros Hlen Hin; [done|].
  apply Forall_cons in Hin as [Hx Hin]. rewrite !fmap_cons, keys_fill_cons, sizes_cons, IH;
    [|intros r Hr; apply Hlen; by apply list_elem_of_further|done].
  unfold key_cost. rewrite Hlen by apply list_elem_of_here. unfold inline, rec_of in Hx. cbn [r_overflow] in Hx.
  unfold sizeof_record, rec_of. cbn [r_key length]. rewrite Hx, E. lia.
Qed.

(** ** Steps of a branch *)
Record branch_step d p d' ks cs : Prop := {
  bs_writes : writes 0 (eq p) d d';
  bs_at : branch_at d' p ks cs;
  bs_own q : db_used d q -> needs_copy d' q = needs_copy d q;
  bs_freed : db_freed d' = db_freed d;
  bs_mark : mark d' p = mark d p;
}.

Lemma branch_step_trans d p d1 ks1 cs1 d2 ks2 cs2 :
  branch_step d p d1 ks1 cs1 -> branch_step d1 p d2 ks2 cs2 -> branch_step d p d2 ks2 cs2.
Proof.
  intros [W1 _ O1 F1 M1] [W2 A2 O2 F2 M2]. split; [|done| |congruence|congruence].
  - replace 0 with (0 + 0) by lia. apply (writes_trans _ _ _ _ _ _ _ _ W1 W2). tauto.
  - intros q Hq. rewrite O2, O1; [done|done|by apply (wr_used _ _ _ _ W1)].
Qed.

Lemma branch_op {A} d p ks cs (op : NodeM A) a nd d1 ks' cs' :
  db_inv d -> branch_at d p ks cs -> op (db_node d p, d) = Ok a (nd, d1) -> branch_ok d1 nd -> db_inv d1 ->
  pg_extends d d1 -> db_space d <= db_space d1 -> same_mark (db_node d p) nd ->
  keys d1 nd = ks' -> children nd = cs' -> Forall (short (page_size d)) ks' -> db_freed d1 = db_freed d ->
  exists d', on_node p op d = Ok a d' /\ branch_step d p d' ks' cs'.
Proof.
  intros Hinv [Hp Hok Hty Hin _ _] Hop Hok1 Hinv1 Hext Hsp [Htx Htyp] Hk Hc Hsh Hfd.
  pose proof (pe_ps _ _ Hext) as Hps. cbn in Hps.
  assert (Hin1 : Forall inline (recs nd)) by (apply (inline_short d1 nd Hok1); rewrite Hk, Hps; exact Hsh).
  destruct (writes_on_node d p op a nd d1 0 Hinv Hp Hop Hinv1 Hext) as (Hon & Hw & Hnode);
    [lia|rewrite <- Hps; apply Hok1|]. set (d' := put_node p nd d1) in *. exists d'. split; [exact Hon|].
  assert (Hw1 : writes 0 (eq p) d1 d').
  { apply put_writes; [done|by apply (pe_used _ _ Hext)|apply Hok1]. }
  destruct (node_frame d1 d' nd (eq p) Hw1 (bo_node _ _ Hok1)) as (Hok' & Hk' & _).
  { rewrite inline_node_pages by done. intros q Hq. by apply elem_of_nil in Hq. }
  split; [exact Hw| | |exact Hfd|unfold mark; by rewrite Hnode].
  - split; rewrite ?Hnode; try done; [by apply (wr_used _ _ _ _ Hw)| | |congruence].
    + destruct Hok1 as [_ E T]. by split.
    + unfold IsBranch in *. by rewrite Htyp.
  - intros q Hq. destruct (decide (p = q)) as [<-|Hne]; [|by apply (needs_copy_writes _ _ _ _ _ Hw)].
    apply needs_copy_env; [apply Hw|]. by rewrite Hnode.
Qed.

Lemma branch_at_ps d p ks cs : branch_at d p ks cs -> page_size_ok (page_size d).
Proof. intros [_ Hok _ _ _ _]. exact (sw_ps _ _ (nw_space _ _ (no_wf _ _ (bo_node _ _ Hok)))). Qed.
Lemma branch_at_lengths d p ks cs : branch_at d p ks cs -> length cs = S (length ks).
Proof.
  intros Hb. destruct (branch_fill _ _ _ _ Hb) as [_ Hc]. destruct Hb as [_ Hok _ _ _ <-].
  pose proof (length_children d _ (bo_node _ _ Hok)). lia.
Qed.

Lemma b_insert d p ks cs (i : nat) k c (right : bool) :
  db_inv d -> branch_at d p ks cs -> (i <= length ks)%nat -> short (page_size d) k -> 0 <= c < 2 ^ 32 ->
  let ok := keys_fill ks + key_cost k <=? page_size d - 18 in
  exists d', on_node p (Branch_Insert (Z.of_nat i) (Ext k) c right) d = Ok ok d' /\
    if ok then branch_step d p d' (insert_at i k ks) (insert_at (i + if right then 1 else 0) c cs)
    else branch_step d p d' ks cs.
Proof.
  intros Hinv Hb Hi Hk Hc. destruct (branch_fill _ _ _ _ Hb) as [Hfill Hcnt]. pose proof (branch_at_short _ _ _ _ Hb) as Hsh.
  pose proof (branch_at_ps _ _ _ _ Hb) as Hpsok. destruct (page_size_bounds _ Hpsok) as [Hr _]. unfold short in Hk.
  pose proof (Z.div_le_upper_bound (page_size d - 34) 2 (page_size d)).
  assert (Hnov : forall b, record_need (page_size d) (Z.of_nat (length k)) b = Z.of_nat (length k) + (if b then 8 else 0)).
  { intros b. unfold record_need. by rewrite (proj2 (Z.ltb_ge _ _)) by lia. }
  assert (Hsp0 : store_pages (page_size d) (Z.of_nat (length k)) = 0).
  { unfold store_pages. by rewrite (proj2 (Z.ltb_ge _ _)) by lia. }
  pose proof Hb as [Hp Hok _ _ Hks Hcs].
  destruct (Branch_Insert_recs (db_node d p) d i k c right Hok Hinv) as (nd & d1 & Hop & Hok1 & Hinv1 & Hext & Hmk & Hres);
    [lia|done|change (pg_page_size d) with (page_size d); lia
    |intros Hlt; change (pg_page_size d) with (page_size d) in Hlt; lia|].
  change (pg_page_size d) with (page_size d) in Hop, Hres. rewrite Hnov in Hop, Hres. rewrite Hsp0 in Hres.
  change (pg_space d) with (db_space d) in Hres. change (pg_space d1) with (db_space d1) in Hres.
  assert (Eok : (Z.of_nat (length k) + 8 <=? page_size d - (18 + 8 * count (db_node d p)) - space_used (header (db_node d p))) =
    (keys_fill ks + key_cost k <=? page_size d - 18)).
  { rewrite Hfill. unfold key_cost. destruct (Z.leb_spec (Z.of_nat (length k) + 8) (page_size d - (18 + 8 * count (db_node d p)) - space_used (header (db_node d p))));
      symmetry; [apply Z.leb_le|apply Z.leb_gt]; lia. }
  rewrite Eok in Hop, Hres. cbv zeta. destruct (keys_fill ks + key_cost k <=? page_size d - 18).
  - destruct Hres as (Hk1 & Hc1 & Hs1). apply (branch_op d p ks cs _ _ nd d1); try done.
    + lia.
    + by rewrite Hk1, Hks.
    + by rewrite Hc1, Hcs.
    + unfold insert_at. apply Forall_app. split; [by apply Forall_take|]. constructor; [done|by apply Forall_drop].
    + by apply (unfreed_on _ _ _ _ _ _ (trails_Branch_Insert unfreed unfreed_map unfreed_Alloc _ _ _ _) Hop).
  - destruct Hres as [-> ->]. by apply (branch_op d p ks cs _ _ (db_node d p) d).
Qed.

Lemma b_append d p ks cs k c (right : bool) :
  db_inv d -> branch_at d p ks cs -> short (page_size d) k -> 0 <= c < 2 ^ 32 ->
  keys_fill ks + key_cost k <= page_size d - 18 ->
  exists d', on_node p (Branch_Append (Ext k) c right) d = Ok true d' /\
    branch_step d p d' (ks ++ [k]) (insert_at (length ks + if right then 1 else 0) c cs).
Proof.
  intros Hinv Hb Hk Hc Hroom. destruct (branch_fill _ _ _ _ Hb) as [_ Hcnt].
  destruct (b_insert d p ks cs (length ks) k c right Hinv Hb) as (d' & Hon & Hst); [lia|done|done|].
  rewrite (proj2 (Z.leb_le _ _) Hroom) in Hon, Hst. exists d'. split.
  - rewrite <- Hon. apply on_node_ext; [done|apply Hb|]. unfold Branch_Append.
    run_step (data_ok (db_node d p) d). by rewrite Hcnt.
  - unfold insert_at at 1 in Hst. by rewrite firstn_all, drop_all in Hst.
Qed.

Lemma b_delete d p ks cs (i : nat) (right : bool) :
  db_inv d -> branch_at d p ks cs -> (i < length ks)%nat ->
  exists d', on_node p (Branch_Delete (Z.of_nat i) right) d = Ok tt d' /\
    branch_step d p d' (delete i ks) (delete (i + if right then 1 else 0)%nat cs).
Proof.
  intros Hinv Hb Hi. destruct (branch_fill _ _ _ _ Hb) as [_ Hcnt]. pose proof (branch_at_short _ _ _ _ Hb) as Hsh.
  pose proof Hb as [_ Hok _ _ Hks Hcs].
  destruct (Branch_Delete_recs (db_node d p) d i right Hok Hinv) as (nd & d1 & Hop & Hok1 & Hinv1 & Hext & Hsp & Hmk & Hk1 & Hc1 & Hfr); [lia|].
  cbn in Hsp. apply (branch_op d p ks cs _ tt nd d1); try done; try lia.
  - by rewrite Hk1, Hks.
  - by rewrite Hc1, Hcs.
  - apply Forall_delete. exact Hsh.
  - pose proof (length_recs d _ (bo_node _ _ Hok)) as Hl. destruct (lookup_lt_is_Some_2 (recs (db_node d p)) i ltac:(lia)) as [r Hr].
    pose proof (Hfr r Hr) as Hf. unfold rec_pairs in Hf. rewrite (Forall_lookup_1 _ _ _ _ (ba_inline _ _ _ _ Hb) Hr), app_nil_r in Hf. exact Hf.
Qed.

Lemma b_pop d p ks k cs (right : bool) :
  db_inv d -> branch_at d p (ks ++ [k]) cs ->
  exists d', on_node p (Branch_Pop right) d = Ok tt d' /\
    branch_step d p d' ks (delete (length ks + if right then 1 else 0)%nat cs).
Proof.
  intros Hinv Hb. destruct (branch_fill _ _ _ _ Hb) as [_ Hcnt].
  destruct (b_delete d p (ks ++ [k]) cs (length ks) right Hinv Hb) as (d' & Hon & Hst); [rewrite length_app; cbn; lia|].
  exists d'. split.
  - rewrite <- Hon. apply on_node_ext; [done|apply Hb|]. unfold Branch_Pop. run_step (data_ok (db_node d p) d).
    rewrite Hcnt, length_app. cbn [length]. by replace (Z.of_nat (length ks + 1) - 1) with (Z.of_nat (length ks)) by lia.
  - replace (delete (length ks) (ks ++ [k])) with ks in Hst; [done|].
    replace (length ks) with (length ks + 0)%nat by lia. by rewrite delete_app_add, app_nil_r.
Qed.

Lemma b_set_child d p ks cs (i : nat) c :
  db_inv d -> branch_at d p ks cs -> (i <= length ks)%nat -> 0 <= c < 2 ^ 32 ->
  exists d', on_node p (SetLeftChild (Z.of_nat i) c) d = Ok tt d' /\ branch_step d p d' ks (<[i := c]> cs).
Proof.
  intros Hinv Hb Hi Hc. destruct (branch_fill _ _ _ _ Hb) as [_ Hcnt]. pose proof (branch_at_short _ _ _ _ Hb) as Hsh.
  pose proof Hb as [_ Hok _ _ Hks Hcs].
  destruct (SetLeftChild_ok (db_node d p) d i c Hok) as (nd & Hop & Hok1 & Hh & Hk1 & Hc1 & _); [lia|done|].
  apply (branch_op d p ks cs _ tt nd d); try done.
  - unfold same_mark. by rewrite Hh.
  - by rewrite <- Hks.
  - by rewrite Hc1, Hcs.
Qed.

(** ** Replacing a key *)
Lemma keys_fill_insert ks (i : nat) k0 k : ks !! i = Some k0 -> keys_fill (<[i := k]> ks) = keys_fill ks - key_cost k0 + key_cost k.
Proof.
  intros Hi. rewrite insert_take_drop by (by eapply lookup_lt_Some). rewrite <- (take_drop_middle ks i k0 Hi) at 3.
  rewrite !keys_fill_app, !keys_fill_cons. lia.
Qed.

Lemma key_record d p ks cs (i : nat) k : branch_at d p ks cs -> ks !! i = Some k ->
  exists r, recs (db_node d p) !! i = Some r /\ r_overflow r = false /\ length (r_bytes r) = length k.
Proof.
  intros [Hp Hok _ Hin <- _] Hi. unfold keys in Hi. apply list_lookup_fmap_Some in Hi as (r & -> & Hri).
  pose proof (list_elem_of_lookup_2 _ _ _ Hri) as Hrin. rewrite Forall_forall in Hin. pose proof (Hin r Hrin) as Ho. unfold inline in Ho.
  pose proof (rec_key_length d _ r Hok Hrin) as Hlen. rewrite (bo_branch _ _ Hok).
  destruct (rec_content_length d _ i r (bo_node _ _ Hok) Hri) as (_ & _ & Hlen2). rewrite (bo_branch _ _ Hok) in Hlen2.
  unfold rec_content in Hlen2. rewrite Ho in Hlen2. unfold rec_total in Hlen2. exists r. split_and!; [done|done|lia].
Qed.

(** Both [Update]s of a key: the one of the key alone, and the one that stores
    again the left child it has. *)
Lemma b_update d p ks cs (i : nat) k0 k c :
  db_inv d -> branch_at d p ks cs -> ks !! i = Some k0 -> cs !! i = Some c -> 0 <= c < 2 ^ 32 -> short (page_size d) k ->
  let ok := keys_fill (<[i := k]> ks) <=? page_size d - 18 in
  (exists d', on_node p (Branch_UpdateKey (Z.of_nat i) (Ext k)) d = Ok ok d' /\
    branch_step d p d' (if ok then <[i := k]> ks else ks) cs) /\
  (exists d', on_node p (Branch_Update (Z.of_nat i) (Ext k) c false) d = Ok ok d' /\
    branch_step d p d' (if ok then <[i := k]> ks else ks) cs).
Proof.
  intros Hinv Hb Hi Hci Hc Hk. destruct (branch_fill _ _ _ _ Hb) as [Hfill Hcnt]. pose proof (branch_at_short _ _ _ _ Hb) as Hsh.
  pose proof (branch_at_ps _ _ _ _ Hb) as Hpsok. destruct (page_size_bounds _ Hpsok) as [Hr _].
  pose proof Hk as Hk'. unfold short in Hk'. pose proof (Z.div_le_upper_bound (page_size d - 34) 2 (page_size d)).
  assert (Hnov : record_need (page_size d) (Z.of_nat (length k)) false = Z.of_nat (length k)).
  { unfold record_need. rewrite (proj2 (Z.ltb_ge _ _)) by lia. lia. }
  pose proof Hb as [Hp Hok _ _ Hks Hcs]. destruct (key_record _ _ _ _ _ _ Hb Hi) as (r & Hri & Ho & Hlen).
  set (ok := keys_fill (<[i := k]> ks) <=? page_size d - 18).
  assert (Eok : (record_need (page_size d) (Z.of_nat (length k)) false <=?
    page_size d - (18 + 8 * count (db_node d p)) - (space_used (header (db_node d p)) - Z.of_nat (length (r_bytes r)))) = ok).
  { unfold ok. rewrite (keys_fill_insert _ _ _ _ Hi), Hnov, Hfill. unfold key_cost.
    destruct (Z.leb_spec (Z.of_nat (length k)) (page_size d - (18 + 8 * count (db_node d p)) - (space_used (header (db_node d p)) - Z.of_nat (length (r_bytes r)))));
      symmetry; [apply Z.leb_le|apply Z.leb_gt]; lia. }
  assert (Hsp0 : store_pages (page_size d) (Z.of_nat (length k)) = 0).
  { unfold store_pages. by rewrite (proj2 (Z.ltb_ge _ _)) by lia. }
  assert (Hroom : store_room d (Z.of_nat (length k))).
  { intros Hlt. change (pg_page_size d) with (page_size d) in Hlt. lia. }
  assert (Hfin : forall op nd d1, op (db_node d p, d) = Ok ok (nd, d1) -> branch_ok d1 nd -> db_inv d1 -> pg_extends d d1 ->
    same_mark (db_node d p) nd -> trails_on unfreed op ->
    (if ok then keys d1 nd = <[i := k]> (keys d (db_node d p)) /\ children nd = children (db_node d p) /\
       db_space d - store_pages (page_size d) (Z.of_nat (length k)) <= db_space d1 else nd = db_node d p /\ d1 = d) ->
    exists d', on_node p op d = Ok ok d' /\ branch_step d p d' (if ok then <[i := k]> ks else ks) cs).
  { intros op nd d1 Hop Hok1 Hinv1 Hext Hmk Htr Hres. rewrite Hsp0 in Hres. destruct ok.
    - destruct Hres as (Hk1 & Hc1 & Hs1). apply (branch_op d p ks cs op true nd d1); try done; [lia|by rewrite Hk1, Hks|by rewrite Hc1, Hcs|by apply Forall_insert|].
      by apply (unfreed_on _ _ _ _ _ _ Htr Hop).
    - destruct Hres as [-> ->]. by apply (branch_op d p ks cs op false (db_node d p) d). }
  split.
  - destruct (Branch_UpdateKey_recs (db_node d p) d i r k Hok Hinv Hri Ho) as (nd & d1 & Hop & Hok1 & Hinv1 & Hext & Hmk & Hres);
      [change (pg_page_size d) with (page_size d); lia|done|].
    change (pg_page_size d) with (page_size d) in Hop, Hres. rewrite Eok in Hop, Hres. apply (Hfin _ nd d1); try done.
    apply (trails_Branch_UpdateKey unfreed unfreed_map unfreed_Alloc).
  - destruct (Branch_Update_recs (db_node d p) d i r k c false Hok Hinv Hri Ho Hc) as (nd & d1 & Hop & Hok1 & Hinv1 & Hext & Hmk & Hres);
      [change (pg_page_size d) with (page_size d); lia|done|].
    change (pg_page_size d) with (page_size d) in Hop, Hres. rewrite Eok in Hop, Hres. apply (Hfin _ nd d1); try done; [apply (trails_Branch_Update unfreed unfreed_map unfreed_Alloc)|].
    destruct ok; [|done]. destruct Hres as (H1 & H2 & H3). split; [done|]. split; [|done]. rewrite H2. apply list_insert_id. by rewrite Hcs.
Qed.

Lemma b_set_tail d p ks cs c0 c :
  db_inv d -> branch_at d p ks (cs ++ [c0]) -> 0 <= c < 2 ^ 32 ->
  exists d', on_node p (SetTailChild c) d = Ok tt d' /\ branch_step d p d' ks (cs ++ [c]).
Proof.
  intros Hinv Hb Hc. destruct (branch_fill _ _ _ _ Hb) as [_ Hcnt]. pose proof (branch_at_lengths _ _ _ _ Hb) as Hlen.
  rewrite length_app in Hlen. cbn in Hlen.
  destruct (b_set_child d p ks (cs ++ [c0]) (length ks) c Hinv Hb) as (d' & Hon & Hst); [lia|done|].
  exists d'. split.
  - rewrite <- Hon. apply on_node_ext; [done|apply Hb|]. unfold SetLeftChild. run_step (data_ok (db_node d p) d).
    rewrite bind_assert by (apply Z.leb_le; lia). by rewrite (proj2 (Z.eqb_eq _ _)) by lia.
  - replace (length ks) with (length cs) in Hst by lia.
    by rewrite insert_app_r_alt, Nat.sub_diag in Hst by lia.
Qed.

Lemma b_reverse d p ks cs c :
  db_inv d -> branch_at d p ks (cs ++ [c]) ->
  exists d', on_node p reverse_slots d = Ok tt d' /\ branch_step d p d' (rev ks) (rev cs ++ [c]).
Proof.
  intros Hinv Hb. pose proof (branch_at_short _ _ _ _ Hb) as Hsh. pose proof Hb as [_ Hok _ _ Hks Hcs].
  destruct (reversed_ok d _ (bo_node _ _ Hok)) as [Hok1 Hrecs].
  apply (branch_op d p ks (cs ++ [c]) reverse_slots tt (reversed (db_node d p)) d); try done.
  - destruct Hok as [_ E T]. by split.
  - unfold keys. rewrite Hrecs. change (IsLeaf (reversed (db_node d p))) with (IsLeaf (db_node d p)).
    rewrite <- Hks. unfold keys. apply map_rev.
  - unfold children in *. rewrite Hrecs. change (tail_child (reversed (db_node d p))) with (tail_child (db_node d p)).
    apply app_inj_2 in Hcs as [Hcs Htl]; [|done]. rewrite Htl. f_equal. rewrite <- Hcs. apply map_rev.
  - by apply Forall_rev.
Qed.

Section branch_reads.
Context d p ks cs (Hinv : db_inv d) (Hb : branch_at d p ks cs).

Lemma b_count : node_count p d = Ok (Z.of_nat (length ks)) d.
Proof. rewrite (node_count_ok d p Hinv (ba_used _ _ _ _ Hb)). by rewrite (proj2 (branch_fill _ _ _ _ Hb)). Qed.

Lemma b_key (i : nat) k : ks !! i = Some k -> node_key p (Z.of_nat i) d = Ok k d.
Proof.
  intros Hk. destruct Hb as [Hp Hok _ _ Hks _]. rewrite <- Hks in Hk.
  exact (look_ok d p _ _ _ Hinv Hp (key_at_keys d _ i k (bo_node _ _ Hok) Hinv Hk)).
Qed.

Lemma b_left_child (i : nat) c : cs !! i = Some c -> node_left_child p (Z.of_nat i) d = Ok c d.
Proof.
  intros Hc. destruct Hb as [Hp Hok _ _ _ Hcs]. rewrite <- Hcs in Hc.
  exact (look_ok d p _ _ _ Hinv Hp (GetLeftChild_ok _ d i c Hok Hc)).
Qed.

Lemma b_tail cs0 c : cs = cs0 ++ [c] -> node_tail_child p d = Ok c d.
Proof.
  intros Hc. destruct Hb as [Hp Hok _ _ _ Hcs]. rewrite Hc in Hcs. unfold children in Hcs.
  apply app_inj_2 in Hcs as [_ Htl]; [|done]. injection Htl as Htl.
  assert (Hop : GetTailChild (db_node d p, d) = Ok c (db_node d p, d)) by (rewrite <- Htl; done).
  exact (look_ok d p _ _ _ Hinv Hp Hop).
Qed.

Lemma b_right_child (i : nat) c : (i < length ks)%nat -> cs !! S i = Some c -> look p (GetRightChild (Z.of_nat i)) d = Ok c d.
Proof.
  intros Hi Hc. destruct (branch_fill _ _ _ _ Hb) as [_ Hcnt]. destruct Hb as [Hp Hok _ _ _ Hcs]. rewrite <- Hcs in Hc.
  refine (look_ok d p _ _ _ Hinv Hp (GetRightChild_ok _ d i c Hok _ Hc)). lia.
Qed.

Lemma b_rate : fill_rate p d = Ok (keys_fill ks) d.
Proof.
  destruct (branch_fill _ _ _ _ Hb) as [-> _]. destruct Hb as [Hp Hok _ _ _ _]. set (nd := db_node d p) in *.
  assert (Hrate : GetFillRate (nd, d) = Ok (8 * count nd + space_used (header nd)) (nd, d)).
  { unfold GetFillRate. run_step (page_size_run nd d).
    run_step (FreeSpaceAfterCompaction_ok nd d (nw_space _ _ (no_wf _ _ (bo_node _ _ Hok)))).
    unfold ret, max_space, sizeof_NodeHeader, sizeof_padding. f_equal. cbn. lia. }
  exact (look_ok d p _ _ _ Hinv Hp Hrate).
Qed.
Lemma b_above_half : fill_above_half p d = Ok (page_size d - 18 <? 2 * keys_fill ks) d.
Proof. unfold fill_above_half. run_step b_rate. by rewrite <- (max_space_18 (page_size d)). Qed.
Lemma b_at_least_40 : fill_at_least_40 p d = Ok (4 * (page_size d - 18) <=? 10 * keys_fill ks) d.
Proof. unfold fill_at_least_40. run_step b_rate. by rewrite <- (max_space_18 (page_size d)). Qed.
End branch_reads.
