(* ===== verification/BranchSplit.v ===== *)
(** Splitting a branch: the branch [Split] of [src/btree.cpp] on pages, with
    the keys and children on each side told exactly. *)
From S2P Require Import Prelude Format Comparator State Memory FreeMap Pager PagerI PagerInst.
From S2P Require Import Node NodeWf NodeSpec Search BranchSpec Tx Iterator BTree Trails NodeDb Freed Tree Copying TreeSteps Forest LeafPage LeafSplit BranchPage.

Implicit Types (d : DBImpl) (p q l r : Z) (k : list byte) (ks : list (list byte)) (cs : list Z).

Definition child_range (c : Z) : Prop := 0 <= c < 2 ^ 32.

(** ** Steps on two branches *)
Lemma branch_at_frame W d d' p ks cs : keeps_pages W d d' -> ~ W p -> branch_at d p ks cs -> branch_at d' p ks cs.
Proof.
  intros Hw Hn [Hp Hok Hty Hin Hk Hc]. pose proof (kp_node _ _ _ Hw p Hp Hn) as Hnd.
  destruct (node_frame d d' (db_node d p) W Hw (bo_node _ _ Hok)) as (Hok' & Hk' & _).
  { rewrite inline_node_pages by done. intros q Hq. by apply elem_of_nil in Hq. }
  split; rewrite ?Hnd; try done; [by apply (kp_used _ _ _ Hw)| |congruence].
  destruct Hok as [_ E T]. by split.
Qed.

(** What a step on branches does besides: it writes the pages [W] in place. *)
Record quiet (W : Z -> Prop) d d' : Prop := {
  qt_writes : writes 0 W d d';
  qt_own q : db_used d q -> needs_copy d' q = needs_copy d q;
  qt_freed : db_freed d' = db_freed d;
  qt_mark q : db_used d q -> mark d' q = mark d q;
}.
Lemma quiet_refl d : db_inv d -> quiet (fun _ => False) d d.
Proof. intros. split; [by apply writes_refl|done..]. Qed.
Lemma quiet_trans (W : Z -> Prop) d d1 d2 : quiet W d d1 -> quiet W d1 d2 -> quiet W d d2.
Proof.
  intros [W1 O1 F1 M1] [W2 O2 F2 M2]. split; [| |congruence|].
  - replace 0 with (0 + 0) by lia. apply (writes_trans _ _ _ _ _ _ _ _ W1 W2). tauto.
  - intros q Hq. rewrite O2, O1; [done|done|by apply (wr_used _ _ _ _ W1)].
  - intros q Hq. rewrite M2, M1; [done|done|by apply (wr_used _ _ _ _ W1)].
Qed.
Lemma step_quiet (W : Z -> Prop) d p d' ks cs : branch_step d p d' ks cs -> W p -> quiet W d d'.
Proof.
  intros [Hw _ Ho Hf Hm] HW. split; [|done|done|].
  - apply (writes_weaken _ _ _ _ _ _ Hw); [lia|]. by intros q _ <-.
  - intros q Hq. destruct (decide (p = q)) as [<-|Hne]; [done|]. unfold mark. by rewrite (wr_node _ _ _ _ Hw).
Qed.
Lemma step_marks d p d' ks cs : branch_step d p d' ks cs -> forall q, db_used d q -> mark d' q = mark d q.
Proof. intros Hs. exact (qt_mark _ _ _ (step_quiet (eq p) _ _ _ _ _ Hs eq_refl)). Qed.
Lemma step_frame d p d' ks cs q ks2 cs2 :
  branch_step d p d' ks cs -> p <> q -> branch_at d q ks2 cs2 -> branch_at d' q ks2 cs2.
Proof. intros [Hw _ _ _] Hne. apply (branch_at_frame (eq p)); [by eapply writes_keeps|done]. Qed.

(** Two branches, on distinct pages. *)
Record two d l r lks lcs rks rcs : Prop := {
  tw_inv : db_inv d;
  tw_ne : l <> r;
  tw_left : branch_at d l lks lcs;
  tw_right : branch_at d r rks rcs;
}.
Definition either l r q : Prop := q = l \/ q = r.

Lemma two_left d l r lks lcs rks rcs d' lks' lcs' :
  two d l r lks lcs rks rcs -> branch_step d l d' lks' lcs' ->
  two d' l r lks' lcs' rks rcs /\ quiet (either l r) d d'.
Proof.
  intros [Hi Hne Hl Hr] Hs. split; [|apply (step_quiet _ _ _ _ _ _ Hs); by left].
  split; [apply Hs|done|apply Hs|by apply (step_frame _ _ _ _ _ _ _ _ Hs)].
Qed.
Lemma two_right d l r lks lcs rks rcs d' rks' rcs' :
  two d l r lks lcs rks rcs -> branch_step d r d' rks' rcs' ->
  two d' l r lks lcs rks' rcs' /\ quiet (either l r) d d'.
Proof.
  intros [Hi Hne Hl Hr] Hs. split; [|apply (step_quiet _ _ _ _ _ _ Hs); by right].
  split; [apply Hs|done|by apply (step_frame _ _ _ _ _ _ _ _ Hs)|apply Hs].
Qed.

(** ** The loop: the last keys with their left children, backwards *)
Lemma split_branch_loop_ok ps l r t x : forall n d ks cs rks rcs,
  page_size d = ps -> two d l r ks (cs ++ [t]) rks (rcs ++ [x]) -> length ks = n -> Forall child_range cs ->
  Forall (fun k => 2 * key_cost k <= ps - 18) ks ->
  keys_fill ks + keys_fill rks <= ps - 18 -> ps - 18 < 2 * keys_fill ks ->
  exists ks1 k ks2 cs1 c cs2 d', ks = ks1 ++ k :: ks2 /\ cs = cs1 ++ c :: cs2 /\ length cs1 = length ks1 /\
    split_branch_loop l r n d = Ok tt d' /\ quiet (either l r) d d' /\
    two d' l r ks1 (cs1 ++ [t]) (rks ++ rev (k :: ks2)) ((rcs ++ rev (c :: cs2)) ++ [x]) /\
    2 * keys_fill ks1 <= ps - 18 /\ ps - 18 < 2 * keys_fill (ks1 ++ [k]).
Proof.
  induction n as [|n IH]; intros d ks cs rks rcs Hps H2 Hlen Hcs Hcost Hroom Habove.
  { destruct ks; [|done]. cbn in Habove. pose proof (branch_at_ps _ _ _ _ (tw_left _ _ _ _ _ _ _ H2)) as Hok.
    rewrite Hps in Hok. destruct (page_size_bounds _ Hok). lia. }
  destruct ks as [|k ks] using rev_ind; [done|]. clear IHks. rewrite length_app in Hlen. cbn in Hlen.
  pose proof (branch_at_lengths _ _ _ _ (tw_left _ _ _ _ _ _ _ H2)) as Hl. rewrite !length_app in Hl. cbn in Hl.
  destruct cs as [|c cs] using rev_ind; [cbn in Hl; lia|]. clear IHcs. rewrite length_app in Hl. cbn in Hl.
  pose proof (branch_at_lengths _ _ _ _ (tw_right _ _ _ _ _ _ _ H2)) as Hlr. rewrite length_app in Hlr. cbn in Hlr.
  apply Forall_app in Hcs as [Hcs [Hc _]%Forall_cons]. apply Forall_app in Hcost as [Hcost [Hck _]%Forall_cons].
  rewrite keys_fill_app, keys_fill_cons in Hroom. cbn [keys_fill foldr] in Hroom. fold (keys_fill ks) (keys_fill rks) in Hroom.
  pose proof (keys_fill_nonneg ks). pose proof H2 as [Hinv Hne Hbl Hbr].
  assert (Hk : node_key l (Z.of_nat (length ks)) d = Ok k d).
  { apply (b_key d l _ _ Hinv Hbl). by rewrite lookup_app_r, Nat.sub_diag by lia. }
  assert (Hch : node_left_child l (Z.of_nat (length ks)) d = Ok c d).
  { apply (b_left_child d l _ _ Hinv Hbl). rewrite <- app_assoc. rewrite lookup_app_r by lia.
    by replace (length ks - length cs)%nat with 0%nat by lia. }
  pose proof (branch_at_short _ _ _ _ Hbl) as Hsh. apply Forall_app in Hsh as [_ [Hsk _]%Forall_cons].
  destruct (b_append d r rks _ k c false Hinv Hbr Hsk Hc) as (d1 & Hop1 & S1); [rewrite Hps; lia|].
  destruct (two_right _ _ _ _ _ _ _ _ _ _ H2 S1) as [H21 Q1].
  destruct (b_pop d1 l ks k _ false (tw_inv _ _ _ _ _ _ _ H21) (tw_left _ _ _ _ _ _ _ H21)) as (d2 & Hop2 & S2).
  destruct (two_left _ _ _ _ _ _ _ _ _ _ H21 S2) as [H22 Q2]. pose proof (quiet_trans _ _ _ _ Q1 Q2) as Q.
  assert (E1 : delete (length ks + 0)%nat ((cs ++ [c]) ++ [t]) = cs ++ [t]).
  { rewrite <- app_assoc. replace (length ks + 0)%nat with (length cs + 0)%nat by lia. by rewrite delete_app_add. }
  assert (E2 : insert_at (length rks + 0) c (rcs ++ [x]) = (rcs ++ [c]) ++ [x]).
  { replace (length rks + 0)%nat with (length rcs) by lia. by rewrite insert_at_app, <- app_assoc. }
  rewrite E1, E2 in H22. pose proof (wr_ps _ _ _ _ (qt_writes _ _ _ Q)) as Hps2. rewrite Hps in Hps2.
  pose proof (b_above_half d2 l _ _ (tw_inv _ _ _ _ _ _ _ H22) (tw_left _ _ _ _ _ _ _ H22)) as Hread. rewrite Hps2 in Hread.
  assert (Hstep : forall m, split_branch_loop l r (S (length ks)) d = m ->
    (if ps - 18 <? 2 * keys_fill ks then split_branch_loop l r (length ks) d2 else Ok tt d2) = m).
  { intros m <-. cbn [split_branch_loop]. run_step Hk. run_step Hch. unfold must. rewrite bind_assoc. run_step Hop1.
    rewrite bind_assert by done. run_step Hop2. run_step Hread. by destruct (ps - 18 <? _). }
  replace n with (length ks) in * by lia.
  destruct (Z.ltb_spec (ps - 18) (2 * keys_fill ks)) as [Hab|Hab].
  - destruct (IH d2 ks cs (rks ++ [k]) (rcs ++ [c]) Hps2 H22)
      as (ks1 & k1 & ks2 & cs1 & c1 & cs2 & d' & -> & -> & Hl1 & Hrun & Q' & H2' & Hle & Hgt); try done.
    { rewrite keys_fill_app, keys_fill_cons. cbn. lia. }
    exists ks1, k1, (ks2 ++ [k]), cs1, c1, (cs2 ++ [c]), d'.
    split; [by rewrite <- app_assoc|]. split; [by rewrite <- app_assoc|]. split; [done|].
    split; [by rewrite <- (Hstep _ eq_refl)|]. split; [by apply (quiet_trans _ _ d2)|]. split; [|done].
    replace (rks ++ rev (k1 :: ks2 ++ [k])) with ((rks ++ [k]) ++ rev (k1 :: ks2)) by (cbn; rewrite rev_app_distr, <- !app_assoc; done).
    replace ((rcs ++ rev (c1 :: cs2 ++ [c])) ++ [x]) with (((rcs ++ [c]) ++ rev (c1 :: cs2)) ++ [x])
      by (cbn; rewrite rev_app_distr, <- !app_assoc; done). done.
  - exists ks, k, [], cs, c, [], d2. split_and!; try done; [lia|by rewrite <- (Hstep _ eq_refl)].
Qed.

(** ** A branch on a fresh page *)
Lemma build_branch d g tail : db_inv d -> db_used d g -> child_range tail ->
  exists d', on_node g (Branch_Build tail) d = Ok tt d' /\ writes 0 (eq g) d d' /\ branch_at d' g [] [tail] /\ own d' g /\ mark d' g = db_txid d'.
Proof.
  intros Hinv Hg Htail. destruct (db_node_room d g Hinv) as [Hsl Hpl].
  destruct (@Branch_Build_ok DBImpl DB_PagerOps DB_PagerLaws (db_node d g) d tail (page_size_inv d Hinv) Hinv Htail Hsl Hpl)
    as (nd & Hop & Hok & Hrecs & Htl & Hid & Hty).
  destruct (build_node d g (Branch_Build tail) tt nd Hinv Hg Hop (no_wf _ _ (bo_node _ _ Hok)) Hid) as (d' & Hon & Hw & Hnd & Hown & Hmk).
  exists d'. split; [done|]. split; [done|]. split; [|done]. split; rewrite ?Hnd; try done.
  - by apply (wr_used _ _ _ _ Hw).
  - destruct (node_frame d d' nd (eq g) Hw (bo_node _ _ Hok)) as (Hok' & _ & _).
    { unfold node_pages. rewrite Hrecs. intros q Hq. by apply elem_of_nil in Hq. }
    destruct Hok as [_ E T]. by split.
  - by rewrite Hrecs.
  - unfold keys. by rewrite Hrecs.
  - unfold children. by rewrite Hrecs, Htl.
Qed.

Lemma alloc_branch d tail : db_inv d -> 1 <= db_space d -> child_range tail ->
  exists g d1 d2, Alloc 1 d = Ok g d1 /\ new_node g d1 = Ok tt d1 /\ on_node g (Branch_Build tail) d1 = Ok tt d2 /\
    writes 1 (fun _ => False) d d2 /\ branch_at d2 g [] [tail] /\ ~ db_used d g /\ own d2 g /\
    (forall q, db_used d q -> needs_copy d2 q = needs_copy d q) /\ db_freed d2 = db_freed d /\
    (forall q, db_used d q -> mark d2 q = mark d q) /\ mark d2 g = db_txid d2.
Proof.
  intros Hinv Hsp Htail. destruct (Alloc_writes d 1 Hinv) as (g & d1 & HA & W1 & Hg); [lia|done|].
  destruct (Hg g ltac:(lia)) as [Hng Hg1]. pose proof (wr_inv _ _ _ _ W1) as Hinv1.
  destruct (build_branch d1 g tail Hinv1 Hg1 Htail) as (d2 & Hon & W2 & Hb & Hown & Hmk).
  assert (Hw : writes 1 (fun _ => False) d d2).
  { replace 1 with (1 + 0) by lia. apply (writes_trans _ _ (fun _ => False) (eq g) _ _ d1 _ W1 W2).
    intros q Hq [[]|<-]. by apply Hng. }
  exists g, d1, d2. split_and!; try done; [by apply new_node_ok| | |].
  - intros q Hq. by apply (needs_copy_writes _ _ _ _ _ Hw); [|auto].
  - rewrite <- (freed_Alloc 1 d g d1 HA). apply (freed_on_node g (Branch_Build tail) d1 tt d2); [apply (trails_Branch_Build unfreed)|done].
  - intros q Hq. unfold mark. by rewrite (wr_node _ _ _ _ Hw) by auto.
Qed.

(** ** The new key on its side.  The last child of the left branch is stale:
    it is the right branch's. *)
Lemma split_branch_insert_ok ps d l r ks1 cs1 t k0 ks2 cs2 (i : nat) k c :
  page_size d = ps -> two d l r ks1 (cs1 ++ [t]) (k0 :: ks2) cs2 -> (i <= length ks1 + S (length ks2))%nat ->
  Forall (fun k => 4 * key_cost k <= ps - 18) [k; k0] -> child_range c ->
  keys_fill ks1 + keys_fill (k0 :: ks2) <= ps - 18 -> 2 * keys_fill ks1 <= ps - 18 -> ps - 18 < 2 * keys_fill (ks1 ++ [k0]) ->
  exists ks1' cs1' ks2' cs2' d', split_branch_insert l r (Z.of_nat i) k c d = Ok tt d' /\ quiet (either l r) d d' /\
    two d' l r ks1' (cs1' ++ [t]) ks2' cs2' /\ ks1' ++ ks2' = insert_at i k (ks1 ++ k0 :: ks2) /\
    cs1' ++ cs2' = insert_at i c (cs1 ++ cs2) /\ (length ks1 <= length ks1')%nat /\ ks2' <> [].
Proof.
  intros Hps H2 Hi [Hk [Hk0 _]%Forall_cons]%Forall_cons Hc Hroom Hle Hgt. pose proof H2 as [Hinv Hne Hbl Hbr].
  rewrite keys_fill_app, keys_fill_cons in Hgt. cbn [keys_fill foldr] in Hgt. fold (keys_fill ks1) in Hgt.
  rewrite keys_fill_cons in Hroom. pose proof (keys_fill_nonneg ks1). pose proof (keys_fill_nonneg ks2).
  pose proof (branch_at_lengths _ _ _ _ Hbl) as Hll. rewrite length_app in Hll. cbn in Hll.
  pose proof (branch_at_ps _ _ _ _ Hbl) as Hpsok. rewrite Hps in Hpsok. destruct (page_size_bounds _ Hpsok) as [Hr8 _].
  assert (Hsh : short ps k).
  { unfold short, key_cost in *. apply Z.div_le_lower_bound; lia. }
  unfold split_branch_insert. run_step (b_count d l _ _ Hinv Hbl).
  destruct (Z.ltb_spec (Z.of_nat (length ks1)) (Z.of_nat i)) as [Hlt|Hlt].
  - set (j := (i - length ks1)%nat). replace (Z.of_nat i - Z.of_nat (length ks1)) with (Z.of_nat j) by (unfold j; lia).
    destruct (b_insert d r (k0 :: ks2) cs2 j k c false Hinv Hbr) as (d' & Hop & S1); [unfold j; cbn; lia|by rewrite Hps|done|].
    rewrite Hps in Hop, S1. rewrite keys_fill_cons in Hop, S1. rewrite (proj2 (Z.leb_le _ _)) in Hop, S1 by lia.
    destruct (two_right _ _ _ _ _ _ _ _ _ _ H2 S1) as [H2' Q].
    exists ks1, cs1, (insert_at j k (k0 :: ks2)), (insert_at j c cs2), d'. rewrite Nat.add_0_r in H2'.
    split_and!; try done.
    + by run_step Hop.
    + replace i with (length ks1 + j)%nat by (unfold j; lia). by rewrite insert_at_app_r.
    + replace i with (length cs1 + j)%nat by (unfold j; lia). by rewrite insert_at_app_r.
    + intros E. apply (f_equal length) in E. by rewrite length_insert_at in E.
  - destruct (b_insert d l ks1 (cs1 ++ [t]) i k c false Hinv Hbl) as (d' & Hop & S1); [lia|by rewrite Hps|done|].
    rewrite Hps in Hop, S1. rewrite (proj2 (Z.leb_le _ _)) in Hop, S1 by lia.
    destruct (two_left _ _ _ _ _ _ _ _ _ _ H2 S1) as [H2' Q].
    rewrite Nat.add_0_r, insert_at_app_l in H2' by lia.
    exists (insert_at i k ks1), (insert_at i c cs1), (k0 :: ks2), cs2, d'.
    split_and!; try done.
    + unfold must. run_step Hop. done.
    + by rewrite insert_at_app_l by lia.
    + by rewrite insert_at_app_l by lia.
    + rewrite length_insert_at. lia.
Qed.

(** ** The key that goes up *)
Lemma split_branch_up_ok d l r ks1 cs1 t ks2 cs2 :
  two d l r ks1 (cs1 ++ [t]) ks2 cs2 -> ks1 <> [] -> ks2 <> [] -> (3 <= length ks1 + length ks2)%nat -> Forall child_range cs2 ->
  exists up lks lcs rks rcs d', split_branch_up l r d = Ok up d' /\ quiet (either l r) d d' /\
    two d' l r lks lcs rks rcs /\ lks ++ up :: rks = ks1 ++ ks2 /\ lcs ++ rcs = cs1 ++ cs2 /\ lks <> [] /\ rks <> [].
Proof.
  intros H2 Hn1 Hn2 Hlen Hcs. pose proof H2 as [Hinv Hne Hbl Hbr].
  pose proof (branch_at_lengths _ _ _ _ Hbl) as Hll. rewrite length_app in Hll. cbn in Hll.
  pose proof (branch_at_lengths _ _ _ _ Hbr) as Hlr.
  unfold split_branch_up. run_step (b_count d l _ _ Hinv Hbl). run_step (b_count d r _ _ Hinv Hbr).
  destruct (Z.leb_spec 2 (Z.of_nat (length ks1))) as [Hl2|Hl2].
  - destruct ks1 as [|up lks] using rev_ind; [done|]. clear IHlks. rewrite length_app in *. cbn [length] in *.
    rewrite bind_assert by (apply Z.leb_le; destruct ks2; [done|cbn; lia]).
    replace (Z.of_nat (length lks + 1) - 1) with (Z.of_nat (length lks)) by lia.
    run_step (b_key d l _ _ Hinv Hbl (length lks) up ltac:(by rewrite lookup_app_r, Nat.sub_diag by lia)).
    destruct (b_pop d l lks up _ true Hinv Hbl) as (d' & Hop & S1). run_step Hop.
    destruct (two_left _ _ _ _ _ _ _ _ _ _ H2 S1) as [H2' Q].
    replace (delete (length lks + 1)%nat (cs1 ++ [t])) with cs1 in H2'.
    2: { replace (length lks + 1)%nat with (length cs1 + 0)%nat by lia. by rewrite delete_app_add, app_nil_r. }
    exists up, lks, cs1, ks2, cs2, d'. split_and!; try done; [by rewrite <- app_assoc|]. intros ->. cbn in Hl2. lia.
  - destruct ks2 as [|up rks]; [done|]. destruct cs2 as [|c rcs]; [done|]. cbn [length] in *.
    rewrite bind_assert by (apply Z.leb_le; lia).
    run_step (b_key d r _ _ Hinv Hbr 0 up eq_refl). run_step (b_left_child d r _ _ Hinv Hbr 0 c eq_refl).
    destruct (b_delete d r (up :: rks) (c :: rcs) 0 false Hinv Hbr) as (d1 & Hop1 & S1); [cbn; lia|]. cbn [Z.of_nat] in Hop1.
    run_step Hop1. destruct (two_right _ _ _ _ _ _ _ _ _ _ H2 S1) as [H21 Q1]. cbn [delete list_delete Nat.add] in H21.
    apply Forall_cons in Hcs as [Hc _].
    destruct (b_set_tail d1 l ks1 cs1 t c (tw_inv _ _ _ _ _ _ _ H21) (tw_left _ _ _ _ _ _ _ H21) Hc) as (d2 & Hop2 & S2).
    run_step Hop2. destruct (two_left _ _ _ _ _ _ _ _ _ _ H21 S2) as [H22 Q2].
    exists up, ks1, (cs1 ++ [c]), rks, rcs, d2. split_and!; try done.
    + by apply (quiet_trans _ _ d1).
    + by rewrite <- app_assoc.
    + intros ->. cbn in Hlen. lia.
Qed.

(** ** The split *)
Lemma insert_after_set {A} (i : nat) (x c : A) (xs : list A) :
  xs !! i = Some x -> insert_at i x (<[i := c]> xs) = insert_at (S i) c xs.
Proof.
  intros Hx. pose proof (lookup_lt_Some _ _ _ Hx) as Hlt. unfold insert_at.
  rewrite take_insert_ge by lia. rewrite (insert_take_drop _ _ _ Hlt) at 1.
  rewrite drop_app_ge by (rewrite length_take; lia). rewrite length_take, Nat.min_l, Nat.sub_diag by lia.
  rewrite (take_S_r _ _ _ Hx), <- app_assoc. done.
Qed.

(** Keys a branch can always take a third of: no split falls back. *)
Definition thin (ps : Z) k : Prop := 4 * key_cost k <= ps - 18.

Lemma keys_fill_thin ps ks : Forall (thin ps) ks -> 4 * keys_fill ks <= (ps - 18) * Z.of_nat (length ks).
Proof.
  induction 1 as [|k ks Hk Hks IH]; [cbn; lia|]. rewrite keys_fill_cons. cbn [length]. unfold thin in Hk. lia.
Qed.

Lemma two_quiet d l r lks lcs rks rcs d' lks' lcs' rks' rcs' :
  two d l r lks lcs rks rcs -> two d' l r lks' lcs' rks' rcs' -> quiet (either l r) d d' -> page_size d' = page_size d.
Proof. intros _ _ [Hw _]. exact (wr_ps _ _ _ _ Hw). Qed.

Lemma Branch_Split_ok ps d p ks cs (i : nat) k rc :
  page_size d = ps -> db_inv d -> branch_at d p ks cs -> (i <= length ks)%nat -> Forall child_range cs -> child_range rc ->
  Forall (thin ps) (k :: ks) -> keys_fill ks <= ps - 18 < keys_fill ks + key_cost k -> 1 <= db_space d ->
  exists r up lks rks lcs rcs d', Branch_Split p (Z.of_nat i) k rc d = Ok (up, r) d' /\
    writes 1 (eq p) d d' /\ (forall q, db_used d q -> needs_copy d' q = needs_copy d q) /\ db_freed d' = db_freed d /\
    (forall q, db_used d q -> mark d' q = mark d q) /\ mark d' r = db_txid d' /\ ~ db_used d r /\ own d' r /\ branch_at d' p lks lcs /\ branch_at d' r rks rcs /\
    lks ++ up :: rks = insert_at i k ks /\ lcs ++ rcs = insert_at (S i) rc cs /\ lks <> [] /\ rks <> [].
Proof.
  intros Hps Hinv Hb Hi Hcs Hrc Hthin [Hfit Hfull] Hsp. pose proof Hthin as [Htk Htks]%Forall_cons.
  pose proof (branch_at_ps _ _ _ _ Hb) as Hpsok. rewrite Hps in Hpsok. destruct (page_size_bounds _ Hpsok) as [Hr8 _].
  pose proof (keys_fill_thin ps ks Htks) as Hcount. unfold thin in Htk.
  assert (Hlen3 : (3 <= length ks)%nat) by nia.
  pose proof (branch_at_lengths _ _ _ _ Hb) as Hlcs.
  destruct (alloc_branch d kPageInvalidId Hinv Hsp) as (r & d1 & d2 & HA & Hnew & Hbuild & W1 & Hbr & Hng & Hown & Hkeep & Hfd1 & Hmk1 & Hmkr);
    [unfold child_range, kPageInvalidId; lia|].
  pose proof (wr_inv _ _ _ _ W1) as Hinv2. pose proof (wr_ps _ _ _ _ W1) as Hps2. rewrite Hps in Hps2.
  assert (Hb2 : branch_at d2 p ks cs) by (apply (branch_at_frame (fun _ => False) d d2); [by eapply writes_keeps|by auto|done]).
  assert (Hne : p <> r) by (intros ->; apply Hng, Hb).
  destruct (lookup_lt_is_Some_2 cs i) as [ci Hci]; [lia|].
  destruct (b_set_child d2 p ks cs i rc Hinv2 Hb2 Hi Hrc) as (d3 & Hset & S1).
  destruct (two_left d2 p r ks cs [] [kPageInvalidId] d3 _ _ (Build_two _ _ _ _ _ _ _ Hinv2 Hne Hb2 Hbr) S1) as [H3 Q3].
  assert (Hcs' : Forall child_range (<[i := rc]> cs)) by (by apply Forall_insert).
  destruct (exists_last (l := <[i := rc]> cs)) as (cs0 & t & Ecs).
  { intros E. apply (f_equal length) in E. rewrite length_insert in E. cbn in E. lia. }
  rewrite Ecs in *. apply Forall_app in Hcs' as [Hcs0 [Ht _]%Forall_cons].
  pose proof (wr_ps _ _ _ _ (qt_writes _ _ _ Q3)) as Hps3. rewrite Hps2 in Hps3.
  destruct (split_branch_loop_ok ps p r t kPageInvalidId (length ks) d3 ks cs0 [] []) as
    (ks1 & k0 & ks2 & cs1 & c0 & cs2 & d4 & Eks & Ecs0 & Hl1 & Hloop & Q4 & H4 & Hle & Hgt); try done.
  { eapply Forall_impl; [exact Htks|]. unfold thin, key_cost. intros x Hx. cbn in Hx. lia. }
  { cbn. lia. }
  { unfold key_cost in Hfull. unfold key_cost in Htk. lia. }
  subst ks cs0. cbn [app] in H4. pose proof (wr_ps _ _ _ _ (qt_writes _ _ _ Q4)) as Hps4. rewrite Hps3 in Hps4.
  apply Forall_app in Htks as [_ [Htk0 _]%Forall_cons]. rewrite keys_fill_app in Hfit.
  pose proof H4 as [Hinv4 _ Hbl4 Hbr4].
  destruct (b_reverse d4 r _ _ _ Hinv4 Hbr4) as (d5 & Hrev & S5). destruct (two_right _ _ _ _ _ _ _ _ _ _ H4 S5) as [H5 Q5].
  rewrite !rev_involutive in H5. pose proof (wr_ps _ _ _ _ (qt_writes _ _ _ Q5)) as Hps5. rewrite Hps4 in Hps5.
  pose proof H5 as [Hinv5 _ Hbl5 Hbr5].
  pose proof (b_above_half d5 p _ _ Hinv5 Hbl5) as Hab5. rewrite Hps5, (proj2 (Z.ltb_ge _ _)) in Hab5 by lia.
  destruct (b_set_tail d5 r (k0 :: ks2) (c0 :: cs2) kPageInvalidId t Hinv5 Hbr5 Ht) as (d6 & Htl & S6).
  destruct (two_right _ _ _ _ _ _ _ _ _ _ H5 S6) as [H6 Q6].
  pose proof (wr_ps _ _ _ _ (qt_writes _ _ _ Q6)) as Hps6. rewrite Hps5 in Hps6.
  rewrite length_app in Hi, Hlen3, Hlcs. cbn [length] in Hi, Hlen3, Hlcs.
  assert (Hcir : child_range ci) by (rewrite Forall_forall in Hcs; by apply Hcs, list_elem_of_lookup_2 with i).
  destruct (split_branch_insert_ok ps d6 p r ks1 cs1 t k0 ks2 ((c0 :: cs2) ++ [t]) i k ci Hps6 H6)
    as (ks1' & cs1' & ks2' & cs2' & d7 & Hins & Q7 & H7 & Ek & Ec & Hge & Hn2); try done.
  { apply Forall_cons. split; [done|]. by apply Forall_singleton. }
  assert (Hn1 : ks1' <> []).
  { intros ->. destruct ks1; [|cbn in Hge; lia]. cbn in Hgt. unfold thin, key_cost in *. lia. }
  assert (Hins_eq : insert_at i ci (cs1 ++ (c0 :: cs2) ++ [t]) = insert_at (S i) rc cs).
  { rewrite app_assoc, <- Ecs. by apply insert_after_set. }
  destruct (split_branch_up_ok d7 p r ks1' cs1' t ks2' cs2' H7 Hn1 Hn2) as
    (up & lks & lcs & rks & rcs & d8 & Hup & Q8 & H8 & Eks & Ecs8 & Hnl & Hnr).
  { apply (f_equal length) in Ek. rewrite length_app, length_insert_at, length_app in Ek. cbn in Ek. lia. }
  { assert (Hall : Forall child_range (cs1' ++ cs2')).
    { rewrite Ec, Hins_eq. unfold insert_at. apply Forall_app. split; [by apply Forall_take|]. constructor; [done|by apply Forall_drop]. }
    by apply Forall_app in Hall as [_ ?]. }
  assert (Q : quiet (either p r) d2 d8).
  { exact (quiet_trans _ _ _ _ Q3 (quiet_trans _ _ _ _ Q4 (quiet_trans _ _ _ _ Q5 (quiet_trans _ _ _ _ Q6
      (quiet_trans _ _ _ _ Q7 Q8))))). }
  exists r, up, lks, rks, lcs, rcs, d8. split.
  - pose proof (b_above_half d2 p _ _ Hinv2 Hb2) as Hab2. rewrite Hps2, (proj2 (Z.ltb_lt _ _)) in Hab2 by lia.
    unfold Branch_Split. run_step (b_count d p _ _ Hinv Hb). rewrite bind_assert by (apply Z.leb_le; rewrite length_app; cbn; lia).
    run_step HA. run_step Hnew. run_step Hbuild. rewrite bind_assert by (apply Z.leb_le; rewrite length_app; cbn; lia).
    run_step Hab2. rewrite bind_assert by done. run_step (b_left_child d2 p _ _ Hinv2 Hb2 i ci Hci). run_step Hset.
    rewrite Nat2Z.id. run_step Hloop. run_step Hrev. run_step Hab5. rewrite bind_assert by done.
    run_step (b_tail d5 p _ _ Hinv5 Hbl5 cs1 t eq_refl). run_step Htl. run_step Hins. by run_step Hup.
  - destruct Q as [WQ OQ FQ MQ]. split; [|split; [|split; [congruence|split; [|split; [|split; [done|split; [|split; [apply H8|split; [apply H8|split; [|split; [|done]]]]]]]]]]].
    + replace 1 with (1 + 0) by lia. apply (writes_trans _ _ _ _ _ _ _ _ W1 WQ). intros q Hq [[]|[->| ->]]; [done|by destruct Hng].
    + intros q Hq. rewrite OQ by (by apply (wr_used _ _ _ _ W1)). by apply Hkeep.
    + intros q Hq. rewrite MQ by (by apply (wr_used _ _ _ _ W1)). by apply Hmk1.
    + rewrite MQ by apply Hbr. by rewrite Hmkr, (env_txid _ _ (wr_env _ _ _ _ WQ)).
    + unfold own in *. rewrite OQ by apply Hbr. exact Hown.
    + by rewrite Eks, Ek.
    + by rewrite Ecs8, Ec.
Qed.
