(* ===== verification/Rebuild.v ===== *)
(** Steps that rebuild branches over the same subtrees, or over subtrees that
    move themselves, as steps of the forest. *)
From S2P Require Import Prelude Format Comparator State Memory FreeMap Pager PagerI PagerInst.
From S2P Require Import Node NodeWf NodeSpec Search BranchSpec Tx Iterator BTree Trails NodeDb Freed Tree TreeSearch TreeWalk Copying.
From S2P Require Import TreeSteps Forest LeafPage LeafSplit BranchPage BranchSplit.

Implicit Types (d : DBImpl) (p q k : Z) (ks : list (list byte)) (t u : tree) (ts us : list tree) (fs : list frame).

(** ** Branches and their subtrees *)
Definition kids t : list tree := match t with Branch _ _ ts => ts | Leaf _ _ => [] end.
Definition is_branch t : Prop := match t with Branch _ _ _ => True | Leaf _ _ => False end.

Lemma forest_fp_Branch d p ks ts us : forest_fp d (Branch p ks ts :: us) = p :: forest_fp d (ts ++ us).
Proof. unfold forest_fp. by rewrite bind_app. Qed.
Lemma forest_nodes_Branch p ks ts us : forest_nodes (Branch p ks ts :: us) = p :: forest_nodes (ts ++ us).
Proof. unfold forest_nodes. by rewrite bind_app. Qed.

Lemma forest_children d p ks ts us : forest d (Branch p ks ts :: us) ->
  branch_at d p ks (pg <$> ts) /\ forest d (ts ++ us) /\ p ∉ forest_fp d (ts ++ us).
Proof.
  intros [Hi [Hr Hus]%Forall_cons Hn]. rewrite forest_fp_Branch in Hn. apply NoDup_cons in Hn as [Hp Hn].
  apply rep_branch_at in Hr as [Hb Hts]. split; [done|]. split; [|done]. split; [done|by apply Forall_app|done].
Qed.

Lemma kids_fp d bs us : Forall is_branch bs -> forest_fp d (bs ++ us) ≡ₚ (pg <$> bs) ++ forest_fp d ((bs ≫= kids) ++ us).
Proof.
  intros Hb. rewrite !forest_fp_app, app_assoc. f_equiv. induction Hb as [|[|q ks ts] bs Hb Hbs IH]; [done..|].
  change (footprint d (Branch q ks ts) ++ forest_fp d bs ≡ₚ (q :: (pg <$> bs)) ++ forest_fp d (ts ++ (bs ≫= kids))).
  rewrite forest_fp_app, IH. change (footprint d (Branch q ks ts)) with (q :: forest_fp d ts). solve_Permutation.
Qed.
Lemma kids_nodes bs us : Forall is_branch bs -> forest_nodes (bs ++ us) ≡ₚ (pg <$> bs) ++ forest_nodes ((bs ≫= kids) ++ us).
Proof.
  intros Hb. rewrite !forest_nodes_app, app_assoc. f_equiv. induction Hb as [|[|q ks ts] bs Hb Hbs IH]; [done..|].
  change (tree_nodes (Branch q ks ts) ++ forest_nodes bs ≡ₚ (q :: (pg <$> bs)) ++ forest_nodes (ts ++ (bs ≫= kids))).
  rewrite forest_nodes_app, IH. change (tree_nodes (Branch q ks ts)) with (q :: forest_nodes ts). solve_Permutation.
Qed.

(** A tree whose root is a branch of the state. *)
Definition branch_in d t : Prop := match t with Branch q ks ts => branch_at d q ks (pg <$> ts) | Leaf _ _ => False end.
Lemma branch_in_is d bs : Forall (branch_in d) bs -> Forall is_branch bs.
Proof. intros H. eapply Forall_impl; [exact H|]. by intros []. Qed.

Lemma rep_kids d bs : Forall is_branch bs -> Forall (rep d) bs <-> Forall (branch_in d) bs /\ Forall (rep d) (bs ≫= kids).
Proof.
  induction 1 as [|[|q ks ts] bs Hb Hbs IH]; [by split|done|]. cbn [mbind list_bind kids].
  rewrite !Forall_cons, IH, Forall_app, rep_branch_at. cbn [branch_in]. tauto.
Qed.

(** The branches [bs0] rebuilt as [bs] on their pages and on fresh ones, over
    the same subtrees. *)
Lemma rebuild_branches n (W : Z -> Prop) d bs0 us d' bs us' :
  forest d (bs0 ++ us) -> Forall is_branch bs0 -> writes n W d d' ->
  (forall q, db_used d q -> needs_copy d' q = needs_copy d q) -> (forall q, W q -> q ∈ pg <$> bs0) ->
  Forall (branch_in d') bs -> (forall q, q ∈ pg <$> bs -> q ∈ pg <$> bs0 \/ ~ db_used d q) -> NoDup (pg <$> bs) ->
  (bs ≫= kids) ++ us' ≡ₚ (bs0 ≫= kids) ++ us -> frees d (pg <$> bs0) d' (pg <$> bs) ->
  (marked d (pg <$> bs0) -> marked d' (pg <$> bs)) ->
  moves n W d (bs0 ++ us) d' (bs ++ us').
Proof.
  intros [Hinv Hr Hn] Hb0 Hw Hown HW Hbs Hin Hnd Hperm Hfree Hmark. rewrite (kids_fp d bs0 us Hb0) in Hn.
  apply NoDup_app in Hn as (_ & Hsep & Hn). apply Forall_app in Hr as [Hr0 Hru]. apply (rep_kids d bs0 Hb0) in Hr0 as [_ Hk0].
  assert (Hf0 : forest d ((bs0 ≫= kids) ++ us)) by (split; [done|by apply Forall_app|done]).
  destruct (forest_frame _ _ _ _ _ Hw Hf0) as [Hr' Hfp']; [by intros q Hq HWq; apply (Hsep q (HW q HWq))|].
  rewrite <- Hperm in Hr'. apply Forall_app in Hr' as [Hrl Hru']. pose proof (branch_in_is _ _ Hbs) as Hib.
  pose proof (kids_fp d' bs us' Hib) as Hfp2. rewrite Hperm, Hfp' in Hfp2.
  pose proof (kids_nodes bs us' Hib) as Hno. rewrite Hperm in Hno.
  split; [done| | | |done| |rewrite Hfp2, (kids_fp d bs0 us Hb0); by apply frees_frame|].
  - apply Forall_app. split; [|done]. by apply (rep_kids d' bs Hib).
  - intros q. rewrite Hfp2, (kids_fp d bs0 us Hb0), !elem_of_app. intros [Hq|Hq]; [|tauto]. destruct (Hin q Hq); tauto.
  - rewrite Hfp2. apply NoDup_app. split; [done|]. split; [|done]. intros q Hq Hq2.
    destruct (Hin q Hq) as [Hq0|Hu]; [by apply (Hsep q)|]. apply Hu. by apply (forest_used d ((bs0 ≫= kids) ++ us)).
  - intros q. rewrite Hno, (kids_nodes bs0 us Hb0), !elem_of_app. intros [Hq|Hq]; [|tauto]. destruct (Hin q Hq); tauto.
  - rewrite Hno, (kids_nodes bs0 us Hb0), !marked_app. intros [Hm1 Hm2]. split; [by apply Hmark|].
    apply (marked_writes _ _ _ _ _ Hw); [|done]. intros q Hq%(nodes_fp d). split; [by apply (forest_used d _ q Hf0)|].
    intros HWq. by apply (Hsep q); [apply HW|].
Qed.

Lemma marked_rebuilt d d' (N N' : list Z) : db_txid d' = db_txid d ->
  (forall q, q ∈ N' -> q ∈ N /\ mark d' q = mark d q \/ mark d' q = db_txid d') -> marked d N -> marked d' N'.
Proof.
  intros E H. unfold marked. rewrite !Forall_forall. intros Hm q Hq. destruct (H q Hq) as [[Hin Eq]|Eq]; rewrite Eq; [|lia]. rewrite E. by apply Hm.
Qed.

(** One branch rebuilt. *)
Lemma branches_moves (n : Z) d p ks ts us d' bs us' :
  forest d (Branch p ks ts :: us) -> writes n (eq p) d d' -> (forall q, db_used d q -> needs_copy d' q = needs_copy d q) ->
  Forall (fun b => exists q lks lts, b = Branch q lks lts /\ branch_at d' q lks (pg <$> lts) /\ (q = p \/ ~ db_used d q /\ mark d' q = db_txid d')) bs ->
  NoDup (pg <$> bs) -> (bs ≫= kids) ++ us' ≡ₚ ts ++ us -> db_freed d' = db_freed d ->
  (forall q, db_used d q -> mark d' q = mark d q) ->
  moves n (eq p) d (Branch p ks ts :: us) d' (bs ++ us').
Proof.
  intros Hf Hw Hown Hbs Hnd Hperm Hfd Hmk.
  assert (Hin : forall q, q ∈ pg <$> bs -> (q ∈ pg <$> [Branch p ks ts] \/ ~ db_used d q) /\ db_used d' q).
  { intros q (b & -> & Hbin)%list_elem_of_fmap_1. rewrite Forall_forall in Hbs.
    destruct (Hbs b Hbin) as (q & lks & lts & -> & Hb & [->|[Hq _]]); (split; [|apply Hb]); [left; apply list_elem_of_here|by right]. }
  apply (rebuild_branches n (eq p) d [Branch p ks ts] us d' bs us'); try done.
  - by apply Forall_singleton.
  - intros q <-. apply list_elem_of_here.
  - eapply Forall_impl; [exact Hbs|]. by intros b (q & lks & lts & -> & Hb & _).
  - intros q Hq. by apply Hin.
  - cbn. by rewrite app_nil_r.
  - apply frees_none; [done|apply Hw|done|done].
  - apply marked_rebuilt; [apply env_txid, Hw|]. intros q (b & -> & Hbin)%list_elem_of_fmap_1. rewrite Forall_forall in Hbs.
    destruct (Hbs b Hbin) as (q & lks & lts & -> & _ & [->|[_ Hq]]); [left; split; [apply list_elem_of_here|]|by right].
    apply Hmk. by apply (forest_used d _ p Hf), list_elem_of_here.
Qed.

(** ** A branch over subtrees that move *)
Lemma branch_stays k (W : Z -> Prop) d p ks ts1 ts ts2 d1 ts' :
  forest d [Branch p ks (ts1 ++ ts ++ ts2)] -> moves k W d ts d1 ts' -> (forall q, W q -> q ∈ forest_fp d ts) ->
  branch_at d1 p ks (pg <$> (ts1 ++ ts ++ ts2)) /\ moves k W d (ts1 ++ ts ++ ts2) d1 (ts1 ++ ts' ++ ts2) /\
  p ∉ forest_fp d1 (ts1 ++ ts' ++ ts2).
Proof.
  intros Hf Hm HW. destruct (forest_children _ _ _ _ _ Hf) as (Hb & Hk & Hp). rewrite app_nil_r in Hk, Hp.
  assert (Hperm : forall us, ts1 ++ us ++ ts2 ≡ₚ us ++ (ts1 ++ ts2)) by (intros us; solve_Permutation).
  pose proof Hk as Hk'. rewrite (forest_perm _ _ _ (Hperm ts)) in Hk' || apply (forest_perm _ _ _ (Hperm ts)) in Hk'.
  destruct (moves_frame _ _ _ _ _ _ (ts1 ++ ts2) Hm Hk' HW) as [Hm' _].
  apply (moves_perm _ _ _ _ (ts1 ++ ts ++ ts2) _ _ (ts1 ++ ts' ++ ts2)) in Hm'; [|by rewrite Hperm..].
  pose proof (mv_writes _ _ _ _ _ _ Hm) as Hw. split; [|split; [done|]].
  - apply (branch_at_frame W d); [by eapply writes_keeps| |done]. intros HWp. apply Hp. apply HW in HWp.
    rewrite !forest_fp_app, !elem_of_app. tauto.
  - intros Hin. destruct (mv_pages _ _ _ _ _ _ Hm' p Hin) as [Hin'|Hu]; [done|]. apply Hu, Hb.
Qed.

(** The branch rewritten after its subtrees moved. *)
Lemma moves_rebuild k (W W' : Z -> Prop) d p ks ts1 ts ts2 d1 ts' d2 ks' :
  forest d [Branch p ks (ts1 ++ ts ++ ts2)] -> moves k W d ts d1 ts' -> (forall q, W q -> q ∈ forest_fp d ts) ->
  branch_step d1 p d2 ks' (pg <$> (ts1 ++ ts' ++ ts2)) -> (forall q, W q \/ p = q -> W' q) ->
  moves k W' d [Branch p ks (ts1 ++ ts ++ ts2)] d2 [Branch p ks' (ts1 ++ ts' ++ ts2)].
Proof.
  intros Hf Hm HW [W2 Hb2 Hown2 Hfd2 Hmk2] HW'. destruct (branch_stays _ _ _ _ _ _ _ _ _ _ Hf Hm HW) as (Hb1 & M & Hp1).
  pose proof M as [W1 Hr1 Hpg1 Hn1 Hown1 Hno1 Hfr1 Hm1]. pose proof (moves_forest _ _ _ _ _ _ M) as Hf1.
  destruct (forest_frame _ _ _ _ _ W2 Hf1) as [Hr2 Hfp2]; [by intros q Hq <-|]. split.
  - rewrite <- (Z.add_0_r k). apply (writes_trans _ _ W (eq p) W' _ d1 _ W1 W2). intros q _ Hq. by apply HW'.
  - apply Forall_singleton. by apply rep_branch_at.
  - intros q. rewrite !forest_fp_Branch, !app_nil_r, Hfp2, !elem_of_cons. intros [->|Hq]; [by left; left|].
    destruct (Hpg1 q Hq); tauto.
  - rewrite forest_fp_Branch, app_nil_r, Hfp2. by constructor.
  - intros q Hq. rewrite Hown2, Hown1; [done|done|by apply (wr_used _ _ _ _ W1)].
  - intros q. rewrite !forest_nodes_Branch, !app_nil_r, !elem_of_cons. intros [->|Hq]; [by left; left|].
    destruct (Hno1 q Hq); tauto.
  - assert (Hsame : frees d1 (p :: forest_fp d1 (ts1 ++ ts' ++ ts2)) d2 (p :: forest_fp d1 (ts1 ++ ts' ++ ts2))).
    { apply frees_none; [done|apply W2|by constructor|]. intros q Hq. split; [by left|]. apply (wr_used _ _ _ _ W2).
      apply elem_of_cons in Hq as [->|Hq]; [apply Hb1|by apply (forest_used d1 _ q Hf1)]. }
    rewrite !forest_fp_Branch, !app_nil_r, Hfp2. refine (frees_trans _ _ _ _ _ _ _ Hsame).
    by apply (frees_beside _ _ _ _ [p]).
  - rewrite !forest_nodes_Branch, !app_nil_r. rewrite !marked_cons. intros [Hmp Hmt].
    rewrite (env_txid _ _ (wr_env _ _ _ _ W2)), (env_txid _ _ (wr_env _ _ _ _ W1)), Hmk2. split.
    + unfold mark in *. rewrite (wr_node _ _ _ _ W1); [done|by apply (forest_used d _ p Hf), list_elem_of_here|].
      intros HWp%HW. destruct (forest_children _ _ _ _ _ Hf) as (_ & _ & Hpn). rewrite app_nil_r, !forest_fp_app, !elem_of_app in Hpn. tauto.
    + apply (marked_writes _ _ d1 _ _ W2); [|by apply Hm1]. intros q Hq%(nodes_fp d1). split; [by apply (forest_used d1 _ q Hf1)|].
      by intros <-.
Qed.

Lemma branch_step_refl d p ks cs : db_inv d -> branch_at d p ks cs -> branch_step d p d ks cs.
Proof. intros Hi Hb. split; [|done..]. apply (writes_weaken _ _ _ _ _ _ (writes_refl d Hi)); [lia|done]. Qed.

(** The branch left alone. *)
Lemma moves_under k (W : Z -> Prop) d p ks ts1 ts ts2 d1 ts' :
  forest d [Branch p ks (ts1 ++ ts ++ ts2)] -> moves k W d ts d1 ts' -> (forall q, W q -> q ∈ forest_fp d ts) ->
  pg <$> ts' = pg <$> ts ->
  moves k (fun q => W q \/ p = q) d [Branch p ks (ts1 ++ ts ++ ts2)] d1 [Branch p ks (ts1 ++ ts' ++ ts2)].
Proof.
  intros Hf Hm HW Hpg. destruct (branch_stays _ _ _ _ _ _ _ _ _ _ Hf Hm HW) as (Hb1 & M & _).
  apply (moves_rebuild _ W _ _ _ _ _ _ _ _ _ _ _ Hf Hm HW); [|done].
  apply branch_step_refl; [by eapply wr_inv, mv_writes|]. by rewrite !fmap_app, Hpg, <- !fmap_app.
Qed.

(** ** Steps that write nothing but the transaction's own nodes *)
Definition own_nodes d ts (q : Z) : Prop := own d q /\ q ∈ forest_nodes ts.
Definition own_moves (k : Z) d ts d' ts' : Prop := moves k (own_nodes d ts) d ts d' ts'.

Lemma moves_own k (W : Z -> Prop) d ts d' ts' :
  moves k W d ts d' ts' -> (forall q, db_used d q -> W q -> own d q /\ q ∈ forest_nodes ts) -> own_moves k d ts d' ts'.
Proof. intros Hm HW. by apply (moves_weaken _ _ _ _ _ _ _ _ Hm). Qed.

Lemma own_moves_trans k1 k2 d ts d1 ts1 d2 ts2 :
  own_moves k1 d ts d1 ts1 -> own_moves k2 d1 ts1 d2 ts2 -> own_moves (k1 + k2) d ts d2 ts2.
Proof.
  intros M1 M2. apply (moves_trans _ _ _ _ _ _ _ _ _ _ _ M1 M2). intros q Hq [?|[Ho Hn]]; [done|].
  destruct (mv_nodes _ _ _ _ _ _ M1 q Hn) as [Hn1|?]; [|done]. split; [|done]. unfold own in *.
  by rewrite <- (mv_own _ _ _ _ _ _ M1 q Hq).
Qed.

Lemma own_moves_frame k d ts d' ts' us :
  own_moves k d ts d' ts' -> forest d (ts ++ us) -> own_moves k d (ts ++ us) d' (ts' ++ us).
Proof.
  intros Hm Hf. apply (moves_own _ (own_nodes d ts)).
  - apply (moves_frame _ _ _ _ _ _ us Hm Hf). intros q [_ Hq]. apply list_elem_of_bind in Hq as (t & Hq & Ht).
    apply list_elem_of_bind. exists t. split; [by apply tree_nodes_footprint|done].
  - intros q _ [Ho Hq]. split; [done|]. rewrite forest_nodes_app, elem_of_app. by left.
Qed.

Lemma own_moves_plug k d fs t us d' t' us' :
  own_moves k d (t :: us) d' (t' :: us') -> pg t' = pg t -> forest d (plug fs t :: us) ->
  own_moves k d (plug fs t :: us) d' (plug fs t' :: us').
Proof.
  intros Hm Hpg Hf. apply (moves_own _ (own_nodes d (t :: us))).
  - apply (moves_plug _ _ _ _ _ _ _ _ _ Hm Hpg Hf). intros q [_ Hq]. by apply nodes_fp.
  - intros q _ [Ho Hq]. split; [done|]. rewrite plug_nodes, elem_of_app. by right.
Qed.
