(* ===== verification/PutUp.v ===== *)
(** The climb after a split: [Put(Iterator*, Node&&, Node&&, key)] of
    [src/btree.cpp] inserts the separator and the new right node into the
    parent, splits it when it is full, and makes a new root at the top. *)
From S2P Require Import Prelude Format Comparator State Memory FreeMap Pager PagerI PagerInst.
From S2P Require Import Node NodeWf NodeSpec Search BranchSpec Tx Iterator BTree Trails NodeDb Freed Tree TreeSearch TreeWalk Copying.
From S2P Require Import TreeSteps Forest LeafPage LeafSplit BranchPage BranchSplit Rebuild.

Implicit Types (d : DBImpl) (p q : Z) (k : list byte) (ks : list (list byte)) (t u : tree) (ts us : list tree) (fs : list frame).

(** ** The sequence of a branch split in two *)
Lemma join_join ks1 k ks2 xs1 xs2 :
  length xs1 = S (length ks1) ->
  join_seps (ks1 ++ k :: ks2) (xs1 ++ xs2) = join_seps ks1 xs1 ++ after_seps (k :: ks2) xs2.
Proof.
  intros Hl. destruct xs1 as [|x xs1]; [done|]. injection Hl as Hl.
  change (join_seps (ks1 ++ k :: ks2) ((x :: xs1) ++ xs2)) with (x ++ after_seps (ks1 ++ k :: ks2) (xs1 ++ xs2)).
  change (join_seps ks1 (x :: xs1)) with (x ++ after_seps ks1 xs1). rewrite after_seps_app by done. by rewrite <- app_assoc.
Qed.

Lemma trace_two p r q lks up rks lts rts :
  length lts = S (length lks) -> length rts = S (length rks) ->
  trace (Branch p lks lts) ++ Sep up :: trace (Branch r rks rts) = trace (Branch q (lks ++ up :: rks) (lts ++ rts)).
Proof.
  intros Hl Hr. cbn [trace]. rewrite fmap_app, join_join by (by rewrite length_fmap). f_equal.
  destruct rts as [|t rts]; [done|]. done.
Qed.

Lemma trace_wedge f t1 key t2 p : balanced f ->
  trace (Branch p (f_ks1 f ++ key :: f_ks2 f) (f_ts1 f ++ t1 :: t2 :: f_ts2 f)) =
  frame_left f ++ trace t1 ++ (Sep key :: trace t2) ++ frame_right f.
Proof.
  intros [H1 H2]. cbn [trace]. rewrite fmap_app, !fmap_cons, join_split by (by rewrite length_fmap).
  unfold frame_left, frame_right. do 2 f_equal.
Qed.

(** ** Heights *)
Lemma shape_unique n m t : shape n t -> shape m t -> n = m.
Proof.
  revert n m. induction t as [p es|p ks ts IH] using tree_induction; intros [|n] [|m]; try done.
  rewrite !shape_Branch. intros (_ & Hl & Hn) (_ & _ & Hm). destruct ts as [|t ts]; [done|].
  apply Forall_cons in IH as [IH _]. apply Forall_cons in Hn as [Hn _]. apply Forall_cons in Hm as [Hm _].
  f_equal. by apply IH.
Qed.

Lemma shape_replace h fs t t' : (forall n, shape n t -> shape n t') -> shape h (plug fs t) -> shape h (plug fs t').
Proof. apply same_frames_shape. apply Forall_Forall2_diag, Forall_forall. intros f _. apply same_frame_refl. Qed.

(** ** The result of a put on the trees [ts]: nodes on their pages and on
    fresh ones, and nothing freed that is still of the tree *)
Record put_done (k : Z) (W : Z -> Prop) (ts : list tree) d bt d' t' (items : list item) (h : nat) : Prop := {
  pd_steps : steps k W d d';
  pd_rep : rep d' t';
  pd_nodup : NoDup (footprint d' t');
  pd_root : tree_root bt d' = Ok (pg t') d';
  pd_trace : trace t' = items;
  pd_shape : exists h', shape h' t' /\ (h' <= h)%nat;
  pd_closed : own_closed d' t';
  pd_nodes q : q ∈ tree_nodes t' -> q ∈ forest_nodes ts \/ ~ db_used d q;
  pd_frees : frees d (forest_fp d ts) d' (footprint d' t');
  pd_marks : marked d (forest_nodes ts) -> marked d' (tree_nodes t');
}.

Lemma own_closed_kept d d' t :
  (forall q, db_used d q -> needs_copy d' q = needs_copy d q) -> db_inv d -> rep d t -> own_closed d t -> own_closed d' t.
Proof. intros Hq Hinv Hr. apply own_closed_ext. intros q Hin. apply Hq. by apply (footprint_used d t). Qed.

Lemma tree_child_range d t : db_inv d -> rep d t -> child_range (pg t).
Proof. intros Hinv Hr. destruct (used_bounds d _ Hinv (rep_used d t Hr)) as (_ & ? & _). unfold child_range. lia. Qed.

Lemma Forall_pair {A} (P : A -> Prop) x y : P x -> P y -> Forall P [x; y].
Proof. intros. apply Forall_cons_2; [done|]. by apply Forall_singleton. Qed.

(** At the top: a new root over the two halves. *)
Lemma new_root bt ps d t1 t2 key it (h fuel : nat) :
  bt_tx bt = UpdateTxRef -> page_size d = ps -> forest d [t1; t2] -> thin ps key -> shape h t1 -> shape h t2 ->
  tree_root bt d = Ok (pg t1) d -> own_closed d t1 -> own_closed d t2 -> 1 <= db_space d ->
  it_btree it = bt -> it_stack it = [] ->
  exists d' t', Put_up (S fuel) (pg t1) (pg t2) key (it, d) = Ok tt (it, d') /\
    put_done 1 (fun _ => False) [t1; t2] d bt d' t' (trace t1 ++ Sep key :: trace t2) (S h).
Proof.
  intros Hbt Hps Hf Hkey Hs1 Hs2 Hroot Hc1 Hc2 Hsp Eit Est. pose proof Hf as [Hinv [Hr1 [Hr2 _]%Forall_cons]%Forall_cons Hnd].
  destruct (Alloc_writes d 1 Hinv) as (g & d1 & HA & W1 & Hg); [lia|done|].
  destruct (Hg g ltac:(lia)) as [Hng Hg1]. pose proof (wr_inv _ _ _ _ W1) as Hinv1.
  pose proof (tree_root_writes bt _ _ _ _ _ Hbt W1 Hinv Hroot) as Hroot1.
  destruct (set_tree_root_ok bt g _ d1 Hbt Hinv1 Hroot1) as (d2 & Hset & Hroot2 & S2 & _ & _ & Hfd2).
  pose proof (st_inv _ _ _ _ S2) as Hinv2. pose proof (kp_used _ _ _ S2 g Hg1) as Hg2.
  destruct (build_branch d2 g (pg t1) Hinv2 Hg2 (tree_child_range d t1 Hinv Hr1)) as (d3 & Hbuild & W3 & Hb3 & Hown3 & Hmk3).
  pose proof (wr_inv _ _ _ _ W3) as Hinv3. pose proof (tree_root_writes bt _ _ _ _ _ Hbt W3 Hinv2 Hroot2) as Hroot3.
  pose proof (wr_ps _ _ _ _ W1) as Hps1. pose proof (kp_ps _ _ _ S2) as Hps2. pose proof (wr_ps _ _ _ _ W3) as Hps3.
  assert (Hps3' : page_size d3 = ps) by congruence.
  pose proof (page_size_inv d3 Hinv3) as Hpsok. rewrite Hps3' in Hpsok. destruct (page_size_bounds _ Hpsok) as [Hr8 _].
  destruct (b_append d3 g [] [pg t1] key (pg t2) true Hinv3 Hb3) as (d4 & Happ & S4).
  { rewrite Hps3'. unfold short, thin, key_cost in *. apply Z.div_le_lower_bound; lia. }
  { apply (tree_child_range d t2 Hinv Hr2). }
  { rewrite Hps3'. unfold thin in Hkey. cbn. unfold key_cost in *. lia. }
  change ([] ++ [key]) with [key] in S4. change (insert_at (length [] + 1) (pg t2) [pg t1]) with (pg <$> [t1; t2]) in S4.
  destruct S4 as [W4 Hb4 Hown4 Hfd4 Hmk4].
  pose proof (freed_Alloc 1 d g d1 HA) as Hfd1.
  pose proof (freed_on_node g _ d2 tt d3 (trails_Branch_Build unfreed (pg t1)) Hbuild) as Hfd3.
  assert (S34 : steps 0 (eq g) d2 d4).
  { apply writes_steps. replace 0 with (0 + 0) by lia. apply (writes_trans _ _ _ _ _ _ _ _ W3 W4). tauto. }
  assert (S : steps 1 (fun _ => False) d d4).
  { replace 1 with (1 + (0 + 0)) by lia. apply (steps_trans _ _ (fun _ => False) (eq g) _ d d1); [by apply writes_steps| |].
    - apply (steps_trans _ _ (fun _ => False) (eq g) _ d1 d2 d4 S2 S34). tauto.
    - intros q Hq [[]|<-]. by apply Hng. }
  destruct (rep_frame _ d d4 t1 S Hinv Hr1) as [Hr1' Hfp1]; [by auto|].
  destruct (rep_frame _ d d4 t2 S Hinv Hr2) as [Hr2' Hfp2]; [by auto|].
  exists d4, (Branch g [key] [t1; t2]). split.
  - cbn [Put_up]. run_step (iter_ok it d). rewrite Est. run_step (on_db_ok _ it d _ _ HA). rewrite Eit.
    run_step (on_db_ok _ it d1 _ _ Hset). run_step (on_db_ok _ it d2 _ _ (new_node_ok d2 g Hinv2 Hg2)).
    run_step (on_db_ok _ it d2 _ _ Hbuild). by run_step (on_db_ok _ it d3 _ _ Happ).
  - assert (Hfp : footprint d4 (Branch g [key] [t1; t2]) = g :: forest_fp d [t1; t2]).
    { unfold forest_fp. cbn. by rewrite Hfp1, Hfp2. }
    assert (Hnd' : NoDup (g :: forest_fp d [t1; t2])).
    { constructor; [|done]. intros Hq. by apply Hng, (forest_used d [t1; t2]). }
    split; try done.
    + apply rep_branch_at. split; [done|]. by apply Forall_pair.
    + by rewrite Hfp.
    + by apply (tree_root_writes bt _ _ _ _ _ Hbt W4 Hinv3 Hroot3).
    + cbn. by rewrite app_nil_r.
    + exists (Datatypes.S h). split; [|done]. apply shape_Branch. split; [done|]. split; [done|]. by apply Forall_pair.
    + apply own_closed_Branch.
      assert (Hog : own d4 g) by (unfold own in *; rewrite Hown4; [exact Hown3|apply Hb3]).
      apply Forall_pair; (split; [done|]).
      * apply (own_closed_steps _ _ d d4 t1 S Hinv Hr1); [by auto|done].
      * apply (own_closed_steps _ _ d d4 t2 S Hinv Hr2); [by auto|done].
    + intros q. change (tree_nodes (Branch g [key] [t1; t2])) with (g :: forest_nodes [t1; t2]). rewrite elem_of_cons.
      intros [->|Hq]; [by right|by left].
    + rewrite Hfp. apply frees_none; [congruence|by apply (kp_used _ _ _ S)|done|]. intros q Hq.
      apply elem_of_cons in Hq as [->|Hq]; (split; [tauto|]); [apply Hb4|].
      by apply (kp_used _ _ _ S), (forest_used d [t1; t2]).
    + change (tree_nodes (Branch g [key] [t1; t2])) with (g :: forest_nodes [t1; t2]). intros Hm. apply marked_cons. split.
      * rewrite Hmk4, Hmk3, (env_txid _ _ (wr_env _ _ _ _ W4)). lia.
      * apply (marked_kept (fun _ => False) d); [apply S|apply tx_env_txid, S| |done]. intros q Hq%(nodes_fp d).
        split; [by apply (forest_used d [t1; t2])|by intros []].
Qed.

(** ** The parent *)
Lemma branch_fits d p ks cs : branch_at d p ks cs -> keys_fill ks <= page_size d - 18.
Proof.
  intros Hb. destruct (branch_fill _ _ _ _ Hb) as [-> _]. pose proof (bo_node _ _ (ba_ok _ _ _ _ Hb)) as Hn.
  pose proof (sw_low _ _ Hn). pose proof (sw_top _ _ Hn). change (pg_page_size d) with (page_size d) in *. lia.
Qed.

(** The parent with the new key and child in place, and as it was. *)
Definition wedge f (key : list byte) t1 t2 : tree :=
  Branch (f_pg f) (f_ks1 f ++ key :: f_ks2 f) (f_ts1 f ++ t1 :: t2 :: f_ts2 f).

Lemma wedge_keys f (key : list byte) : balanced f ->
  insert_at (length (f_ts1 f)) key (f_ks1 f ++ f_ks2 f) = f_ks1 f ++ key :: f_ks2 f.
Proof. intros [<- _]. by rewrite insert_at_app. Qed.
Lemma wedge_children f t1 t2 :
  insert_at (length (f_ts1 f) + 1) (pg t2) (pg <$> (f_ts1 f ++ t1 :: f_ts2 f)) = pg <$> (f_ts1 f ++ t1 :: t2 :: f_ts2 f).
Proof.
  rewrite !fmap_app, !fmap_cons. rewrite <- (length_fmap pg (f_ts1 f)), insert_at_app_r. done.
Qed.
Lemma wedge_perm f t1 t2 : (f_ts1 f ++ t1 :: t2 :: f_ts2 f) ++ [] ≡ₚ (f_ts1 f ++ t1 :: f_ts2 f) ++ [t2].
Proof. solve_Permutation. Qed.

Lemma parent_insert d f t1 t2 key : balanced f ->
  forest d [plug1 f t1; t2] -> short (page_size d) key ->
  let ok := keys_fill (f_ks1 f ++ f_ks2 f) + key_cost key <=? page_size d - 18 in
  exists d', on_node (f_pg f) (Branch_Insert (Z.of_nat (length (f_ts1 f))) (Ext key) (pg t2) true) d = Ok ok d' /\
    if ok then moves 0 (eq (f_pg f)) d [plug1 f t1; t2] d' [wedge f key t1 t2]
    else moves 0 (eq (f_pg f)) d [plug1 f t1; t2] d' [plug1 f t1; t2].
Proof.
  intros Hbal Hf Hk ok. destruct (forest_children _ _ _ _ _ Hf) as (Hb & Hkids & _).
  pose proof (fr_inv _ _ Hf) as Hinv. pose proof Hf as [_ [_ [Hr2 _]%Forall_cons]%Forall_cons _].
  destruct (b_insert d _ _ _ (length (f_ts1 f)) key (pg t2) true Hinv Hb) as (d' & Hop & Hst);
    [destruct Hbal as [<- _]; rewrite length_app; lia|done|by apply (tree_child_range d)|].
  exists d'. split; [exact Hop|]. fold ok in Hst |- *. destruct ok.
  - rewrite (wedge_keys f key Hbal), wedge_children in Hst. pose proof Hst as Hst0. destruct Hst as [Hw Hb' Hown Hfd _].
    apply (branches_moves 0 d _ _ _ [t2] d' [wedge f key t1 t2] [] Hf Hw Hown).
    + apply Forall_singleton. unfold wedge. eexists _, _, _. split; [done|]. split; [exact Hb'|by left].
    + apply NoDup_singleton.
    + cbn. rewrite app_nil_r. apply wedge_perm.
    + done.
    + exact (step_marks _ _ _ _ _ Hst0).
  - pose proof Hst as Hst0. destruct Hst as [Hw Hb' Hown Hfd _].
    apply (branches_moves 0 d _ _ _ [t2] d' [plug1 f t1] [t2] Hf Hw Hown).
    + apply Forall_singleton. unfold plug1. eexists _, _, _. split; [done|]. split; [exact Hb'|by left].
    + apply NoDup_singleton.
    + cbn. by rewrite app_nil_r.
    + done.
    + exact (step_marks _ _ _ _ _ Hst0).
Qed.

Lemma parent_split ps d f t1 t2 key : balanced f -> page_size d = ps ->
  forest d [plug1 f t1; t2] -> Forall (thin ps) (key :: f_ks1 f ++ f_ks2 f) ->
  ps - 18 < keys_fill (f_ks1 f ++ f_ks2 f) + key_cost key -> 1 <= db_space d ->
  exists up r lks rks lts rts d', Branch_Split (f_pg f) (Z.of_nat (length (f_ts1 f))) key (pg t2) d = Ok (up, r) d' /\
    moves 1 (eq (f_pg f)) d [plug1 f t1; t2] d' [Branch (f_pg f) lks lts; Branch r rks rts] /\ own d' r /\
    lks ++ up :: rks = f_ks1 f ++ key :: f_ks2 f /\ lts ++ rts = f_ts1 f ++ t1 :: t2 :: f_ts2 f /\
    lks <> [] /\ rks <> [] /\ length lts = S (length lks) /\ length rts = S (length rks).
Proof.
  intros Hbal Hps Hf Hthin Hfull Hsp. destruct (forest_children _ _ _ _ _ Hf) as (Hb & Hkids & _).
  pose proof (fr_inv _ _ Hf) as Hinv. pose proof Hf as [_ [_ [Hr2 _]%Forall_cons]%Forall_cons _].
  pose proof (branch_fits _ _ _ _ Hb) as Hfits. rewrite Hps in Hfits.
  destruct (Branch_Split_ok ps d _ _ _ (length (f_ts1 f)) key (pg t2) Hps Hinv Hb) as
    (r & up & lks & rks & lcs & rcs & d' & Hop & Hw & Hown & Hfd & Hmk & Hmr & Hng & Hor & Hbl & Hbr & Ek & Ec & Hnl & Hnr); try done.
  - destruct Hbal as [<- _]. rewrite length_app. lia.
  - apply Forall_fmap, Forall_forall. intros t Ht. apply (tree_child_range d t Hinv).
    destruct Hkids as [_ Hrk _]. apply Forall_app in Hrk as [Hrk _]. rewrite Forall_forall in Hrk. by apply Hrk.
  - by apply (tree_child_range d).
  - rewrite (wedge_keys f key Hbal) in Ek. replace (S (length (f_ts1 f))) with (length (f_ts1 f) + 1)%nat in Ec by lia.
    rewrite wedge_children in Ec. symmetry in Ec. apply fmap_app_inv in Ec as (lts & rts & -> & -> & Et).
    pose proof (branch_at_lengths _ _ _ _ Hbl) as Hll. pose proof (branch_at_lengths _ _ _ _ Hbr) as Hlr.
    rewrite length_fmap in Hll, Hlr. exists up, r, lks, rks, lts, rts, d'. split; [exact Hop|].
    split; [|by split_and!].
    apply (branches_moves 1 d _ _ _ [t2] d' [Branch (f_pg f) lks lts; Branch r rks rts] [] Hf Hw Hown).
    + apply Forall_pair; eexists _, _, _; (split; [done|]); (split; [done|]); [by left|by right].
    + cbn. apply NoDup_cons. split; [|apply NoDup_singleton]. rewrite list_elem_of_singleton. intros <-. apply Hng, Hb.
    + cbn. rewrite !app_nil_r, <- Et. rewrite <- (app_nil_r (_ ++ t1 :: t2 :: _)). apply wedge_perm.
    + done.
    + exact Hmk.
Qed.

(** ** The climb *)

(** [t1] replaces the subtree in the hole, on the same page; [t2] and [key]
    are still to go into the parent.  The branches above are the
    transaction's. *)
Record climbing bt (ps : Z) d fs t1 t2 key (h : nat) : Prop := {
  cl_tx : bt_tx bt = UpdateTxRef;
  cl_ps : page_size d = ps;
  cl_forest : forest d [plug fs t1; t2];
  cl_balanced : Forall balanced fs;
  cl_thin : Forall (fun f => Forall (thin ps) (f_ks1 f ++ f_ks2 f)) fs;
  cl_key : thin ps key;
  cl_left : shape h t1;
  cl_right : shape h t2;
  cl_shape : shape (length fs + h) (plug fs t1);
  cl_root : tree_root bt d = Ok (root_pg fs (pg t1)) d;
  cl_own : Forall (fun f => own d (f_pg f)) fs;
  cl_siblings : Forall (fun f => Forall (own_closed d) (siblings f)) fs;
  cl_closed1 : own_closed d t1;
  cl_closed2 : own_closed d t2;
  cl_space : Z.of_nat (S (length fs)) <= db_space d;
}.

Definition climbed fs t1 t2 (key : list byte) : list item := left_of fs ++ (trace t1 ++ Sep key :: trace t2) ++ right_of fs.

Lemma climb_shapes bt ps d f fs t1 t2 key h : climbing bt ps d (f :: fs) t1 t2 key h ->
  shape (S h) (plug1 f t1) /\ Forall (shape h) (f_ts1 f ++ t1 :: t2 :: f_ts2 f) /\
  (forall n, shape n (plug1 f t1) -> shape n (wedge f key t1 t2)).
Proof.
  intros [_ _ _ _ _ _ Hs1 Hs2 Hsh _ _ _ _ _ _]. destruct (shape_plug _ fs _ Hsh) as (h0 & Eh & Hp).
  assert (h0 = S h) as -> by (cbn in Eh; lia). split; [done|]. pose proof Hp as (Hne & Hlen & Hts)%shape_Branch.
  assert (Hall : Forall (shape h) (f_ts1 f ++ t1 :: t2 :: f_ts2 f)).
  { apply Forall_app in Hts as [Hl [Ht Hr]%Forall_cons]. apply Forall_app. split; [done|]. by repeat apply Forall_cons_2. }
  split; [done|]. intros n Hn. assert (n = S h) as -> by (by eapply shape_unique).
  unfold wedge. apply shape_Branch. split; [by destruct (f_ks1 f)|]. split; [|done].
  rewrite !length_app in *. cbn in *. lia.
Qed.

Lemma wedge_closed d f key t1 t2 :
  own d (f_pg f) -> Forall (own_closed d) (siblings f) -> own_closed d t1 -> own_closed d t2 -> own_closed d (wedge f key t1 t2).
Proof.
  intros Ho Hs H1 H2. apply own_closed_Branch. unfold siblings in Hs. apply Forall_app in Hs as [Hl Hr].
  apply Forall_app. split; [|repeat apply Forall_cons_2]; try done; (eapply Forall_impl; [eassumption|]); done.
Qed.

Lemma hole_page d f fs t1 t2 q : forest d [plug (f :: fs) t1; t2] -> eq (f_pg f) q -> q ∈ forest_fp d [plug1 f t1; t2].
Proof. intros _ <-. apply list_elem_of_bind. exists (plug1 f t1). split; [apply (footprint_pg d (plug1 f t1))|apply list_elem_of_here]. Qed.

(** Marks kept by a step keep what is the transaction's. *)
Lemma kept_own d d' fs c :
  (forall q, db_used d q -> needs_copy d' q = needs_copy d q) -> frames_ok d fs c ->
  Forall (fun f => own d (f_pg f)) fs -> Forall (fun f => own d' (f_pg f)) fs.
Proof.
  intros Hk Hfs Ho. rewrite Forall_forall in Ho |- *. intros f Hf. destruct (frames_ok_elem d fs c f Hfs Hf) as [c' Hfo].
  unfold own in *. rewrite Hk by apply Hfo. by apply Ho.
Qed.
Lemma kept_siblings d d' f c :
  (forall q, db_used d q -> needs_copy d' q = needs_copy d q) -> db_inv d -> frame_ok d f c ->
  Forall (own_closed d) (siblings f) -> Forall (own_closed d') (siblings f).
Proof.
  intros Hk Hinv Hfo Hc. destruct Hfo as [_ _ _ _ _ _ Hl Hr].
  assert (Hs : Forall (rep d) (siblings f)) by (by apply Forall_app).
  rewrite Forall_forall in Hc, Hs |- *. intros t Ht. apply (own_closed_kept d); auto.
Qed.
Lemma kept_all_siblings d d' fs c :
  (forall q, db_used d q -> needs_copy d' q = needs_copy d q) -> db_inv d -> frames_ok d fs c ->
  Forall (fun f => Forall (own_closed d) (siblings f)) fs -> Forall (fun f => Forall (own_closed d') (siblings f)) fs.
Proof.
  intros Hk Hinv Hfs Hc. rewrite Forall_forall in Hc |- *. intros f Hf.
  destruct (frames_ok_elem d fs c f Hfs Hf) as [c' Hfo]. apply (kept_siblings d d' f c'); auto.
Qed.

(** There was room in the parent. *)
Lemma climb_inserted bt ps d f fs t1 t2 key h d1 :
  climbing bt ps d (f :: fs) t1 t2 key h -> moves 0 (eq (f_pg f)) d [plug1 f t1; t2] d1 [wedge f key t1 t2] ->
  put_done (Z.of_nat (S (length (f :: fs)))) (fun q => q ∈ f_pg <$> f :: fs) [plug (f :: fs) t1; t2]
    d bt d1 (plug fs (wedge f key t1 t2))
    (climbed (f :: fs) t1 t2 key) (S (length (f :: fs) + h)).
Proof.
  intros Hcl M0. destruct (climb_shapes _ _ _ _ _ _ _ _ _ Hcl) as (Hshp & Hkids & Hwsh).
  pose proof Hcl as [Htx Hps Hf [Hbal Hbals]%Forall_cons _ Hkey Hs1 Hs2 Hsh Hroot [Hown Howns]%Forall_cons
    [Hsib Hsibs]%Forall_cons Hc1 Hc2 Hsp]. pose proof (fr_inv _ _ Hf) as Hinv.
  pose proof (moves_plug _ _ d fs (plug1 f t1) [t2] d1 (wedge f key t1 t2) [] M0 eq_refl Hf (fun q => hole_page d f fs t1 t2 q Hf)) as M.
  pose proof M as [Hw [Hr' _]%Forall_cons Hpg Hnd Hkeep Hno Hfr Hmk]. pose proof Hf as [_ [Hr [Hr2 _]%Forall_cons]%Forall_cons _].
  split; try done.
  - apply writes_steps. apply (writes_weaken _ _ _ _ _ _ Hw); [lia|]. intros q _ <-. apply list_elem_of_here.
  - cbn in Hnd. by rewrite app_nil_r in Hnd.
  - rewrite pg_plug. rewrite root_pg_cons in Hroot. by apply (tree_root_writes bt _ _ _ _ _ Htx Hw Hinv Hroot).
  - rewrite trace_plug by done. unfold wedge. rewrite trace_wedge by done. unfold climbed. cbn [left_of right_of].
    by rewrite <- !app_assoc.
  - exists (length (f :: fs) + h)%nat. split; [|lia]. by apply (shape_replace _ fs (plug1 f t1)).
  - pose proof (proj1 (forest_plug d fs (plug1 f t1) [t2]) Hf) as (_ & Hfs & _ & _).
    apply rep_plug_iff in Hr as [[Hfo _] Hr1]. apply own_closed_plug. split.
    + apply frames_closed_own; [by apply (kept_own d d1 fs _ Hkeep Hfs)|by apply (kept_all_siblings d d1 fs _ Hkeep Hinv Hfs)].
    + apply wedge_closed; [unfold own in *; rewrite Hkeep; [done|apply Hfo]|by apply (kept_siblings d d1 f _ Hkeep Hinv Hfo)| |];
        by apply (own_closed_kept d).
  - intros q Hq. apply Hno. by rewrite forest_nodes_one.
  - unfold forest_fp at 2 in Hfr. cbn [mbind list_bind] in Hfr. by rewrite app_nil_r in Hfr.
  - by rewrite forest_nodes_one in Hmk.
Qed.

(** The parent was split: one level up. *)
Lemma climb_split bt ps d f fs t1 t2 key h n d2 up r lks rks lts rts :
  climbing bt ps d (f :: fs) t1 t2 key h ->
  moves n (eq (f_pg f)) d [plug1 f t1; t2] d2 [Branch (f_pg f) lks lts; Branch r rks rts] -> n <= 1 -> own d2 r ->
  lks ++ up :: rks = f_ks1 f ++ key :: f_ks2 f -> lts ++ rts = f_ts1 f ++ t1 :: t2 :: f_ts2 f ->
  lks <> [] -> rks <> [] -> length lts = S (length lks) -> length rts = S (length rks) ->
  climbing bt ps d2 fs (Branch (f_pg f) lks lts) (Branch r rks rts) up (S h) /\
  climbed fs (Branch (f_pg f) lks lts) (Branch r rks rts) up = climbed (f :: fs) t1 t2 key.
Proof.
  intros Hcl M0 Hn Hor Ek Et Hnl Hnr Hll Hlr. destruct (climb_shapes _ _ _ _ _ _ _ _ _ Hcl) as (Hshp & Hkids & Hwsh).
  pose proof Hcl as [Htx Hps Hf [Hbal Hbals]%Forall_cons [Hthf Hthfs]%Forall_cons Hkey Hs1 Hs2 Hsh Hroot
    [Hown Howns]%Forall_cons [Hsib Hsibs]%Forall_cons Hc1 Hc2 Hsp]. pose proof (fr_inv _ _ Hf) as Hinv.
  pose proof (moves_plug _ _ d fs (plug1 f t1) [t2] d2 (Branch (f_pg f) lks lts) [Branch r rks rts] M0 eq_refl Hf
    (fun q => hole_page d f fs t1 t2 q Hf)) as M.
  pose proof M as [Hw _ _ _ Hkeep]. pose proof (moves_forest _ _ _ _ _ _ M) as Hf2.
  pose proof (proj1 (forest_plug d fs (plug1 f t1) [t2]) Hf) as (_ & Hfs & _ & _).
  pose proof Hf as [_ [Hr [Hr2 _]%Forall_cons]%Forall_cons _]. apply rep_plug_iff in Hr as [[Hfo _] Hr1].
  assert (Hall : Forall (thin ps) (lks ++ up :: rks)).
  { rewrite Ek. apply Forall_app in Hthf as [H1 H2]. apply Forall_app. split; [done|by constructor]. }
  apply Forall_app in Hall as [_ [Hup _]%Forall_cons].
  assert (Hkc : Forall (own_closed d2) (lts ++ rts)).
  { rewrite Et. pose proof (kept_siblings d d2 f _ Hkeep Hinv Hfo Hsib) as Hsib2. unfold siblings in Hsib2.
    apply Forall_app in Hsib2 as [H1 H2]. apply Forall_app. split; [done|].
    repeat apply Forall_cons_2; try done; by apply (own_closed_kept d). }
  rewrite <- Et in Hkids. apply Forall_app in Hkids as [Hkl Hkr]. apply Forall_app in Hkc as [Hcl1 Hcl2].
  assert (Hof : own d2 (f_pg f)) by (unfold own in *; rewrite Hkeep; [done|apply Hfo]).
  assert (Hcb : forall q ks ts, own d2 q -> Forall (own_closed d2) ts -> own_closed d2 (Branch q ks ts)).
  { intros q ks ts Hq Hts. apply own_closed_Branch. eapply Forall_impl; [exact Hts|]. done. }
  assert (Hsl : shape (S h) (Branch (f_pg f) lks lts)) by (by apply shape_Branch).
  split.
  - split; try done.
    + by rewrite (wr_ps _ _ _ _ Hw).
    + by apply shape_Branch.
    + replace (length fs + S h)%nat with (length (f :: fs) + h)%nat by (cbn; lia).
      apply (shape_replace _ fs (plug1 f t1)); [|done]. intros m Hm. by rewrite (shape_unique _ _ _ Hm Hshp).
    + rewrite root_pg_cons in Hroot. by apply (tree_root_writes bt _ _ _ _ _ Htx Hw Hinv Hroot).
    + by apply (kept_own d d2 fs _ Hkeep Hfs).
    + by apply (kept_all_siblings d d2 fs _ Hkeep Hinv Hfs).
    + by apply Hcb.
    + by apply Hcb.
    + pose proof (wr_space _ _ _ _ Hw). cbn in Hsp. lia.
  - unfold climbed. rewrite (trace_two (f_pg f) r (f_pg f)), Ek, Et, trace_wedge by done. cbn [left_of right_of].
    by rewrite <- !app_assoc.
Qed.

Lemma Put_up_ok bt ps : forall fs fuel d t1 t2 key it h,
  climbing bt ps d fs t1 t2 key h -> (length fs < fuel)%nat -> it_btree it = bt -> it_stack it = frame_stack fs ->
  exists it' d' t', Put_up fuel (pg t1) (pg t2) key (it, d) = Ok tt (it', d') /\
    put_done (Z.of_nat (S (length fs))) (fun q => q ∈ f_pg <$> fs) [plug fs t1; t2]
      d bt d' t' (climbed fs t1 t2 key) (S (length fs + h)).
Proof.
  induction fs as [|f fs IH]; intros [|fuel] d t1 t2 key it h Hcl Hfuel Eit Est; try (cbn in Hfuel; lia).
  { destruct Hcl as [C1 C2 C3 _ _ C6 C7 C8 _ C10 _ _ C13 C14 C15].
    destruct (new_root bt ps d t1 t2 key it h fuel) as (d' & t' & Hrun & [D1 D2 D3 D4 D5 D6 D7 D8 D9 D10]); try done.
    exists it, d', t'. split; [done|]. split; try done; [by apply (steps_weaken _ _ _ _ _ _ D1)|].
    unfold climbed. cbn [left_of right_of app]. by rewrite app_nil_r. }
  pose proof Hcl as [Htx Hps Hf [Hbal _]%Forall_cons [Hthf _]%Forall_cons Hkey _ _ _ _ _ _ _ _ Hsp].
  pose proof (proj1 (forest_plug d fs (plug1 f t1) [t2]) Hf) as (Hf0 & _ & _ & _).
  pose proof (fr_inv _ _ Hf) as Hinv. pose proof (page_size_inv d Hinv) as Hpsok. rewrite Hps in Hpsok.
  destruct (page_size_bounds _ Hpsok) as [Hr8 _].
  assert (Hshort : short (page_size d) key).
  { rewrite Hps. unfold short, thin, key_cost in *. apply Z.div_le_lower_bound; lia. }
  destruct (parent_insert d f t1 t2 key Hbal Hf0 Hshort) as (d1 & Hop & M1). rewrite Hps in Hop, M1.
  assert (Hp : db_used d (f_pg f)).
  { apply (rep_used d (plug1 f t1)). destruct Hf0 as [_ [Hr0 _]%Forall_cons _]. exact Hr0. }
  cbn [Put_up]. run_step (iter_ok it d). rewrite Est. cbn [frame_stack fmap list_fmap].
  run_step (on_db_ok _ it d _ _ (new_node_ok d _ Hinv Hp)). run_step (on_db_ok _ it d _ _ Hop).
  destruct (Z.leb_spec (keys_fill (f_ks1 f ++ f_ks2 f) + key_cost key) (ps - 18)) as [Hfit|Hfull].
  { exists it, d1, (plug fs (wedge f key t1 t2)). split; [done|]. exact (climb_inserted bt ps d f fs t1 t2 key h d1 Hcl M1). }
  pose proof (mv_writes _ _ _ _ _ _ M1) as W1. pose proof (wr_space _ _ _ _ W1). cbn in Hsp.
  destruct (parent_split ps d1 f t1 t2 key Hbal) as (up & r & lks & rks & lts & rts & d2 & Hsplit & M2 & Hor & Ek & Et & Hnl & Hnr & Hll & Hlr);
    try done; [by rewrite (wr_ps _ _ _ _ W1)|by eapply moves_forest|by constructor|lia|].
  pose proof (moves_trans _ _ _ _ (eq (f_pg f)) _ _ _ _ _ _ M1 M2 ltac:(by intros q _ [<-|<-])) as M.
  destruct (climb_split bt ps d f fs t1 t2 key h _ d2 up r lks rks lts rts Hcl M) as [Hcl2 Etr]; try done.
  set (it1 := set_stack (frame_stack fs) it).
  destruct (IH fuel d2 _ _ up it1 (S h) Hcl2) as (it' & d' & t' & Hrun & [D1 D2 D3 D4 D5 D6 D7 D8 D9 D10]); try done; [cbn in Hfuel; lia|].
  exists it', d', t'. split.
  - run_step (on_db_ok _ it d1 _ _ Hsplit). run_step (Pop_ok d2 _ _ it Est). exact Hrun.
  - rewrite Etr in D5. replace (S (length fs + S h)) with (S (length (f :: fs) + h)) in D6 by (cbn; lia). split; try done.
    + replace (Z.of_nat (S (length (f :: fs)))) with (1 + Z.of_nat (S (length fs))) by (cbn; lia).
      apply (steps_trans _ _ (eq (f_pg f)) (fun q => q ∈ f_pg <$> fs) _ d d2 d'); [apply writes_steps, M|done|].
      intros q _ [<-|Hq]; [apply list_elem_of_here|by apply list_elem_of_further].
    + intros q Hq. destruct (D8 q Hq) as [Hin|Hn]; [|right; intros Hu; by apply Hn, (wr_used _ _ _ _ (mv_writes _ _ _ _ _ _ M))].
      rewrite plug_nodes, elem_of_app in Hin. cbn [plug]. rewrite plug_nodes, elem_of_app.
      destruct Hin as [Hin|Hin]; [tauto|]. destruct (mv_nodes _ _ _ _ _ _ M q Hin); tauto.
    + refine (frees_trans _ _ _ _ _ _ _ D9). apply (mv_frees _ _ _ _ _ _ (moves_plug _ _ _ _ _ _ _ _ _ M eq_refl Hf
        (fun q => hole_page d f fs t1 t2 q Hf))).
    + intros Hm. apply D10, (mv_marks _ _ _ _ _ _ (moves_plug _ _ _ _ _ _ _ _ _ M eq_refl Hf
        (fun q => hole_page d f fs t1 t2 q Hf)) Hm).
Qed.
