(* ===== verification/PutTree.v ===== *)
(** Putting a new entry into a tree: the leaf part of [BTree::Put] of
    [src/btree.cpp], with the split and the climb when the leaf is full. *)
From S2P Require Import Prelude Format Comparator State Memory FreeMap Pager PagerI PagerInst.
From S2P Require Import Node NodeWf NodeSpec Search BranchSpec Tx Iterator BTree Trails NodeDb Freed Tree TreeSearch TreeGet TreeWalk Copying.
From S2P Require Import TreeSteps Forest LeafPage LeafSplit BranchPage BranchSplit Rebuild PutUp.

Implicit Types (d : DBImpl) (p q : Z) (es : list entry) (e : entry) (t u : tree) (fs : list frame).

(** ** A leaf of the transaction, below its branches *)
Record at_own_leaf bt (ps : Z) d fs p es : Prop := {
  al_tx : bt_tx bt = UpdateTxRef;
  al_ps : page_size d = ps;
  al_forest : forest d [plug fs (Leaf p es)];
  al_balanced : Forall balanced fs;
  al_thin : Forall (fun f => Forall (thin ps) (f_ks1 f ++ f_ks2 f)) fs;
  al_shape : shape (length fs) (plug fs (Leaf p es));
  al_root : tree_root bt d = Ok (root_pg fs p) d;
  al_own : own d p;
  al_path : Forall (fun f => own d (f_pg f)) fs;
  al_siblings : Forall (fun f => Forall (own_closed d) (siblings f)) fs;
}.

Lemma leaf_hole d fs p es q : eq p q -> q ∈ forest_fp d [Leaf p es].
Proof. intros <-. rewrite forest_fp_leaf. apply list_elem_of_here. Qed.

(** The leaf rebuilt on its page. *)
Lemma leaf_rebuilt bt ps d fs p es k d' es' :
  at_own_leaf bt ps d fs p es -> leaf_moves k d p es d' es' ->
  at_own_leaf bt ps d' fs p es' /\
  put_done k (eq p) [plug fs (Leaf p es)] d bt d' (plug fs (Leaf p es')) (left_of fs ++ (Ent <$> es') ++ right_of fs) (length fs).
Proof.
  intros [Htx Hps Hf Hbal Hth Hsh Hroot Hown Hpath Hsib] Hm. pose proof (fr_inv _ _ Hf) as Hinv.
  pose proof (moves_plug _ _ d fs (Leaf p es) [] d' (Leaf p es') [] Hm eq_refl Hf (leaf_hole d fs p es)) as M.
  pose proof (proj1 (forest_plug d fs (Leaf p es) []) Hf) as (Hf0 & Hfs & _ & _).
  pose proof M as [Hw [Hr' _]%Forall_cons _ Hnd Hkeep Hno Hfr Hmk]. pose proof (moves_forest _ _ _ _ _ _ M) as Hf'.
  pose proof (kept_own d d' fs _ Hkeep Hfs Hpath) as Hpath'. pose proof (kept_all_siblings d d' fs _ Hkeep Hinv Hfs Hsib) as Hsib'.
  pose proof (tree_root_writes bt _ _ _ _ _ Htx Hw Hinv Hroot) as Hroot'.
  assert (Hsh' : shape (length fs) (plug fs (Leaf p es'))) by (apply (shape_replace _ fs (Leaf p es)); [by intros [|n]|done]).
  assert (Hp : db_used d p).
  { apply (rep_used d (Leaf p es)). destruct Hf0 as [_ [Hr0 _]%Forall_cons _]. exact Hr0. }
  split; split; try done.
  - by rewrite (wr_ps _ _ _ _ Hw).
  - unfold own in *. by rewrite Hkeep.
  - by apply writes_steps.
  - cbn in Hnd. by rewrite app_nil_r in Hnd.
  - by rewrite pg_plug.
  - by rewrite trace_plug.
  - exists (length fs). done.
  - apply own_closed_plug. split; [by apply frames_closed_own|done].
  - intros q Hq. rewrite <- forest_nodes_one in Hq. by apply Hno.
  - unfold forest_fp at 2 in Hfr. cbn [mbind list_bind] in Hfr. by rewrite app_nil_r in Hfr.
  - by rewrite (forest_nodes_one (plug fs (Leaf p es'))) in Hmk.
Qed.

(** ** Inserting the entry *)
Definition split_items fs es1 e2 es2 : list item :=
  left_of fs ++ ((Ent <$> es1) ++ Sep (e_key e2) :: (Ent <$> e2 :: es2)) ++ right_of fs.

Definition put_items fs (n : nat) e es (items : list item) : Prop :=
  items = left_of fs ++ (Ent <$> insert_at n e es) ++ right_of fs \/
  exists es1 e2 es2, es1 ++ e2 :: es2 = insert_at n e es /\ es1 <> [] /\ items = split_items fs es1 e2 es2.

Lemma put_done_weaken k k' (W W' : Z -> Prop) ts d bt d' t' items h h' :
  put_done k W ts d bt d' t' items h -> k <= k' -> (forall q, W q -> W' q) -> (h <= h')%nat -> put_done k' W' ts d bt d' t' items h'.
Proof.
  intros [D1 D2 D3 D4 D5 (m & Hm & Hle) D7 D8 D9 D10] Hk HW Hh. split; try done; [by apply (steps_weaken _ _ _ _ _ _ D1); auto|].
  exists m. split; [done|lia].
Qed.
Lemma put_done_trans k1 k2 (W1 W2 W : Z -> Prop) ts1 ts d bt d1 d' t' items h :
  steps k1 W1 d d1 -> put_done k2 W2 ts1 d1 bt d' t' items h -> (forall q, db_used d q -> W1 q \/ W2 q -> W q) ->
  (forall q, q ∈ forest_nodes ts1 -> q ∈ forest_nodes ts \/ ~ db_used d q) -> frees d (forest_fp d ts) d1 (forest_fp d1 ts1) ->
  (marked d (forest_nodes ts) -> marked d1 (forest_nodes ts1)) ->
  put_done (k1 + k2) W ts d bt d' t' items h.
Proof.
  intros S1 [D1 D2 D3 D4 D5 D6 D7 D8 D9 D10] HW HN Hfr Hmk. split; try done; [by apply (steps_trans _ _ W1 W2 W d d1 d')| |by apply (frees_trans _ _ d1 (forest_fp d1 ts1))|tauto].
  intros q Hq. destruct (D8 q Hq) as [?|Hn]; [by apply HN|]. right. intros Hu. by apply Hn, (kp_used _ _ _ S1).
Qed.

Lemma split_climbs bt ps d fs p es k d' r es1 e2 es2 :
  at_own_leaf bt ps d fs p es -> moves k (eq p) d [Leaf p es] d' [Leaf p es1; Leaf r (e2 :: es2)] -> own d' r ->
  thin ps (e_key e2) -> k + Z.of_nat (S (length fs)) <= db_space d ->
  climbing bt ps d' fs (Leaf p es1) (Leaf r (e2 :: es2)) (e_key e2) 0.
Proof.
  intros [Htx Hps Hf Hbal Hth Hsh Hroot Hown Hpath Hsib] Hm Hor Hkey Hsp. pose proof (fr_inv _ _ Hf) as Hinv.
  pose proof (moves_plug _ _ d fs (Leaf p es) [] d' (Leaf p es1) [Leaf r (e2 :: es2)] Hm eq_refl Hf (leaf_hole d fs p es)) as M.
  pose proof (proj1 (forest_plug d fs (Leaf p es) []) Hf) as (_ & Hfs & _ & _).
  pose proof M as [Hw _ _ _ Hkeep]. split; try done.
  - by rewrite (wr_ps _ _ _ _ Hw).
  - by eapply moves_forest.
  - rewrite Nat.add_0_r. apply (shape_replace _ fs (Leaf p es)); [by intros [|n]|done].
  - by apply (tree_root_writes bt _ _ _ _ _ Htx Hw Hinv Hroot).
  - by apply (kept_own d d' fs _ Hkeep Hfs).
  - by apply (kept_all_siblings d d' fs _ Hkeep Hinv Hfs).
  - pose proof (wr_space _ _ _ _ Hw). lia.
Qed.

Lemma leaf_fits d p es : leaf_page d p es -> fill (page_size d) es <= page_size d - 18.
Proof.
  intros Hlp. destruct (leaf_page_node _ _ _ Hlp) as (_ & _ & Hok & <-). rewrite (leaf_fill d _ Hok).
  pose proof (lo_node _ _ Hok) as Hn. pose proof (sw_low _ _ Hn). pose proof (sw_top _ _ Hn).
  change (pg_page_size d) with (page_size d) in *. lia.
Qed.

Lemma at_own_leaf_page bt ps d fs p es : at_own_leaf bt ps d fs p es -> leaf_page d p es /\ page_size_ok ps.
Proof.
  intros [_ Hps Hf _ _ _ _ _ _ _]. split; [by apply (forest_plug d fs (Leaf p es) [])|].
  rewrite <- Hps. apply page_size_inv, Hf.
Qed.

Definition thin_entries (ps : Z) es : Prop := Forall (fun e => thin ps (e_key e)) es.

(** The room a put may take: the split of the leaf, and a page a level. *)
Definition put_space (ps : Z) (h : nat) es e : Z := split_space ps es e + Z.of_nat (S h).

Section put_leaf.
Context (bt : BTree) (ps : Z) (d : DBImpl) (fs : list frame) (p : Z) (es : list entry) (n : nat) (e : entry).
Context (Hal : at_own_leaf bt ps d fs p es) (Hn : (n <= length es)%nat).
Context (Hst : Forall (storable ps) (e :: es)) (Hsp : put_space ps (length fs) es e <= db_space d).

Let on_path (q : Z) : Prop := q = p \/ q ∈ f_pg <$> fs.

Lemma put_fits : fill ps es + entry_cost ps e <= ps - 18 ->
  exists d1 d', on_node p (Leaf_Insert (Z.of_nat n) (Ext (e_key e)) (e_value e)) d = Ok true d1 /\
    on_node p (SetIsBucket (Z.of_nat n) (e_bucket e)) d1 = Ok tt d' /\
    put_done (put_space ps (length fs) es e) on_path [plug fs (Leaf p es)] d bt d' (plug fs (Leaf p (insert_at n e es)))
      (left_of fs ++ (Ent <$> insert_at n e es) ++ right_of fs) (length fs).
Proof.
  intros Hroom. destruct (at_own_leaf_page _ _ _ _ _ _ Hal) as [Hlp Hpsok]. pose proof (al_ps _ _ _ _ _ _ Hal) as Hps.
  pose proof (overflow_pages_nonneg ps es). apply Forall_cons in Hst as [Hste _].
  assert (He : e = mkEntry (e_key e) (e_value e) (e_bucket e)) by (by destruct e).
  assert (Hk : entry_pages ps e <= put_space ps (length fs) es e) by (unfold put_space, split_space; lia).
  destruct (insert_marked d p es [] n (e_key e) (e_value e) (e_bucket e) Hlp Hn) as (b0 & d1 & d' & Hins & Hmark & _ & M);
    rewrite <- ?He, ?Hps; try done; [lia|]. rewrite <- He, Hps in M.
  exists d1, d'. split; [done|]. split; [done|].
  destruct (leaf_rebuilt _ _ _ _ _ _ _ _ _ Hal M) as [_ Hdone].
  apply (put_done_weaken _ _ _ _ _ _ _ _ _ _ _ _ Hdone); [done|by left|done].
Qed.

Lemma split_thin es1 e2 es2 : thin_entries ps (e :: es) -> es1 ++ e2 :: es2 = insert_at n e es -> thin ps (e_key e2).
Proof.
  intros [He Hes]%Forall_cons E. assert (Hall : Forall (fun e => thin ps (e_key e)) (insert_at n e es)).
  { unfold insert_at. rewrite <- (take_drop n es) in Hes. apply Forall_app in Hes as [H1 H2].
    apply Forall_app. split; [done|by constructor]. }
  rewrite <- E in Hall. by apply Forall_app in Hall as [_ [? _]%Forall_cons].
Qed.

Lemma put_full it :
  thin_entries ps (e :: es) -> ps - 18 < fill ps es + entry_cost ps e ->
  it_btree it = bt -> it_stack it = (p, Z.of_nat n) :: frame_stack fs ->
  exists d1 d2 it' r d' t' items, on_node p (Leaf_Insert (Z.of_nat n) (Ext (e_key e)) (e_value e)) d = Ok false d1 /\
    Leaf_Split p (Z.of_nat n) (e_key e) (e_value e) (e_bucket e) d1 = Ok r d2 /\
    (Pop ;;; (let* up_key := on_db (node_key r 0) in Put_Branch p r up_key)) (it, d2) = Ok tt (it', d') /\
    put_items fs n e es items /\
    put_done (put_space ps (length fs) es e) on_path [plug fs (Leaf p es)] d bt d' t' items (S (length fs)).
Proof.
  intros Hthin Hfull Eit Est. destruct (at_own_leaf_page _ _ _ _ _ _ Hal) as [Hlp Hpsok].
  pose proof (al_ps _ _ _ _ _ _ Hal) as Hps. pose proof (leaf_fits d p es Hlp) as Hfit. rewrite Hps in Hfit.
  pose proof (overflow_pages_nonneg ps es). pose proof (proj1 (proj1 (Forall_cons _ _ _) Hst)) as Hste.
  assert (He : e = mkEntry (e_key e) (e_value e) (e_bucket e)) by (by destruct e).
  destruct (page_insert d p es n (e_key e) (e_value e) Hlp Hn) as (d1 & Hins & M0).
  { rewrite Hps. exact Hste. }
  { rewrite Hps. change (entry_pages ps e <= db_space d). unfold put_space, split_space in Hsp. lia. }
  rewrite Hps in Hins, M0. change (entry_cost ps (mkEntry (e_key e) (e_value e) false)) with (entry_cost ps e) in Hins, M0.
  rewrite (proj2 (Z.leb_gt _ _)) in Hins, M0 by lia.
  destruct (leaf_rebuilt _ _ _ _ _ _ _ _ _ Hal M0) as [Hal1 _].
  pose proof (wr_space _ _ _ _ (mv_writes _ _ _ _ _ _ M0)) as Hsp1. rewrite Z.sub_0_r in Hsp1.
  destruct (at_own_leaf_page _ _ _ _ _ _ Hal1) as [Hlp1 _]. pose proof (al_ps _ _ _ _ _ _ Hal1) as Hps1.
  pose proof (Leaf_Split_ok ps d1 p es [] n (e_key e) (e_value e) (e_bucket e) Hps1 Hpsok Hlp1 Hn) as HS.
  cbv zeta in HS. rewrite <- He in HS. unfold put_space in *.
  destruct HS as (r & es1 & es2 & d2 & Hsplit & M & Ees & Hne1 & Hne2 & _ & Hor); try done; [lia|].
  destruct es2 as [|e2 es2]; [done|].
  pose proof (split_climbs bt ps d1 fs p es _ d2 r es1 e2 es2 Hal1 M Hor (split_thin _ _ _ Hthin Ees) ltac:(lia)) as Hcl.
  pose proof (moves_forest _ _ _ _ _ _ M) as [Hinv2 [_ [Hr2 _]%Forall_cons]%Forall_cons _].
  destruct (read_entry d2 r (e2 :: es2) Hinv2 Hr2 0 e2 eq_refl) as (Hkey & _ & _).
  set (it2 := set_stack (frame_stack fs) it).
  destruct (Put_up_ok bt ps fs (S (length fs)) d2 _ _ (e_key e2) it2 0 Hcl) as (it' & d' & t' & Hrun & Hdone); [lia|done|done|].
  exists d1, d2, it', r, d', t'. eexists. split; [done|]. split; [done|]. split.
  - run_step (Pop_ok d2 _ _ it Est). run_step (on_db_ok _ it2 d2 _ _ Hkey).
    unfold Put_Branch. run_step (iter_ok it2 d2). cbn [it2 it_stack set_stack]. unfold frame_stack at 1. rewrite length_fmap. exact Hrun.
  - split; [right; by exists es1, e2, es2|]. rewrite Nat.add_0_r in Hdone.
    pose proof (moves_trans _ _ (eq p) (eq p) (eq p) _ _ _ _ _ _ M0 M ltac:(by intros q _ [<-|<-])) as M'.
    pose proof (moves_plug _ _ d fs _ [] _ _ _ M' eq_refl (al_forest _ _ _ _ _ _ Hal) (leaf_hole d fs p es)) as M2.
    refine (put_done_trans _ _ (eq p) (fun q => q ∈ f_pg <$> fs) on_path _ _ d bt d2 d' _ _ _ _ Hdone _ (mv_nodes _ _ _ _ _ _ M2)
      (mv_frees _ _ _ _ _ _ M2) (mv_marks _ _ _ _ _ _ M2)).
    + apply writes_steps. replace (split_space ps es e) with (0 + split_space ps es e) by lia.
      apply M'.
    + intros q _ [<-|Hq]; [by left|by right].
Qed.

(** [Put] on its leaf, when the entry is a new one. *)
Lemma Put_Leaf_ok (insert_only : bool) it :
  thin_entries ps (e :: es) -> it_btree it = bt -> it_stack it = (p, Z.of_nat n) :: frame_stack fs ->
  insert_only = true \/ it_status it <> StEq ->
  exists it' d' t' items, Put_Leaf (e_key e) (e_value e) insert_only (e_bucket e) (it, d) = Ok tt (it', d') /\
    put_items fs n e es items /\
    put_done (put_space ps (length fs) es e) on_path [plug fs (Leaf p es)] d bt d' t' items (S (length fs)).
Proof.
  intros Hthin Eit Est Hnew. destruct (at_own_leaf_page _ _ _ _ _ _ Hal) as [Hlp _].
  destruct (leaf_page_node _ _ _ Hlp) as (Hinv & Hp & _).
  assert (Hg : negb insert_only && bool_decide (it_status it = StEq) = false).
  { destruct Hnew as [->|Hne]; [done|]. rewrite (bool_decide_false (it_status it = StEq)) by done. by rewrite andb_false_r. }
  unfold Put_Leaf. destruct (Z.le_gt_cases (fill ps es + entry_cost ps e) (ps - 18)) as [Hroom|Hfull].
  - destruct (put_fits Hroom) as (d1 & d' & Hins & Hmark & Hdone). exists it, d', (plug fs (Leaf p (insert_at n e es))).
    eexists. split; [|split; [by left|by apply (put_done_weaken _ _ _ _ _ _ _ _ _ _ _ _ Hdone); auto]].
    run_step (iter_ok it d). rewrite Est. run_step (on_db_ok _ it d _ _ (new_node_ok d p Hinv Hp)). rewrite Hg.
    run_step (on_db_ok _ it d _ _ Hins). exact (on_db_ok _ it d1 _ _ Hmark).
  - destruct (put_full it Hthin ltac:(lia) Eit Est) as (d1 & d2 & it' & r & d' & t' & items & Hins & Hsplit & Hrun & Hit & Hdone).
    exists it', d', t', items. split; [|done].
    run_step (iter_ok it d). rewrite Est. run_step (on_db_ok _ it d _ _ (new_node_ok d p Hinv Hp)). rewrite Hg.
    run_step (on_db_ok _ it d _ _ Hins). run_step (on_db_ok _ it d1 _ _ Hsplit). exact Hrun.
Qed.
End put_leaf.
