(* ===== verification/PutOrder.v ===== *)
(** The order of a tree's items after an insertion: the new entry at the
    position of the search, and a separator before an entry that was not the
    first of its leaf. *)
From S2P Require Import Prelude Format Comparator State Memory FreeMap Pager PagerI PagerInst.
From S2P Require Import Node NodeWf NodeSpec Search BranchSpec Tx Iterator BTree NodeDb Tree TreeSearch TreeGet TreeWalk Copying.
From S2P Require Import TreeSteps Forest LeafPage LeafSplit BranchPage BranchSplit Rebuild PutUp PutTree.

Implicit Types (es : list entry) (e : entry) (t : tree) (fs : list frame).

(** ** The reference: a list of entries sorted by key *)
Fixpoint put_entry (cmp : comparator) (e : entry) (l : list entry) : list entry :=
  match l with
  | [] => [e]
  | x :: l =>
      if bool_decide (cmp (e_key x) (e_key e) = Some Lt) then x :: put_entry cmp e l
      else if bool_decide (e_key x = e_key e) then e :: l
      else e :: x :: l
  end.

Section put.
Context (cmp : comparator) (key_ok : list byte -> Prop) {HO : KeyOrder cmp key_ok}.

Lemma put_entry_after e l1 l2 :
  Forall (fun x => key_lt cmp (e_key x) (e_key e)) l1 -> put_entry cmp e (l1 ++ l2) = l1 ++ put_entry cmp e l2.
Proof. induction 1 as [|x l1 Hx Hl1 IH]; [done|]. cbn. rewrite bool_decide_true by done. by rewrite IH. Qed.

Lemma put_entry_new e l1 l2 :
  Forall (fun x => key_lt cmp (e_key x) (e_key e)) l1 -> Forall (fun x => ~ key_lt cmp (e_key x) (e_key e)) l2 ->
  Forall (fun x => e_key x <> e_key e) l2 -> put_entry cmp e (l1 ++ l2) = l1 ++ e :: l2.
Proof.
  intros H1 H2 H3. rewrite put_entry_after by done. f_equal. destruct H2 as [|x l2 Hx H2]; [done|].
  apply Forall_cons in H3 as [H3 _]. cbn. by rewrite !bool_decide_false.
Qed.

Lemma put_entry_same e x l1 l2 : key_ok (e_key e) ->
  Forall (fun x => key_lt cmp (e_key x) (e_key e)) l1 -> e_key x = e_key e -> put_entry cmp e (l1 ++ x :: l2) = l1 ++ e :: l2.
Proof.
  intros Hk H1 Hx. rewrite put_entry_after by done. f_equal. cbn. rewrite Hx, bool_decide_false.
  - by rewrite bool_decide_true.
  - by apply (key_lt_irrefl cmp key_ok).
Qed.

(** ** Order *)
Lemma items_ok_insert e l1 l2 :
  items_ok cmp key_ok (l1 ++ l2) -> key_ok (e_key e) -> Forall (left_ok cmp (e_key e)) l1 ->
  Forall (right_ok cmp (e_key e)) l2 -> items_ok cmp key_ok (l1 ++ Ent e :: l2).
Proof.
  intros [Hs Hk] He H1 H2. apply StronglySorted_app in Hs as (Hs12 & Hs1 & Hs2). apply Forall_app in Hk as [Hk1 Hk2].
  split; [|apply Forall_app; split; [done|by constructor]]. apply StronglySorted_app. split; [|split].
  - intros i j Hi. rewrite elem_of_cons. intros [->|Hj]; [|by apply Hs12].
    rewrite Forall_forall in H1. destruct (H1 i Hi) as [?|?]; [by left|right; by destruct i].
  - done.
  - apply StronglySorted_cons. split; [|done]. eapply Forall_impl; [exact H2|]. intros i Hi. left. exact Hi.
Qed.

Lemma items_ok_sep e1 e2 l1 l2 :
  items_ok cmp key_ok (l1 ++ Ent e1 :: Ent e2 :: l2) -> items_ok cmp key_ok (l1 ++ Ent e1 :: Sep (e_key e2) :: Ent e2 :: l2).
Proof.
  intros [Hs Hk]. apply Forall_app in Hk as [Hk1 [Hke1 [Hke2 Hk2]%Forall_cons]%Forall_cons]. cbn in Hke1, Hke2.
  apply StronglySorted_app in Hs as (Hs12 & Hs1 & Hs2). apply StronglySorted_cons in Hs2 as [Hl1 Hs2].
  pose proof Hs2 as Hs3. apply StronglySorted_cons in Hs3 as [Hl2 _].
  assert (H12 : key_lt cmp (e_key e1) (e_key e2)) by (apply Forall_cons in Hl1 as [[?|[]] _]; done).
  split; [|apply Forall_app; split; [done|by repeat constructor]].
  apply StronglySorted_app. split; [|split; [done|]].
  - intros i j Hi. rewrite !elem_of_cons. intros [->|[->|Hj]]; [apply Hs12; [done|apply list_elem_of_here]| |].
    + left. cbn. rewrite Forall_forall in Hk1. pose proof (Hk1 i Hi) as Hik.
      destruct (Hs12 i (Ent e1) Hi (list_elem_of_here _ _)) as [Hlt|Heq].
      * by apply (key_lt_trans cmp key_ok _ (e_key e1)).
      * destruct i as [k|]; [|done]. cbn in *. by subst k.
    + apply Hs12; [done|]. apply list_elem_of_further. by apply elem_of_cons.
  - apply StronglySorted_cons. split; [|apply StronglySorted_cons; split; [|done]].
    + apply Forall_cons_2; [|done]. by left.
    + apply Forall_cons_2; [by right|]. eapply Forall_impl; [exact Hl2|]. intros i [Hi|[]]. by left.
Qed.

(** ** The items of a put *)
Lemma insert_items fs n e es : left_of fs ++ (Ent <$> insert_at n e es) ++ right_of fs =
  (left_of fs ++ (Ent <$> take n es)) ++ Ent e :: ((Ent <$> drop n es) ++ right_of fs).
Proof. unfold insert_at. rewrite fmap_app, fmap_cons. by rewrite <- !app_assoc. Qed.

Lemma put_items_ok fs p n e es items :
  items_ok cmp key_ok (trace (plug fs (Leaf p es))) -> key_ok (e_key e) ->
  landed cmp (e_key e) (plug fs (Leaf p es)) fs p es n false -> put_items fs n e es items ->
  items_ok cmp key_ok items /\ items_entries items = put_entry cmp e (contents (plug fs (Leaf p es))).
Proof.
  intros Hit Hk Hld Hput. pose proof Hld as [_ Hbal Hf Hl Hr].
  destruct (landed_split cmp key_ok (e_key e) Hk _ _ _ _ _ _ Hit Hld) as (Hc & Hlo & Hhi & Hne & _ & Hno).
  specialize (Hno eq_refl). rewrite (trace_plug fs _ Hbal) in Hit. cbn [trace] in Hit.
  assert (Hdk : Forall (fun x => e_key x <> e_key e) es).
  { apply Forall_forall. intros x Hx E. apply Hno. rewrite <- E. by apply list_elem_of_fmap_2. }
  assert (Hins : items_ok cmp key_ok (left_of fs ++ (Ent <$> insert_at n e es) ++ right_of fs)).
  { rewrite insert_items. rewrite <- (take_drop n es), fmap_app, <- !app_assoc, app_assoc in Hit.
    pose proof (items_ok_app _ _ _ _ Hit) as [_ [_ Hkr]]. apply Forall_app in Hkr as [Hkd _].
    apply items_ok_insert; try done.
    - apply Forall_app. split; [done|]. apply Forall_app in Hlo as [_ Hlo]. apply Forall_fmap.
      eapply Forall_impl; [exact Hlo|]. intros x Hx. by left.
    - apply Forall_app. split; [|done]. apply Forall_app in Hhi as [Hhi _]. apply Forall_fmap, Forall_forall. intros x Hx.
      rewrite Forall_forall in Hhi, Hdk. rewrite Forall_forall in Hkd. pose proof (Hhi x Hx) as Hnl.
      pose proof (Hkd (Ent x) (list_elem_of_fmap_2 Ent _ _ Hx)) as Hkx. cbn in Hkx.
      assert (Hxe : e_key x <> e_key e) by (apply Hdk; rewrite <- (take_drop n es), elem_of_app; by right).
      unfold right_ok, key_lt in *. cbn. destruct (ko_total _ _ Hkx Hk) as ([] & E); try done.
      + by apply ko_eq in E.
      + by apply (ko_antisym _ _ Gt). }
  assert (Hent : items_entries (left_of fs ++ (Ent <$> insert_at n e es) ++ right_of fs) = put_entry cmp e (contents (plug fs (Leaf p es)))).
  { rewrite insert_items, Hc, put_entry_new; try done.
    - rewrite items_entries_app. cbn [items_entries omap list_omap]. rewrite !items_entries_app, !items_entries_Ent. done.
    - apply Forall_app. split; [|done]. rewrite <- (take_drop n es) in Hdk. by apply Forall_app in Hdk as [_ ?]. }
  destruct Hput as [->|(es1 & e2 & es2 & Ees & Hne1 & ->)]; [done|].
  destruct (exists_last Hne1) as (es1' & e1 & ->). unfold split_items.
  rewrite <- Ees in Hins, Hent. rewrite !fmap_app, !fmap_cons in *. cbn [fmap list_fmap] in *.
  rewrite <- !app_assoc in *. cbn [app] in *. rewrite !(app_assoc (left_of fs)) in *. split.
  - apply items_ok_sep. exact Hins.
  - rewrite <- Hent. by rewrite !items_entries_app.
Qed.
End put.
