(* ===== verification/PutTheorems.v ===== *)
(** [BTree::Put] and [BTree::Insert] of [src/btree.cpp] as operations on
    sorted lists of entries, and the isolation of readers from them. *)
From S2P Require Import Prelude Format Comparator State Memory FreeMap Pager PagerI PagerInst.
From S2P Require Import Node NodeWf NodeSpec Search BranchSpec Tx Iterator BTree Trails NodeDb Freed Tree TreeSearch TreeGet TreeWalk Copying.
From S2P Require Import TreeSteps Height Forest LeafPage LeafSplit BranchPage BranchSplit Rebuild PutUp PutTree PutOrder.

Implicit Types (d : DBImpl) (p q : Z) (es : list entry) (e : entry) (t u : tree) (fs : list frame).

(** ** What a put asks of the tree *)

(** The overflow pages of the leaf that has the most of them. *)
Fixpoint leaf_overflow (ps : Z) t : Z :=
  match t with
  | Leaf _ es => overflow_pages ps es
  | Branch _ _ ts => foldr (fun t n => Z.max (leaf_overflow ps t) n) 0 ts
  end.

(** Free page ids for a copy of the path, a split of every level and a new
    root, and for the overflow pages of the leaf split and of the entry. *)
Definition put_cost (ps : Z) t (h : nat) e : Z := 2 * Z.of_nat (S h) + 1 + 2 * leaf_overflow ps t + entry_pages ps e.
Definition put_room d t (h : nat) e : Prop := put_cost (page_size d) t h e <= db_space d.

Lemma leaf_overflow_child ps t ts : t ∈ ts -> leaf_overflow ps t <= foldr (fun t n => Z.max (leaf_overflow ps t) n) 0 ts.
Proof. intros Ht. induction Ht as [t ts|t u ts Ht IH]; cbn; lia. Qed.

Lemma leaf_overflow_plug ps fs t : leaf_overflow ps t <= leaf_overflow ps (plug fs t).
Proof.
  revert t. induction fs as [|f fs IH]; intros t; [done|]. etransitivity; [|apply IH].
  apply leaf_overflow_child. apply elem_of_app. right. apply list_elem_of_here.
Qed.

(** The keys of the branches above are separators of the tree. *)
Lemma Sep_before k ks xs : length ks = length xs -> k ∈ ks -> Sep k ∈ before_seps ks xs.
Proof.
  revert xs. induction ks as [|k' ks IH]; intros [|x xs] Hl Hk; try done; [by apply elem_of_nil in Hk|].
  change (before_seps (k' :: ks) (x :: xs)) with ((x ++ [Sep k']) ++ before_seps ks xs). injection Hl as Hl.
  rewrite !elem_of_app. apply elem_of_cons in Hk as [->|Hk]; [left; right; apply list_elem_of_here|right; by apply IH].
Qed.

Lemma frame_keys_items (P : list byte -> Prop) fs :
  Forall balanced fs -> Forall (fun i => P (item_key i)) (left_of fs) -> Forall (fun i => P (item_key i)) (right_of fs) ->
  Forall (fun f => Forall P (f_ks1 f ++ f_ks2 f)) fs.
Proof.
  induction 1 as [|f fs [B1 B2] Hfs IH]; intros Hl Hr; [constructor|]. cbn [left_of right_of] in Hl, Hr.
  apply Forall_app in Hl as [Hl Hlf]. apply Forall_app in Hr as [Hrf Hr]. constructor; [|by apply IH].
  rewrite Forall_forall in Hlf. rewrite Forall_forall in Hrf. apply Forall_app. split; apply Forall_forall; intros k Hk.
  - apply (Hlf (Sep k)). apply Sep_before; [by rewrite length_fmap|done].
  - apply (Hrf (Sep k)). apply Sep_after; [by rewrite length_fmap|done].
Qed.

Lemma thin_short ps k : page_size_ok ps -> thin ps k -> short ps k.
Proof.
  intros Hps. destruct (page_size_bounds _ Hps) as [Hr _]. unfold thin, short, key_cost. intros H.
  apply Z.div_le_lower_bound; lia.
Qed.

(** ** The leaf of the path given to the transaction *)
Lemma taken_own_leaf bt d t h fs p es d1 fs1 p1 :
  path_taken d bt fs p es d1 fs1 p1 -> t = plug fs (Leaf p es) -> shape h t -> length fs = h -> Forall balanced fs ->
  bt_tx bt = UpdateTxRef -> Forall (fun f => Forall (thin (page_size d)) (f_ks1 f ++ f_ks2 f)) fs ->
  at_own_leaf bt (page_size d) d1 fs1 p1 es.
Proof.
  intros [T1 T2 T3 T4 T5 T6 T7 T8] -> Hsh Hlen Hbal Htx Hthin.
  destruct (same_frames_items _ _ T2) as (_ & _ & Hlen1 & Hbal1). apply own_closed_plug in T7 as [Hcl _].
  split; try done.
  - apply T3.
  - split; [apply T3|by apply Forall_singleton|]. cbn. by rewrite app_nil_r.
  - by apply Hbal1.
  - clear -T2 Hthin. induction T2 as [|f f' fs fs' -> Hfs IH]; [constructor|].
    apply Forall_cons in Hthin as [Hf Hthin]. constructor; [exact Hf|by apply IH].
  - rewrite Hlen1, Hlen. apply (same_frames_shape _ _ T2 h (Leaf p es)); [|done]. by intros [|n].
  - by apply (frames_closed_siblings d1 fs1 p1).
Qed.

(** ** Readers *)

(** A tree [u] that a reader sees: the pages it shares with the nodes [N] of the
    transaction's tree are not the transaction's, which copies them before it
    writes. *)
Definition apart_nodes d (N : list Z) u : Prop := forall q, q ∈ footprint d u -> q ∈ N -> needs_copy d q = true.
Definition apart d t u : Prop := apart_nodes d (tree_nodes t) u.

(** Such trees stay as they are, and apart from the new tree. *)
Definition nodes_kept d (N : list Z) d' (N' : list Z) : Prop := forall u, rep d u -> apart_nodes d N u ->
  rep d' u /\ footprint d' u = footprint d u /\ apart_nodes d' N' u /\ forall q, q ∈ footprint d u -> mark d' q = mark d q.

Lemma nodes_kept_steps k (W : Z -> Prop) d N d' N' :
  steps k W d d' -> db_inv d -> (forall q, W q -> own d q /\ q ∈ N) ->
  (forall q, q ∈ N' -> q ∈ N \/ ~ db_used d q) -> nodes_kept d N d' N'.
Proof.
  intros Hst Hinv HW Hno u Hu Hap. assert (HnW : forall q, q ∈ footprint d u -> ~ W q).
  { intros q Hq Hw. destruct (HW q Hw) as [Ho Ht]. unfold own in Ho. by rewrite (Hap q Hq Ht) in Ho. }
  destruct (rep_frame W d d' u Hst Hinv Hu HnW) as [Hu' Hfp]. split; [done|]. split; [done|]. split.
  2: { intros q Hq. unfold mark. rewrite (kp_node _ _ _ Hst); [done|by apply (footprint_used d u)|by apply HnW]. }
  intros q Hq Ht'. rewrite Hfp in Hq. pose proof (footprint_used d u q Hinv Hu Hq) as Hused.
  destruct (Hno q Ht') as [Ht|Hn]; [|done]. rewrite <- (Hap q Hq Ht).
  apply (steps_needs_copy _ _ _ _ _ Hst); [done|by apply HnW].
Qed.
Lemma nodes_kept_trans d N d1 N1 d2 N2 : nodes_kept d N d1 N1 -> nodes_kept d1 N1 d2 N2 -> nodes_kept d N d2 N2.
Proof.
  intros H1 H2 u Hu Ha. destruct (H1 u Hu Ha) as (Hu1 & E1 & Ha1 & M1). destruct (H2 u Hu1 Ha1) as (Hu2 & E2 & Ha2 & M2).
  split; [done|]. split; [congruence|]. split; [done|]. intros q Hq. rewrite M2 by (by rewrite E1). by apply M1.
Qed.

(** Pages beside a tree's own [P] keep their bytes. *)
Definition aside d (P : list Z) d' : Prop := page_size d' = page_size d /\
  forall U a, accounted d (P ++ U) -> a / page_size d ∈ U -> db_mem d' a = db_mem d a.

Lemma aside_steps k (W : Z -> Prop) d P d' : steps k W d d' -> (forall q, W q -> q ∈ P) -> aside d P d'.
Proof.
  intros Hst HW. split; [apply (kp_ps _ _ _ Hst)|]. intros U a [_ _ Hu Hnd _] Ha. apply (kp_mem _ _ _ Hst).
  - apply Hu, elem_of_app. by right.
  - intros Hw%HW. apply NoDup_app in Hnd as (_ & Hd & _). by apply (Hd _ Hw).
Qed.
Lemma aside_trans d P d1 P1 d2 : aside d P d1 -> frees d P d1 P1 -> aside d1 P1 d2 -> aside d P d2.
Proof.
  intros [E1 H1] Hf [E2 H2]. split; [congruence|]. intros U a HU Ha. rewrite (H2 U); [by apply (H1 U)|by apply Hf|by rewrite E1].
Qed.

(** A tree of nodes [N] and pages [P] gives way to one of nodes [N'] and pages
    [P']: readers keep theirs, no page freed is still in use, the marks of its
    nodes are of the transaction at the latest, and the pages of others stay. *)
Record turned d (N P : list Z) d' (N' P' : list Z) : Prop := {
  tu_readers : nodes_kept d N d' N';
  tu_frees : frees d P d' P';
  tu_marks : marked d N -> marked d' N';
  tu_used q : db_used d q -> db_used d' q;
  tu_aside : aside d P d';
}.
Lemma turned_refl d N P : turned d N P d N P.
Proof. split; [by intros u|apply frees_refl|done|done|done]. Qed.
Lemma turned_trans d N P d1 N1 P1 d2 N2 P2 : turned d N P d1 N1 P1 -> turned d1 N1 P1 d2 N2 P2 -> turned d N P d2 N2 P2.
Proof. intros [A1 A2 A3 A4 A5] [B1 B2 B3 B4 B5]. split; [by eapply nodes_kept_trans|by eapply frees_trans|tauto|auto|by eapply aside_trans]. Qed.

Definition tree_turned d t d' t' : Prop := turned d (tree_nodes t) (footprint d t) d' (tree_nodes t') (footprint d' t').

Lemma taken_turned bt d fs p es d1 fs1 p1 : db_inv d -> path_taken d bt fs p es d1 fs1 p1 ->
  tree_turned d (plug fs (Leaf p es)) d1 (plug fs1 (Leaf p1 es)).
Proof.
  intros Hinv [T1 T2 T3 T4 T5 T6 T7 T8 T9 T10 T11]. assert (HW : forall q, own_path d fs q -> own d q /\ q ∈ tree_nodes (plug fs (Leaf p es))).
  { intros q [Hin Hn]. split; [done|]. rewrite plug_path_nodes, elem_of_cons. tauto. }
  split; [|done|done|apply (kp_used _ _ _ T3)|apply (aside_steps _ _ _ _ _ T3); intros q Hq; by apply tree_nodes_footprint, HW].
  apply (nodes_kept_steps _ _ _ _ _ _ T3 Hinv HW).
  intros q. rewrite !plug_path_nodes. intros [Hq|Hq]; [destruct (T9 q Hq); tauto|]. left. right.
    clear -T2 Hq. induction T2 as [|f f' fs fs' -> Hfs IH]; [done|]. cbn in *. rewrite elem_of_app in *. tauto.
Qed.

Section put.
Context (cmp : comparator) (key_ok : list byte -> Prop) {HO : KeyOrder cmp key_ok}.

Lemma landed_moved key t fs fs' p p' es n eq t' :
  landed cmp key t fs p es n eq -> Forall2 same_frame fs fs' -> t' = plug fs' (Leaf p' es) -> landed cmp key t' fs' p' es n eq.
Proof.
  intros [_ H2 H3 H4 H5] Hs ->. destruct (same_frames_items _ _ Hs) as (El & Er & _ & Hb).
  split; [done|by apply Hb|done|by rewrite El|by rewrite Er].
Qed.

Lemma path_space ps t h e fs p es : t = plug fs (Leaf p es) -> length fs = h ->
  Z.of_nat (S (length fs)) + put_space ps (length fs) es e <= put_cost ps t h e.
Proof.
  intros -> Hl. unfold put_cost, put_space, split_space. pose proof (leaf_overflow_plug ps fs (Leaf p es)) as Ho.
  cbn [leaf_overflow] in Ho. lia.
Qed.

(** The state of a put once the path of its key is the transaction's. *)
Record path_ready bt d t h e fs p es (n : nat) (eq : bool) d1 fs1 p1 it1 : Prop := {
  pr_landed : landed cmp (e_key e) t fs p es n eq;
  pr_height : length fs = h;
  pr_taken : path_taken d bt fs p es d1 fs1 p1;
  pr_leaf : at_own_leaf bt (page_size d) d1 fs1 p1 es;
  pr_length : length fs1 = h;
  pr_space : put_space (page_size d) h es e <= db_space d1;
  pr_tree : it_btree it1 = bt;
  pr_stack : it_stack it1 = (p1, Z.of_nat n) :: frame_stack fs1;
  pr_status : it_status it1 = level_status true eq n (length es);
}.

(** [LowerBound] and [CopyAllPagesByPath], before the rest of the operation. *)
Lemma search_and_take bt d t h e :
  own_tree cmp key_ok d bt t h -> key_ok (e_key e) -> (forall k, key_ok k -> thin (page_size d) k) -> put_room d t h e ->
  exists fs p es n eq d1 fs1 p1 it0 it1, path_ready bt d t h e fs p es n eq d1 fs1 p1 it1 /\
    LowerBound bt (e_key e) d = Ok it0 d /\ CopyAllPagesByPath (it0, d) = Ok tt (it1, d1) /\ it_status it0 = it_status it1.
Proof.
  intros [Hta Htx Hnd Hcl] Hk Hthin Hroom.
  destruct (LowerBound_ok cmp key_ok bt (e_key e) Hk d t h Hta) as (fs & p & es & n & eq & Hld & Hlen & HLB).
  pose proof Hta as [Hcmp Hinv Hr Hroot Hsh Hh Hit]. pose proof Hld as [Hpl Hbal Hf Hl Hrt].
  set (it0 := mkIter bt ((p, Z.of_nat n) :: frame_stack fs) (level_status true eq n (length es)) (Some p)) in *.
  pose proof (path_space (page_size d) t h e fs p es (eq_sym Hpl) Hlen) as Hsp. unfold put_room in Hroom.
  rewrite <- Hpl in Hr, Hnd, Hcl, Hroot. rewrite pg_plug in Hroot. pose proof (overflow_pages_nonneg (page_size d) es).
  pose proof (entry_pages_nonneg (page_size d) e).
  destruct (CopyAllPagesByPath_ok bt d fs p (Z.of_nat n) es it0 Htx Hinv Hr Hnd Hroot) as (fs1 & p1 & d1 & Hrun & Ht); try done;
    [unfold put_space, split_space in Hsp; lia|].
  destruct (same_frames_items _ _ (pt_same _ _ _ _ _ _ _ _ Ht)) as (_ & _ & Hlen1 & _).
  exists fs, p, es, n, eq, d1, fs1, p1, it0, (set_stack ((p1, Z.of_nat n) :: frame_stack fs1) it0).
  split; [|done]. split; try done; [|congruence|].
  - apply (taken_own_leaf bt d t h fs p es d1 fs1 p1 Ht); try done.
    apply frame_keys_items; try done; pose proof Hit as [_ Hki]; rewrite <- Hpl, (trace_plug fs _ Hbal) in Hki;
      apply Forall_app in Hki as [Hkl Hkr]; apply Forall_app in Hkr as [_ Hkr];
      (eapply Forall_impl; [eassumption|]; intros i Hi; by apply Hthin).
  - pose proof (st_space _ _ _ _ (pt_steps _ _ _ _ _ _ _ _ Ht)). rewrite Hlen in *. lia.
Qed.

(** What a put on the tree [t] leaves: a tree of the transaction with the
    entries [l], and every reader's tree, a view's in particular; [k] free
    page ids at most are used up. *)
Record put_result bt d t d' (h : nat) (k : Z) (l : list entry) : Prop := {
  pu_tree : exists t' h', own_tree cmp key_ok d' bt t' h' /\ (h' <= S h)%nat /\ contents t' = l /\ tree_turned d t d' t';
  pu_views vb i u hu : bt_tx vb = ViewTxRef i -> tree_at cmp key_ok d vb u hu -> apart d t u -> tree_at cmp key_ok d' vb u hu;
  pu_env : tx_env d' = tx_env d;
  pu_space : db_space d - k <= db_space d';
}.

Lemma view_kept d d' vb i u hu :
  tx_env d' = tx_env d -> db_inv d' -> bt_tx vb = ViewTxRef i -> tree_at cmp key_ok d vb u hu -> rep d' u ->
  tree_at cmp key_ok d' vb u hu.
Proof.
  intros He Hinv Hvb [H1 H2 H3 H4 H5 H6 H7] Hr. pose proof (tx_env_views _ _ He) as Hv.
  split; try done; [by rewrite (tx_env_options _ _ He)|].
  unfold tree_root, get_root, at_bucket, get_tx, bind, ret in *. rewrite Hvb in *.
  destruct (bt_root vb) as [|parent key]; rewrite Hv; destruct (view_txs d !! i) as [[tx|]|]; try done.
  - by injection H4 as ->.
  - destruct (find_bucket tx parent) as [b|]; [|done]. cbn in *.
    destruct (sub_bucket_map b ≫= smap_find key) as [[id g]|]; [|done]. by injection H4 as ->.
Qed.

Lemma path_own_nodes bt ps d fs p es q : at_own_leaf bt ps d fs p es -> q = p \/ q ∈ f_pg <$> fs ->
  own d q /\ q ∈ tree_nodes (plug fs (Leaf p es)).
Proof.
  intros Hal Hq. rewrite plug_path_nodes, elem_of_cons. split; [|tauto]. destruct Hq as [->|(f & -> & Hf)%list_elem_of_fmap_1]; [by apply Hal|].
  pose proof (al_path _ _ _ _ _ _ Hal) as Hp. rewrite Forall_forall in Hp. by apply Hp.
Qed.

Lemma done_result bt d t h e fs p es n eq d1 fs1 p1 it1 d' t' items k (W : Z -> Prop) c l :
  own_tree cmp key_ok d bt t h -> path_ready bt d t h e fs p es n eq d1 fs1 p1 it1 ->
  put_done k W [plug fs1 (Leaf p1 es)] d1 bt d' t' items (S h) ->
  (forall q, W q -> own d1 q /\ q ∈ tree_nodes (plug fs1 (Leaf p1 es))) ->
  items_ok cmp key_ok items -> items_entries items = l -> Z.of_nat (S h) + k <= c -> put_result bt d t d' h c l.
Proof.
  intros Hown. pose proof (own_tree_height _ _ _ _ _ _ Hown) as Hh. destruct Hown as [Hta Htx Hnd Hcl].
  intros [Hld Hlen Ht Hal Hlen1 Hsp Ebt Est Estat] [D1 D2 D3 D4 D5 (h' & D6 & Hle) D7 D8 D9 D10] HW Hit Hl Hc.
  pose proof (pt_steps _ _ _ _ _ _ _ _ Ht) as S1. pose proof (ld_plug _ _ _ _ _ _ _ _ Hld) as <-.
  assert (He : tx_env d' = tx_env d) by (by rewrite (st_env _ _ _ _ D1), (st_env _ _ _ _ S1)).
  rewrite forest_nodes_one in D8, D10. unfold forest_fp in D9. cbn [mbind list_bind] in D9. rewrite app_nil_r in D9.
  assert (Hkept : tree_turned d (plug fs (Leaf p es)) d' t').
  { apply (turned_trans _ _ _ d1 (tree_nodes (plug fs1 (Leaf p1 es))) (footprint d1 (plug fs1 (Leaf p1 es)))); [by apply (taken_turned bt), Ht; apply Hta|].
    split; [|done|done|apply (kp_used _ _ _ D1)|apply (aside_steps _ _ _ _ _ D1); intros q Hq; by apply tree_nodes_footprint, HW].
    apply (nodes_kept_steps _ _ _ _ _ _ D1); [apply S1|exact HW|exact D8]. }
  split; [| |done|pose proof (st_space _ _ _ _ D1); pose proof (st_space _ _ _ _ S1); rewrite Hlen in *; lia].
  - exists t', h'. split; [|split_and!; [done|by unfold contents; rewrite D5|done]]. split; try done. split; try done.
    + rewrite (tx_env_options _ _ He). apply Hta.
    + apply D1.
    + lia.
    + by rewrite D5.
  - intros vb i u hu Hvb Hu Hap. apply (view_kept d d' vb i u hu He (st_inv _ _ _ _ D1) Hvb Hu).
    by apply (tu_readers _ _ _ _ _ _ Hkept u (ta_rep _ _ _ _ _ _ Hu) Hap).
Qed.

(** ** A key the tree does not have *)
Section put_new.
Context (bt : BTree) (d : DBImpl) (t : tree) (h : nat) (e : entry).
Context (Htree : own_tree cmp key_ok d bt t h) (Hkey : key_ok (e_key e)).
Context (Hthin : forall k, key_ok k -> thin (page_size d) k) (Hroom : put_room d t h e).
Context (Hlen : Forall (fun x => entry_len x < 2 ^ 32) (e :: contents t)).

Lemma landed_entries fs p es n eq x : landed cmp (e_key e) t fs p es n eq -> x ∈ es ->
  x ∈ contents t /\ key_ok (e_key x).
Proof.
  intros [<- Hbal _ _ _] Hx. pose proof (ta_items _ _ _ _ _ _ Htree) as [_ Hk]. unfold contents.
  rewrite (trace_plug fs _ Hbal) in *. cbn [trace] in *. split.
  - rewrite !items_entries_app, items_entries_Ent, !elem_of_app. tauto.
  - rewrite Forall_forall in Hk. apply (Hk (Ent x)). rewrite !elem_of_app. right. left. by apply list_elem_of_fmap_2.
Qed.

Lemma landed_storable fs p es n eq : landed cmp (e_key e) t fs p es n eq ->
  Forall (storable (page_size d)) (e :: es) /\ thin_entries (page_size d) (e :: es).
Proof.
  intros Hld. pose proof (page_size_inv d (ta_inv _ _ _ _ _ _ Htree)) as Hps. pose proof (proj1 (Forall_cons _ _ _) Hlen) as [Hle Hlc].
  rewrite Forall_forall in Hlc.
  assert (Hall : forall x, x ∈ e :: es -> key_ok (e_key x) /\ entry_len x < 2 ^ 32).
  { intros x [->|Hx]%elem_of_cons; [done|]. destruct (landed_entries _ _ _ _ _ x Hld Hx). auto. }
  split; apply Forall_forall; intros x Hx; destruct (Hall x Hx) as [Hk Hx32]; [|by apply Hthin].
  split; [|done]. apply (thin_short _ _ Hps). by apply Hthin.
Qed.

Lemma new_key_not_equal fs p es n eq : landed cmp (e_key e) t fs p es n eq -> find_entry (e_key e) (contents t) = None -> eq = false.
Proof.
  intros Hld Hnone. destruct eq; [|done]. exfalso.
  destruct (landed_split cmp key_ok (e_key e) Hkey _ _ _ _ _ _ (ta_items _ _ _ _ _ _ Htree) Hld) as (_ & _ & _ & _ & [Heq _] & _).
  destruct (Heq eq_refl) as (x & Hx & Ex). apply list_elem_of_lookup_2 in Hx.
  destruct (landed_entries _ _ _ _ _ x Hld Hx) as [Hin _]. unfold find_entry in Hnone.
  pose proof (List.find_none _ _ Hnone x (proj1 (list_elem_of_In _ _) Hin)) as Hf. cbn in Hf. by rewrite bool_decide_true in Hf.
Qed.

Lemma put_new (insert_only : bool) : find_entry (e_key e) (contents t) = None ->
  exists d', (let* it := LowerBound bt (e_key e) in
      with_iterator it (CopyAllPagesByPath ;;; Put_Leaf (e_key e) (e_value e) insert_only (e_bucket e)) ;;; ret tt) d = Ok tt d' /\
    put_result bt d t d' h (put_cost (page_size d) t h e) (put_entry cmp e (contents t)).
Proof.
  intros Hnone. destruct (search_and_take bt d t h e Htree Hkey Hthin Hroom)
    as (fs & p & es & n & eq & d1 & fs1 & p1 & it0 & it1 & Hready & HLB & Hcopy & _).
  pose proof Hready as [Hld Hlf Ht Hal Hlf1 Hsp Ebt Est Estat].
  pose proof (new_key_not_equal _ _ _ _ _ Hld Hnone) as ->. destruct (landed_storable _ _ _ _ _ Hld) as [Hst Hth].
  pose proof (proj1 (ld_found _ _ _ _ _ _ _ _ Hld)) as Hn. rewrite length_fmap in Hn.
  rewrite <- Hlf1 in Hsp.
  destruct (Put_Leaf_ok bt _ d1 fs1 p1 es n e Hal Hn Hst Hsp insert_only it1 Hth Ebt Est) as (it' & d' & t' & items & Hrun & Hitems & Hdone).
  { right. rewrite Estat. unfold level_status. by destruct (_ && _ && _). }
  rewrite Hlf1 in Hdone. exists d'. split.
  - run_step HLB. unfold with_iterator, bind. rewrite Hcopy, Hrun. done.
  - pose proof (pt_same _ _ _ _ _ _ _ _ Ht) as Hsame. destruct (same_frames_items _ _ Hsame) as (El & Er & _ & _).
    assert (Hitems0 : put_items fs n e es items).
    { unfold put_items, split_items in *. by rewrite El, Er in Hitems. }
    pose proof Hld as [Hpl _ _ _ _]. pose proof (ta_items _ _ _ _ _ _ Htree) as Hit.
    destruct (put_items_ok cmp key_ok fs p n e es items) as [Hio Hie]; rewrite ?Hpl; try done. rewrite Hpl in Hie.
    apply (done_result bt d t h e fs p es n false d1 fs1 p1 it1 d' t' items _ _ _ _ Htree Hready Hdone (fun q => path_own_nodes _ _ _ _ _ _ q Hal)); [done..|].
    pose proof (path_space (page_size d) t h e fs p es (eq_sym Hpl) Hlf). rewrite Hlf in *. lia.
Qed.

(** C4: [Put] of a key the tree does not have makes a tree with the entry at
    its place in the order, through any number of splits, and so does
    [Insert]; the tree stays well-formed and of the transaction, its height
    grows by one at most, and the trees of readers are what they were. *)
Theorem Put_new_key : find_entry (e_key e) (contents t) = None ->
  (exists d', Put bt (e_key e) (e_value e) (e_bucket e) d = Ok tt d' /\
    put_result bt d t d' h (put_cost (page_size d) t h e) (put_entry cmp e (contents t))) /\
  (exists d', Insert bt (e_key e) (e_value e) (e_bucket e) d = Ok tt d' /\
    put_result bt d t d' h (put_cost (page_size d) t h e) (put_entry cmp e (contents t))).
Proof. intros Hnone. split; [exact (put_new false Hnone)|exact (put_new true Hnone)]. Qed.
End put_new.
End put.
