(* ===== verification/PutSame.v ===== *)
(** The other cases of [BTree::Put] of [src/btree.cpp]: a key the tree already
    has, and a tree without pages. *)
From S2P Require Import Prelude Format Comparator State Memory FreeMap Pager PagerI PagerInst.
From S2P Require Import Node NodeWf NodeSpec LeafTheorems Search BranchSpec Tx Iterator BTree Trails NodeDb Freed Tree TreeSearch TreeGet TreeWalk Copying.
From S2P Require Import TreeSteps Forest LeafPage LeafSplit BranchPage BranchSplit Rebuild PutUp PutTree PutOrder PutTheorems.

Implicit Types (d : DBImpl) (p q : Z) (es : list entry) (e : entry) (t u : tree) (fs : list frame).

(** ** Overwriting an entry of a leaf *)
Lemma fill_insert ps es (i : nat) x e : es !! i = Some x -> fill ps (<[i := e]> es) = fill ps es - entry_cost ps x + entry_cost ps e.
Proof.
  intros Hx. rewrite <- (take_drop_middle _ _ _ Hx) at 2. rewrite insert_take_drop by (by eapply lookup_lt_Some).
  rewrite !fill_app, !fill_cons. lia.
Qed.

Lemma replace_pages ps leaf (i : nat) r l (used : Z -> Prop) :
  (i < length l)%nat -> NoDup (l ≫= rec_pages ps leaf) -> (forall q, q ∈ l ≫= rec_pages ps leaf -> used q) ->
  (forall q, q ∈ rec_pages ps leaf r -> ~ used q) ->
  NoDup (<[i := r]> l ≫= rec_pages ps leaf) /\
  (forall q, q ∈ <[i := r]> l ≫= rec_pages ps leaf -> q ∈ l ≫= rec_pages ps leaf \/ ~ used q).
Proof.
  intros Hi Hn Hu Hr. destruct (lookup_lt_is_Some_2 _ _ Hi) as [r0 Hr0].
  destruct (delete_pages ps leaf i r0 l used Hr0 Hn) as (Hn1 & Hq1 & _). rewrite insert_take_drop by done.
  assert (Hperm : (take i l ++ r :: drop (S i) l) ≫= rec_pages ps leaf ≡ₚ
    rec_pages ps leaf r ++ ((take i l ++ drop (S i) l) ≫= rec_pages ps leaf)).
  { transitivity ((r :: (take i l ++ drop (S i) l)) ≫= rec_pages ps leaf); [|done]. f_equiv. by rewrite <- Permutation_middle. }
  assert (Hsub : forall q, q ∈ (take i l ++ drop (S i) l) ≫= rec_pages ps leaf -> q ∈ l ≫= rec_pages ps leaf).
  { intros q (x & Hx & Hin)%list_elem_of_bind. apply list_elem_of_bind. exists x. split; [done|].
    apply elem_of_app in Hin as [Hin|Hin]; [rewrite <- (take_drop i l)|rewrite <- (take_drop (S i) l)]; apply elem_of_app; tauto. }
  rewrite Hperm. split.
  - apply NoDup_app. split; [apply rec_pages_NoDup|]. split; [|done]. intros q Hq Hq2. by apply (Hr q), Hu, Hsub.
  - intros q. rewrite Hperm, elem_of_app. intros [Hq|Hq]; [right; by apply Hr|left; by apply Hsub].
Qed.

(** An entry kept in the page itself. *)
Definition inline_entry (ps : Z) e : Prop := entry_len e <= (ps - 34) / 2.

Lemma inline_entry_rec d nd (i : nat) x r : leaf_ok d nd -> entries d nd !! i = Some x -> recs nd !! i = Some r ->
  inline_entry (page_size d) x -> r_overflow r = false /\ entry_len x = Z.of_nat (length (r_bytes r)).
Proof.
  intros Hok Hx Hr Hin. unfold entries in Hx. rewrite list_lookup_fmap, Hr in Hx. injection Hx as <-.
  pose proof (list_elem_of_lookup_2 _ _ _ Hr) as Hel. unfold inline_entry in Hin.
  pose proof (no_live _ _ Hok) as Hlv. rewrite (lo_leaf _ _ Hok), Forall_forall in Hlv. destruct (Hlv r Hel) as [Hov _].
  pose proof (rec_entry_len d nd r Hok Hel) as Hlen. rewrite Hlen in Hin.
  change (pg_page_size d) with (page_size d) in *.
  rewrite (proj2 (Z.ltb_ge _ _)) in Hov by done. split; [done|].
  unfold entry_len, rec_entry, rec_content. rewrite Hov. cbn. rewrite length_take, length_drop. lia.
Qed.

Lemma page_update d p es (i : nat) k v x :
  leaf_page d p es -> es !! i = Some x -> inline_entry (page_size d) x -> storable (page_size d) (mkEntry k v false) ->
  entry_pages (page_size d) (mkEntry k v false) <= db_space d ->
  let e := mkEntry k v (e_bucket x) in
  let ok := fill (page_size d) (<[i := e]> es) <=? page_size d - 18 in
  exists d', on_node p (Leaf_Update (Z.of_nat i) (Ext k) v) d = Ok ok d' /\
    leaf_moves (entry_pages (page_size d) (mkEntry k v false)) d p es d' (if ok then <[i := e]> es else es).
Proof.
  intros Hlp Hx Hin [Hk Hlen] Hsp e ok. destruct (leaf_page_node _ _ _ Hlp) as (Hinv & Hp & Hok & <-).
  set (nd := db_node d p) in *. pose proof (page_size_bounds _ (page_size_leaf _ _ Hok)) as [Hps _].
  pose proof (lookup_lt_Some _ _ _ Hx) as Hi. unfold entries in Hi. rewrite length_fmap in Hi.
  destruct (lookup_lt_is_Some_2 _ _ Hi) as [r Hr]. destruct (inline_entry_rec d nd i x r Hok Hx Hr Hin) as [Hov Hxl].
  cbn [e_key] in Hk. unfold entry_len in Hlen. cbn [e_key e_value] in Hlen.
  destruct (Leaf_Update_inline nd d i r k v Hok Hinv Hr Hov) as (nd' & d1 & Hop & Hok' & Hinv1 & Hext & Htx & Hres).
  { change (pg_page_size d) with (page_size d). pose proof (Z.div_le_upper_bound (page_size d - 34) 2 (page_size d)). lia. }
  { intros _. split; [lia|exact Hsp]. }
  change (pg_page_size d) with (page_size d) in *. rewrite <- Hxl in Hop, Hres.
  assert (Hcx : entry_cost (page_size d) x = entry_len x + 8).
  { unfold entry_cost, record_need. by rewrite (proj2 (Z.ltb_ge _ _)) by exact Hin. }
  assert (Eok : (record_need (page_size d) (Z.of_nat (length k + length v)) false <=?
      page_size d - (18 + 8 * count nd) - (space_used (header nd) - entry_len x)) = ok).
  { subst ok. rewrite (fill_insert _ _ _ x), (leaf_fill d nd Hok), Hcx by done.
    assert (entry_cost (page_size d) e = record_need (page_size d) (Z.of_nat (length k + length v)) false + 8) as ->.
    { unfold entry_cost, entry_len, record_need. cbn. destruct (_ <? _); lia. }
    apply Bool.eq_iff_eq_true. rewrite !Z.leb_le. lia. }
  rewrite Eok in Hop, Hres. clearbody ok. pose proof (fr_nodup _ _ Hlp) as Hn. rewrite forest_fp_leaf in Hn.
  apply NoDup_cons in Hn as [_ Hn]. pose proof (entry_pages_nonneg (page_size d) (mkEntry k v false)).
  destruct ok.
  2: { destruct Hres as [-> ->].
       destruct (leaf_step d p (entries d nd) _ false nd d (entry_pages (page_size d) (mkEntry k v false)) Hlp Hop Hok Hinv) as (d' & Hon & Hm);
         try done; [lia|by left|apply (trails_Leaf_Update unfreed unfreed_map unfreed_Alloc)|by exists d']. }
  destruct Hres as (r' & Hrecs & [Hhold Hfresh Hspace] & Hb). change (pg_page_size d) with (page_size d) in Hfresh.
  pose proof (lo_leaf _ _ Hok) as Hl. pose proof (lo_leaf _ _ Hok') as Hl'.
  rewrite (node_pages_recs _ _ _ true eq_refl Hl) in Hn.
  destruct (replace_pages (page_size d) true i r' (recs nd) (db_used d) Hi Hn) as [Hn' Hq'].
  { intros q Hq. apply (node_pages_used d nd q Hinv Hok). by rewrite (node_pages_recs _ _ _ true eq_refl Hl). }
  { intros q Hq. apply Hfresh. by apply rec_pages_page; [lia|]. }
  destruct (leaf_step d p (entries d nd) _ true nd' d1 (entry_pages (page_size d) (mkEntry k v false)) Hlp Hop Hok' Hinv1 Hext)
    as (d' & Hon & Hm); try done.
  - intros q. rewrite (node_pages_recs _ _ _ true Hrecs Hl'), (node_pages_recs _ (db_node d p) _ true eq_refl Hl). apply Hq'.
  - by rewrite (node_pages_recs _ _ _ true Hrecs Hl').
  - apply (trails_Leaf_Update unfreed unfreed_map unfreed_Alloc).
  - exists d'. split; [exact Hon|]. assert (E : entries d1 nd' = <[i := e]> (entries d nd)).
    { rewrite <- (leaf_entries_extends _ d d1 Hok Hext). unfold entries. rewrite Hrecs, list_fmap_insert. f_equal.
      transitivity (mkEntry k v (r_bucket r')); [exact (holds_entry d1 k v r' Hhold)|]. unfold e. f_equal. rewrite Hb.
      unfold entries in Hx. rewrite list_lookup_fmap, Hr in Hx. by injection Hx as <-. }
    by rewrite <- E.
Qed.

(** Reading the mark of an entry loads its leaf into the iterator. *)
Lemma read_bucket d p es (n : nat) x it l :
  db_inv d -> rep d (Leaf p es) -> es !! n = Some x -> it_stack it = (p, Z.of_nat n) :: l -> it_status it <> StInvalid ->
  iter_is_bucket (it, d) = Ok (e_bucket x) (set_cached (Some p) it, d).
Proof.
  intros Hinv Hr Hx Hst Hs. destruct (read_entry d p es Hinv Hr n x Hx) as (_ & _ & Hb). destruct Hr as (Hp & Hok & _).
  cbn [pg] in *. assert (Hleaf : GetLeafNode (it, d) = Ok (p, Z.of_nat n) (set_cached (Some p) it, d)).
  { unfold GetLeafNode. run_step (iter_ok it d).
    assert (Hend : iter_end it = false).
    { unfold iter_end, iter_eq, new_iterator. cbn. rewrite bool_decide_true by done. cbn. by rewrite Hst, bool_decide_false. }
    rewrite Hend, Hst. pose proof (node_is_leaf_ok d p Hinv Hp) as H. rewrite (lo_leaf _ _ Hok) in H.
    assert (Hcache : (if bool_decide (it_cached it = Some p) then ret tt
         else on_db (new_node p) ;;; on_iter (set_cached (Some p))) (it, d) = Ok tt (set_cached (Some p) it, d)).
    { case_bool_decide as Hc; [unfold ret; repeat f_equal; destruct it; cbn in *; by subst|].
      by run_step (on_db_ok _ it d _ _ (new_node_ok d p Hinv Hp)). }
    run_step Hcache. by run_step (on_db_ok _ (set_cached (Some p) it) d _ _ H). }
  unfold iter_is_bucket. run_step Hleaf. exact (on_db_ok _ _ d _ _ Hb).
Qed.

(** ** [Put] on a key the tree has *)
Section put_same.
Context (bt : BTree) (ps : Z) (d : DBImpl) (fs : list frame) (p : Z) (es : list entry) (n : nat) (e x : entry).
Context (Hal : at_own_leaf bt ps d fs p es) (Hx : es !! n = Some x) (Hb : e_bucket x = e_bucket e).
Context (Hin : inline_entry ps x) (Hst : storable ps e) (Hsp : entry_pages ps e <= db_space d).

Definition replaced : list entry := if fill ps (<[n := e]> es) <=? ps - 18 then <[n := e]> es else es.

Lemma Put_Leaf_same it :
  it_btree it = bt -> it_stack it = (p, Z.of_nat n) :: frame_stack fs -> it_status it = StEq ->
  exists it' d', Put_Leaf (e_key e) (e_value e) false (e_bucket e) (it, d) = Ok tt (it', d') /\
    leaf_moves (entry_pages ps e) d p es d' replaced.
Proof.
  intros Eit Est Estat. destruct (at_own_leaf_page _ _ _ _ _ _ Hal) as [Hlp Hpsok]. pose proof (al_ps _ _ _ _ _ _ Hal) as Hps.
  destruct (leaf_page_node _ _ _ Hlp) as (Hinv & Hp & _). pose proof Hlp as [_ [Hr _]%Forall_cons _].
  destruct (page_update d p es n (e_key e) (e_value e) x Hlp Hx) as (d1 & Hupd & M1); rewrite ?Hps; try done.
  rewrite Hps in Hupd, M1. rewrite Hb in Hupd, M1. change (entry_pages ps (mkEntry (e_key e) (e_value e) false)) with (entry_pages ps e) in M1.
  replace (mkEntry (e_key e) (e_value e) (e_bucket e)) with e in Hupd, M1 by (by destruct e). fold replaced in M1.
  pose proof (moves_forest _ _ _ _ _ _ M1) as Hlp1.
  assert (Hy : exists y, replaced !! n = Some y /\ mark_entry (e_bucket e) y = y).
  { unfold replaced. pose proof (lookup_lt_Some _ _ _ Hx). destruct (_ <=? _); [|exists x; split; [done|]].
    - exists e. split; [by apply list_lookup_insert_eq|by destruct e].
    - rewrite <- Hb. by destruct x. }
  destruct Hy as (y & Hy & Hmy). destruct (page_mark d1 p replaced n (e_bucket e) y Hlp1 Hy) as (d2 & Hmark & M2).
  rewrite Hmy, list_insert_id in M2 by done. set (it1 := set_cached (Some p) it).
  exists it1, d2. split.
  - unfold Put_Leaf. run_step (iter_ok it d). rewrite Est. run_step (on_db_ok _ it d _ _ (new_node_ok d p Hinv Hp)).
    rewrite Estat, bool_decide_true by done. cbn [negb andb].
    run_step (read_bucket d p es n x it _ Hinv Hr Hx Est ltac:(by rewrite Estat)). rewrite Hb, bind_assert by (by destruct (e_bucket e)).
    run_step (on_db_ok _ it1 d _ _ Hupd). exact (on_db_ok _ it1 d1 _ _ Hmark).
  - rewrite <- (Z.add_0_r (entry_pages ps e)). apply (moves_trans _ _ (eq p) (eq p) _ _ _ _ _ _ _ M1 M2). by intros q _ [].
Qed.
End put_same.

Section order.
Context (cmp : comparator) (key_ok : list byte -> Prop) {HO : KeyOrder cmp key_ok}.

Lemma items_ok_replace x e l1 l2 : e_key e = e_key x ->
  items_ok cmp key_ok (l1 ++ Ent x :: l2) -> items_ok cmp key_ok (l1 ++ Ent e :: l2).
Proof.
  intros E [Hs Hk]. apply Forall_app in Hk as [Hk1 [Hkx Hk2]%Forall_cons].
  apply StronglySorted_app in Hs as (H12 & H1 & H2). apply StronglySorted_cons in H2 as [Hx H2]. split.
  - apply StronglySorted_app. split; [|split; [done|]].
    + intros i j Hi. rewrite elem_of_cons. intros [->|Hj]; [|apply H12; [done|by apply list_elem_of_further]].
      pose proof (H12 i (Ent x) Hi (list_elem_of_here _ _)) as Hlt. unfold item_lt in *. cbn in *. by rewrite E.
    + apply StronglySorted_cons. split; [|done]. eapply Forall_impl; [exact Hx|]. intros j Hj. unfold item_lt in *.
      cbn [item_key] in *. by rewrite E.
  - apply Forall_app. split; [done|]. constructor; [by cbn in *; rewrite E|done].
Qed.

Context (bt : BTree) (d : DBImpl) (t : tree) (h : nat) (e x : entry).
Context (Htree : own_tree cmp key_ok d bt t h) (Hkey : key_ok (e_key e)).
Context (Hthin : forall k, key_ok k -> thin (page_size d) k) (Hroom : put_room d t h e).
Context (Hlen : entry_len e < 2 ^ 32).

Lemma landed_found fs p es n eq : landed cmp (e_key e) t fs p es n eq -> find_entry (e_key e) (contents t) = Some x ->
  eq = true /\ es !! n = Some x /\ e_key x = e_key e.
Proof.
  intros Hld Hf.
  destruct (landed_split cmp key_ok (e_key e) Hkey _ _ _ _ _ _ (ta_items _ _ _ _ _ _ Htree) Hld) as (Hc & Hlo & Hhi & Hne & Heq & Hno).
  rewrite Hc, find_entry_app, (find_entry_none _ (_ ++ take n es)) in Hf.
  2: { eapply Forall_impl; [exact Hlo|]. cbn. intros y Hlt E. rewrite E in Hlt. by apply (key_lt_irrefl cmp key_ok (e_key e) Hkey). }
  destruct eq.
  - split; [done|]. destruct (proj1 Heq eq_refl) as (y & Hy & Ey). rewrite (drop_S _ _ _ Hy) in Hf. cbn in Hf.
    rewrite bool_decide_true in Hf by done. by injection Hf as <-.
  - exfalso. rewrite find_entry_none in Hf; [done|]. apply Forall_app. split; [|done]. apply Forall_forall. intros y Hy E.
    apply (Hno eq_refl). rewrite <- E. apply list_elem_of_fmap_2.
    apply list_elem_of_lookup_1 in Hy as (j & Hj). rewrite lookup_drop in Hj. by eapply list_elem_of_lookup_2.
Qed.

Lemma put_same : find_entry (e_key e) (contents t) = Some x -> e_bucket x = e_bucket e -> inline_entry (page_size d) x ->
  exists fs p es n d', t = plug fs (Leaf p es) /\ es !! n = Some x /\ Forall balanced fs /\
    Put bt (e_key e) (e_value e) (e_bucket e) d = Ok tt d' /\
    put_result cmp key_ok bt d t d' h (put_cost (page_size d) t h e)
      (if fill (page_size d) (<[n := e]> es) <=? page_size d - 18 then put_entry cmp e (contents t) else contents t).
Proof.
  intros Hfind Hb Hin. destruct (search_and_take cmp key_ok bt d t h e Htree Hkey Hthin Hroom)
    as (fs & p & es & n & eq & d1 & fs1 & p1 & it0 & it1 & Hready & HLB & Hcopy & _).
  pose proof Hready as [Hld Hlf Ht Hal Hlf1 Hsp Ebt Est Estat].
  destruct (landed_found _ _ _ _ _ Hld Hfind) as (-> & Hx & Ekey). set (ps := page_size d) in *.
  pose proof (overflow_pages_nonneg ps es). pose proof (page_size_inv d (ta_inv _ _ _ _ _ _ Htree)) as Hpsok.
  assert (Hst : storable ps e) by (split; [by apply (thin_short _ _ Hpsok), Hthin|done]).
  destruct (Put_Leaf_same bt ps d1 fs1 p1 es n e x Hal Hx Hb Hin Hst ltac:(unfold put_space, split_space in Hsp; lia) it1 Ebt Est Estat)
    as (it' & d' & Hrun & M).
  destruct (leaf_rebuilt _ _ _ _ _ _ _ _ _ Hal M) as [_ Hdone].
  pose proof Hld as [Hpl Hbal _ _ _]. pose proof (ta_items _ _ _ _ _ _ Htree) as Hit.
  exists fs, p, es, n, d'. split; [done|]. split; [done|]. split; [done|]. split.
  - unfold Put. run_step HLB. unfold with_iterator, bind. rewrite Hcopy, Hrun. done.
  - destruct (same_frames_items _ _ (pt_same _ _ _ _ _ _ _ _ Ht)) as (El & Er & _ & _). rewrite El, Er, Hlf1 in Hdone.
    pose proof (put_done_weaken _ (entry_pages ps e) _ (fun q => q = p1 \/ q ∈ f_pg <$> fs1) _ _ _ _ _ _ _ (S h) Hdone ltac:(lia) ltac:(by left) ltac:(lia)) as Hdone'.
    clear Hdone. rename Hdone' into Hdone.
    destruct (landed_split cmp key_ok (e_key e) Hkey _ _ _ _ _ _ Hit Hld) as (Hc & Hlo & _).
    assert (Hsplit : contents t = (items_entries (left_of fs) ++ take n es) ++ x :: (drop (S n) es ++ items_entries (right_of fs))).
    { by rewrite Hc, (drop_S _ _ _ Hx). }
    rewrite <- Hpl, (trace_plug fs _ Hbal) in Hit. cbn [trace] in Hit. unfold replaced in Hdone.
    apply (done_result cmp key_ok bt d t h e fs p es n true d1 fs1 p1 it1 d' _ _ _ _ _ _ Htree Hready Hdone (fun q => path_own_nodes _ _ _ _ _ _ q Hal)).
    + destruct (_ <=? _); [|done]. rewrite <- (take_drop_middle _ _ _ Hx) in Hit.
      rewrite insert_take_drop by (by eapply lookup_lt_Some). rewrite fmap_app, fmap_cons, <- !app_assoc in *. cbn [app] in *.
      rewrite app_assoc in *. by apply (items_ok_replace x).
    + rewrite !items_entries_app, items_entries_Ent. destruct (_ <=? _).
      * rewrite Hsplit, (put_entry_same cmp key_ok e x) by done. rewrite insert_take_drop by (by eapply lookup_lt_Some).
        by rewrite <- !app_assoc.
      * rewrite Hsplit. rewrite <- (take_drop_middle _ _ _ Hx) at 1. by rewrite <- !app_assoc.
    + pose proof (path_space ps t h e fs p es (eq_sym Hpl) Hlf). unfold put_space, split_space in *. lia.
Qed.

(** C8: [Put] of a key the tree has replaces its value when the new record
    fits in the leaf freed of the old one; otherwise nothing is reported and
    the entry keeps its old value.  The tree stays well-formed, with the height
    it had, and readers keep theirs. *)
Theorem Put_same_key : find_entry (e_key e) (contents t) = Some x -> e_bucket x = e_bucket e -> inline_entry (page_size d) x ->
  exists fs p es n d', t = plug fs (Leaf p es) /\ es !! n = Some x /\
    Put bt (e_key e) (e_value e) (e_bucket e) d = Ok tt d' /\
    put_result cmp key_ok bt d t d' h (put_cost (page_size d) t h e)
      (if fill (page_size d) (<[n := e]> es) <=? page_size d - 18 then put_entry cmp e (contents t) else contents t).
Proof. intros Hf Hb Hi. destruct (put_same Hf Hb Hi) as (fs & p & es & n & d' & Et & Hx & _ & H). by exists fs, p, es, n, d'. Qed.
End order.

(** ** [Put] into a tree without pages *)
Section put_empty.
Context (cmp : comparator) (key_ok : list byte -> Prop) {HO : KeyOrder cmp key_ok}.
Context (bt : BTree) (d : DBImpl) (e : entry).
Context (Hcmp : opt_comparator (options d) = cmp) (Hinv : db_inv d) (Htx : bt_tx bt = UpdateTxRef).
Context (Hroot : tree_root bt d = Ok kPageInvalidId d) (Hkey : key_ok (e_key e)).
Context (Hst : storable (page_size d) e) (Hsp : 1 + entry_pages (page_size d) e <= db_space d).

Lemma LowerBound_empty : LowerBound bt (e_key e) d = Ok (new_iterator bt) d.
Proof.
  set (it := new_iterator bt).
  assert (Hdown : Down (e_key e) (it, d) = Ok false (it, d)).
  { unfold Down. run_step (iter_ok it d). cbn [it it_stack new_iterator it_btree].
    assert (Hr : (let* root := on_db (tree_root bt) in ret (if root =? kPageInvalidId then None else Some root)) (it, d) = Ok None (it, d)).
    { by run_step (on_db_ok _ it d _ _ Hroot). }
    by run_step Hr. }
  unfold LowerBound, with_iterator, Top. unfold bind at 1. by run_step Hdown.
Qed.

Lemma put_first (insert_only : bool) :
  exists g d', Put_Leaf (e_key e) (e_value e) insert_only (e_bucket e) (new_iterator bt, d) = Ok tt (new_iterator bt, d') /\
    steps (1 + entry_pages (page_size d) e) (fun _ => False) d d' /\ forest d' [Leaf g [e]] /\ tree_root bt d' = Ok g d' /\ ~ db_used d g /\
    frees d [] d' (forest_fp d' [Leaf g [e]]) /\ marked d' [g].
Proof.
  pose proof (entry_pages_nonneg (page_size d) e).
  destruct (Alloc_writes d 1 Hinv) as (g & d1 & HA & W1 & Hg); [lia|lia|].
  destruct (Hg g ltac:(lia)) as [Hng Hg1]. pose proof (wr_inv _ _ _ _ W1) as Hinv1.
  pose proof (tree_root_writes bt _ _ _ _ _ Htx W1 Hinv Hroot) as Hroot1.
  destruct (set_tree_root_ok bt g _ d1 Htx Hinv1 Hroot1) as (d2 & Hset & Hroot2 & S2 & _ & _ & Hfd2).
  pose proof (st_inv _ _ _ _ S2) as Hinv2. pose proof (kp_used _ _ _ S2 g Hg1) as Hg2.
  destruct (build_leaf d2 g Hinv2 Hg2) as (d3 & Hbuild & W3 & Hr3 & Hnp3 & _ & Hmk3).
  pose proof (wr_inv _ _ _ _ W3) as Hinv3. pose proof (tree_root_writes bt _ _ _ _ _ Htx W3 Hinv2 Hroot2) as Hroot3.
  pose proof (wr_ps _ _ _ _ W1) as Hps1. pose proof (kp_ps _ _ _ S2) as Hps2. pose proof (wr_ps _ _ _ _ W3) as Hps3.
  pose proof (wr_space _ _ _ _ W1). pose proof (st_space _ _ _ _ S2). pose proof (wr_space _ _ _ _ W3).
  assert (Hps : page_size d3 = page_size d) by congruence.
  assert (Hf3 : forest d3 [Leaf g []]).
  { split; [done|by apply Forall_singleton|]. rewrite forest_fp_leaf, Hnp3. apply NoDup_singleton. }
  pose proof (entry_cost_bounds (page_size d) e (page_size_inv d Hinv)) as Hcost.
  assert (He : e = mkEntry (e_key e) (e_value e) (e_bucket e)) by (by destruct e).
  destruct (insert_marked d3 g [] [] 0 (e_key e) (e_value e) (e_bucket e) Hf3) as (b0 & d4 & d5 & Hins & Hmark & _ & M);
    rewrite <- ?He, ?Hps; try done; [lia|cbn; lia|]. rewrite <- He, Hps in M.
  assert (Hfp3 : forest_fp d3 [Leaf g []] = [g]) by (by rewrite forest_fp_leaf, Hnp3).
  assert (Hfr3 : frees d [] d3 (forest_fp d3 [Leaf g []])).
  { rewrite Hfp3. apply frees_none.
    - rewrite (freed_on_node g Leaf_Build d2 tt d3), Hfd2; [by apply (freed_Alloc 1 d g)|apply (trails_Leaf_Build unfreed)|done].
    - intros q Hq. apply (kp_used _ _ _ W3), (kp_used _ _ _ S2), (kp_used _ _ _ W1), Hq.
    - apply NoDup_singleton.
    - intros q ->%list_elem_of_singleton. split; [by right|apply (kp_used _ _ _ W3), Hg2]. }
  exists g, d5. split_and!; [| | | |done|exact (frees_trans _ _ _ _ _ _ Hfr3 (mv_frees _ _ _ _ _ _ M))|].
  5: { apply (mv_marks _ _ _ _ _ _ M). constructor; [by rewrite Hmk3|constructor]. }
  - unfold Put_Leaf. set (it := new_iterator bt). run_step (iter_ok it d). cbn [it it_stack new_iterator it_btree].
    run_step (on_db_ok _ it d _ _ HA). run_step (on_db_ok _ it d1 _ _ Hset).
    run_step (on_db_ok _ it d2 _ _ (new_node_ok d2 g Hinv2 Hg2)). run_step (on_db_ok _ it d2 _ _ Hbuild).
    assert (Hm : must (on_node g (Leaf_Insert 0 (Ext (e_key e)) (e_value e))) d3 = Ok tt d4).
    { unfold must. by run_step Hins. }
    run_step (on_db_ok _ it d3 _ _ Hm). exact (on_db_ok _ it d4 _ _ Hmark).
  - replace (1 + entry_pages (page_size d) e) with (1 + (0 + (0 + entry_pages (page_size d) e))) by lia.
    apply (steps_trans _ _ (fun _ => False) (eq g) _ d d1); [by apply writes_steps| |by intros q Hq [[]|<-]; apply Hng].
    apply (steps_trans _ _ (fun _ => False) (eq g) _ d1 d2); [done| |tauto].
    apply (steps_trans _ _ (eq g) (eq g) _ d2 d3); [by apply writes_steps| |tauto].
    apply writes_steps, (mv_writes _ _ _ _ _ _ M).
  - exact (moves_forest _ _ _ _ _ _ M).
  - by apply (tree_root_writes bt _ _ _ _ _ Htx (mv_writes _ _ _ _ _ _ M) Hinv3 Hroot3).
Qed.

Lemma put_empty : exists g d', Put bt (e_key e) (e_value e) (e_bucket e) d = Ok tt d' /\
  steps (1 + entry_pages (page_size d) e) (fun _ => False) d d' /\ own_tree cmp key_ok d' bt (Leaf g [e]) 0 /\
  turned d [] [] d' [g] (footprint d' (Leaf g [e])).
Proof.
  destruct (put_first false) as (g & d' & Hrun & S & Hf & Hroot' & Hg & Hfr & Hmk). pose proof Hf as [Hinv' [Hr' _]%Forall_cons Hnd].
  exists g, d'. split; [|split; [exact S|split]].
  - unfold Put. run_step LowerBound_empty. unfold with_iterator, bind.
    change (CopyAllPagesByPath (new_iterator bt, d)) with (@Ok (BTreeIterator * DBImpl) unit tt (new_iterator bt, d)).
    cbv beta iota. by rewrite Hrun.
  - unfold forest_fp in Hnd. cbn [mbind list_bind] in Hnd. rewrite app_nil_r in Hnd. split; try done. split; try done.
    + by rewrite (tx_env_options _ _ (st_env _ _ _ _ S)).
    + lia.
    + split; [|by repeat constructor]. repeat constructor.
  - split; [|by unfold forest_fp in Hfr; cbn [mbind list_bind] in Hfr; rewrite app_nil_r in Hfr|done|apply (kp_used _ _ _ S)|by apply (aside_steps _ _ _ _ _ S)].
    apply (nodes_kept_steps _ _ _ _ _ _ S Hinv); [done|]. intros q ->%list_elem_of_singleton. by right.
Qed.

(** [Put] into a tree without pages makes a leaf with the entry its root,
    and every other tree stays as it is. *)
Theorem Put_empty_tree : exists d', Put bt (e_key e) (e_value e) (e_bucket e) d = Ok tt d' /\ tx_env d' = tx_env d /\
  (forall u, rep d u -> rep d' u) /\ exists t', own_tree cmp key_ok d' bt t' 0 /\ contents t' = [e].
Proof.
  destruct put_empty as (g & d' & Hrun & S & Hown & _). exists d'. split; [exact Hrun|]. split; [apply S|]. split.
  - intros u Hu. destruct (rep_frame _ d d' u S Hinv Hu); auto.
  - by exists (Leaf g [e]).
Qed.
End put_empty.
