(* ===== verification/Holes.v ===== *)
(** Holes: a tree below branches of the transaction.  Deletion works on the
    tree in a hole, which may have lost all its keys on the way, and moves the
    hole one branch up. *)
From S2P Require Import Prelude Format Comparator State Memory FreeMap Pager PagerI PagerInst.
From S2P Require Import Node NodeWf NodeSpec Search BranchSpec Tx Iterator BTree Trails NodeDb Freed Tree TreeSearch TreeWalk Copying.
From S2P Require Import TreeSteps Forest LeafPage LeafSplit BranchPage BranchSplit Rebuild PutUp PutTree PutTheorems.

Implicit Types (d : DBImpl) (p q : Z) (key : list byte) (ks : list (list byte)) (t u s l r : tree) (ts us : list tree) (f g : frame) (fs : list frame).

(** ** The branches above a tree of height [h] *)
Fixpoint fits (h : nat) fs : Prop :=
  match fs with
  | [] => True
  | f :: fs => balanced f /\ f_ks1 f ++ f_ks2 f <> [] /\ Forall (shape h) (siblings f) /\ fits (S h) fs
  end.

Lemma fits_balanced h fs : fits h fs -> Forall balanced fs.
Proof. revert h. induction fs as [|f fs IH]; intros h; [constructor|]. intros (H & _ & _ & Hf). constructor; [done|by eapply IH]. Qed.

Lemma shape_plug1 h f t : balanced f ->
  shape (S h) (plug1 f t) <-> f_ks1 f ++ f_ks2 f <> [] /\ Forall (shape h) (siblings f) /\ shape h t.
Proof.
  intros [H1 H2]. unfold plug1. rewrite shape_Branch. unfold siblings. rewrite !Forall_app, Forall_cons.
  rewrite !length_app. cbn. rewrite H1, H2. split; [tauto|]. intros (? & ? & ?). split_and!; [done|lia|tauto..].
Qed.

Lemma fits_shape h fs t : Forall balanced fs -> shape (length fs + h) (plug fs t) <-> fits h fs /\ shape h t.
Proof.
  intros Hb. revert h t. induction Hb as [|f fs Hf Hfs IH]; intros h t; [cbn; tauto|]. cbn [length plug fits].
  replace (S (length fs) + h)%nat with (length fs + S h)%nat by lia. rewrite IH, shape_plug1 by done. tauto.
Qed.

(** Keys a tenth of a page at most: what a merge of two branches takes down
    leaves it with room.  Entries that can be stored in another leaf. *)
Definition slim (ps : Z) key : Prop := 10 * key_cost key <= ps - 18.
Definition item_fits (ps : Z) (i : item) : Prop :=
  slim ps (item_key i) /\ match i with Ent e => storable ps e | Sep _ => True end.
Lemma slim_thin ps key : slim ps key -> thin ps key.
Proof. unfold slim, thin, key_cost. lia. Qed.

(** ** A tree in a hole *)
Record hole bt (ps : Z) d fs t (h : nat) : Prop := {
  ho_tx : bt_tx bt = UpdateTxRef;
  ho_ps : page_size d = ps;
  ho_forest : forest d [plug fs t];
  ho_fits : fits h fs;
  ho_around : Forall (item_fits ps) (left_of fs ++ right_of fs);
  ho_items : Forall (item_fits ps) (trace t);
  ho_root : tree_root bt d = Ok (root_pg fs (pg t)) d;
  ho_own : own d (pg t);
  ho_path : Forall (fun f => own d (f_pg f)) fs;
  ho_siblings : Forall (fun f => Forall (own_closed d) (siblings f)) fs;
  ho_closed : own_closed d t;
}.

Lemma hole_forest bt ps d fs t h : hole bt ps d fs t h -> forest d [t] /\ frames_ok d fs (pg t).
Proof. intros Hh. pose proof (proj1 (forest_plug d fs t []) (ho_forest _ _ _ _ _ _ Hh)) as (? & ? & _). done. Qed.

(** A step on the tree in the hole. *)
Lemma hole_step bt ps d fs t h k d' t' :
  hole bt ps d fs t h -> own_moves k d [t] d' [t'] -> pg t' = pg t -> own_closed d' t' -> Forall (item_fits ps) (trace t') ->
  hole bt ps d' fs t' h /\ own_moves k d [plug fs t] d' [plug fs t'].
Proof.
  intros Hh Hm Hpg Hcl Hit. destruct (hole_forest _ _ _ _ _ _ Hh) as [Hf Hfs]. destruct Hh as [Htx Hps Hpf Hfit Har _ Hroot Hown Hpath Hsib _].
  pose proof (own_moves_plug _ _ _ _ _ _ _ _ Hm Hpg Hpf) as M. pose proof (mv_own _ _ _ _ _ _ M) as Hkeep.
  pose proof (mv_writes _ _ _ _ _ _ M) as Hw. pose proof (fr_inv _ _ Hpf) as Hinv. split; [|done]. split; try done.
  - by rewrite (wr_ps _ _ _ _ Hw).
  - by eapply moves_forest.
  - rewrite Hpg. by apply (tree_root_writes bt _ _ _ _ _ Htx Hw Hinv).
  - rewrite Hpg. unfold own in *. rewrite Hkeep; [done|]. apply rep_used. destruct Hf as [_ [Hr _]%Forall_cons _]. exact Hr.
  - by apply (kept_own d d' fs _ Hkeep Hfs).
  - by apply (kept_all_siblings d d' fs _ Hkeep Hinv Hfs).
Qed.

(** ** The result of an operation: steps on the transaction's own nodes *)
Definition finished (k : Z) d ts bt d' t' (items : list item) (h : nat) : Prop :=
  put_done k (own_nodes d ts) ts d bt d' t' items h.

Lemma hole_finished bt ps d fs t h : hole bt ps d fs t h -> shape h t ->
  finished 0 d [plug fs t] bt d (plug fs t) (left_of fs ++ trace t ++ right_of fs) (length fs + h).
Proof.
  intros Hh Hs. destruct Hh as [Htx Hps Hpf Hfit Har _ Hroot Hown Hpath Hsib Hcl]. pose proof (fits_balanced _ _ Hfit) as Hbal.
  pose proof Hpf as [Hinv [Hr _]%Forall_cons Hnd]. split; try done.
  - apply writes_steps. apply (writes_weaken _ _ _ _ _ _ (writes_refl d Hinv)); [lia|done].
  - unfold forest_fp in Hnd. cbn in Hnd. by rewrite app_nil_r in Hnd.
  - by rewrite pg_plug.
  - by apply trace_plug.
  - exists (length fs + h)%nat. split; [|done]. by apply fits_shape.
  - apply own_closed_plug. split; [by apply frames_closed_own|done].
  - intros q Hq. left. by rewrite forest_nodes_one.
  - unfold forest_fp. cbn [mbind list_bind]. rewrite app_nil_r. apply frees_refl.
  - by rewrite forest_nodes_one.
Qed.

Lemma finished_after k1 k2 d ts d1 ts1 bt d' t' items h :
  own_moves k1 d ts d1 ts1 -> finished k2 d1 ts1 bt d' t' items h -> finished (k1 + k2) d ts bt d' t' items h.
Proof.
  intros M D. apply (put_done_trans _ _ (own_nodes d ts) (own_nodes d1 ts1) _ _ _ _ _ _ _ _ _ _ (writes_steps _ _ _ _ (mv_writes _ _ _ _ _ _ M)) D).
  - intros q Hq [?|[Ho Hn]]; [done|]. destruct (mv_nodes _ _ _ _ _ _ M q Hn) as [Hn1|?]; [|done]. split; [|done].
    unfold own in *. by rewrite <- (mv_own _ _ _ _ _ _ M q Hq).
  - apply (mv_nodes _ _ _ _ _ _ M).
  - apply (mv_frees _ _ _ _ _ _ M).
  - apply (mv_marks _ _ _ _ _ _ M).
Qed.

Lemma finished_weaken k k' d ts bt d' t' items h h' :
  finished k d ts bt d' t' items h -> k <= k' -> (h <= h')%nat -> finished k' d ts bt d' t' items h'.
Proof. intros D Hk Hh. by apply (put_done_weaken _ _ _ _ _ _ _ _ _ _ _ _ D). Qed.

(** ** One branch up *)
Lemma own_closed_kids d t : own d (pg t) -> own_closed d t <-> Forall (own_closed d) (kids t).
Proof.
  intros Ho. destruct t as [p es|p ks ts]; [split; [constructor|done]|]. rewrite own_closed_Branch. cbn [kids pg] in *.
  rewrite !Forall_forall. split; intros H t Ht; specialize (H t Ht); tauto.
Qed.

Lemma Forall_around {A} (P : A -> Prop) (a b x y : list A) :
  Forall P ((a ++ b) ++ (x ++ y)) <-> Forall P (a ++ y) /\ Forall P (b ++ x).
Proof. rewrite !Forall_app. tauto. Qed.

Lemma hole_up bt ps d f fs t h : hole bt ps d (f :: fs) t h -> hole bt ps d fs (plug1 f t) (S h).
Proof.
  intros [Htx Hps Hpf (Hb & Hne & Hsh & Hfit) Har Hit Hroot Hown [Hp Hpath]%Forall_cons [Hs Hsib]%Forall_cons Hcl].
  cbn [left_of right_of] in Har. apply Forall_around in Har as [Har Hf]. split; try done.
  - rewrite trace_plug1 by done. apply Forall_app in Hf as [? ?]. by repeat (apply Forall_app; split).
  - by rewrite root_pg_cons in Hroot.
  - apply own_closed_kids; [done|]. cbn [kids plug1]. unfold siblings in Hs. apply Forall_app in Hs as [? ?].
    apply Forall_app. split; [done|by constructor].
Qed.

(** ** A branch with two neighbours told apart: the hole's tree and the sibling
    [GetSibling] takes, on its left when the hole is at the tail. *)
Definition lhs (left : bool) s t : tree := if left then s else t.
Definition rhs (left : bool) s t : tree := if left then t else s.

Record beside f t (left : bool) g key s : Prop := {
  bd_tree : plug1 f t = wedge g key (lhs left s t) (rhs left s t);
  bd_balanced : balanced g;
  bd_page : f_pg g = f_pg f;
  bd_siblings : siblings f ≡ₚ s :: siblings g;
  bd_slot : length (f_ts1 f) = if left then S (length (f_ts1 g)) else length (f_ts1 g);
  bd_tail : left = bool_decide (length (f_ts1 f) = length (f_ks1 f ++ f_ks2 f));
}.

Lemma wedge_plug1 g key l r : balanced g ->
  wedge g key l r = plug1 (mkFrame (f_pg g) (f_ks1 g) (f_ts1 g) (key :: f_ks2 g) (r :: f_ts2 g)) l /\
  wedge g key l r = plug1 (mkFrame (f_pg g) (f_ks1 g ++ [key]) (f_ts1 g ++ [l]) (f_ks2 g) (f_ts2 g)) r.
Proof. intros _. unfold wedge, plug1. cbn. by rewrite <- !app_assoc. Qed.

Lemma some_beside f t : balanced f -> f_ks1 f ++ f_ks2 f <> [] -> exists left g key s, beside f t left g key s.
Proof.
  destruct f as [p ks1 ts1 ks2 ts2]. unfold balanced. cbn. intros [H1 H2] Hne. destruct ks2 as [|key ks2], ts2 as [|s ts2]; try done.
  - rewrite app_nil_r in Hne. destruct (exists_last Hne) as (ks & key & ->). destruct ts1 as [|s0 ts0]; [by destruct ks|].
    destruct (exists_last (l := s0 :: ts0)) as (ts & s & E); [done|]. rewrite E in *. clear s0 ts0 E.
    rewrite !length_app in H1. cbn in H1. exists true, (mkFrame p ks ts [] []), key, s. split; cbn.
    + unfold plug1, wedge, lhs, rhs. cbn. by rewrite app_nil_r, <- app_assoc.
    + split; cbn; [lia|done].
    + done.
    + unfold siblings. cbn. solve_Permutation.
    + rewrite length_app. cbn. lia.
    + symmetry. apply bool_decide_eq_true. rewrite app_nil_r, !length_app. cbn. lia.
  - exists false, (mkFrame p ks1 ts1 ks2 ts2), key, s. split; cbn; try done.
    + split; cbn in *; lia.
    + unfold siblings. cbn. solve_Permutation.
    + symmetry. apply bool_decide_eq_false. rewrite length_app. cbn. lia.
Qed.
