(* ===== verification/Siblings.v ===== *)
(** The sibling of a node that lost an entry ([GetSibling] and the copy of the
    sibling in [Delete] of [src/btree.cpp]), and the parent's key between the
    two replaced. *)
From S2P Require Import Prelude Format Comparator State Memory FreeMap Pager PagerI PagerInst.
From S2P Require Import Node NodeWf NodeSpec Search BranchSpec Tx Iterator BTree Trails NodeDb Freed Tree TreeSearch TreeWalk Copying.
From S2P Require Import TreeSteps Forest LeafPage LeafSplit BranchPage BranchSplit Rebuild PutUp PutTree PutTheorems Holes.

Implicit Types (d : DBImpl) (p q : Z) (key : list byte) (ks : list (list byte)) (t u s l r : tree) (ts us : list tree) (f g : frame) (fs : list frame).

(** ** Reading the parent *)
Lemma hole_branch bt ps d fs p ks ts h : hole bt ps d fs (Branch p ks ts) h ->
  db_inv d /\ branch_at d p ks (pg <$> ts) /\ forest d ts.
Proof.
  intros Hh. destruct (hole_forest _ _ _ _ _ _ Hh) as [Hf _]. destruct (forest_children _ _ _ _ _ Hf) as (Hb & Hk & _).
  rewrite app_nil_r in Hk. split; [apply Hf|done].
Qed.

Lemma wedge_child1 g l r : (pg <$> (f_ts1 g ++ l :: r :: f_ts2 g)) !! length (f_ts1 g) = Some (pg l).
Proof. apply children_at. Qed.
Lemma wedge_child2 g l r : (pg <$> (f_ts1 g ++ l :: r :: f_ts2 g)) !! S (length (f_ts1 g)) = Some (pg r).
Proof. rewrite fmap_app, !fmap_cons, lookup_app_r; rewrite length_fmap; [|lia]. by replace (S (length (f_ts1 g)) - length (f_ts1 g))%nat with 1%nat by lia. Qed.
Lemma wedge_key g key : balanced g -> (f_ks1 g ++ key :: f_ks2 g) !! length (f_ts1 g) = Some key.
Proof. intros [<- _]. by apply list_lookup_middle. Qed.

(** The slot of the parent's key between the two nodes. *)
Definition between g : Z := Z.of_nat (length (f_ts1 g)).

Lemma GetSibling_ok bt ps d f fs t h left g key s it :
  hole bt ps d fs (plug1 f t) h -> beside f t left g key s -> it_stack it = frame_stack (f :: fs) ->
  exists slot, GetSibling (it, d) = Ok (f_pg g, slot, pg s, left) (set_stack (frame_stack fs) it, d) /\
    (if left then slot - 1 else slot) = between g.
Proof.
  intros Hh [Et Hbal Hpg _ Hsl Htl] Est. pose proof Hh as Hh2. rewrite Et in Hh2. unfold plug1 in Hh. unfold wedge in Hh2.
  destruct (hole_branch _ _ _ _ _ _ _ _ Hh) as (Hinv & Hb & _). destruct (hole_branch _ _ _ _ _ _ _ _ Hh2) as (_ & Hb2 & _).
  exists (Z.of_nat (length (f_ts1 f))). unfold between. split; [|destruct left; lia].
  change (frame_stack (f :: fs)) with ((f_pg f, Z.of_nat (length (f_ts1 f))) :: frame_stack fs) in Est.
  unfold GetSibling. run_step (Front_ok d _ _ it Est). run_step (on_db_ok _ it d _ _ (new_node_ok d (f_pg f) Hinv (ba_used _ _ _ _ Hb))).
  run_step (on_db_ok _ it d _ _ (b_count d _ _ _ Hinv Hb)).
  assert (E : (Z.of_nat (length (f_ts1 f)) =? Z.of_nat (length (f_ks1 f ++ f_ks2 f))) = left).
  { rewrite Htl. case_bool_decide; [apply Z.eqb_eq|apply Z.eqb_neq]; lia. }
  rewrite E. rewrite Hpg in *. destruct left.
  - replace (Z.of_nat (length (f_ts1 f)) - 1) with (Z.of_nat (length (f_ts1 g))) by lia.
    rewrite bind_assoc. run_step (on_db_ok _ it d _ _ (b_left_child d _ _ _ Hinv Hb2 _ _ (wedge_child1 g _ _))).
    unfold bind at 1, ret at 1. by run_step (Pop_ok d _ _ it Est).
  - rewrite Hsl, bind_assoc.
    assert (Hlt : (length (f_ts1 g) < length (f_ks1 g ++ key :: f_ks2 g))%nat) by (destruct Hbal as [<- _]; rewrite length_app; cbn; lia).
    run_step (on_db_ok _ it d _ _ (b_right_child d _ _ _ Hinv Hb2 _ _ Hlt (wedge_child2 g _ _))).
    unfold bind at 1, ret at 1. by run_step (Pop_ok d _ _ it Est).
Qed.

(** ** A node on another page *)
Definition on_page (q : Z) t : tree := match t with Leaf _ es => Leaf q es | Branch _ ks ts => Branch q ks ts end.

Lemma on_page_pg q t : pg (on_page q t) = q.
Proof. by destruct t. Qed.
Lemma on_page_same t : on_page (pg t) t = t.
Proof. by destruct t. Qed.
Lemma on_page_kids q t : kids (on_page q t) = kids t.
Proof. by destruct t. Qed.
Lemma on_page_trace q t : trace (on_page q t) = trace t.
Proof. by destruct t. Qed.
Lemma on_page_shape h q t : shape h (on_page q t) <-> shape h t.
Proof. by destruct h, t. Qed.

Lemma copied_rep d d' s q :
  forest d [s] -> writes 1 (fun _ => False) d d' -> ~ db_used d q -> db_used d' q ->
  db_node d' q = set_last_modified_txid (db_txid d') (db_node d (pg s)) ->
  rep d' (on_page q s) /\ exists rest, footprint d s = pg s :: rest /\ footprint d' (on_page q s) = q :: rest.
Proof.
  intros Hf Hw Hq Hq' Hnd. pose proof Hf as [Hinv [Hr _]%Forall_cons _]. destruct s as [p es|p ks ts]; cbn [pg on_page] in *.
  - destruct (leaf_copied d d' p q es Hr Hinv Hq' Hw Hnd) as [H1 H2]. split; [done|]. by eexists.
  - pose proof Hr as Hr'. apply rep_branch_at in Hr as [[Hp Hn Hb Hi Hk Hc] Hts].
    destruct (node_frame d d' (db_node d p) _ Hw (bo_node _ _ Hn)) as (Hn1 & Hk1 & _); [by auto|].
    destruct (forest_children _ _ _ _ _ Hf) as (_ & Hkids & _). rewrite app_nil_r in Hkids.
    destruct (forest_frame _ _ _ _ _ Hw Hkids) as [Hts' Hfp]; [by auto|]. split.
    + apply rep_branch_at. split; [|done]. split; rewrite ?Hnd; try done.
      * destruct Hn as [_ E T]. split; [by apply retime_node|exact E|exact T].
      * change (keys d' (db_node d p) = ks). congruence.
    + exists (forest_fp d ts). split; [done|]. rewrite <- Hfp. done.
Qed.

Lemma Node_Copy_moves bt d s : bt_tx bt = UpdateTxRef -> forest d [s] -> 1 <= db_space d ->
  exists q d', Node_Copy bt (pg s) d = Ok q d' /\ moves 1 (fun _ => False) d [s] d' [on_page q s] /\ own d' q.
Proof.
  intros Hbt Hf Hsp. pose proof Hf as [Hinv [Hr _]%Forall_cons Hnd]. unfold forest_fp in Hnd. cbn in Hnd. rewrite app_nil_r in Hnd.
  assert (Hwf : node_wf (page_size d) (db_node d (pg s))).
  { destruct s as [p es|p ks ts]; [destruct Hr as (_ & Hok & _); apply (no_wf _ _ (lo_node _ _ Hok))|].
    apply rep_branch_at in Hr as [Hb _]. apply (no_wf _ _ (bo_node _ _ (ba_ok _ _ _ _ Hb))). }
  destruct (Node_Copy_ok d bt (pg s) Hinv Hbt (rep_used d s Hr) Hwf Hsp) as (q & d' & HC & Hq & Hq' & Hnode & Hw & Hfr).
  destruct (copied_rep d d' s q Hf Hw Hq Hq' Hnode) as (Hr' & rest & Efp & Efp').
  exists q, d'. split; [done|]. split; [|by apply needs_copy_fresh; rewrite Hnode]. split; [done|by apply Forall_singleton|..].
  - unfold forest_fp. cbn. rewrite !app_nil_r, Efp, Efp'. intros x [->|Hx]%elem_of_cons; [by right|left; by apply list_elem_of_further].
  - unfold forest_fp. cbn. rewrite app_nil_r, Efp'. rewrite Efp in Hnd. apply NoDup_cons in Hnd as [_ Hnd]. constructor; [|done].
    intros Hx. apply Hq. apply (footprint_used d s); [done..|]. rewrite Efp. by apply list_elem_of_further.
  - intros x Hx. apply (needs_copy_writes _ _ _ _ _ Hw); [done|auto].
  - intros x. rewrite !forest_nodes_one. destruct s; cbn [on_page tree_nodes].
    + intros ->%list_elem_of_singleton. by right.
    + intros [->|Hx]%elem_of_cons; [by right|left; by apply list_elem_of_further].
  - unfold forest_fp. cbn [mbind list_bind]. rewrite !app_nil_r, Efp, Efp'. by apply (frees_frame _ [_] _ [_]).
  - rewrite !forest_nodes_one. assert (Hkids : forall N, (forall x, x ∈ N -> x ∈ tree_nodes s) -> marked d N -> marked d' (q :: N)).
    { intros N HN Hm. apply marked_cons. split; [unfold mark; by rewrite Hnode|]. apply (marked_writes _ _ _ _ _ Hw); [|done].
      intros x Hx. split; [|tauto]. apply (footprint_used d s); [done..|]. by apply tree_nodes_footprint, HN. }
    destruct s; cbn [on_page tree_nodes pg] in *.
    + intros _. apply Hkids; [by intros x ?%elem_of_nil|constructor].
    + intros [_ Hm]%marked_cons. apply Hkids; [|done]. intros x Hx. by apply list_elem_of_further.
Qed.

(** ** The sibling given to the transaction *)
Lemma forest_one_sub d f s : forest d [plug1 f s] -> forest d [s] /\ branch_at d (f_pg f) (f_ks1 f ++ f_ks2 f) (pg <$> (f_ts1 f ++ s :: f_ts2 f)).
Proof.
  intros Hf. destruct (proj1 (forest_plug d [f] s []) Hf) as (Hs & _). split; [done|].
  by destruct (forest_children _ _ _ _ _ Hf) as (Hb & _).
Qed.

Lemma child_copied bt d f s :
  bt_tx bt = UpdateTxRef -> forest d [plug1 f s] -> own d (f_pg f) -> 1 <= db_space d ->
  exists q d1 d2, Node_Copy bt (pg s) d = Ok q d1 /\
    on_node (f_pg f) (SetLeftChild (Z.of_nat (length (f_ts1 f))) q) d1 = Ok tt d2 /\
    own d2 q /\ own_moves 1 d [plug1 f s] d2 [plug1 f (on_page q s)].
Proof.
  intros Hbt Hf Ho Hsp. destruct (forest_one_sub _ _ _ Hf) as [Hs Hb].
  destruct (Node_Copy_moves bt d s Hbt Hs Hsp) as (q & d1 & HC & M & Hoq).
  assert (HW : forall x : Z, False -> x ∈ forest_fp d [s]) by done.
  destruct (branch_stays _ _ _ _ _ _ [s] _ _ _ Hf M HW) as (Hb1 & _ & _). cbn [app] in Hb1.
  pose proof (wr_inv _ _ _ _ (mv_writes _ _ _ _ _ _ M)) as Hinv1. pose proof (branch_at_lengths _ _ _ _ Hb1) as Hl.
  rewrite length_fmap, length_app in Hl. cbn in Hl.
  assert (Hq : child_range q /\ db_used d1 q).
  { pose proof (mv_rep _ _ _ _ _ _ M) as [Hr1 _]%Forall_cons. pose proof (tree_child_range _ _ Hinv1 Hr1) as Hc.
    pose proof (rep_used _ _ Hr1) as Hu. by rewrite on_page_pg in Hc, Hu. }
  destruct (b_set_child d1 _ _ _ (length (f_ts1 f)) q Hinv1 Hb1) as (d2 & Hset & Hst); [rewrite length_app in *; lia|apply Hq|].
  exists q, d1, d2. split; [done|]. split; [done|]. split.
  - unfold own in *. rewrite (bs_own _ _ _ _ _ Hst); [done|apply Hq].
  - apply (moves_own _ (fun x => False \/ f_pg f = x)).
    + unfold plug1. apply (moves_rebuild _ _ _ d _ _ _ [s] _ d1 [on_page q s] d2 _ Hf M HW); [|done].
      rewrite fmap_app, fmap_cons, insert_app_r_alt in Hst by (rewrite length_fmap; lia).
      rewrite length_fmap, Nat.sub_diag in Hst. cbn [insert list_insert] in Hst.
      rewrite fmap_app. cbn [app]. rewrite fmap_cons, on_page_pg. exact Hst.
    + intros x _ [[]|<-]. split; [done|]. rewrite forest_nodes_one. apply (tree_nodes_pg (plug1 f s)).
Qed.

Lemma own_sibling_ok bt ps d fs t (left : bool) g key s h :
  let there s := wedge g key (lhs left s t) (rhs left s t) in
  hole bt ps d fs (there s) h -> balanced g -> 1 <= db_space d ->
  exists q d', own_sibling bt (f_pg g) (between g) (pg s) left d = Ok q d' /\ own d' q /\ own_moves 1 d [there s] d' [there (on_page q s)].
Proof.
  intros there Hh Hbal Hsp. destruct (hole_forest _ _ _ _ _ _ Hh) as [Hf _]. pose proof (ho_tx _ _ _ _ _ _ Hh) as Hbt.
  assert (Hplug : exists f, f_pg f = f_pg g /\ Z.of_nat (length (f_ts1 f)) = (if left then between g else between g + 1) /\
    forall s, there s = plug1 f s).
  { unfold there, lhs, rhs, between. destruct left.
    - exists (mkFrame (f_pg g) (f_ks1 g) (f_ts1 g) (key :: f_ks2 g) (t :: f_ts2 g)). split; [done|]. split; [done|].
      intros u. by apply wedge_plug1.
    - exists (mkFrame (f_pg g) (f_ks1 g ++ [key]) (f_ts1 g ++ [t]) (f_ks2 g) (f_ts2 g)). split; [done|].
      split; [cbn; rewrite length_app; cbn; lia|]. intros u. by apply wedge_plug1. }
  destruct Hplug as (f & Hpg & Hslot & Eth). rewrite !Eth in *. pose proof (fr_inv _ _ Hf) as Hinv.
  destruct (forest_one_sub _ _ _ Hf) as [[_ [Hrs _]%Forall_cons _] _]. pose proof (rep_used _ _ Hrs) as Hus.
  unfold own_sibling. run_step (new_node_ok d _ Hinv Hus). run_step (node_txid_ok d _ Hinv Hus). rewrite Hbt.
  run_step (CopyNeeded_ok d (pg s) Hinv). destruct (needs_copy d (pg s)) eqn:En.
  - destruct (child_copied bt d f s Hbt Hf (ho_own _ _ _ _ _ _ Hh) Hsp) as (q & d1 & d2 & HC & Hset & Hoq & M).
    exists q, d2. rewrite (Eth (on_page q s)). split; [|done]. run_step HC. rewrite <- Hpg. rewrite Hslot in Hset.
    destruct left; by run_step Hset.
  - exists (pg s), d. rewrite on_page_same, Eth. split; [done|]. split; [done|].
    apply (moves_weaken _ _ _ _ _ _ _ _ (moves_refl d _ Hf)); [lia|done].
Qed.

(** ** The parent's key and right child deleted *)
Lemma delete_wedge_keys g key : balanced g -> delete (length (f_ts1 g)) (f_ks1 g ++ key :: f_ks2 g) = f_ks1 g ++ f_ks2 g.
Proof. intros [<- _]. by rewrite delete_middle. Qed.
Lemma delete_wedge_children g l r :
  delete (length (f_ts1 g) + 1)%nat (pg <$> (f_ts1 g ++ l :: r :: f_ts2 g)) = pg <$> (f_ts1 g ++ l :: f_ts2 g).
Proof.
  rewrite !fmap_app, !fmap_cons, <- (length_fmap pg (f_ts1 g)), delete_app_add. done.
Qed.

Lemma parent_delete d g key l r : balanced g -> db_inv d ->
  branch_at d (f_pg g) (f_ks1 g ++ key :: f_ks2 g) (pg <$> (f_ts1 g ++ l :: r :: f_ts2 g)) ->
  exists d', on_node (f_pg g) (Branch_Delete (between g) true) d = Ok tt d' /\
    branch_step d (f_pg g) d' (f_ks1 g ++ f_ks2 g) (pg <$> (f_ts1 g ++ l :: f_ts2 g)).
Proof.
  intros Hbal Hinv Hb. destruct (b_delete d _ _ _ (length (f_ts1 g)) true Hinv Hb) as (d' & Hop & Hst).
  { destruct Hbal as [<- _]. rewrite length_app. cbn. lia. }
  rewrite (delete_wedge_keys g key Hbal), delete_wedge_children in Hst. by exists d'.
Qed.

(** The two nodes merged into the left one, and the parent told. *)
Lemma merged_up k (W : Z -> Prop) d g key l r d1 l' : balanced g ->
  forest d [wedge g key l r] -> moves k W d [l; r] d1 [l'] -> (forall q, W q -> q ∈ forest_fp d [l; r]) -> pg l' = pg l ->
  exists d2, on_node (f_pg g) (Branch_Delete (between g) true) d1 = Ok tt d2 /\
    moves k (fun q => W q \/ f_pg g = q) d [wedge g key l r] d2 [plug1 g l'].
Proof.
  intros Hbal Hf M HW Hpg. unfold wedge in Hf |- *. change (f_ts1 g ++ l :: r :: f_ts2 g) with (f_ts1 g ++ [l; r] ++ f_ts2 g) in *.
  destruct (branch_stays _ _ _ _ _ _ [l; r] _ _ _ Hf M HW) as (Hb1 & _ & _). cbn [app] in Hb1.
  pose proof (wr_inv _ _ _ _ (mv_writes _ _ _ _ _ _ M)) as Hinv1.
  destruct (parent_delete d1 g key l r Hbal Hinv1 Hb1) as (d2 & Hop & Hst). exists d2. split; [done|].
  apply (moves_rebuild _ W _ d _ _ _ [l; r] _ d1 [l'] d2 _ Hf M HW); [|done]. cbn [app].
  rewrite fmap_app, fmap_cons, Hpg, <- fmap_cons, <- fmap_app. exact Hst.
Qed.

(** ** The key between the two nodes replaced *)
Lemma trace_slim ps p ks ts : length ts = S (length ks) -> Forall (item_fits ps) (trace (Branch p ks ts)) -> Forall (slim ps) ks.
Proof.
  intros Hl Hit. destruct ts as [|t ts]; [done|]. injection Hl as Hl. cbn [trace fmap list_fmap join_seps] in Hit.
  apply Forall_app in Hit as [_ Hit]. rewrite Forall_forall in Hit. apply Forall_forall. intros k Hk.
  apply (Hit (Sep k)). apply Sep_after; [by rewrite length_fmap|done].
Qed.

Lemma hole_slim bt ps d fs t h : hole bt ps d fs t h -> Forall (fun f => Forall (slim ps) (f_ks1 f ++ f_ks2 f)) fs.
Proof.
  intros Hh. pose proof (ho_around _ _ _ _ _ _ Hh) as [Hl Hr]%Forall_app.
  apply frame_keys_items; [by eapply fits_balanced, (ho_fits _ _ _ _ _ _ Hh)|..]; (eapply Forall_impl; [eassumption|]); by intros i [].
Qed.

Lemma wedge_items ps g key key2 l r : balanced g -> slim ps key2 ->
  Forall (item_fits ps) (trace (wedge g key l r)) -> Forall (item_fits ps) (trace (wedge g key2 l r)).
Proof.
  intros Hbal Hk. unfold wedge. rewrite !trace_wedge by done. rewrite !Forall_app, !Forall_cons. intros (? & ? & [] & ?).
  split_and!; try done.
Qed.

Lemma rekeyed d g key key2 l r d1 :
  forest d [wedge g key l r] -> branch_step d (f_pg g) d1 (f_ks1 g ++ key2 :: f_ks2 g) (pg <$> (f_ts1 g ++ l :: r :: f_ts2 g)) ->
  moves 0 (eq (f_pg g)) d [wedge g key l r] d1 [wedge g key2 l r].
Proof.
  intros Hf Hst. pose proof Hst as [W1 Hb1 Hown1 Hfd1 _]. pose proof (step_marks _ _ _ _ _ Hst) as Hmk. apply (branches_moves 0 d _ _ _ [] d1 [wedge g key2 l r] [] Hf W1 Hown1).
  - apply Forall_singleton. eexists _, _, _. split; [done|]. split; [exact Hb1|by left].
  - apply NoDup_singleton.
  - cbn. by rewrite !app_nil_r.
  - done.
  - done.
Qed.

Lemma unwedged d g key l r d1 :
  forest d [wedge g key l r] -> branch_step d (f_pg g) d1 (f_ks1 g ++ f_ks2 g) (pg <$> (f_ts1 g ++ l :: f_ts2 g)) ->
  moves 0 (eq (f_pg g)) d [wedge g key l r] d1 [plug1 g l; r].
Proof.
  intros Hf Hst. pose proof Hst as [W1 Hb1 Hown1 Hfd1 _]. pose proof (step_marks _ _ _ _ _ Hst) as Hmk. apply (branches_moves 0 d _ _ _ [] d1 [plug1 g l] [r] Hf W1 Hown1).
  - apply Forall_singleton. eexists _, _, _. split; [done|]. split; [exact Hb1|by left].
  - apply NoDup_singleton.
  - cbn. rewrite !app_nil_r. solve_Permutation.
  - done.
  - done.
Qed.

Lemma own_root_moves k d t us d' ts' : own d (pg t) -> moves k (eq (pg t)) d (t :: us) d' ts' -> own_moves k d (t :: us) d' ts'.
Proof.
  intros Ho M. apply (moves_own _ _ _ _ _ _ M). intros q _ <-. split; [done|]. apply list_elem_of_bind.
  exists t. split; [apply tree_nodes_pg|apply list_elem_of_here].
Qed.

(** A climb as steps on the transaction's own nodes. *)
Lemma climbed_finished bt ps d fs t1 t2 key h k d' t' : climbing bt ps d fs t1 t2 key h ->
  put_done k (fun q => q ∈ f_pg <$> fs) [plug fs t1; t2] d bt d' t' (climbed fs t1 t2 key) (S (length fs + h)) ->
  finished k d [plug fs t1; t2] bt d' t' (climbed fs t1 t2 key) (S (length fs + h)).
Proof.
  intros Hcl D. apply (put_done_weaken _ _ _ _ _ _ _ _ _ _ _ _ D); [lia| |lia]. intros q (f & -> & Hf)%list_elem_of_fmap_1. split.
  - pose proof (cl_own _ _ _ _ _ _ _ _ Hcl) as Ho. rewrite Forall_forall in Ho. by apply Ho.
  - rewrite plug_nodes, elem_of_app. left. apply list_elem_of_bind. exists f. split; [apply list_elem_of_here|done].
Qed.

Section replace_key.
Context (bt : BTree) (ps : Z) (d : DBImpl) (fs : list frame) (g : frame) (key : list byte) (l r : tree) (h : nat) (key2 : list byte).
Context (Hh : hole bt ps d fs (wedge g key l r) (S h)) (Hbal : balanced g).
Context (Hl : shape h l) (Hr : shape h r) (Hs : Forall (shape h) (siblings g)) (Hkey2 : slim ps key2).

Let items : list item := left_of fs ++ trace (wedge g key2 l r) ++ right_of fs.

Lemma wedge_shape : shape (S h) (wedge g key2 l r).
Proof.
  unfold wedge. apply shape_Branch. destruct Hbal as [H1 H2]. split; [by destruct (f_ks1 g)|].
  rewrite !length_app. cbn. split; [lia|]. unfold siblings in Hs. apply Forall_app in Hs as [? ?].
  apply Forall_app. split; [done|by repeat constructor].
Qed.

Lemma wedge_closed_kids : own_closed d l /\ own_closed d r /\ Forall (own_closed d) (siblings g).
Proof.
  pose proof (ho_closed _ _ _ _ _ _ Hh) as Hc. apply own_closed_kids in Hc; [|apply (ho_own _ _ _ _ _ _ Hh)]. cbn [kids wedge] in Hc.
  unfold siblings. rewrite !Forall_app, !Forall_cons in *. tauto.
Qed.

Lemma kids_kept d1 : (forall q, db_used d q -> needs_copy d1 q = needs_copy d q) ->
  own_closed d1 l /\ own_closed d1 r /\ Forall (own_closed d1) (siblings g) /\ own d1 (f_pg g).
Proof.
  intros Hk. destruct (hole_forest _ _ _ _ _ _ Hh) as [Hf _]. destruct (forest_children _ _ _ _ _ Hf) as (Hb & [Hinv Hks _] & _).
  rewrite app_nil_r in Hks. destruct wedge_closed_kids as (Hcl & Hcr & Hcs). pose proof (ho_own _ _ _ _ _ _ Hh) as Ho.
  assert (Hall : Forall (own_closed d1) (f_ts1 g ++ l :: r :: f_ts2 g)).
  { unfold siblings in Hcs. apply Forall_app in Hcs as [H1 H2].
    assert (Hall : Forall (own_closed d) (f_ts1 g ++ l :: r :: f_ts2 g)) by (apply Forall_app; split; [done|by repeat constructor]).
    rewrite Forall_forall in Hall, Hks. apply Forall_forall. intros t Ht.
    apply (own_closed_kept d d1 t Hk Hinv); [by apply Hks|by apply Hall]. }
  unfold siblings. rewrite !Forall_app, !Forall_cons in *. unfold own in *. rewrite Hk; [tauto|apply Hb].
Qed.

(** The key fits. *)
Lemma replace_fits d1 :
  branch_step d (f_pg g) d1 (f_ks1 g ++ key2 :: f_ks2 g) (pg <$> (f_ts1 g ++ l :: r :: f_ts2 g)) ->
  finished 0 d [plug fs (wedge g key l r)] bt d1 (plug fs (wedge g key2 l r)) items (length fs + S h).
Proof.
  intros Hst. destruct (hole_forest _ _ _ _ _ _ Hh) as [Hf _].
  pose proof (own_root_moves _ _ (wedge g key l r) [] _ _ (ho_own _ _ _ _ _ _ Hh) (rekeyed _ _ _ _ _ _ _ Hf Hst)) as M.
  destruct (kids_kept d1 (mv_own _ _ _ _ _ _ M)) as (Hcl & Hcr & Hcs & Ho).
  destruct (hole_step _ _ _ _ _ _ _ _ _ Hh M eq_refl) as [Hh1 Mp].
  - by apply wedge_closed.
  - by apply (wedge_items ps g key), Hh.
  - apply (finished_after 0 0 _ _ _ _ _ _ _ _ _ Mp). apply (hole_finished _ _ _ _ _ _ Hh1). exact wedge_shape.
Qed.

(** It does not: deleted, it goes up as after a split. *)
Lemma replace_climbs d1 : Z.of_nat (S (S (length fs))) <= db_space d -> f_ks1 g ++ f_ks2 g <> [] ->
  branch_step d (f_pg g) d1 (f_ks1 g ++ f_ks2 g) (pg <$> (f_ts1 g ++ l :: f_ts2 g)) ->
  own_moves 0 d [plug fs (wedge g key l r)] d1 [plug (g :: fs) l; r] /\ climbing bt ps d1 (g :: fs) l r key2 h.
Proof.
  intros Hsp Hne Hst. destruct (hole_forest _ _ _ _ _ _ Hh) as [Hf Hfs].
  pose proof (own_root_moves _ _ (wedge g key l r) [] _ _ (ho_own _ _ _ _ _ _ Hh) (unwedged _ _ _ _ _ _ Hf Hst)) as M0.
  pose proof (own_moves_plug _ _ _ _ _ _ _ _ M0 eq_refl (ho_forest _ _ _ _ _ _ Hh)) as M. split; [exact M|].
  pose proof (mv_own _ _ _ _ _ _ M) as Hk. destruct (kids_kept d1 Hk) as (Hcl & Hcr & Hcs & Ho).
  pose proof (mv_writes _ _ _ _ _ _ M) as Hw. pose proof Hh as [Htx Hps Hpf Hfit _ Hit Hroot _ Hpath Hsib _].
  pose proof (fr_inv _ _ Hpf) as Hinv. split; try done.
  - by rewrite (wr_ps _ _ _ _ Hw).
  - by eapply moves_forest.
  - constructor; [done|by eapply fits_balanced].
  - constructor; [|by eapply Forall_impl; [by eapply hole_slim|]; intros f Hsl; eapply Forall_impl; [exact Hsl|apply slim_thin]].
    assert (Hsl : Forall (slim ps) (f_ks1 g ++ key :: f_ks2 g)).
    { apply (trace_slim ps (f_pg g) _ (f_ts1 g ++ l :: r :: f_ts2 g)); [|exact Hit].
      destruct Hbal as [H1 H2]. rewrite !length_app. cbn. lia. }
    apply Forall_app in Hsl as [H1 [_ H2]%Forall_cons]. apply Forall_app. split; (eapply Forall_impl; [eassumption|apply slim_thin]).
  - by apply slim_thin.
  - apply fits_shape; [constructor; [done|by eapply fits_balanced]|]. by split_and!.
  - rewrite root_pg_cons. by apply (tree_root_writes bt _ _ _ _ _ Htx Hw Hinv).
  - constructor; [done|]. by apply (kept_own d d1 fs _ Hk Hfs).
  - constructor; [done|]. by apply (kept_all_siblings d d1 fs _ Hk Hinv Hfs).
  - pose proof (wr_space _ _ _ _ Hw). cbn [length]. lia.
Qed.

Lemma climbed_items : climbed (g :: fs) l r key2 = items.
Proof. unfold climbed, items, wedge. rewrite trace_wedge by done. cbn [left_of right_of]. by rewrite <- !app_assoc. Qed.

Lemma replace_key_ok (m : M DBImpl bool) it :
  Z.of_nat (S (S (length fs))) <= db_space d -> (length fs < 32)%nat -> it_btree it = bt -> it_stack it = frame_stack fs ->
  (let ok := keys_fill (f_ks1 g ++ key2 :: f_ks2 g) <=? ps - 18 in exists d1, m d = Ok ok d1 /\
    branch_step d (f_pg g) d1 (if ok then f_ks1 g ++ key2 :: f_ks2 g else f_ks1 g ++ key :: f_ks2 g) (pg <$> (f_ts1 g ++ l :: r :: f_ts2 g))) ->
  exists it' d' t', (let* success := on_db m in replace_key success (f_pg g) (between g) (pg l) (pg r) key2) (it, d) = Ok tt (it', d') /\
    finished (Z.of_nat (S (S (length fs)))) d [plug fs (wedge g key l r)] bt d' t' items (S (length fs + S h)).
Proof.
  intros Hsp Hlen Eit Est (d1 & Hm & Hst). destruct (Z.leb_spec (keys_fill (f_ks1 g ++ key2 :: f_ks2 g)) (ps - 18)) as [Hok|Hfull].
  - exists it, d1, (plug fs (wedge g key2 l r)). split; [by run_step (on_db_ok _ it d _ _ Hm)|].
    apply (finished_weaken _ _ _ _ _ _ _ _ _ _ (replace_fits d1 Hst)); lia.
  - pose proof (wr_inv _ _ _ _ (bs_writes _ _ _ _ _ Hst)) as Hinv1.
    destruct (parent_delete d1 g key l r Hbal Hinv1 (bs_at _ _ _ _ _ Hst)) as (d2 & Hdel & Hst2).
    assert (Hne : f_ks1 g ++ f_ks2 g <> []).
    { intros [E1 E2]%app_eq_nil. rewrite E1, E2 in Hfull. cbn in Hfull. unfold slim, key_cost in Hkey2. unfold key_cost in Hfull. lia. }
    destruct (replace_climbs d2 Hsp Hne (branch_step_trans _ _ _ _ _ _ _ _ Hst Hst2)) as [M Hcl].
    rewrite <- climbed_items.
    set (it2 := set_stack (frame_stack (g :: fs)) it).
    destruct (Put_up_ok bt ps (g :: fs) (S (length (g :: fs))) d2 l r key2 it2 h Hcl) as (it' & d' & t' & Hrun & D); [lia|done|done|].
    exists it', d', t'. split.
    + run_step (on_db_ok _ it d _ _ Hm). unfold replace_key. run_step (on_db_ok _ it d1 _ _ Hdel).
      assert (Hpush : (length (it_stack it) < 32)%nat) by (rewrite Est; unfold frame_stack; by rewrite length_fmap).
      run_step (Push_ok (f_pg g, between g) it d2 Hpush). rewrite Est. unfold Put_Branch.
      run_step (iter_ok it2 d2). cbn [it2 it_stack set_stack]. unfold frame_stack at 1. rewrite length_fmap. exact Hrun.
    + apply (finished_weaken _ _ _ _ _ _ _ _ _ _ (finished_after _ _ _ _ _ _ _ _ _ _ _ M (climbed_finished _ _ _ _ _ _ _ _ _ _ _ Hcl D)));
        [cbn [length]; lia|]. cbn. lia.
Qed.
End replace_key.

(** ** A step on the two nodes *)
Lemma two_in_fp d l r q : either (pg l) (pg r) q -> q ∈ forest_fp d [l; r].
Proof. intros [->| ->]; apply list_elem_of_bind; [exists l|exists r]; (split; [apply footprint_pg|]); rewrite !elem_of_cons; tauto. Qed.

Lemma wedge_own_nodes bt ps d fs g key l r h q : hole bt ps d fs (wedge g key l r) h -> own d (pg l) -> own d (pg r) ->
  either (pg l) (pg r) q \/ f_pg g = q -> own_nodes d [wedge g key l r] q.
Proof.
  intros Hh Hol Hor Hq. unfold own_nodes. rewrite forest_nodes_one. cbn [wedge tree_nodes]. rewrite elem_of_cons, list_elem_of_bind.
  destruct Hq as [[->| ->]|<-].
  - split; [done|]. right. exists l. split; [apply tree_nodes_pg|]. rewrite elem_of_app, !elem_of_cons. tauto.
  - split; [done|]. right. exists r. split; [apply tree_nodes_pg|]. rewrite elem_of_app, !elem_of_cons. tauto.
  - split; [apply (ho_own _ _ _ _ _ _ Hh)|by left].
Qed.

Lemma two_kids_kept bt ps d fs g key l r h d1 us :
  hole bt ps d fs (wedge g key l r) (S h) -> (forall q, db_used d q -> needs_copy d1 q = needs_copy d q) ->
  own d (pg l) -> own d (pg r) -> (forall x, x ∈ us -> x ∈ kids l ++ kids r) ->
  Forall (own_closed d1) us /\ own d1 (pg l) /\ own d1 (pg r).
Proof.
  intros Hh Hk Hol Hor Hus. destruct (kids_kept _ _ _ _ _ _ _ _ _ Hh d1 Hk) as (Hcl & Hcr & _ & _).
  destruct (hole_branch _ _ _ _ _ _ _ _ Hh) as (_ & _ & [_ Hks _]). apply Forall_app in Hks as [_ [Hrl [Hrr _]%Forall_cons]%Forall_cons].
  assert (Hol1 : own d1 (pg l)) by (unfold own in *; rewrite Hk; [done|by apply rep_used]).
  assert (Hor1 : own d1 (pg r)) by (unfold own in *; rewrite Hk; [done|by apply rep_used]).
  split; [|done]. apply own_closed_kids in Hcl; [|done]. apply own_closed_kids in Hcr; [|done]. apply Forall_forall. intros x Hx.
  specialize (Hus x Hx). rewrite Forall_forall in Hcl. rewrite Forall_forall in Hcr. apply elem_of_app in Hus as [?|?]; auto.
Qed.

Lemma wedge_two bt ps d fs g key l r h k d1 l' r' :
  hole bt ps d fs (wedge g key l r) (S h) -> balanced g -> own d (pg l) -> own d (pg r) ->
  moves k (either (pg l) (pg r)) d [l; r] d1 [l'; r'] -> pg l' = pg l -> pg r' = pg r ->
  (forall x, x ∈ kids l' ++ kids r' -> x ∈ kids l ++ kids r) -> Forall (item_fits ps) (trace l' ++ trace r') ->
  hole bt ps d1 fs (wedge g key l' r') (S h) /\ own_moves k d [plug fs (wedge g key l r)] d1 [plug fs (wedge g key l' r')] /\
  own d1 (pg l) /\ own d1 (pg r).
Proof.
  intros Hh Hbal Hol Hor M Hpl Hpr Hkids Hit. destruct (hole_forest _ _ _ _ _ _ Hh) as [Hf _].
  pose proof Hf as Hf'. unfold wedge in Hf'. change (f_ts1 g ++ l :: r :: f_ts2 g) with (f_ts1 g ++ [l; r] ++ f_ts2 g) in Hf'.
  pose proof (moves_under _ _ _ _ _ _ _ _ _ _ Hf' M (two_in_fp d l r) ltac:(cbn; congruence)) as M1. cbn [app] in M1.
  pose proof (mv_own _ _ _ _ _ _ M1) as Hk. destruct (kids_kept _ _ _ _ _ _ _ _ _ Hh d1 Hk) as (_ & _ & Hcs & Ho).
  destruct (two_kids_kept _ _ _ _ _ _ _ _ _ _ _ Hh Hk Hol Hor Hkids) as ([Hkl Hkr]%Forall_app & Hol1 & Hor1). apply Forall_app in Hit as [Hil Hir].
  pose proof (moves_own _ _ _ _ _ _ M1 (fun q _ => wedge_own_nodes _ _ _ _ _ _ _ _ _ q Hh Hol Hor)) as M2.
  destruct (hole_step _ _ _ _ _ _ _ _ _ Hh M2 eq_refl) as [Hh1 Mp]; [| |by split_and!].
  - apply wedge_closed; try done; (apply own_closed_kids; [congruence|done]).
  - pose proof (ho_items _ _ _ _ _ _ Hh) as Hi. unfold wedge in *. rewrite trace_wedge in Hi |- * by done.
    rewrite !Forall_app, !Forall_cons in *. tauto.
Qed.

(** Entries or keys moved between the two nodes, then the parent's key. *)
Lemma rotated bt ps d fs g key l r h k d1 l' r' key2 (m : M DBImpl bool) it :
  hole bt ps d fs (wedge g key l r) (S h) -> balanced g -> Forall (shape h) (siblings g) -> own d (pg l) -> own d (pg r) ->
  moves k (either (pg l) (pg r)) d [l; r] d1 [l'; r'] -> pg l' = pg l -> pg r' = pg r ->
  (forall x, x ∈ kids l' ++ kids r' -> x ∈ kids l ++ kids r) -> Forall (item_fits ps) (trace l' ++ trace r') ->
  shape h l' -> shape h r' -> slim ps key2 ->
  m = on_node (f_pg g) (Branch_UpdateKey (between g) (Ext key2)) \/ m = on_node (f_pg g) (Branch_Update (between g) (Ext key2) (pg l) false) ->
  k + Z.of_nat (S (S (length fs))) <= db_space d -> (length fs < 32)%nat -> it_btree it = bt -> it_stack it = frame_stack fs ->
  exists it' d' t', (let* success := on_db m in replace_key success (f_pg g) (between g) (pg l) (pg r) key2) (it, d1) = Ok tt (it', d') /\
    finished (k + Z.of_nat (S (S (length fs)))) d [plug fs (wedge g key l r)] bt d' t'
      (left_of fs ++ trace (wedge g key2 l' r') ++ right_of fs) (S (length fs + S h)).
Proof.
  intros Hh Hbal Hsib Hol Hor M Hpl Hpr Hkids Hit Hsl Hsr Hk2 Hm Hsp Hlen Eit Est.
  destruct (wedge_two _ _ _ _ _ _ _ _ _ _ _ _ _ Hh Hbal Hol Hor M Hpl Hpr Hkids Hit) as (Hh1 & Mp & _ & _).
  pose proof (wr_space _ _ _ _ (mv_writes _ _ _ _ _ _ Mp)) as Hsp1. pose proof Hh1 as Hh1'. unfold wedge in Hh1'.
  destruct (hole_branch _ _ _ _ _ _ _ _ Hh1') as (Hinv1 & Hb1 & Hf1). pose proof (ho_ps _ _ _ _ _ _ Hh1) as Hps1.
  assert (Hcr : child_range (pg l')).
  { destruct Hf1 as [_ Hr1 _]. apply Forall_app in Hr1 as [_ [Hr1 _]%Forall_cons]. by apply (tree_child_range d1). }
  assert (Hsh : short (page_size d1) key2).
  { apply thin_short; [by apply page_size_inv|]. rewrite Hps1. by apply slim_thin. }
  destruct (b_update d1 _ _ _ _ key key2 _ Hinv1 Hb1 (wedge_key g key Hbal) (wedge_child1 g l' r') Hcr Hsh) as [HU1 HU2].
  rewrite Hps1 in HU1, HU2. rewrite <- Hpl, <- Hpr.
  destruct (replace_key_ok bt ps d1 fs g key l' r' h key2 Hh1 Hbal Hsl Hsr Hsib Hk2 m it) as (it' & d' & t' & Hrun & D); try done; [lia| |].
  - assert (Ek : <[length (f_ts1 g) := key2]> (f_ks1 g ++ key :: f_ks2 g) = f_ks1 g ++ key2 :: f_ks2 g).
    { destruct Hbal as [<- _]. by rewrite insert_app_r_alt, Nat.sub_diag. }
    rewrite Ek in HU1, HU2. rewrite Hpl in HU2. by destruct Hm as [-> | ->].
  - exists it', d', t'. split; [exact Hrun|]. exact (finished_after _ _ _ _ _ _ _ _ _ _ _ Mp D).
Qed.

(** The two nodes merged, and the parent's key and reference deleted. *)
Lemma hole_merged bt ps d fs g key l r h k d1 l' :
  hole bt ps d fs (wedge g key l r) (S h) -> balanced g -> own d (pg l) -> own d (pg r) ->
  moves k (either (pg l) (pg r)) d [l; r] d1 [l'] -> pg l' = pg l ->
  (forall x, x ∈ kids l' -> x ∈ kids l ++ kids r) -> Forall (item_fits ps) (trace l') ->
  exists d2, on_node (f_pg g) (Branch_Delete (between g) true) d1 = Ok tt d2 /\
    hole bt ps d2 fs (plug1 g l') (S h) /\ own_moves k d [plug fs (wedge g key l r)] d2 [plug fs (plug1 g l')].
Proof.
  intros Hh Hbal Hol Hor M Hpl Hkids Hit. destruct (hole_forest _ _ _ _ _ _ Hh) as [Hf _].
  destruct (merged_up _ _ _ _ _ _ _ _ _ Hbal Hf M (two_in_fp d l r) Hpl) as (d2 & Hdel & M1). exists d2. split; [done|].
  pose proof (mv_own _ _ _ _ _ _ M1) as Hk. destruct (kids_kept _ _ _ _ _ _ _ _ _ Hh d2 Hk) as (_ & _ & Hcs & Ho).
  destruct (two_kids_kept _ _ _ _ _ _ _ _ _ _ _ Hh Hk Hol Hor Hkids) as (Hkl & Hol1 & Hor1).
  pose proof (moves_own _ _ _ _ _ _ M1 (fun q _ => wedge_own_nodes _ _ _ _ _ _ _ _ _ q Hh Hol Hor)) as M2.
  apply (hole_step _ _ _ _ _ _ _ _ _ Hh M2 eq_refl).
  - apply own_closed_kids; [done|]. cbn [kids plug1]. unfold siblings in Hcs. rewrite Forall_app in *. rewrite Forall_cons.
    split; [tauto|]. split; [|tauto]. apply own_closed_kids; [congruence|done].
  - pose proof (ho_items _ _ _ _ _ _ Hh) as Hi. unfold wedge in Hi. rewrite trace_wedge in Hi by done. rewrite trace_plug1 by done.
    rewrite !Forall_app, !Forall_cons in *. tauto.
Qed.

Lemma wedge_forest bt ps d fs g key l r h : hole bt ps d fs (wedge g key l r) h -> forest d [l; r].
Proof.
  intros Hh. destruct (hole_branch _ _ _ _ _ _ _ _ Hh) as (_ & _ & Hf).
  apply (forest_perm _ _ ([l; r] ++ (f_ts1 g ++ f_ts2 g))) in Hf; [|solve_Permutation]. by apply forest_app in Hf as [? _].
Qed.

(** ** The sibling, in the hole above the two nodes *)
Lemma own_closed_down d t : own_closed d t -> Forall (own_closed d) (kids t).
Proof. destruct t as [p es|p ks ts]; [constructor|]. rewrite own_closed_Branch, !Forall_forall. intros H t Ht. by apply H. Qed.

Lemma lhs_rhs_Forall (P : tree -> Prop) left s t : P s -> P t -> P (lhs left s t) /\ P (rhs left s t).
Proof. by destruct left. Qed.

Lemma sibling_taken bt ps d fs t (left : bool) g key s h :
  let there s := wedge g key (lhs left s t) (rhs left s t) in
  hole bt ps d fs (there s) (S h) -> balanced g -> own d (pg t) -> 1 <= db_space d ->
  exists q d', own_sibling bt (f_pg g) (between g) (pg s) left d = Ok q d' /\
    hole bt ps d' fs (there (on_page q s)) (S h) /\ own_moves 1 d [plug fs (there s)] d' [plug fs (there (on_page q s))] /\
    own d' q /\ own d' (pg t).
Proof.
  intros there Hh Hbal Hot Hsp. destruct (own_sibling_ok _ _ _ _ t left g key s _ Hh Hbal Hsp) as (q & d' & Hrun & Hoq & M).
  fold (there s) (there (on_page q s)) in M. pose proof (mv_own _ _ _ _ _ _ M) as Hk.
  destruct (kids_kept _ _ _ _ _ _ _ _ _ Hh d' Hk) as (Hcl & Hcr & Hcs & Ho). pose proof (wedge_forest _ _ _ _ _ _ _ _ _ Hh) as [_ Hr _].
  exists q, d'. split; [done|].
  assert (Hcst : own_closed d' s /\ own_closed d' t /\ rep d t) by (destruct left; cbn in *; rewrite !Forall_cons in Hr; tauto).
  destruct Hcst as (Hcs' & Hct & Hrt).
  destruct (lhs_rhs_Forall (own_closed d') left (on_page q s) t) as [Hc1 Hc2]; [|done|].
  { apply own_closed_kids; [by rewrite on_page_pg|]. rewrite on_page_kids. by apply own_closed_down. }
  destruct (hole_step _ _ _ _ _ _ _ _ _ Hh M eq_refl) as [Hh1 Mp]; [by apply wedge_closed| |split_and!; try done].
  - pose proof (ho_items _ _ _ _ _ _ Hh) as Hi. unfold there, wedge in *. rewrite trace_wedge in Hi |- * by done.
    destruct left; cbn [lhs rhs] in *; by rewrite on_page_trace.
  - unfold own in *. rewrite Hk; [done|by apply rep_used].
Qed.

Lemma level_items f fs t : balanced f ->
  left_of (f :: fs) ++ trace t ++ right_of (f :: fs) = left_of fs ++ trace (plug1 f t) ++ right_of fs.
Proof. intros Hb. rewrite trace_plug1 by done. cbn [left_of right_of]. by rewrite <- !app_assoc. Qed.

(** One branch up: the hole's tree beside the sibling it takes, which is the
    transaction's now. *)
Lemma beside_ready bt ps d f fs t h it :
  hole bt ps d (f :: fs) t h -> 1 <= db_space d -> it_btree it = bt -> it_stack it = frame_stack (f :: fs) ->
  exists left g key s slot q d1,
    let there := wedge g key (lhs left (on_page q s) t) (rhs left (on_page q s) t) in
    GetSibling (it, d) = Ok (f_pg g, slot, pg s, left) (set_stack (frame_stack fs) it, d) /\
    (if left then slot - 1 else slot) = between g /\ own_sibling bt (f_pg g) (between g) (pg s) left d = Ok q d1 /\
    hole bt ps d1 fs there (S h) /\ own_moves 1 d [plug (f :: fs) t] d1 [plug fs there] /\
    own d1 q /\ own d1 (pg t) /\ shape h s /\ s ∈ siblings f /\ Forall (shape h) (siblings g) /\ balanced g /\
    trace there = trace (plug1 f t).
Proof.
  intros Hh Hsp Eit Est. pose proof (ho_fits _ _ _ _ _ _ Hh) as (Hbf & Hne & Hsib & Hfit).
  destruct (some_beside f t Hbf Hne) as (left & g & key & s & Hbe). pose proof Hbe as [Et Hbal Hpg Hperm _ _].
  pose proof (hole_up _ _ _ _ _ _ _ Hh) as Hup. destruct (GetSibling_ok _ _ _ _ _ _ _ _ _ _ _ _ Hup Hbe Est) as (slot & Hget & Hslot).
  assert (Hin : s ∈ siblings f) by (rewrite Hperm; apply list_elem_of_here).
  rewrite Et in Hup. rewrite Hperm in Hsib. apply Forall_cons in Hsib as [Hs Hsib].
  destruct (sibling_taken _ _ _ _ _ _ _ _ _ _ Hup Hbal (ho_own _ _ _ _ _ _ Hh) Hsp) as (q & d1 & Htake & Hh1 & M & Hoq & Hot).
  exists left, g, key, s, slot, q, d1. split_and!; try done.
  - cbn [plug]. rewrite Et. exact M.
  - rewrite Et. unfold wedge. rewrite !trace_wedge by done. destruct left; cbn [lhs rhs]; by rewrite on_page_trace.
Qed.
