(* ===== verification/DeleteUp.v ===== *)
(** The climb after a merge: [Delete(Iterator*, BranchNode&&, slot)] of
    [src/btree.cpp].  A branch that lost a key takes one from its sibling
    through the parent, or is merged with it, which takes a key out of the
    parent; at the top a root without keys gives way to its only child. *)
From S2P Require Import Prelude Format Comparator State Memory FreeMap Pager PagerI PagerInst.
From S2P Require Import Node NodeWf NodeSpec Search BranchSpec Tx Iterator BTree Trails NodeDb Freed Tree TreeSearch TreeWalk Copying.
From S2P Require Import TreeSteps Forest LeafPage LeafSplit BranchPage BranchSplit Rebuild PutUp PutTree PutTheorems Holes Siblings.

Implicit Types (d : DBImpl) (p q : Z) (key : list byte) (ks : list (list byte)) (t u s l r : tree) (ts us : list tree) (f g : frame) (fs : list frame).

Lemma must_ok (m : M DBImpl bool) d d' : m d = Ok true d' -> must m d = Ok tt d'.
Proof. intros H. unfold must. by run_step H. Qed.

(** ** Two branches side by side *)
Lemma forest_two d p lks lts q rks rts : forest d [Branch p lks lts; Branch q rks rts] ->
  two d p q lks (pg <$> lts) rks (pg <$> rts).
Proof.
  intros Hf. pose proof Hf as [Hinv [Hl [Hr _]%Forall_cons]%Forall_cons _]. apply rep_branch_at in Hl as [Hl _]. apply rep_branch_at in Hr as [Hr _].
  split; try done. destruct (forest_children _ _ _ _ _ Hf) as (_ & _ & Hp). intros <-. apply Hp. rewrite forest_fp_app, elem_of_app. right.
  rewrite forest_fp_Branch. apply list_elem_of_here.
Qed.

Lemma two_moves (n : Z) d p lks lts q rks rts d' bs :
  forest d [Branch p lks lts; Branch q rks rts] -> writes n (either p q) d d' ->
  (forall x, db_used d x -> needs_copy d' x = needs_copy d x) -> Forall (branch_in d') bs ->
  (forall x, x ∈ pg <$> bs -> x = p \/ x = q) -> NoDup (pg <$> bs) -> bs ≫= kids ≡ₚ lts ++ rts ->
  frees d [p; q] d' (pg <$> bs) -> (forall x, db_used d x -> mark d' x = mark d x) ->
  moves n (either p q) d [Branch p lks lts; Branch q rks rts] d' bs.
Proof.
  intros Hf Hw Hown Hbs Hin Hnd Hperm Hfr Hmk. pose proof (forest_two _ _ _ _ _ _ _ Hf) as [_ _ Hl Hr]. rewrite <- (app_nil_r bs).
  apply (rebuild_branches n (either p q) d [Branch p lks lts; Branch q rks rts] [] d' bs []); try done.
  - by repeat constructor.
  - intros x [->| ->]; cbn; rewrite !elem_of_cons; tauto.
  - intros x Hx. left. destruct (Hin x Hx) as [->| ->]; cbn; rewrite !elem_of_cons; tauto.
  - cbn. rewrite !app_nil_r. exact Hperm.
  - apply marked_rebuilt; [apply env_txid, (wr_env _ _ _ _ Hw)|]. intros x Hx. left.
    destruct (Hin x Hx) as [->| ->]; (split; [cbn; rewrite !elem_of_cons; tauto|]); apply Hmk; [apply Hl|apply Hr].
Qed.

Lemma quiet_frees W d d' (l : list Z) : quiet W d d' -> NoDup l -> (forall x, x ∈ l -> db_used d x) -> frees d l d' l.
Proof.
  intros [Hw _ Hfd _] Hnd Hu. assert (Hk : forall x, db_used d x -> db_used d' x) by (intros x; apply (kp_used _ _ _ Hw)).
  apply frees_none; try done. intros x Hx. split; [by left|]. by apply Hk, Hu.
Qed.

Lemma two_rebuilt d p lks lts q rks rts d' lks' lts' rks' rts' :
  forest d [Branch p lks lts; Branch q rks rts] -> quiet (either p q) d d' ->
  two d' p q lks' (pg <$> lts') rks' (pg <$> rts') -> lts' ++ rts' = lts ++ rts ->
  moves 0 (either p q) d [Branch p lks lts; Branch q rks rts] d' [Branch p lks' lts'; Branch q rks' rts'].
Proof.
  intros Hf [Hw Hown Hfd Hmk] [Hinv Hne Hl Hr] E. pose proof (forest_two _ _ _ _ _ _ _ Hf) as [_ _ Hl0 Hr0].
  assert (Hnd : NoDup [p; q]) by (apply NoDup_cons; split; [by rewrite list_elem_of_singleton|apply NoDup_singleton]).
  apply two_moves; try done.
  - by apply Forall_pair.
  - cbn. intros x. rewrite !elem_of_cons, elem_of_nil. tauto.
  - cbn. by rewrite app_nil_r, E.
  - cbn. apply (quiet_frees (either p q)); [by split|done|]. intros x. rewrite !elem_of_cons, elem_of_nil. intros [->|[->|[]]]; [apply Hl0|apply Hr0].
Qed.

Lemma forest_child_range d p ks ts us t : forest d (Branch p ks ts :: us) -> t ∈ ts -> child_range (pg t).
Proof.
  intros Hf Ht. destruct (forest_children _ _ _ _ _ Hf) as (_ & [Hinv Hr _] & _). apply (tree_child_range d t Hinv).
  rewrite Forall_forall in Hr. apply Hr. rewrite elem_of_app. by left.
Qed.

(** One key and one child to the right branch. *)
Lemma shift_right_ok d p lks up lts c q rks rts key :
  forest d [Branch p (lks ++ [up]) (lts ++ [c]); Branch q rks rts] -> short (page_size d) key ->
  keys_fill rks + key_cost key <= page_size d - 18 ->
  exists d1 d2, node_tail_child p d = Ok (pg c) d /\ on_node q (Branch_Insert 0 (Ext key) (pg c) false) d = Ok true d1 /\
    node_count p d1 = Ok (Z.of_nat (length lks) + 1) d1 /\ node_key p (Z.of_nat (length lks)) d1 = Ok up d1 /\
    on_node p (Branch_Pop true) d1 = Ok tt d2 /\
    moves 0 (either p q) d [Branch p (lks ++ [up]) (lts ++ [c]); Branch q rks rts] d2 [Branch p lks lts; Branch q (key :: rks) (c :: rts)].
Proof.
  intros Hf Hk Hroom. pose proof (forest_two _ _ _ _ _ _ _ Hf) as T. pose proof T as [Hinv Hne Hl Hr].
  assert (Hc : child_range (pg c)) by (apply (forest_child_range _ _ _ _ _ _ Hf); rewrite elem_of_app; right; apply list_elem_of_here).
  pose proof (branch_at_lengths _ _ _ _ Hl) as Hlen. rewrite length_fmap, !length_app in Hlen. cbn in Hlen.
  destruct (b_insert d q _ _ 0 key (pg c) false Hinv Hr) as (d1 & Hins & Hst); [lia|done|done|].
  rewrite (proj2 (Z.leb_le _ _) Hroom) in Hins, Hst. destruct (two_right _ _ _ _ _ _ _ _ _ _ T Hst) as [T1 Q1].
  pose proof T1 as [Hinv1 _ Hl1 _]. destruct (b_pop d1 p lks up _ true Hinv1 Hl1) as (d2 & Hpop & Hst2).
  destruct (two_left _ _ _ _ _ _ _ _ _ _ T1 Hst2) as [T2 Q2]. exists d1, d2. split_and!; try done.
  - apply (b_tail d p _ _ Hinv Hl (pg <$> lts)). by rewrite fmap_app.
  - rewrite (b_count d1 p _ _ Hinv1 Hl1), length_app. cbn. do 2 f_equal. lia.
  - apply (b_key d1 p _ _ Hinv1 Hl1). by apply list_lookup_middle.
  - apply two_rebuilt; [done|by apply (quiet_trans _ _ d1)| |by rewrite <- app_assoc].
    replace (delete (length lks + 1)%nat (pg <$> (lts ++ [c]))) with (pg <$> lts) in T2; [exact T2|].
    replace (length lks + 1)%nat with (length (pg <$> lts) + 0)%nat by (rewrite length_fmap; lia).
    by rewrite fmap_app, delete_app_add, app_nil_r.
Qed.

(** One key and one child to the left branch. *)
Lemma shift_left_ok d p lks lts q up rks c rts key :
  forest d [Branch p lks lts; Branch q (up :: rks) (c :: rts)] -> short (page_size d) key ->
  keys_fill lks + key_cost key <= page_size d - 18 ->
  exists d1 d2, node_left_child q 0 d = Ok (pg c) d /\ on_node p (Branch_Append (Ext key) (pg c) true) d = Ok true d1 /\
    node_key q 0 d1 = Ok up d1 /\ on_node q (Branch_Delete 0 false) d1 = Ok tt d2 /\
    moves 0 (either p q) d [Branch p lks lts; Branch q (up :: rks) (c :: rts)] d2 [Branch p (lks ++ [key]) (lts ++ [c]); Branch q rks rts].
Proof.
  intros Hf Hk Hroom. pose proof (forest_two _ _ _ _ _ _ _ Hf) as T. pose proof T as [Hinv Hne Hl Hr].
  assert (Hc : child_range (pg c)).
  { apply (forest_child_range d q (up :: rks) (c :: rts) [Branch p lks lts]); [by apply forest_swap|apply list_elem_of_here]. }
  pose proof (branch_at_lengths _ _ _ _ Hl) as Hlen. rewrite length_fmap in Hlen.
  destruct (b_append d p _ _ key (pg c) true Hinv Hl Hk Hc Hroom) as (d1 & Happ & Hst).
  destruct (two_left _ _ _ _ _ _ _ _ _ _ T Hst) as [T1 Q1]. pose proof T1 as [Hinv1 _ _ Hr1].
  destruct (b_delete d1 q (up :: rks) _ 0 false Hinv1 Hr1) as (d2 & Hdel & Hst2); [cbn; lia|].
  destruct (two_right _ _ _ _ _ _ _ _ _ _ T1 Hst2) as [T2 Q2]. exists d1, d2. split_and!; try done.
  - exact (b_left_child d q _ _ Hinv Hr 0 _ eq_refl).
  - exact (b_key d1 q _ _ Hinv1 Hr1 0 _ eq_refl).
  - apply two_rebuilt; [done|by apply (quiet_trans _ _ d1)| |by rewrite <- app_assoc].
    replace (insert_at (length lks + 1) (pg c) (pg <$> lts)) with (pg <$> (lts ++ [c])) in T2; [exact T2|].
    replace (length lks + 1)%nat with (length (pg <$> lts)) by (rewrite length_fmap; lia).
    by rewrite fmap_app, insert_at_end.
Qed.

(** ** A key through the parent *)
Lemma wedge_key_slim bt ps d fs g key l r h : hole bt ps d fs (wedge g key l r) h -> balanced g ->
  slim ps key /\ Forall (item_fits ps) (trace l) /\ Forall (item_fits ps) (trace r) /\ page_size_ok ps.
Proof.
  intros Hh Hbal. pose proof (ho_items _ _ _ _ _ _ Hh) as Hi. unfold wedge in Hi. rewrite trace_wedge in Hi by done.
  rewrite !Forall_app, !Forall_cons in Hi. destruct Hi as (_ & ? & ([? _] & ?) & _). split_and!; try done.
  rewrite <- (ho_ps _ _ _ _ _ _ Hh). apply page_size_inv, (ho_forest _ _ _ _ _ _ Hh).
Qed.

Lemma slim_short ps key : page_size_ok ps -> slim ps key -> short ps key.
Proof. intros. apply thin_short; [done|by apply slim_thin]. Qed.

(** The parent's reference to its right child stored again. *)
Lemma touch_parent bt ps d fs g key l r h :
  hole bt ps d fs (wedge g key l r) (S h) -> balanced g -> own d (pg l) -> own d (pg r) ->
  exists d1, on_node (f_pg g) (SetLeftChild (between g + 1) (pg r)) d = Ok tt d1 /\
    hole bt ps d1 fs (wedge g key l r) (S h) /\ own_moves 0 d [plug fs (wedge g key l r)] d1 [plug fs (wedge g key l r)] /\
    own d1 (pg l) /\ own d1 (pg r).
Proof.
  intros Hh Hbal Hol Hor. destruct (hole_branch _ _ _ _ _ _ _ _ Hh) as (Hinv & Hb & Hk). destruct (hole_forest _ _ _ _ _ _ Hh) as [Hf _].
  pose proof (wedge_forest _ _ _ _ _ _ _ _ _ Hh) as [_ [Hrl [Hrr _]%Forall_cons]%Forall_cons _].
  destruct (b_set_child d _ _ _ (S (length (f_ts1 g))) (pg r) Hinv Hb) as (d1 & Hset & Hst).
  { destruct Hbal as [<- _]. rewrite length_app. cbn. lia. }
  { by apply (tree_child_range d). }
  rewrite list_insert_id in Hst by apply wedge_child2. exists d1. unfold between.
  replace (Z.of_nat (length (f_ts1 g)) + 1) with (Z.of_nat (S (length (f_ts1 g)))) by lia. split; [done|].
  pose proof (own_root_moves _ _ (wedge g key l r) [] _ _ (ho_own _ _ _ _ _ _ Hh) (rekeyed _ _ _ _ _ _ _ Hf Hst)) as M0.
  destruct (kids_kept _ _ _ _ _ _ _ _ _ Hh d1 (mv_own _ _ _ _ _ _ M0)) as (Hcl & Hcr & Hcs & Ho).
  destruct (hole_step _ _ _ _ _ _ _ _ _ Hh M0 eq_refl) as [Hh1 Mp]; [by apply wedge_closed|apply Hh|].
  unfold own in *. rewrite !(mv_own _ _ _ _ _ _ M0) by (by apply rep_used). done.
Qed.

(** The sequence stays when the key and the children move together. *)
Lemma rotated_same bt ps d fs g key l r h d1 l' r' key2 it :
  hole bt ps d fs (wedge g key l r) (S h) -> balanced g -> Forall (shape h) (siblings g) -> own d (pg l) -> own d (pg r) ->
  moves 0 (either (pg l) (pg r)) d [l; r] d1 [l'; r'] -> pg l' = pg l -> pg r' = pg r ->
  (forall x, x ∈ kids l' ++ kids r' -> x ∈ kids l ++ kids r) -> trace l' ++ Sep key2 :: trace r' = trace l ++ Sep key :: trace r ->
  shape h l' -> shape h r' ->
  Z.of_nat (S (S (length fs))) <= db_space d -> (length fs < 32)%nat -> it_btree it = bt -> it_stack it = frame_stack fs ->
  exists it' d' t', (let* success := on_db (on_node (f_pg g) (Branch_UpdateKey (between g) (Ext key2))) in
      replace_key success (f_pg g) (between g) (pg l) (pg r) key2) (it, d1) = Ok tt (it', d') /\
    finished (Z.of_nat (S (S (length fs)))) d [plug fs (wedge g key l r)] bt d' t'
      (left_of fs ++ trace (wedge g key l r) ++ right_of fs) (S (length fs + S h)).
Proof.
  intros Hh Hbal Hsib Hol Hor M Hpl Hpr Hkids Htr Hsl Hsr Hsp Hlen Eit Est.
  destruct (wedge_key_slim _ _ _ _ _ _ _ _ _ Hh Hbal) as (Hkey & Hil & Hir & _).
  assert (Hall : Forall (item_fits ps) (trace l' ++ Sep key2 :: trace r')).
  { rewrite Htr. apply Forall_app. split; [done|]. by constructor. }
  apply Forall_app in Hall as [Hil' [[Hk2 _] Hir']%Forall_cons].
  assert (Etr : trace (wedge g key l r) = trace (wedge g key2 l' r')).
  { unfold wedge. rewrite !trace_wedge by done. rewrite !(app_assoc (trace _)). by rewrite Htr. }
  rewrite Etr. apply (rotated bt ps d fs g key l r h 0 d1 l' r' key2 _ it Hh Hbal Hsib Hol Hor M Hpl Hpr Hkids); try done.
  - by apply Forall_app.
  - by left.
Qed.

Section rotate.
Context (bt : BTree) (ps : Z) (fs : list frame) (g : frame) (key : list byte).
Context (p : Z) (ks : list (list byte)) (ts : list tree) (q : Z) (h : nat).
Context (Hbal : balanced g) (Hsib : Forall (shape (S h)) (siblings g)).
Context (Hlen : length ts = S (length ks)) (Hts : Forall (shape h) ts).
Context (Hpoor : 10 * keys_fill ks < 4 * (ps - 18)) (Hfs : (length fs < 32)%nat).

Let node : tree := Branch p ks ts.

(** From the sibling on the left. *)
Lemma rotate_from_left d lks up lts c it :
  let there := wedge g key (Branch q (lks ++ [up]) (lts ++ [c])) node in
  hole bt ps d fs there (S (S h)) -> own d p -> own d q -> shape (S h) (Branch q lks lts) -> shape h c ->
  Z.of_nat (S (S (length fs))) <= db_space d -> it_btree it = bt -> it_stack it = frame_stack fs ->
  exists it' d' t', rotate_branch p (f_pg g) (between g) q true (it, d) = Ok tt (it', d') /\
    finished (Z.of_nat (S (S (length fs)))) d [plug fs there] bt d' t' (left_of fs ++ trace there ++ right_of fs) (S (length fs + S (S h))).
Proof.
  intros there Hh Hop Hoq Hsl Hc Hsp Eit Est. destruct (wedge_key_slim _ _ _ _ _ _ _ _ _ Hh Hbal) as (Hkey & _ & _ & Hpsok).
  pose proof (ho_ps _ _ _ _ _ _ Hh) as Hps. pose proof (slim_short _ _ Hpsok Hkey) as Hshort. rewrite <- Hps in Hshort.
  destruct (shift_right_ok d q lks up lts c p ks ts key (wedge_forest _ _ _ _ _ _ _ _ _ Hh) Hshort) as (d1 & d2 & Htail & Hins & Hcnt & Hup & Hpop & M).
  { rewrite Hps. destruct (page_size_bounds _ Hpsok). unfold slim in Hkey. lia. }
  pose proof (hole_branch _ _ _ _ _ _ _ _ Hh) as (Hinv & Hb & _). pose proof Hsl as (_ & Hll & _)%shape_Branch.
  destruct (rotated_same bt ps d fs g key _ node (S h) d2 (Branch q lks lts) (Branch p (key :: ks) (c :: ts)) up it Hh Hbal Hsib Hoq Hop M eq_refl eq_refl)
    as (it' & d' & t' & Hrun & D); try done.
  - cbn. intros x. by rewrite <- app_assoc.
  - unfold node. rewrite !(trace_two _ _ 0); cbn [length]; rewrite ?length_app; cbn [length]; try lia. by rewrite <- !app_assoc.
  - apply shape_Branch. split; [done|]. split; [cbn; lia|by constructor].
  - exists it', d', t'. split; [|exact D]. unfold rotate_branch. rewrite bind_assoc.
    run_step (on_db_ok _ it d _ _ (b_key d _ _ _ Hinv Hb _ _ (wedge_key g key Hbal))). rewrite bind_assoc.
    run_step (on_db_ok _ it d _ _ Htail). rewrite bind_assoc. run_step (on_db_ok _ it d _ _ (must_ok _ _ _ Hins)). rewrite bind_assoc.
    run_step (on_db_ok _ it d1 _ _ Hcnt). replace (Z.of_nat (length lks) + 1 - 1) with (Z.of_nat (length lks)) by lia. rewrite bind_assoc.
    run_step (on_db_ok _ it d1 _ _ Hup). rewrite bind_assoc. run_step (on_db_ok _ it d1 _ _ Hpop). exact Hrun.
Qed.

(** From the sibling on the right. *)
Lemma rotate_from_right d up rks c rts it :
  let there := wedge g key node (Branch q (up :: rks) (c :: rts)) in
  hole bt ps d fs there (S (S h)) -> own d p -> own d q -> shape (S h) (Branch q rks rts) -> shape h c ->
  Z.of_nat (S (S (length fs))) <= db_space d -> it_btree it = bt -> it_stack it = frame_stack fs ->
  exists it' d' t', rotate_branch p (f_pg g) (between g) q false (it, d) = Ok tt (it', d') /\
    finished (Z.of_nat (S (S (length fs)))) d [plug fs there] bt d' t' (left_of fs ++ trace there ++ right_of fs) (S (length fs + S (S h))).
Proof.
  intros there Hh0 Hop0 Hoq0 Hsr Hc Hsp0 Eit Est. destruct (wedge_key_slim _ _ _ _ _ _ _ _ _ Hh0 Hbal) as (Hkey & _ & _ & Hpsok).
  destruct (touch_parent _ _ _ _ _ _ _ _ _ Hh0 Hbal Hop0 Hoq0) as (d0 & Hset & Hh & M0 & Hop & Hoq). cbn [pg node] in Hset, Hop, Hoq.
  pose proof (wr_space _ _ _ _ (mv_writes _ _ _ _ _ _ M0)) as Hsp.
  pose proof (ho_ps _ _ _ _ _ _ Hh) as Hps. pose proof (slim_short _ _ Hpsok Hkey) as Hshort. rewrite <- Hps in Hshort.
  destruct (shift_left_ok d0 p ks ts q up rks c rts key (wedge_forest _ _ _ _ _ _ _ _ _ Hh) Hshort) as (d1 & d2 & Hchild & Happ & Hup & Hdel & M).
  { rewrite Hps. destruct (page_size_bounds _ Hpsok). unfold slim in Hkey. lia. }
  pose proof (hole_branch _ _ _ _ _ _ _ _ Hh) as (Hinv & Hb & _). pose proof Hsr as (_ & Hlr & _)%shape_Branch.
  destruct (rotated_same bt ps d0 fs g key node _ (S h) d2 (Branch p (ks ++ [key]) (ts ++ [c])) (Branch q rks rts) up it Hh Hbal Hsib Hop Hoq M eq_refl eq_refl)
    as (it' & d' & t' & Hrun & D); try done.
  - cbn. intros x. by rewrite <- app_assoc.
  - unfold node. rewrite !(trace_two _ _ 0); cbn [length]; rewrite ?length_app; cbn [length]; try lia. by rewrite <- !app_assoc.
  - apply shape_Branch. split; [by destruct ks|]. split; [rewrite !length_app; cbn; lia|]. apply Forall_app. by split; [|constructor].
  - lia.
  - exists it', d', t'. split; [|exact (finished_after _ _ _ _ _ _ _ _ _ _ _ M0 D)]. unfold rotate_branch. rewrite bind_assoc.
    run_step (on_db_ok _ it d _ _ Hset). rewrite bind_assoc.
    run_step (on_db_ok _ it d0 _ _ (b_key d0 _ _ _ Hinv Hb _ _ (wedge_key g key Hbal))). rewrite bind_assoc.
    run_step (on_db_ok _ it d0 _ _ Hchild). rewrite bind_assoc. run_step (on_db_ok _ it d0 _ _ (must_ok _ _ _ Happ)). rewrite bind_assoc.
    run_step (on_db_ok _ it d1 _ _ Hup). rewrite bind_assoc. run_step (on_db_ok _ it d1 _ _ Hdel). exact Hrun.
Qed.
End rotate.

(** ** Merging two branches *)
Lemma merge_branch_loop_ok ps (p q : Z) rks rcs (z x : Z) : forall n d i lks lcs,
  page_size d = ps -> two d p q lks (lcs ++ [z]) rks (rcs ++ [x]) -> (i + n = length rks)%nat -> Forall child_range rcs ->
  keys_fill lks + keys_fill (drop i rks) <= ps - 18 ->
  exists d', merge_branch_loop p q n (Z.of_nat i) d = Ok tt d' /\ quiet (either p q) d d' /\
    two d' p q (lks ++ drop i rks) ((lcs ++ drop i rcs) ++ [z]) rks (rcs ++ [x]).
Proof.
  induction n as [|n IH]; intros d i lks lcs Hps T Hn Hrc Hfit; pose proof T as [Hinv Hne Hl Hr];
    pose proof (branch_at_lengths _ _ _ _ Hl) as Hll; pose proof (branch_at_lengths _ _ _ _ Hr) as Hlr; rewrite length_app in Hll, Hlr; cbn in Hll, Hlr.
  - exists d. split; [done|]. split; [|by rewrite !drop_ge, !app_nil_r by lia].
    destruct (quiet_refl d Hinv) as [Hw ? ? ?]. split; try done. apply (writes_weaken _ _ _ _ _ _ Hw); [lia|done].
  - destruct (lookup_lt_is_Some_2 rks i) as [k Hk]; [lia|]. destruct (lookup_lt_is_Some_2 rcs i) as [c Hc]; [lia|].
    rewrite (drop_S rks k i Hk), keys_fill_cons in Hfit. pose proof (keys_fill_nonneg (drop (S i) rks)).
    pose proof (branch_at_short _ _ _ _ Hr) as Hsh. rewrite Forall_forall in Hsh. pose proof (Hsh k (list_elem_of_lookup_2 _ _ _ Hk)) as Hshk.
    pose proof (proj1 (Forall_lookup _ _) Hrc i c Hc) as Hcr.
    destruct (b_append d p _ _ k c false Hinv Hl Hshk Hcr) as (d1 & Happ & Hst); [rewrite Hps; lia|].
    replace (insert_at (length lks + 0) c (lcs ++ [z])) with ((lcs ++ [c]) ++ [z]) in Hst.
    2: { replace (length lks + 0)%nat with (length lcs) by lia. by rewrite insert_at_app, <- app_assoc. }
    destruct (two_left _ _ _ _ _ _ _ _ _ _ T Hst) as [T1 Q1].
    destruct (IH d1 (S i) (lks ++ [k]) (lcs ++ [c])) as (d' & Hrun & Q2 & T2); try done.
    + by rewrite (wr_ps _ _ _ _ (qt_writes _ _ _ Q1)).
    + lia.
    + rewrite keys_fill_app, keys_fill_cons. cbn [keys_fill foldr]. lia.
    + exists d'. split; [|split; [by apply (quiet_trans _ _ d1)|]].
      * cbn [merge_branch_loop]. run_step (b_key d q _ _ Hinv Hr i k Hk).
        assert (Hc' : (rcs ++ [x]) !! i = Some c) by (by apply lookup_app_l_Some). run_step (b_left_child d q _ _ Hinv Hr i c Hc').
        run_step (must_ok _ _ _ Happ). replace (Z.of_nat i + 1) with (Z.of_nat (S i)) by lia. exact Hrun.
      * rewrite (drop_S rks k i Hk), (drop_S rcs c i Hc). by rewrite <- (app_assoc lks), <- (app_assoc lcs) in T2.
Qed.

Lemma Branch_Merge_ok d p lks lts q rks rts key :
  forest d [Branch p lks lts; Branch q rks rts] -> short (page_size d) key ->
  keys_fill lks + key_cost key + keys_fill rks <= page_size d - 18 ->
  exists d', Branch_Merge p q key d = Ok tt d' /\
    moves 0 (either p q) d [Branch p lks lts; Branch q rks rts] d' [Branch p (lks ++ key :: rks) (lts ++ rts)].
Proof.
  intros Hf Hk Hroom. pose proof (forest_two _ _ _ _ _ _ _ Hf) as T. pose proof T as [Hinv Hne Hl Hr].
  pose proof (branch_at_lengths _ _ _ _ Hl) as Hll. pose proof (branch_at_lengths _ _ _ _ Hr) as Hlr. rewrite length_fmap in Hll, Hlr.
  pose proof (keys_fill_nonneg rks). destruct (exists_last (l := rts)) as (rts0 & x & ->); [by destruct rts|].
  assert (Hrange : Forall child_range (pg <$> (rts0 ++ [x]))).
  { apply Forall_fmap, Forall_forall. intros t Ht. by apply (forest_child_range d q rks _ [Branch p lks lts] t (forest_swap _ _ _ _ Hf)). }
  rewrite fmap_app in T, Hrange. cbn [fmap list_fmap] in T. rewrite length_app in Hlr. cbn in Hlr.
  destruct (b_append d p _ _ key kPageInvalidId true Hinv Hl Hk) as (d1 & Happ & Hst); [done|lia|].
  replace (insert_at (length lks + 1) kPageInvalidId (pg <$> lts)) with ((pg <$> lts) ++ [kPageInvalidId]) in Hst.
  2: { replace (length lks + 1)%nat with (length (pg <$> lts)) by (rewrite length_fmap; lia). by rewrite insert_at_end. }
  destruct (two_left _ _ _ _ _ _ _ _ _ _ T Hst) as [T1 Q1]. pose proof T1 as [Hinv1 _ _ Hr1].
  apply Forall_app in Hrange as [Hrange [Hx _]%Forall_cons].
  destruct (merge_branch_loop_ok (page_size d) p q rks (pg <$> rts0) kPageInvalidId (pg x) (length rks) d1 0 (lks ++ [key]) (pg <$> lts))
    as (d2 & Hloop & Q2 & T2); try done.
  { exact (wr_ps _ _ _ _ (qt_writes _ _ _ Q1)). }
  { rewrite drop_0, keys_fill_app, keys_fill_cons. cbn [keys_fill foldr]. lia. }
  rewrite !drop_0 in T2. pose proof T2 as [Hinv2 _ Hl2 Hr2].
  destruct (b_set_tail d2 p _ _ _ (pg x) Hinv2 Hl2 Hx) as (d3 & Hset & Hst3). destruct (two_left _ _ _ _ _ _ _ _ _ _ T2 Hst3) as [T3 Q3].
  pose proof T3 as [Hinv3 _ Hl3 _]. destruct (free_page d3 q Hinv3) as (d4 & Hfree & W4 & Hfr4); [apply (tw_right _ _ _ _ _ _ _ T3)|].
  exists d4. split.
  - unfold Branch_Merge. run_step (must_ok _ _ _ Happ). run_step (b_count d1 q _ _ Hinv1 Hr1). rewrite Nat2Z.id.
    run_step Hloop. run_step (b_tail d2 q _ _ Hinv2 Hr2 _ _ eq_refl). run_step Hset. exact Hfree.
  - pose proof (quiet_trans _ _ _ _ Q1 (quiet_trans _ _ _ _ Q2 Q3)) as Q. pose proof Q as [Hw Hown Hfd Hmk].
    assert (Hu3 : forall y, db_used d y -> db_used d3 y) by (intros y; apply (kp_used _ _ _ Hw)).
    assert (Hu : forall y, y ∈ [q; p] -> db_used d y).
    { intros y. rewrite !elem_of_cons, elem_of_nil. intros [->|[->|[]]]; [apply Hr|apply Hl]. }
    apply two_moves; try done.
    + replace 0 with (0 + 0) by lia. apply (writes_trans _ _ (either p q) (fun _ => False) _ _ _ _ Hw W4). tauto.
    + intros y Hy. rewrite <- (Hown y Hy). apply (needs_copy_writes _ _ _ _ _ W4); [by apply Hu3|auto].
    + apply Forall_singleton. cbn [branch_in]. apply (branch_at_frame (fun _ => False) d3); [exact (writes_keeps _ _ _ _ W4)|by intros []|].
      rewrite !fmap_app. rewrite <- !app_assoc in Hl3. exact Hl3.
    + cbn. intros y ->%list_elem_of_singleton. by left.
    + apply NoDup_singleton.
    + cbn. by rewrite app_nil_r.
    + cbn. rewrite (Permutation_swap q p []). apply (frees_trans _ _ d3 [q; p]); [|by apply Hfr4]. apply (quiet_frees (either p q)); [done| |done].
      apply NoDup_cons. split; [by rewrite list_elem_of_singleton|apply NoDup_singleton].
    + intros y Hy. rewrite <- (Hmk y Hy). unfold mark. by rewrite (kp_node _ _ _ W4) by auto.
Qed.

(** ** A root without keys gives way to its child *)
Lemma collapse_root bt ps d p c h : hole bt ps d [] (Branch p [] [c]) (S h) -> shape h c ->
  exists d1 d2, set_tree_root bt (pg c) d = Ok tt d1 /\ Free p 1 d1 = Ok tt d2 /\
    finished 0 d [Branch p [] [c]] bt d2 c (trace (Branch p [] [c])) h.
Proof.
  intros Hh Hsh. destruct (hole_branch _ _ _ _ _ _ _ _ Hh) as (Hinv & Hb & Hfc). pose proof Hh as [Htx Hps _ _ _ _ Hroot Hown _ _ Hcl].
  destruct (set_tree_root_ok bt (pg c) _ d Htx Hinv Hroot) as (d1 & Hset & Hroot1 & S1 & Hn1 & _ & Hfd1).
  pose proof (st_inv _ _ _ _ S1) as Hinv1. destruct (free_page d1 p Hinv1) as (d2 & Hfree & W2 & Hfr2).
  { apply (kp_used _ _ _ S1), Hb. }
  assert (S2 : steps 0 (fun _ => False) d d2).
  { replace 0 with (0 + 0) by lia. apply (steps_trans _ _ _ _ _ _ _ _ S1 (writes_steps _ _ _ _ W2)). tauto. }
  pose proof Hfc as [_ [Hr _]%Forall_cons Hnd]. unfold forest_fp in Hnd. cbn in Hnd. rewrite app_nil_r in Hnd.
  destruct (rep_frame _ d d2 c S2 Hinv Hr) as [Hr2 Hfp2]; [by auto|]. exists d1, d2. split; [done|]. split; [done|]. split; try done.
  - by apply (steps_weaken _ _ _ _ _ _ S2).
  - by rewrite Hfp2.
  - by apply (tree_root_writes bt _ _ _ _ _ Htx W2 Hinv1).
  - cbn. by rewrite app_nil_r.
  - by exists h.
  - apply own_closed_kids in Hcl; [|done]. apply Forall_cons in Hcl as [Hcl _].
    apply (own_closed_steps _ _ d d2 c S2 Hinv Hr); [by auto|done].
  - intros q Hq. left. rewrite forest_nodes_one. cbn [tree_nodes]. apply list_elem_of_further, list_elem_of_bind. exists c.
    split; [done|apply list_elem_of_here].
  - rewrite forest_fp_Branch, app_nil_r, Hfp2. unfold forest_fp. cbn [mbind list_bind]. rewrite app_nil_r.
    apply (frees_trans _ _ d1 (p :: footprint d c)); [|apply Hfr2]. destruct (hole_forest _ _ _ _ _ _ Hh) as [[_ _ Hnp] _].
    rewrite forest_fp_Branch, app_nil_r in Hnp. unfold forest_fp in Hnp. cbn [mbind list_bind] in Hnp. rewrite app_nil_r in Hnp.
    apply frees_none; [done|apply (kp_used _ _ _ S1)|done|]. intros q Hq. split; [by left|]. apply (kp_used _ _ _ S1).
    apply elem_of_cons in Hq as [->|Hq]; [apply Hb|by apply (footprint_used d c)].
  - rewrite forest_nodes_Branch, app_nil_r, marked_cons, forest_nodes_one. intros [_ Hm].
    apply (marked_kept _ _ _ _ S2); [exact (tx_env_txid _ _ (st_env _ _ _ _ S2))| |done]. intros q Hq. split; [|tauto].
    apply (footprint_used d c); [done|done|by apply tree_nodes_footprint].
Qed.

(** ** The climb *)
Definition poor (ps : Z) ks : Prop := 10 * keys_fill ks < 4 * (ps - 18).

(** At the top of the tree. *)
Lemma delete_at_root bt ps d1 d p ks ts slot h fuel it :
  on_node p (Branch_Delete slot true) d1 = Ok tt d -> hole bt ps d [] (Branch p ks ts) (S h) -> length ts = S (length ks) ->
  Forall (shape h) ts -> it_btree it = bt -> it_stack it = [] ->
  exists d' t', Delete_up (S fuel) p slot (it, d1) = Ok tt (it, d') /\
    finished 0 d [Branch p ks ts] bt d' t' (trace (Branch p ks ts)) (S h).
Proof.
  intros Hdel Hh Hlen Hts Eit Est. destruct (hole_branch _ _ _ _ _ _ _ _ Hh) as (Hinv & Hb & _).
  cbn [Delete_up]. run_step (on_db_ok _ it d1 _ _ Hdel). run_step (iter_ok it d). rewrite Est. rewrite bool_decide_true by done.
  run_step (on_db_ok _ it d _ _ (b_count d p _ _ Hinv Hb)). destruct ks as [|k ks].
  - destruct ts as [|c [|? ?]]; try done. apply Forall_cons in Hts as [Hc _].
    destruct (collapse_root _ _ _ _ _ _ Hh Hc) as (d2 & d3 & Hset & Hfree & D). exists d3, c. split.
    + change (Z.of_nat (length (@nil (list byte))) =? 0) with true. cbv iota. rewrite Eit. run_step (on_db_ok _ it d _ _ (ho_root _ _ _ _ _ _ Hh)). cbn [root_pg pg].
      rewrite bind_assert by apply Z.eqb_refl. run_step (on_db_ok _ it d _ _ (b_tail d p _ _ Hinv Hb [] _ eq_refl)).
      run_step (on_db_ok _ it d _ _ Hset). exact (on_db_ok _ it d2 _ _ Hfree).
    + by apply (finished_weaken _ _ _ _ _ _ _ _ _ _ D); [|lia].
  - exists d, (Branch p (k :: ks) ts). split; [by rewrite (proj2 (Z.eqb_neq _ _)) by (cbn; lia)|].
    assert (Hs : shape (S h) (Branch p (k :: ks) ts)) by (by apply shape_Branch).
    pose proof (hole_finished _ _ _ _ _ _ Hh Hs) as D. cbn [left_of right_of app plug length] in D. by rewrite app_nil_r in D.
Qed.

(** ** The sibling: rich enough to give a key, or not *)
Lemma branch_rich d q sks cs : db_inv d -> branch_at d q sks cs ->
  sibling_rich q d = Ok ((page_size d - 18 <? 2 * keys_fill sks) && (2 <=? Z.of_nat (length sks))) d.
Proof. intros Hinv Hb. unfold sibling_rich. run_step (b_above_half d q _ _ Hinv Hb). by run_step (b_count d q _ _ Hinv Hb). Qed.

Lemma not_rich_fill ps ks : page_size_ok ps -> Forall (slim ps) ks ->
  (ps - 18 <? 2 * keys_fill ks) && (2 <=? Z.of_nat (length ks)) = false -> 2 * keys_fill ks <= ps - 18.
Proof.
  intros Hps Hsl [H|H]%andb_false_iff; [by apply Z.ltb_ge|]. apply Z.leb_gt in H. destruct (page_size_bounds _ Hps).
  destruct Hsl as [|k ks Hk Hks]; [cbn; lia|]. destruct ks as [|? ?]; cbn [length] in H; [|lia].
  rewrite keys_fill_cons. unfold slim in Hk. cbn [keys_fill foldr]. lia.
Qed.

(** Two branches merged, and the parent told. *)
Lemma merge_pair bt ps d fs g key (a b : Z) lks lts rks rts h :
  let there := wedge g key (Branch a lks lts) (Branch b rks rts) in
  hole bt ps d fs there (S (S h)) -> balanced g -> own d a -> own d b ->
  length lts = S (length lks) -> length rts = S (length rks) -> Forall (shape h) (lts ++ rts) ->
  keys_fill lks + key_cost key + keys_fill rks <= ps - 18 ->
  exists d1 d2, Branch_Merge a b key d = Ok tt d1 /\ on_node (f_pg g) (Branch_Delete (between g) true) d1 = Ok tt d2 /\
    let l' := Branch a (lks ++ key :: rks) (lts ++ rts) in
    shape (S h) l' /\ hole bt ps d2 fs (plug1 g l') (S (S h)) /\ own_moves 0 d [plug fs there] d2 [plug fs (plug1 g l')] /\
    trace (plug1 g l') = trace there.
Proof.
  intros there Hh Hbal Hoa Hob Hll Hlr Hsh Hfit. pose proof (ho_ps _ _ _ _ _ _ Hh) as Hps.
  destruct (wedge_key_slim _ _ _ _ _ _ _ _ _ Hh Hbal) as (Hkey & Hia & Hib & Hpsok).
  destruct (Branch_Merge_ok d a lks lts b rks rts key (wedge_forest _ _ _ _ _ _ _ _ _ Hh)) as (d1 & Hrun & M);
    [rewrite Hps; by apply slim_short|by rewrite Hps|].
  pose proof (trace_two a b a lks key rks lts rts Hll Hlr) as Htr.
  destruct (hole_merged _ _ _ _ _ _ _ _ _ _ _ _ Hh Hbal Hoa Hob M eq_refl) as (d2 & Hdel & Hh2 & Mp).
  - done.
  - rewrite <- Htr. apply Forall_app. split; [done|]. by constructor.
  - exists d1, d2. split; [done|]. split; [done|]. split; [|split; [done|split; [done|]]].
    + apply shape_Branch. split; [by destruct lks|]. split; [rewrite !length_app; cbn; lia|done].
    + rewrite trace_plug1 by done. unfold there, wedge. rewrite trace_wedge by done. rewrite <- Htr. by rewrite <- !app_assoc.
Qed.

Section pair.
Context (bt : BTree) (ps : Z) (d : DBImpl) (fs : list frame) (g : frame) (key : list byte).
Context (p : Z) (ks : list (list byte)) (ts : list tree) (q : Z) (sks : list (list byte)) (sts : list tree) (h : nat) (left : bool).
Context (Hbal : balanced g) (Hsib : Forall (shape (S h)) (siblings g)) (Hop : own d p) (Hoq : own d q).
Context (Hlen : length ts = S (length ks)) (Hts : Forall (shape h) ts) (Hs : shape (S h) (Branch q sks sts)).
Context (Hpoor : poor ps ks).

Let there : tree := wedge g key (lhs left (Branch q sks sts) (Branch p ks ts)) (rhs left (Branch q sks sts) (Branch p ks ts)).
Context (Hh : hole bt ps d fs there (S (S h))).

Lemma rotate_branch_ok it :
  (2 <= length sks)%nat -> Z.of_nat (S (S (length fs))) <= db_space d -> (length fs < 32)%nat ->
  it_btree it = bt -> it_stack it = frame_stack fs ->
  exists it' d' t', rotate_branch p (f_pg g) (between g) q left (it, d) = Ok tt (it', d') /\
    finished (Z.of_nat (S (S (length fs)))) d [plug fs there] bt d' t'
      (left_of fs ++ trace there ++ right_of fs) (S (length fs + S (S h))).
Proof.
  intros Hrich Hsp Hfs Eit Est. pose proof Hs as (_ & Hsl & Hsts)%shape_Branch. unfold there in *. clear there. destruct left; cbn [lhs rhs] in *.
  - destruct (exists_last (l := sks)) as (lks & up & ->); [by intros ->; cbn in Hrich; lia|].
    destruct (exists_last (l := sts)) as (lts & c & ->); [by intros ->|]. rewrite !length_app in *. cbn in *.
    apply Forall_app in Hsts as [Hlts [Hc _]%Forall_cons].
    apply (rotate_from_left bt ps fs g key p ks ts q h Hbal Hsib Hlen Hts Hpoor Hfs d lks up lts c it Hh Hop Hoq); try done.
    apply shape_Branch. split; [intros ->; cbn in Hrich; lia|]. split; [lia|done].
  - destruct sks as [|up rks]; [cbn in Hrich; lia|]. destruct sts as [|c rts]; [done|]. cbn in *. apply Forall_cons in Hsts as [Hc Hrts].
    apply (rotate_from_right bt ps fs g key p ks ts q h Hbal Hsib Hlen Hts Hpoor Hfs d up rks c rts it Hh Hop Hoq); try done.
    apply shape_Branch. split; [intros ->; cbn in Hrich; lia|]. split; [lia|done].
Qed.

Lemma merge_branch_ok : 2 * keys_fill sks <= ps - 18 ->
  exists d1 d2 l' ks' ts', (if left then Branch_Merge q p key else Branch_Merge p q key) d = Ok tt d1 /\
    on_node (f_pg g) (Branch_Delete (between g) true) d1 = Ok tt d2 /\ l' = Branch (if left then q else p) ks' ts' /\
    shape (S h) l' /\ hole bt ps d2 fs (plug1 g l') (S (S h)) /\ own_moves 0 d [plug fs there] d2 [plug fs (plug1 g l')] /\
    trace (plug1 g l') = trace there.
Proof.
  intros Hfill. destruct (wedge_key_slim _ _ _ _ _ _ _ _ _ Hh Hbal) as (Hkey & Hil & Hir & Hpsok).
  pose proof Hs as (_ & Hsl & Hsts)%shape_Branch.
  destruct (page_size_bounds _ Hpsok) as [Hr _].
  assert (Hroom : keys_fill ks + key_cost key + keys_fill sks <= ps - 18) by (unfold poor, slim in *; lia).
  unfold there in *. destruct left; cbn [lhs rhs] in *.
  - destruct (merge_pair bt ps d fs g key q p sks sts ks ts h Hh) as (d1 & d2 & H1 & H2 & H3); try done; [by apply Forall_app|lia|].
    exists d1, d2. eexists _, _, _. split; [done|]. split; [done|]. split; [reflexivity|exact H3].
  - destruct (merge_pair bt ps d fs g key p q ks ts sks sts h Hh) as (d1 & d2 & H1 & H2 & H3); try done; [by apply Forall_app|].
    exists d1, d2. eexists _, _, _. split; [done|]. split; [done|]. split; [reflexivity|exact H3].
Qed.
End pair.

Lemma fill_poor ps ks b : (4 * (ps - 18) <=? 10 * keys_fill ks) = b -> page_size_ok ps -> if b then ks <> [] else poor ps ks.
Proof.
  intros <- Hps. destruct (page_size_bounds _ Hps). destruct (Z.leb_spec (4 * (ps - 18)) (10 * keys_fill ks)); [|done].
  intros ->. cbn in *. lia.
Qed.

Lemma Delete_up_beside fuel d0 d p slot it f fs (parent sl sp q b : Z) (left rich : bool) d1 :
  on_node p (Branch_Delete slot true) d0 = Ok tt d -> it_stack it = frame_stack (f :: fs) -> fill_at_least_40 p d = Ok false d ->
  GetSibling (it, d) = Ok (parent, sl, sp, left) (set_stack (frame_stack fs) it, d) -> (if left then sl - 1 else sl) = b ->
  own_sibling (it_btree it) parent b sp left d = Ok q d1 -> sibling_rich q d1 = Ok rich d1 ->
  Delete_up (S fuel) p slot (it, d0) =
  (if rich then rotate_branch p parent b q left
   else let* down_key := on_db (node_key parent b) in
        on_db (if left then Branch_Merge q p down_key else Branch_Merge p q down_key) ;;;
        Delete_up fuel parent b) (set_stack (frame_stack fs) it, d1).
Proof.
  intros Hdel Est H40 Hget Hsl Htake Hrich. cbn [Delete_up]. run_step (on_db_ok _ it d0 _ _ Hdel). run_step (iter_ok it d).
  rewrite Est. rewrite bool_decide_false by done. run_step (on_db_ok _ it d _ _ H40). run_step Hget. rewrite Hsl.
  set (it1 := set_stack (frame_stack fs) it). run_step (on_db_ok _ it1 d _ _ Htake). by run_step (on_db_ok _ it1 d1 _ _ Hrich).
Qed.

(** The sibling as a branch of the state. *)
Lemma sibling_branch bt ps d fs g key left q sks sts t h :
  hole bt ps d fs (wedge g key (lhs left (Branch q sks sts) t) (rhs left (Branch q sks sts) t)) h -> balanced g ->
  length sts = S (length sks) -> db_inv d /\ branch_at d q sks (pg <$> sts) /\ Forall (slim ps) sks.
Proof.
  intros Hh Hbal Hl. destruct (wedge_key_slim _ _ _ _ _ _ _ _ _ Hh Hbal) as (_ & Hil & Hir & _).
  pose proof (wedge_forest _ _ _ _ _ _ _ _ _ Hh) as [Hinv [Hr1 [Hr2 _]%Forall_cons]%Forall_cons _]. split; [done|].
  destruct left; cbn [lhs rhs] in *; (split; [eapply rep_branch_at; eassumption|eapply trace_slim; eassumption]).
Qed.

Lemma Delete_up_ok bt ps : forall fs fuel d0 d p ks ts slot it h,
  on_node p (Branch_Delete slot true) d0 = Ok tt d -> hole bt ps d fs (Branch p ks ts) (S h) -> length ts = S (length ks) ->
  Forall (shape h) ts -> 2 * Z.of_nat (length fs) + 1 <= db_space d -> (length fs < fuel)%nat -> (length fs < 32)%nat ->
  it_btree it = bt -> it_stack it = frame_stack fs ->
  exists it' d' t', Delete_up fuel p slot (it, d0) = Ok tt (it', d') /\
    finished (2 * Z.of_nat (length fs) + 1) d [plug fs (Branch p ks ts)] bt d' t'
      (left_of fs ++ trace (Branch p ks ts) ++ right_of fs) (S (length fs + S h)).
Proof.
  induction fs as [|f fs IH]; intros [|fuel] d0 d p ks ts slot it h Hdel Hh Hlen Hts Hsp Hfuel Hfs Eit Est; try lia.
  { destruct (delete_at_root bt ps d0 d p ks ts slot h fuel it Hdel Hh Hlen Hts Eit Est) as (d' & t' & Hrun & D).
    exists it, d', t'. split; [done|]. cbn [left_of right_of app plug length]. rewrite app_nil_r.
    apply (finished_weaken _ _ _ _ _ _ _ _ _ _ D); lia. }
  pose proof (ho_fits _ _ _ _ _ _ Hh) as (Hbf & _). pose proof (ho_ps _ _ _ _ _ _ Hh) as Hps.
  destruct (hole_branch _ _ _ _ _ _ _ _ Hh) as (Hinv & Hb & _). pose proof (branch_at_ps _ _ _ _ Hb) as Hpsok.
  pose proof (b_at_least_40 d p _ _ Hinv Hb) as H40. rewrite Hps in *. cbn [length] in Hsp, Hfuel, Hfs.
  destruct (4 * (ps - 18) <=? 10 * keys_fill ks) eqn:E40.
  { exists it, d, (plug (f :: fs) (Branch p ks ts)). split.
    - cbn [Delete_up]. run_step (on_db_ok _ it d0 _ _ Hdel). run_step (iter_ok it d). rewrite Est. rewrite bool_decide_false by done.
      by run_step (on_db_ok _ it d _ _ H40).
    - assert (Hs : shape (S h) (Branch p ks ts)) by (apply shape_Branch; by apply (fill_poor ps ks true E40) in Hpsok).
      apply (finished_weaken _ _ _ _ _ _ _ _ _ _ (hole_finished _ _ _ _ _ _ Hh Hs)); lia. }
  pose proof (fill_poor ps ks false E40 Hpsok) as Hpoor. rewrite (level_items f fs _ Hbf).
  destruct (beside_ready bt ps d f fs _ _ it Hh) as (left & g & key & s & sl & q & d1 & Hget & Hsl & Htake & Hh1 & M1 & Hoq & Hop & Hs & _ & Hsib & Hbal & Etr);
    [lia|done|done|]. destruct s as [|sp sks sts]; [done|]. cbn [on_page pg] in *. rewrite <- Etr. pose proof (wr_space _ _ _ _ (mv_writes _ _ _ _ _ _ M1)) as Hsp1.
  destruct (sibling_branch _ _ _ _ _ _ _ _ _ _ _ _ Hh1 Hbal ltac:(by apply shape_Branch in Hs as (_ & ? & _))) as (Hinv1 & Hbq & Hslims).
  pose proof (branch_rich d1 q _ _ Hinv1 Hbq) as Hrich. rewrite (ho_ps _ _ _ _ _ _ Hh1) in Hrich. rewrite <- Eit in Htake.
  rewrite (Delete_up_beside fuel d0 d p slot it f fs _ _ _ _ _ _ _ _ Hdel Est H40 Hget Hsl Htake Hrich).
  destruct ((ps - 18 <? 2 * keys_fill sks) && (2 <=? Z.of_nat (length sks))) eqn:Er.
  - apply andb_true_iff in Er as [_ Er%Z.leb_le].
    destruct (rotate_branch_ok bt ps d1 fs g key p ks ts q sks sts h left Hbal Hsib Hop Hoq Hlen Hts Hs Hpoor Hh1 (set_stack (frame_stack fs) it))
      as (it' & d' & t' & Hrun & D); [lia|lia|lia|done|done|]. exists it', d', t'. split; [exact Hrun|].
    apply (finished_weaken _ _ _ _ _ _ _ _ _ _ (finished_after _ _ _ _ _ _ _ _ _ _ _ M1 D)); cbn; lia.
  - destruct (merge_branch_ok bt ps d1 fs g key p ks ts q sks sts h left Hbal Hop Hoq Hlen Hts Hs Hpoor Hh1 (not_rich_fill ps sks Hpsok Hslims Er))
      as (d2 & d3 & l' & ks' & ts' & Hmerge & Hdel2 & _ & Hsl' & Hh3 & M2 & Etr2).
    pose proof (wr_space _ _ _ _ (mv_writes _ _ _ _ _ _ M2)) as Hsp3.
    destruct (IH fuel d2 d3 (f_pg g) (f_ks1 g ++ f_ks2 g) (f_ts1 g ++ l' :: f_ts2 g) (between g) (set_stack (frame_stack fs) it) (S h) Hdel2 Hh3)
      as (it' & d' & t' & Hrun & D); try done; try lia.
    { destruct Hbal as [H1 H2]. rewrite !length_app. cbn. lia. }
    { unfold siblings in Hsib. apply Forall_app in Hsib as [? ?]. apply Forall_app. split; [done|by constructor]. }
    destruct (hole_branch _ _ _ _ _ _ _ _ Hh1) as (_ & Hbp & _). exists it', d', t'. split.
    + run_step (on_db_ok _ (set_stack (frame_stack fs) it) d1 _ _ (b_key d1 _ _ _ Hinv1 Hbp _ _ (wedge_key g key Hbal))).
      run_step (on_db_ok _ (set_stack (frame_stack fs) it) d1 _ _ Hmerge). exact Hrun.
    + rewrite <- Etr2. apply (finished_weaken _ _ _ _ _ _ _ _ _ _ (finished_after _ _ _ _ _ _ _ _ _ _ _ M1 (finished_after _ _ _ _ _ _ _ _ _ _ _ M2 D))); cbn; lia.
Qed.
