(* ===== verification/DeleteLeaf.v ===== *)
(** Deleting an entry from its leaf: the part of [Delete(Iterator* )] of
    [src/btree.cpp] below the branches.  A leaf that is too empty takes an
    entry from its sibling, or is merged with it. *)
From S2P Require Import Prelude Format Comparator State Memory FreeMap Pager PagerI PagerInst.
From S2P Require Import Node NodeWf NodeSpec Search BranchSpec Tx Iterator BTree Trails NodeDb Freed Tree TreeSearch TreeGet TreeWalk Copying.
From S2P Require Import TreeSteps Forest LeafPage LeafSplit BranchPage BranchSplit Rebuild PutUp PutTree PutTheorems PutSame Holes Siblings DeleteUp.

Implicit Types (d : DBImpl) (p q : Z) (key : list byte) (es : list entry) (e : entry) (t u s l r : tree) (ts us : list tree) (f g : frame) (fs : list frame).

(** ** Merging two leaves *)
Lemma merge_leaf_loop_ok p q es2 : forall n d i es1,
  forest d [Leaf p es1; Leaf q es2] -> (i + n = length es2)%nat -> Forall (storable (page_size d)) es2 ->
  overflow_pages (page_size d) (drop i es2) <= db_space d ->
  fill (page_size d) es1 + fill (page_size d) (drop i es2) <= page_size d - 18 ->
  exists d', merge_leaf_loop p q n (Z.of_nat i) d = Ok tt d' /\
    moves (overflow_pages (page_size d) (drop i es2)) (eq p) d [Leaf p es1; Leaf q es2] d' [Leaf p (es1 ++ drop i es2); Leaf q es2].
Proof.
  induction n as [|n IH]; intros d i es1 Hf Hn Hst Hsp Hfit.
  - exists d. split; [done|]. rewrite drop_ge, app_nil_r by lia. apply (moves_weaken _ _ _ _ _ _ _ _ (moves_refl d _ Hf)); [cbn; lia|done].
  - destruct (lookup_lt_is_Some_2 es2 i) as [e He]; [lia|]. rewrite (drop_S es2 e i He), fill_cons, overflow_pages_cons in *.
    pose proof (page_size_inv d (fr_inv _ _ Hf)) as Hps. pose proof (fill_nonneg _ (drop (S i) es2) Hps). pose proof (overflow_pages_nonneg (page_size d) (drop (S i) es2)).
    pose proof (proj1 (Forall_lookup _ _) Hst i e He) as Hste.
    destruct (append_entry_ok d p es1 q es2 [] i e Hf He Hste) as (d1 & Happ & M1); [lia|lia|].
    pose proof (wr_ps _ _ _ _ (mv_writes _ _ _ _ _ _ M1)) as Hps1. pose proof (wr_space _ _ _ _ (mv_writes _ _ _ _ _ _ M1)).
    destruct (IH d1 (S i) (es1 ++ [e])) as (d' & Hrun & M2); rewrite ?Hps1; try done; [by eapply moves_forest|lia|lia|rewrite fill_app, fill_cons; cbn [fill foldr]; lia|].
    exists d'. split.
    + cbn [merge_leaf_loop]. run_step Happ. by replace (Z.of_nat i + 1) with (Z.of_nat (S i)) by lia.
    + rewrite Hps1, <- app_assoc in M2. apply (moves_trans _ _ _ _ _ _ _ _ _ _ _ M1 M2). by intros x _ [<-|<-].
Qed.

Lemma Leaf_Merge_ok d p es1 q es2 :
  forest d [Leaf p es1; Leaf q es2] -> Forall (storable (page_size d)) es2 -> overflow_pages (page_size d) es2 <= db_space d ->
  fill (page_size d) es1 + fill (page_size d) es2 <= page_size d - 18 ->
  exists d', Leaf_Merge p q d = Ok tt d' /\
    moves (overflow_pages (page_size d) es2) (either p q) d [Leaf p es1; Leaf q es2] d' [Leaf p (es1 ++ es2)].
Proof.
  intros Hf Hst Hsp Hfit. pose proof Hf as [Hinv [_ [Hr2 _]%Forall_cons]%Forall_cons _].
  destruct (merge_leaf_loop_ok p q es2 (length es2) d 0 es1) as (d1 & Hloop & M1); try done. rewrite drop_0 in M1.
  pose proof (moves_forest _ _ _ _ _ _ M1) as Hf1. pose proof Hf1 as [Hinv1 [_ [Hr21 _]%Forall_cons]%Forall_cons _].
  destruct (moves_free d1 _ _ (forest_swap _ _ _ _ Hf1)) as (d2 & Hfree & M2). cbn [pg] in Hfree.
  assert (M2' : moves 0 (fun _ => False) d1 [Leaf p (es1 ++ es2); Leaf q es2] d2 [Leaf p (es1 ++ es2)]).
  { apply (moves_perm _ _ _ _ _ _ _ _ (Permutation_swap _ _ []) (reflexivity _) M2). }
  exists d2. split.
  - unfold Leaf_Merge. run_step (read_count d q es2 Hinv Hr2). rewrite Nat2Z.id. run_step Hloop. exact Hfree.
  - replace (overflow_pages (page_size d) es2) with (overflow_pages (page_size d) es2 + 0) by lia.
    apply (moves_trans _ _ _ _ _ _ _ _ _ _ _ M1 M2'). intros x _ [<-|[]]. by left.
Qed.

(** ** An entry from the sibling *)

(** The last entry of the left leaf made the first of the right one. *)
Lemma shift_right d p es1 e q es2 :
  forest d [Leaf p (es1 ++ [e]); Leaf q es2] -> storable (page_size d) e -> entry_pages (page_size d) e <= db_space d ->
  fill (page_size d) es2 + entry_cost (page_size d) e <= page_size d - 18 ->
  exists d1 d2 d3, let i := Z.of_nat (length es1) in
    node_count p d = Ok (i + 1) d /\ node_key p i d = Ok (e_key e) d /\ node_value p i d = Ok (e_value e) d /\
    on_node q (Leaf_Insert 0 (Ext (e_key e)) (e_value e)) d = Ok true d1 /\ node_is_bucket p i d1 = Ok (e_bucket e) d1 /\
    on_node q (SetIsBucket 0 (e_bucket e)) d1 = Ok tt d2 /\ on_node p Leaf_Pop d2 = Ok tt d3 /\ node_key q 0 d3 = Ok (e_key e) d3 /\
    moves (entry_pages (page_size d) e) (either p q) d [Leaf p (es1 ++ [e]); Leaf q es2] d3 [Leaf p es1; Leaf q (e :: es2)].
Proof.
  intros Hf Hst Hsp Hroom. assert (He : e = mkEntry (e_key e) (e_value e) (e_bucket e)) by (by destruct e).
  assert (Hlast : (es1 ++ [e]) !! length es1 = Some e) by (by apply list_lookup_middle).
  pose proof Hf as [Hinv [Hr1 _]%Forall_cons _]. destruct (read_entry d p _ Hinv Hr1 _ e Hlast) as (Hk & Hv & _).
  pose proof (read_count d p _ Hinv Hr1) as Hc. rewrite length_app, Nat2Z.inj_add in Hc.
  destruct (insert_marked d q es2 [Leaf p (es1 ++ [e])] 0 (e_key e) (e_value e) (e_bucket e) (forest_swap _ _ _ _ Hf)) as (b0 & d1 & d2 & Hins & Hmark & Hf1 & M1);
    rewrite <- ?He; try done; [lia|]. rewrite <- He in M1. apply moves_swap in M1. pose proof (moves_forest _ _ _ _ _ _ M1) as Hf2.
  pose proof Hf1 as [Hinv1 [_ [Hr11 _]%Forall_cons]%Forall_cons _]. destruct (read_entry d1 p _ Hinv1 Hr11 _ e Hlast) as (_ & _ & Hb).
  destruct (page_pop d2 p es1 e) as (d3 & Hpop & Hm2); [by apply (forest_app d2 [Leaf p _]) in Hf2 as (? & _ & _)|].
  pose proof (leaf_moves_frame _ _ _ _ _ _ _ Hm2 Hf2) as M2. pose proof (moves_forest _ _ _ _ _ _ M2) as [Hinv3 [_ [Hr3 _]%Forall_cons]%Forall_cons _].
  destruct (read_entry d3 q _ Hinv3 Hr3 0 e eq_refl) as (Hk3 & _ & _).
  exists d1, d2, d3. cbv zeta. split_and!; try done. replace (entry_pages _ _) with (entry_pages (page_size d) e + 0) by lia.
  apply (moves_trans _ _ _ _ _ _ _ _ _ _ _ M1 M2). by intros x _ [<-|<-]; [right|left].
Qed.

(** What a rotation does to the sequence: an entry passes the separator, which
    becomes its key, or that of the entry that is the first on its right now. *)
Record passed (l r l' r' : tree) (key2 : list byte) : Prop := {
  ps_same : trace l' ++ trace r' = trace l ++ trace r;
  ps_key : exists a e1 e2 b, trace l' = a ++ [Ent e1] /\ trace r' = Ent e2 :: b /\ key2 = e_key e2;
}.

Lemma leaf_items ps es : Forall (item_fits ps) (Ent <$> es) <-> Forall (fun e => slim ps (e_key e) /\ storable ps e) es.
Proof. by rewrite Forall_fmap. Qed.

(** The rest of the rotation, on the parent. *)
Lemma rotated_leaf bt ps d fs g key p1 es1 p2 es2 k d1 es1' e2 es2' it :
  let l := Leaf p1 es1 in let r := Leaf p2 es2 in let l' := Leaf p1 es1' in let r' := Leaf p2 (e2 :: es2') in
  hole bt ps d fs (wedge g key l r) 1 -> balanced g -> Forall (shape 0) (siblings g) -> own d p1 -> own d p2 ->
  moves k (either p1 p2) d [l; r] d1 [l'; r'] -> es1' <> [] -> es1' ++ e2 :: es2' = es1 ++ es2 ->
  k + Z.of_nat (S (S (length fs))) <= db_space d -> (length fs < 32)%nat -> it_btree it = bt -> it_stack it = frame_stack fs ->
  passed l r l' r' (e_key e2) /\
  exists it' d' t', (let* child := on_db (node_left_child (f_pg g) (between g)) in
      let* success := on_db (on_node (f_pg g) (Branch_Update (between g) (Ext (e_key e2)) child false)) in
      replace_key success (f_pg g) (between g) p1 p2 (e_key e2)) (it, d1) = Ok tt (it', d') /\
    finished (k + Z.of_nat (S (S (length fs)))) d [plug fs (wedge g key l r)] bt d' t'
      (left_of fs ++ trace (wedge g (e_key e2) l' r') ++ right_of fs) (S (length fs + 1)).
Proof.
  intros l r l' r' Hh Hbal Hsib Hol Hor M Hne Ees Hsp Hlen Eit Est. destruct (wedge_key_slim _ _ _ _ _ _ _ _ _ Hh Hbal) as (Hkey & Hil & Hir & _).
  assert (Htr : trace l' ++ trace r' = trace l ++ trace r) by (cbn [trace l r l' r']; by rewrite <- !fmap_app, Ees).
  assert (Hit : Forall (item_fits ps) (trace l' ++ trace r')) by (rewrite Htr; by apply Forall_app).
  pose proof Hit as [_ [[Hk2 _] _]%Forall_cons]%Forall_app.
  split; [split; [done|]; destruct (exists_last Hne) as (a & e1 & ->); exists (Ent <$> a), e1, e2, (Ent <$> es2'); cbn; by rewrite fmap_app|].
  destruct (wedge_two _ _ _ _ _ _ _ _ _ _ _ _ _ Hh Hbal Hol Hor M eq_refl eq_refl) as (Hh1 & _ & _ & _); [done|done|].
  destruct (hole_branch _ _ _ _ _ _ _ _ Hh1) as (Hinv1 & Hb1 & _).
  destruct (rotated bt ps d fs g key l r 0 k d1 l' r' (e_key e2) _ it Hh Hbal Hsib Hol Hor M eq_refl eq_refl ltac:(done) Hit I I Hk2 (or_intror eq_refl) Hsp Hlen Eit Est)
    as (it' & d' & t' & Hrun & D).
  exists it', d', t'. split; [|exact D].
  run_step (on_db_ok _ it d1 _ _ (b_left_child d1 _ _ _ Hinv1 Hb1 _ _ (wedge_child1 g l' r'))). exact Hrun.
Qed.

Definition leaf_poor (ps : Z) es : Prop := 10 * fill ps es < 4 * (ps - 18).

Lemma one_pages ps e es : e ∈ es -> entry_pages ps e <= overflow_pages ps es.
Proof.
  intros He. induction He as [e es|e x es He IH]; rewrite overflow_pages_cons; [pose proof (overflow_pages_nonneg ps es)|pose proof (entry_pages_nonneg ps x)]; lia.
Qed.

Lemma poor_room ps es e : page_size_ok ps -> leaf_poor ps es -> fill ps es + entry_cost ps e <= ps - 18.
Proof. intros Hps Hp. unfold leaf_poor in Hp. pose proof (entry_cost_bounds ps e Hps). destruct (page_size_bounds _ Hps). lia. Qed.

Lemma not_rich_leaf ps (ses : list entry) : page_size_ok ps -> (ps - 18 <? 2 * fill ps ses) && (2 <=? Z.of_nat (length ses)) = false -> 2 * fill ps ses <= ps - 18.
Proof.
  intros Hpsok [H|H]%andb_false_iff; [by apply Z.ltb_ge|]. apply Z.leb_gt in H. destruct (page_size_bounds _ Hpsok).
  destruct ses as [|e [|? ?]]; cbn [length] in H; [cbn; lia| |lia].
  rewrite fill_cons. cbn [fill foldr]. pose proof (entry_cost_bounds ps e Hpsok). lia.
Qed.

Section leaves.
Context (bt : BTree) (ps : Z) (d : DBImpl) (fs : list frame) (g : frame) (key : list byte).
Context (p : Z) (es : list entry) (q : Z) (ses : list entry).
Context (Hbal : balanced g) (Hsib : Forall (shape 0) (siblings g)) (Hop : own d p) (Hoq : own d q) (Hpoor : leaf_poor ps es).

Let there (left : bool) : tree := wedge g key (lhs left (Leaf q ses) (Leaf p es)) (rhs left (Leaf q ses) (Leaf p es)).

Lemma leaves_ready left : hole bt ps d fs (there left) 1 ->
  page_size d = ps /\ page_size_ok ps /\ Forall (storable ps) ses /\ Forall (storable ps) es /\ db_inv d /\ rep d (Leaf q ses) /\
  forest d [lhs left (Leaf q ses) (Leaf p es); rhs left (Leaf q ses) (Leaf p es)].
Proof.
  intros Hh. destruct (wedge_key_slim _ _ _ _ _ _ _ _ _ Hh Hbal) as (_ & Hil & Hir & Hpsok).
  pose proof (wedge_forest _ _ _ _ _ _ _ _ _ Hh) as Hf2. pose proof Hf2 as [Hinv [Hr1 [Hr2 _]%Forall_cons]%Forall_cons _].
  assert (Hall : forall xs : list entry, Forall (item_fits ps) (Ent <$> xs) -> Forall (storable ps) xs).
  { intros xs Hx%leaf_items. eapply Forall_impl; [exact Hx|]. by intros e [_ ?]. }
  split; [apply (ho_ps _ _ _ _ _ _ Hh)|]. split; [done|]. destruct left; cbn [lhs rhs trace] in *; split_and!; auto.
Qed.

Lemma rotate_leaf_ok left it :
  hole bt ps d fs (there left) 1 -> (2 <= length ses)%nat -> overflow_pages ps ses + Z.of_nat (S (S (length fs))) <= db_space d ->
  (length fs < 32)%nat -> it_btree it = bt -> it_stack it = frame_stack fs ->
  exists it' d' t' l' r' key2, rotate_leaf p (f_pg g) (between g) q left (it, d) = Ok tt (it', d') /\
    passed (lhs left (Leaf q ses) (Leaf p es)) (rhs left (Leaf q ses) (Leaf p es)) l' r' key2 /\
    finished (overflow_pages ps ses + Z.of_nat (S (S (length fs)))) d [plug fs (there left)] bt d' t'
      (left_of fs ++ trace (wedge g key2 l' r') ++ right_of fs) (S (length fs + 1)).
Proof.
  intros Hh Hrich Hsp Hlen Eit Est. destruct (leaves_ready left Hh) as (Hps & Hpsok & Hst & _ & Hinv & Hrq & Hf2).
  unfold there in *. clear there. destruct left; cbn [lhs rhs] in *.
  - destruct (exists_last (l := ses)) as (ses0 & e & ->); [by intros ->; cbn in Hrich; lia|].
    assert (Hp : entry_pages ps e <= overflow_pages ps (ses0 ++ [e])) by (apply one_pages; rewrite elem_of_app, list_elem_of_singleton; by right).
    pose proof (proj2 (proj1 (Forall_app _ _ _) Hst)) as [Hste _]%Forall_cons.
    destruct (shift_right d q ses0 e p es Hf2) as (d1 & d2 & d3 & Hc & Hk & Hv & Hins & Hb & Hmark & Hpop & Hk3 & M);
      rewrite ?Hps; [done|lia|by apply poor_room|]. rewrite Hps in M.
    destruct (rotated_leaf bt ps d fs g key q (ses0 ++ [e]) p es (entry_pages ps e) d3 ses0 e es it Hh Hbal Hsib Hoq Hop M) as (HP & it' & d' & t' & Hrun & D);
      try done; [by intros ->; cbn in Hrich; lia|by rewrite <- app_assoc|lia|].
    exists it', d', t', (Leaf q ses0), (Leaf p (e :: es)), (e_key e). split; [|split; [exact HP|apply (finished_weaken _ _ _ _ _ _ _ _ _ _ D); lia]].
    unfold rotate_leaf. rewrite !bind_assoc. run_step (on_db_ok _ it d _ _ Hc). rewrite Z.add_simpl_r, !bind_assoc.
    run_step (on_db_ok _ it d _ _ Hk). rewrite !bind_assoc. run_step (on_db_ok _ it d _ _ Hv). rewrite !bind_assoc.
    run_step (on_db_ok _ it d _ _ (must_ok _ _ _ Hins)). rewrite !bind_assoc. run_step (on_db_ok _ it d1 _ _ Hb). rewrite !bind_assoc.
    run_step (on_db_ok _ it d1 _ _ Hmark). rewrite !bind_assoc. run_step (on_db_ok _ it d2 _ _ Hpop). run_step (on_db_ok _ it d3 _ _ Hk3). exact Hrun.
  - destruct ses as [|e [|e2 ses0]]; cbn in Hrich; try lia. pose proof Hst as [Hste _]%Forall_cons.
    assert (Hp : entry_pages ps e <= overflow_pages ps (e :: e2 :: ses0)) by (apply one_pages, list_elem_of_here).
    destruct (shift_left d p q [] es e (e2 :: ses0) Hf2) as (d1 & d2 & Happ & Hdel & M); rewrite ?Hps; [done|lia|by apply poor_room|]. rewrite Hps in M.
    pose proof (moves_forest _ _ _ _ _ _ M) as [Hinv2 [_ [Hr2 _]%Forall_cons]%Forall_cons _].
    destruct (read_entry d2 q _ Hinv2 Hr2 0 e2 eq_refl) as (Hk2 & _ & _).
    destruct (rotated_leaf bt ps d fs g key p es q (e :: e2 :: ses0) (entry_pages ps e) d2 (es ++ [e]) e2 ses0 it Hh Hbal Hsib Hop Hoq M) as (HP & it' & d' & t' & Hrun & D);
      try done; [by destruct es|by rewrite <- app_assoc|lia|].
    exists it', d', t', (Leaf p (es ++ [e])), (Leaf q (e2 :: ses0)), (e_key e2). split; [|split; [exact HP|apply (finished_weaken _ _ _ _ _ _ _ _ _ _ D); lia]].
    unfold rotate_leaf. rewrite !bind_assoc. run_step (on_db_ok _ it d _ _ Happ). rewrite !bind_assoc.
    run_step (on_db_ok _ it d1 _ _ Hdel). run_step (on_db_ok _ it d2 _ _ Hk2). exact Hrun.
Qed.

Lemma merge_leaf_ok left : hole bt ps d fs (there left) 1 -> 2 * fill ps ses <= ps - 18 ->
  Z.max (overflow_pages ps ses) (overflow_pages ps es) <= db_space d ->
  exists d1 d2 l', (if left then Leaf_Merge q p else Leaf_Merge p q) d = Ok tt d1 /\
    on_node (f_pg g) (Branch_Delete (between g) true) d1 = Ok tt d2 /\ hole bt ps d2 fs (plug1 g l') 1 /\ shape 0 l' /\
    own_moves (Z.max (overflow_pages ps ses) (overflow_pages ps es)) d [plug fs (there left)] d2 [plug fs (plug1 g l')] /\
    trace l' = trace (lhs left (Leaf q ses) (Leaf p es)) ++ trace (rhs left (Leaf q ses) (Leaf p es)).
Proof.
  intros Hh Hfill Hsp. destruct (leaves_ready left Hh) as (Hps & Hpsok & Hst & Hst2 & Hinv & Hrq & Hf2). destruct (page_size_bounds _ Hpsok).
  destruct (wedge_key_slim _ _ _ _ _ _ _ _ _ Hh Hbal) as (_ & Hil & Hir & _). unfold leaf_poor in Hpoor. unfold there in *. clear there.
  destruct left; cbn [lhs rhs] in *.
  - destruct (Leaf_Merge_ok d q ses p es Hf2) as (d1 & Hrun & M); rewrite ?Hps; try done; [lia|lia|].
    destruct (hole_merged _ _ _ _ _ _ _ _ _ _ _ (Leaf q (ses ++ es)) Hh Hbal Hoq Hop M) as (d2 & Hdel & Hh2 & Mp); try done.
    { cbn [trace]. rewrite fmap_app. by apply Forall_app. }
    exists d1, d2, (Leaf q (ses ++ es)). split_and!; try done; [|cbn; by rewrite fmap_app].
    apply (moves_weaken _ _ _ _ _ _ _ _ Mp); [rewrite Hps; lia|done].
  - destruct (Leaf_Merge_ok d p es q ses Hf2) as (d1 & Hrun & M); rewrite ?Hps; try done; [lia|lia|].
    destruct (hole_merged _ _ _ _ _ _ _ _ _ _ _ (Leaf p (es ++ ses)) Hh Hbal Hop Hoq M) as (d2 & Hdel & Hh2 & Mp); try done.
    { cbn [trace]. rewrite fmap_app. by apply Forall_app. }
    exists d1, d2, (Leaf p (es ++ ses)). split_and!; try done; [|cbn; by rewrite fmap_app].
    apply (moves_weaken _ _ _ _ _ _ _ _ Mp); [rewrite Hps; lia|done].
Qed.
End leaves.

(** ** What a deletion does to the separators: none, or one of them goes, and
    maybe comes back between two entries. *)
Definition resettled (items items' : list item) : Prop :=
  items' = items \/ exists a k b, items = a ++ Sep k :: b /\
    (items' = a ++ b \/ exists a1 e1 e2 b1, a ++ b = a1 ++ Ent e1 :: Ent e2 :: b1 /\
      items' = a1 ++ Ent e1 :: Sep (e_key e2) :: Ent e2 :: b1).

Lemma passed_resettled fs g key l r l' r' key2 : balanced g -> passed l r l' r' key2 ->
  resettled (left_of fs ++ trace (wedge g key l r) ++ right_of fs) (left_of fs ++ trace (wedge g key2 l' r') ++ right_of fs).
Proof.
  intros Hbal [Hs (a & e1 & e2 & b & El & Er & ->)]. unfold wedge. rewrite !trace_wedge by done. right.
  exists (left_of fs ++ frame_left g ++ trace l), key, (trace r ++ frame_right g ++ right_of fs).
  split; [by rewrite <- !app_assoc|right].
  exists (left_of fs ++ frame_left g ++ a), e1, e2, (b ++ frame_right g ++ right_of fs). split.
  - rewrite <- !app_assoc, (app_assoc (trace l)), <- Hs, El, Er. by rewrite <- !app_assoc.
  - rewrite El, Er. by rewrite <- !app_assoc.
Qed.

Lemma merged_resettled fs g key l r l' : balanced g -> trace l' = trace l ++ trace r ->
  resettled (left_of fs ++ trace (wedge g key l r) ++ right_of fs) (left_of fs ++ trace (plug1 g l') ++ right_of fs).
Proof.
  intros Hbal El. unfold wedge. rewrite trace_wedge, trace_plug1, El by done. right.
  exists (left_of fs ++ frame_left g ++ trace l), key, (trace r ++ frame_right g ++ right_of fs).
  split; [by rewrite <- !app_assoc|left]. by rewrite <- !app_assoc.
Qed.

Lemma leaf_fill_poor ps es : (4 * (ps - 18) <=? 10 * fill ps es) = false -> leaf_poor ps es.
Proof. intros H%Z.leb_gt. unfold leaf_poor. lia. Qed.

Lemma leaf_rich d q ses : db_inv d -> rep d (Leaf q ses) ->
  sibling_rich q d = Ok ((page_size d - 18 <? 2 * fill (page_size d) ses) && (2 <=? Z.of_nat (length ses))) d.
Proof. intros Hinv Hr. unfold sibling_rich. run_step (read_above_half d q _ Hinv Hr). by run_step (read_count d q _ Hinv Hr). Qed.

(** The entry out of its leaf. *)
Lemma leaf_without bt ps d fs p es (n : nat) : hole bt ps d fs (Leaf p es) 0 -> (n < length es)%nat ->
  exists d1, on_node p (Leaf_Delete (Z.of_nat n)) d = Ok tt d1 /\ hole bt ps d1 fs (Leaf p (delete n es)) 0 /\
    own_moves 0 d [plug fs (Leaf p es)] d1 [plug fs (Leaf p (delete n es))].
Proof.
  intros Hh Hn. destruct (hole_forest _ _ _ _ _ _ Hh) as [Hf _]. destruct (page_delete d p es n Hf Hn) as (d1 & Hdel & M).
  exists d1. split; [done|]. apply (hole_step _ _ _ _ _ _ _ _ _ Hh); try done.
  - apply (own_root_moves _ _ (Leaf p es)); [apply (ho_own _ _ _ _ _ _ Hh)|exact M].
  - pose proof (ho_items _ _ _ _ _ _ Hh) as Hi. cbn [trace] in *. apply leaf_items. apply leaf_items in Hi. by apply Forall_delete.
Qed.

(** The overflow pages of the leaves next to the hole. *)
Definition beside_pages (ps m : Z) fs : Prop := forall f fs' q ses, fs = f :: fs' -> Leaf q ses ∈ siblings f -> overflow_pages ps ses <= m.

Definition delete_space (m : Z) fs : Z := m + 2 * Z.of_nat (length fs) + 2.

(** The rest of [Delete], for a leaf with a parent that is too empty. *)
Definition refill (bt : BTree) (node : Z) : IterM unit :=
  let* (parent, parent_slot_id, sibling, left_sibling) := GetSibling in
  let slot := if left_sibling then parent_slot_id - 1 else parent_slot_id in
  let* sibling := on_db (own_sibling bt parent slot sibling left_sibling) in
  let* rich := on_db (sibling_rich sibling) in
  if rich then rotate_leaf node parent slot sibling left_sibling
  else
    on_db (if left_sibling then Leaf_Merge sibling node else Leaf_Merge node sibling) ;;;
    let* it := iter in
    Delete_up (S (length (it_stack it))) parent slot.

Lemma refill_ok bt ps d f fs p es m it :
  hole bt ps d (f :: fs) (Leaf p es) 0 -> leaf_poor ps es -> beside_pages ps m (f :: fs) -> overflow_pages ps es <= m ->
  delete_space m (f :: fs) <= db_space d -> (length fs < 32)%nat -> it_btree it = bt -> it_stack it = frame_stack (f :: fs) ->
  exists it' d' t' items, refill bt p (it, d) = Ok tt (it', d') /\
    resettled (left_of (f :: fs) ++ (Ent <$> es) ++ right_of (f :: fs)) items /\
    finished (delete_space m (f :: fs)) d [plug (f :: fs) (Leaf p es)] bt d' t' items (S (S (length fs))).
Proof.
  intros Hh Hpoor Hm Hes Hsp Hlen Eit Est. pose proof (ho_fits _ _ _ _ _ _ Hh) as (Hbf & _). unfold delete_space in *. cbn [length] in Hsp.
  pose proof (overflow_pages_nonneg ps es).
  destruct (beside_ready bt ps d f fs _ _ it Hh) as (left & g & key & s & sl & q & d1 & Hget & Hsl & Htake & Hh1 & M1 & Hoq & Hop & Hs & Hin & Hsib & Hbal & Etr);
    [lia|done|done|]. destruct s as [sp ses|]; [|done]. cbn [on_page pg] in *. pose proof (Hm f fs sp ses eq_refl Hin) as Hses.
  change (Ent <$> es) with (trace (Leaf p es)). rewrite (level_items f fs _ Hbf), <- Etr.
  pose proof (wr_space _ _ _ _ (mv_writes _ _ _ _ _ _ M1)) as Hsp1. set (it1 := set_stack (frame_stack fs) it).
  destruct (leaves_ready bt ps d1 fs g key p es q ses Hbal left Hh1) as (Hps1 & Hpsok & _ & _ & Hinv1 & Hrq & _).
  pose proof (leaf_rich d1 q ses Hinv1 Hrq) as Hrich. rewrite Hps1 in Hrich. unfold refill. run_step Hget. rewrite Hsl.
  run_step (on_db_ok _ it1 d _ _ Htake). run_step (on_db_ok _ it1 d1 _ _ Hrich).
  destruct ((ps - 18 <? 2 * fill ps ses) && (2 <=? Z.of_nat (length ses))) eqn:Er.
  - apply andb_true_iff in Er as [_ Er%Z.leb_le].
    destruct (rotate_leaf_ok bt ps d1 fs g key p es q ses Hbal Hsib Hop Hoq Hpoor left it1 Hh1) as (it' & d' & t' & l' & r' & key2 & Hrun & HP & D);
      [lia|lia|done|done|done|]. exists it', d', t', (left_of fs ++ trace (wedge g key2 l' r') ++ right_of fs). split; [exact Hrun|].
    split; [exact (passed_resettled fs g key _ _ l' r' key2 Hbal HP)|].
    apply (finished_weaken _ _ _ _ _ _ _ _ _ _ (finished_after _ _ _ _ _ _ _ _ _ _ _ M1 D)); cbn [length]; lia.
  - destruct (merge_leaf_ok bt ps d1 fs g key p es q ses Hbal Hop Hoq Hpoor left Hh1 (not_rich_leaf ps ses Hpsok Er)) as (d2 & d3 & l' & Hmerge & Hdel & Hh3 & Hsl' & M2 & Etr2); [lia|].
    pose proof (wr_space _ _ _ _ (mv_writes _ _ _ _ _ _ M2)) as Hsp3. pose proof Hbal as [H1 H2].
    destruct (Delete_up_ok bt ps fs (S (length fs)) d2 d3 (f_pg g) (f_ks1 g ++ f_ks2 g) (f_ts1 g ++ l' :: f_ts2 g) (between g) it1 0 Hdel Hh3) as (it' & d' & t' & Hrun & D);
      [rewrite !length_app; cbn; lia|unfold siblings in Hsib; apply Forall_app in Hsib as [? ?]; apply Forall_app; split; [done|by constructor]|lia|lia|done|done|done|].
    exists it', d', t'. eexists. split; [|split; [exact (merged_resettled fs g key _ _ l' Hbal Etr2)|]].
    + run_step (on_db_ok _ it1 d1 _ _ Hmerge). run_step (iter_ok it1 d2). cbn [it1 it_stack set_stack]. unfold frame_stack at 1. by rewrite length_fmap.
    + apply (finished_weaken _ _ _ _ _ _ _ _ _ _ (finished_after _ _ _ _ _ _ _ _ _ _ _ M1 (finished_after _ _ _ _ _ _ _ _ _ _ _ M2 D))); cbn [length]; lia.
Qed.

(** [Delete] on the entry the iterator stands on. *)
Lemma Delete_iter_ok bt ps d fs p es (n : nat) x m it :
  hole bt ps d fs (Leaf p es) 0 -> es !! n = Some x -> e_bucket x = false -> beside_pages ps m fs -> overflow_pages ps es <= m ->
  delete_space m fs <= db_space d -> (length fs <= 32)%nat -> it_btree it = bt -> it_stack it = (p, Z.of_nat n) :: frame_stack fs ->
  it_status it <> StInvalid ->
  exists it' d' t' items, Delete_iter (it, d) = Ok tt (it', d') /\
    resettled (left_of fs ++ (Ent <$> delete n es) ++ right_of fs) items /\
    finished (delete_space m fs) d [plug fs (Leaf p es)] bt d' t' items (S (length fs)).
Proof.
  intros Hh Hx Hb Hm Hes Hsp Hlen Eit Est Estat. pose proof (lookup_lt_Some _ _ _ Hx) as Hn.
  destruct (hole_forest _ _ _ _ _ _ Hh) as [[Hinv [Hr _]%Forall_cons _] _]. pose proof (read_bucket d p es n x it _ Hinv Hr Hx Est Estat) as Hrb.
  rewrite Hb in Hrb. set (it1 := set_cached (Some p) it) in *. assert (Est1 : it_stack it1 = (p, Z.of_nat n) :: frame_stack fs) by done.
  destruct (leaf_without bt ps d fs p es n Hh Hn) as (d1 & Hdel & Hh1 & M1). pose proof (wr_space _ _ _ _ (mv_writes _ _ _ _ _ _ M1)) as Hsp1.
  destruct (hole_forest _ _ _ _ _ _ Hh1) as [[Hinv1 [Hr1 _]%Forall_cons _] _]. pose proof (read_at_least_40 d1 p _ Hinv1 Hr1) as H40.
  rewrite (ho_ps _ _ _ _ _ _ Hh1) in H40. pose proof (overflow_pages_nonneg ps es).
  pose proof (hole_finished _ _ _ _ _ _ Hh1 I) as D1. cbn [trace] in D1.
  unfold Delete_iter. run_step Hrb. cbn [negb]. unfold bind at 1, ret at 1. run_step (Front_ok d _ _ it1 Est1).
  run_step (on_db_ok _ it1 d _ _ (new_node_ok d p Hinv (rep_used _ _ Hr))). run_step (on_db_ok _ it1 d _ _ Hdel). run_step (on_db_ok _ it1 d1 _ _ H40).
  destruct (4 * (ps - 18) <=? 10 * fill ps (delete n es)) eqn:E40.
  - exists it1, d1. do 2 eexists. split; [done|]. split; [by left|].
    apply (finished_weaken _ _ _ _ _ _ _ _ _ _ (finished_after _ _ _ _ _ _ _ _ _ _ _ M1 D1)); unfold delete_space; lia.
  - run_step (Pop_ok d1 _ _ it1 Est1). set (it2 := set_stack (frame_stack fs) it1). run_step (iter_ok it2 d1). destruct fs as [|f fs].
    + exists it2, d1. do 2 eexists. split; [done|]. split; [by left|].
      apply (finished_weaken _ _ _ _ _ _ _ _ _ _ (finished_after _ _ _ _ _ _ _ _ _ _ _ M1 D1)); unfold delete_space; cbn [length]; lia.
    + rewrite bool_decide_false by done. cbn [length] in Hlen.
      assert (Hdp : overflow_pages ps (delete n es) <= overflow_pages ps es).
      { rewrite delete_take_drop. rewrite <- (take_drop_middle es n x Hx) at 3. rewrite !overflow_pages_app, overflow_pages_cons.
        pose proof (entry_pages_nonneg ps x). lia. }
      destruct (refill_ok bt ps d1 f fs p (delete n es) m it2 Hh1 (leaf_fill_poor _ _ E40) Hm) as (it' & d' & t' & items & Hrun & Hit & D);
        try done; try lia. exists it', d', t', items. split; [|split; [exact Hit|]].
      * rewrite <- Eit in Hrun. exact Hrun.
      * apply (finished_weaken _ _ _ _ _ _ _ _ _ _ (finished_after _ _ _ _ _ _ _ _ _ _ _ M1 D)); cbn [length]; lia.
Qed.
