(* ===== verification/DeleteTheorems.v ===== *)
(** [BTree::Delete] of [src/btree.cpp] as removal from the sorted list of the
    tree's entries, and the isolation of readers from it. *)
From S2P Require Import Prelude Format Comparator State Memory FreeMap Pager PagerI PagerInst.
From S2P Require Import Node NodeWf NodeSpec Search BranchSpec Tx Iterator BTree NodeDb Tree TreeSearch TreeGet TreeWalk Copying.
From S2P Require Import TreeSteps Height Forest LeafPage LeafSplit BranchPage BranchSplit Rebuild PutUp PutTree PutOrder PutTheorems PutSame.
From S2P Require Import Holes Siblings DeleteUp DeleteLeaf.

Implicit Types (d : DBImpl) (p q : Z) (key : list byte) (es : list entry) (e x : entry) (t u : tree) (f : frame) (fs : list frame).

(** ** The reference: the entries but the one with the key *)
Definition delete_entry key (es : list entry) : list entry := filter (fun e => e_key e <> key) es.

Section order.
Context (cmp : comparator) (key_ok : list byte -> Prop) {HO : KeyOrder cmp key_ok}.

Lemma filter_all (P : entry -> Prop) `{!forall x, Decision (P x)} es : Forall P es -> filter P es = es.
Proof. induction 1 as [|x es Hx Hes IH]; [done|]. rewrite filter_cons_True by done. by rewrite IH. Qed.

Lemma delete_entry_split x (a b : list entry) : Forall (fun e => e_key e <> e_key x) (a ++ b) -> delete_entry (e_key x) (a ++ x :: b) = a ++ b.
Proof.
  intros [Ha Hb]%Forall_app. unfold delete_entry. rewrite filter_app, filter_cons_False by (by intros []). by rewrite !filter_all.
Qed.

(** ** Fewer items in the same order *)
Lemma items_ok_sublist (l l' : list item) : l' `sublist_of` l -> items_ok cmp key_ok l -> items_ok cmp key_ok l'.
Proof.
  intros Hsub [Hs Hk]. split.
  - induction Hsub as [|i l' l Hsub IH|i l' l Hsub IH]; [done| |].
    + apply StronglySorted_cons in Hs as [Hi Hs]. apply Forall_cons in Hk as [_ Hk]. apply StronglySorted_cons. split; [|by apply IH].
      rewrite Forall_forall in Hi. apply Forall_forall. intros j Hj. apply Hi. by eapply elem_of_sublist.
    + apply StronglySorted_cons in Hs as [_ Hs]. apply Forall_cons in Hk as [_ Hk]. by apply IH.
  - rewrite Forall_forall in Hk. apply Forall_forall. intros i Hi. apply Hk. by eapply elem_of_sublist.
Qed.

Lemma resettled_ok items items' : resettled items items' -> items_ok cmp key_ok items ->
  items_ok cmp key_ok items' /\ items_entries items' = items_entries items.
Proof.
  intros [->|(a & k & b & -> & Hab)] Hok; [done|].
  assert (Hdrop : items_ok cmp key_ok (a ++ b) /\ items_entries (a ++ b) = items_entries (a ++ Sep k :: b)).
  { split; [|by rewrite !items_entries_app]. apply (items_ok_sublist (a ++ Sep k :: b)); [|done].
    apply sublist_app; [done|]. by apply sublist_cons. }
  destruct Hab as [->|(a1 & e1 & e2 & b1 & E & ->)]; [done|]. rewrite E in Hdrop. destruct Hdrop as [H1 H2].
  split; [by apply (items_ok_sep cmp key_ok)|]. rewrite <- H2, !items_entries_app. done.
Qed.

(** Entries on either side of an entry have other keys. *)
Lemma other_keys x (l1 l2 : list item) : items_ok cmp key_ok (l1 ++ Ent x :: l2) ->
  Forall (fun e => e_key e <> e_key x) (items_entries l1 ++ items_entries l2).
Proof.
  intros [Hs Hk]. apply StronglySorted_app in Hs as (H12 & _ & [Hx _]%StronglySorted_cons).
  pose proof (proj2 (proj1 (Forall_app _ _ _) Hk)) as [Hkx _]%Forall_cons. cbn in Hkx.
  assert (Hne : forall e, key_lt cmp (e_key e) (e_key x) \/ key_lt cmp (e_key x) (e_key e) -> e_key e <> e_key x).
  { intros e Hlt E. rewrite E in Hlt. by destruct Hlt; apply (key_lt_irrefl cmp key_ok (e_key x)). }
  apply Forall_app. split; apply Forall_forall; intros e (i & Hi & Ei)%list_elem_of_omap; destruct i as [|e']; try done; injection Ei as ->; apply Hne.
  - destruct (H12 _ (Ent x) Hi (list_elem_of_here _ _)) as [Hlt|[]]. by left.
  - rewrite Forall_forall in Hx. destruct (Hx _ Hi) as [Hlt|[]]. by right.
Qed.
End order.

(** ** What a deletion asks of the tree: free page ids for a copy of the path
    and of a sibling on every level, for the overflow pages of the entries that
    change their leaf, and for the splits of a climb. *)
Definition delete_cost (ps : Z) t (h : nat) : Z := 3 * Z.of_nat (S h) + 2 * leaf_overflow ps t + 2.
Definition delete_room d t (h : nat) : Prop := delete_cost (page_size d) t h <= db_space d.

Lemma sibling_overflow ps f fs t s : s ∈ siblings f -> leaf_overflow ps s <= leaf_overflow ps (plug (f :: fs) t).
Proof.
  intros Hs. cbn [plug]. etransitivity; [|apply leaf_overflow_plug]. apply leaf_overflow_child.
  unfold siblings in Hs. rewrite !elem_of_app, elem_of_cons in *. tauto.
Qed.

Lemma own_leaf_hole bt ps d fs p es h : at_own_leaf bt ps d fs p es -> Forall (item_fits ps) (left_of fs ++ right_of fs) ->
  Forall (item_fits ps) (Ent <$> es) -> h = length fs -> hole bt ps d fs (Leaf p es) 0.
Proof.
  intros [H1 H2 H3 H4 H5 H6 H7 H8 H9 H10] Har Hit ->. split; try done. apply (fits_shape 0 fs (Leaf p es)); [done|]. by rewrite Nat.add_0_r.
Qed.

Section delete.
Context (cmp : comparator) (key_ok : list byte -> Prop) {HO : KeyOrder cmp key_ok}.
Context (bt : BTree) (d : DBImpl) (t : tree) (h : nat) (key : list byte).
Context (Htree : own_tree cmp key_ok d bt t h) (Hkey : key_ok key).
Context (Hslim : forall k, key_ok k -> slim (page_size d) k) (Hroom : delete_room d t h).
Context (Hlen : Forall (fun x => entry_len x < 2 ^ 32) (contents t)).

Let probe : entry := mkEntry key [] false.

Lemma delete_probe : put_room d t h probe /\ (forall k, key_ok k -> thin (page_size d) k) /\
  Forall (fun x => entry_len x < 2 ^ 32) (probe :: contents t).
Proof.
  pose proof (page_size_inv d (ta_inv _ _ _ _ _ _ Htree)) as Hps.
  assert (Hth : forall k, key_ok k -> thin (page_size d) k) by (intros k Hk; by apply slim_thin, Hslim).
  pose proof (thin_short _ _ Hps (Hth key Hkey)) as Hs. unfold short in Hs. destruct (page_size_bounds _ Hps) as [Hr _].
  pose proof (Z.div_le_upper_bound (page_size d - 34) 2 (page_size d)).
  split; [|split; [done|constructor; [unfold entry_len; cbn [probe e_key e_value length]; lia|done]]]. unfold put_room, put_cost, delete_room, delete_cost in *.
  assert (E : entry_pages (page_size d) probe = 0); [|lia].
  unfold entry_pages, entry_len, store_pages. cbn [probe e_key e_value length]. rewrite (proj2 (Z.ltb_ge _ _)); [done|]. lia.
Qed.

Lemma tree_items : Forall (item_fits (page_size d)) (trace t).
Proof.
  pose proof (page_size_inv d (ta_inv _ _ _ _ _ _ Htree)) as Hps. pose proof (ta_items _ _ _ _ _ _ Htree) as [_ Hk].
  rewrite Forall_forall in Hk. rewrite Forall_forall in Hlen. apply Forall_forall. intros i Hi. split; [by apply Hslim, Hk|].
  destruct i as [|e]; [done|]. split; [apply (thin_short _ _ Hps), slim_thin, Hslim, (Hk (Ent e) Hi)|].
  apply Hlen. unfold contents, items_entries. apply list_elem_of_omap. by exists (Ent e).
Qed.

(** The leaf of the key, the transaction's, as a hole. *)
Lemma ready_hole fs p es n eq d1 fs1 p1 it1 : path_ready cmp bt d t h probe fs p es n eq d1 fs1 p1 it1 ->
  hole bt (page_size d) d1 fs1 (Leaf p1 es) 0 /\ beside_pages (page_size d) (leaf_overflow (page_size d) t) fs1 /\
  overflow_pages (page_size d) es <= leaf_overflow (page_size d) t /\ delete_space (leaf_overflow (page_size d) t) fs1 <= db_space d1.
Proof.
  intros [Hld Hlf Ht Hal Hlf1 Hsp Ebt Est Estat]. pose proof (ld_plug _ _ _ _ _ _ _ _ Hld) as Hpl. pose proof Hld as [_ Hbal _ _ _].
  pose proof (pt_same _ _ _ _ _ _ _ _ Ht) as Hsame. destruct (same_frames_items _ _ Hsame) as (El & Er & _ & _).
  pose proof tree_items as Hit. rewrite <- Hpl, (trace_plug fs _ Hbal) in Hit. apply Forall_app in Hit as [Hil [Hie Hir]%Forall_app].
  assert (Hov : overflow_pages (page_size d) es <= leaf_overflow (page_size d) t) by (rewrite <- Hpl; apply (leaf_overflow_plug _ fs (Leaf p es))).
  split_and!.
  - apply (own_leaf_hole _ _ _ _ _ _ h Hal); [|done|done]. rewrite El, Er. by apply Forall_app.
  - intros f1 fs1' q ses -> Hin. inversion Hsame as [|f f' fs0 fs0' Hf Hfs E1 E2]. subst. rewrite Hf in Hin.
    exact (sibling_overflow _ f fs0 (Leaf p es) (Leaf q ses) Hin).
  - exact Hov.
  - pose proof (overflow_pages_nonneg (page_size d) es). pose proof (st_space _ _ _ _ (pt_steps _ _ _ _ _ _ _ _ Ht)). unfold delete_space, delete_room, delete_cost in *. rewrite Hlf1. rewrite Hlf in *. lia.
Qed.

Lemma delete_found x : find_entry key (contents t) = Some x -> e_bucket x = false ->
  exists d', Delete bt key d = Ok true d' /\ put_result cmp key_ok bt d t d' h (delete_cost (page_size d) t h) (delete_entry key (contents t)).
Proof.
  intros Hfind Hb. pose proof (own_tree_height _ _ _ _ _ _ Htree) as Hh. destruct delete_probe as (Hproom & Hthin & _).
  destruct (search_and_take cmp key_ok bt d t h probe Htree Hkey Hthin Hproom)
    as (fs & p & es & n & eq & d1 & fs1 & p1 & it0 & it1 & Hready & HLB & Hcopy & Estat0).
  pose proof Hready as [Hld Hlf Ht Hal Hlf1 Hsp Ebt Est Estat].
  destruct (landed_found cmp key_ok bt d t h probe x Htree Hkey fs p es n eq Hld Hfind) as (-> & Hx & Ekey). cbn [probe e_key] in *.
  destruct (ready_hole _ _ _ _ _ _ _ _ _ Hready) as (Hhole & Hbeside & Hov & Hspace).
  destruct (Delete_iter_ok bt (page_size d) d1 fs1 p1 es n x _ it1 Hhole Hx Hb Hbeside Hov Hspace) as (it' & d' & t' & items & Hrun & Hset & D);
    [lia|done|done|by rewrite Estat|]. exists d'. split.
  - unfold Delete. run_step HLB. rewrite Estat0, Estat, bool_decide_true by done. cbn [negb]. unfold with_iterator, bind. by rewrite Hcopy, Hrun.
  - pose proof (ld_plug _ _ _ _ _ _ _ _ Hld) as Hpl. pose proof Hld as [_ Hbal _ _ _]. pose proof (ta_items _ _ _ _ _ _ Htree) as Hit.
    destruct (same_frames_items _ _ (pt_same _ _ _ _ _ _ _ _ Ht)) as (El & Er & _ & _). rewrite El, Er in Hset.
    rewrite <- Hpl, (trace_plug fs _ Hbal) in Hit. cbn [trace] in Hit. rewrite <- (take_drop_middle es n x Hx) in Hit.
    rewrite fmap_app, fmap_cons, <- !app_assoc, app_assoc in Hit. cbn [app] in Hit.
    assert (Hit0 : items_ok cmp key_ok (left_of fs ++ (Ent <$> delete n es) ++ right_of fs)).
    { rewrite delete_take_drop, fmap_app, <- !app_assoc, app_assoc. revert Hit. apply items_ok_sublist.
      apply sublist_app; [done|]. by apply sublist_cons. }
    destruct (resettled_ok cmp key_ok _ _ Hset Hit0) as [Hok' Hent]. unfold finished in D. rewrite Hlf1 in D.
    apply (done_result cmp key_ok bt d t h probe fs p es n true d1 fs1 p1 it1 d' t' items _ _ _ _ Htree Hready D); [|done| |].
    + intros q. unfold own_nodes. by rewrite forest_nodes_one.
    + rewrite Hent. pose proof (other_keys cmp key_ok x _ _ Hit) as Hother. rewrite !items_entries_app, !items_entries_Ent in Hother. rewrite !items_entries_app, !items_entries_Ent.
      destruct (landed_split cmp key_ok key Hkey _ _ _ _ _ _ (ta_items _ _ _ _ _ _ Htree) Hld) as (Hc & _).
      rewrite Hc, (drop_S _ _ _ Hx), delete_take_drop, <- Ekey. cbn [app].
      rewrite delete_entry_split; [by rewrite <- !app_assoc|exact Hother].
    + unfold delete_space, delete_cost. pose proof (overflow_pages_nonneg (page_size d) es). lia.
Qed.

Lemma delete_missing : find_entry key (contents t) = None -> Delete bt key d = Ok false d.
Proof.
  intros Hnone. destruct (LowerBound_ok cmp key_ok bt key Hkey d t h Htree) as (fs & p & es & n & eq & Hld & _ & HLB).
  destruct delete_probe as (Hproom & _ & Hplen).
  pose proof (new_key_not_equal cmp key_ok bt d t h probe Htree Hkey Hproom Hplen fs p es n eq Hld Hnone) as ->.
  unfold Delete. run_step HLB. cbn [it_status]. unfold level_status. by destruct (_ && _ && _).
Qed.

(** C5: [Delete] of a key the tree has leaves the entries without it, whatever
    rotations, merges and loss of levels that takes, and returns true; the tree
    stays well-formed and of the transaction, and the trees of readers are what
    they were.  [Delete] of a key the tree does not have returns false and
    touches nothing. *)
Theorem Delete_key :
  (forall x, find_entry key (contents t) = Some x -> e_bucket x = false ->
    exists d', Delete bt key d = Ok true d' /\ put_result cmp key_ok bt d t d' h (delete_cost (page_size d) t h) (delete_entry key (contents t))) /\
  (find_entry key (contents t) = None -> Delete bt key d = Ok false d).
Proof. split; [exact delete_found|exact delete_missing]. Qed.
End delete.
