(* ===== verification/KeyValue.v ===== *)
(** The tree of a write transaction as a map from keys to values: any sequence
    of [Get], [Put] and [Delete] of [src/btree.cpp] on one tree does what the
    same operations do on a finite map. *)
From S2P Require Import Prelude Format Comparator State Memory FreeMap Pager PagerI PagerInst.
From S2P Require Import Node NodeWf NodeSpec Search BranchSpec Tx Iterator BTree Trails NodeDb Freed Tree TreeSearch TreeGet TreeWalk Copying.
From S2P Require Import TreeSteps Height Forest LeafPage LeafSplit BranchPage BranchSplit Rebuild PutUp PutTree PutOrder PutTheorems PutSame.
From S2P Require Import Holes Siblings DeleteUp DeleteLeaf DeleteTheorems.

Implicit Types (d : DBImpl) (p q : Z) (k key v : list byte) (l : list entry) (e x : entry) (t u : tree).

(** ** Entries as a map *)
#[export] Instance byte_countable : Countable byte := inj_countable Byte.to_N Byte.of_N Byte.of_to_N.

Abbreviation kvmap := (gmap (list byte) (list byte)).
Definition as_map l : kvmap := list_to_map ((fun e => (e_key e, e_value e)) <$> l).

Lemma as_map_lookup k l : as_map l !! k = e_value <$> find_entry k l.
Proof.
  induction l as [|e l IH]; [apply lookup_empty|]. change (as_map (e :: l)) with (<[e_key e := e_value e]> (as_map l)). cbn [find_entry find]. fold (find_entry k l).
  destruct (decide (e_key e = k)) as [<-|Hne].
  - by rewrite lookup_insert_eq, bool_decide_true by done.
  - by rewrite lookup_insert_ne, bool_decide_false by done.
Qed.

Lemma find_entry_key k l e : find_entry k l = Some e -> e_key e = k /\ e ∈ l.
Proof.
  intros H. destruct (find_some _ _ H) as [Hin Hk]. apply bool_decide_eq_true in Hk. split; [done|]. by apply list_elem_of_In.
Qed.

Lemma find_put_entry cmp key_ok {HO : KeyOrder cmp key_ok} k e l : key_ok (e_key e) ->
  find_entry k (put_entry cmp e l) = if bool_decide (k = e_key e) then Some e else find_entry k l.
Proof.
  intros Hk. induction l as [|x l IH]; cbn [put_entry find_entry find].
  { rewrite (bool_decide_ext (e_key e = k) (k = e_key e)) by done. done. }
  destruct (bool_decide_reflect (cmp (e_key x) (e_key e) = Some Lt)) as [Hlt|_].
  - cbn [find_entry find]. fold (find_entry k (put_entry cmp e l)) (find_entry k l). rewrite IH.
    destruct (bool_decide_reflect (e_key x = k)) as [<-|]; [|done]. rewrite bool_decide_false; [done|].
    intros E. rewrite E in Hlt. by apply (key_lt_irrefl cmp key_ok (e_key e)).
  - destruct (bool_decide_reflect (e_key x = e_key e)) as [Ex|_]; cbn [find_entry find];
      rewrite (bool_decide_ext (e_key e = k) (k = e_key e)) by done; case_bool_decide; try done.
    by rewrite bool_decide_false by congruence.
Qed.

Lemma find_delete_entry key k l : find_entry k (delete_entry key l) = if bool_decide (k = key) then None else find_entry k l.
Proof.
  unfold delete_entry. induction l as [|x l IH]; [by case_bool_decide|]. destruct (decide (e_key x = key)) as [E|E].
  - rewrite filter_cons_False by tauto. rewrite IH. cbn [find_entry find]. case_bool_decide; [done|]. by rewrite bool_decide_false by congruence.
  - rewrite filter_cons_True by done. cbn [find_entry find]. fold (find_entry k l). fold (find_entry k (filter (fun e => e_key e <> key) l)). rewrite IH.
    destruct (bool_decide_reflect (e_key x = k)); [|done]. by rewrite bool_decide_false by congruence.
Qed.

Lemma as_map_put cmp key_ok {HO : KeyOrder cmp key_ok} e l : key_ok (e_key e) ->
  as_map (put_entry cmp e l) = <[e_key e := e_value e]> (as_map l).
Proof.
  intros Hk. apply map_eq. intros k. rewrite as_map_lookup, (find_put_entry cmp key_ok k e l Hk), lookup_insert, as_map_lookup.
  rewrite (bool_decide_ext (k = e_key e) (e_key e = k)) by done. by case_decide; [rewrite bool_decide_true|rewrite bool_decide_false].
Qed.

Lemma as_map_delete key l : as_map (delete_entry key l) = delete key (as_map l).
Proof.
  apply map_eq. intros k. rewrite as_map_lookup, find_delete_entry, lookup_delete, as_map_lookup.
  rewrite (bool_decide_ext (k = key) (key = k)) by done. by case_decide; [rewrite bool_decide_true|rewrite bool_decide_false].
Qed.

Lemma put_entry_Forall cmp (P : entry -> Prop) e l : P e -> Forall P l -> Forall P (put_entry cmp e l).
Proof.
  intros He. induction 1 as [|x l Hx Hl IH]; cbn [put_entry]; [by constructor|]. repeat case_bool_decide; by repeat constructor.
Qed.

(** Every entry of a tree is the one of its key. *)
Lemma sorted_keys_NoDup cmp key_ok {HO : KeyOrder cmp key_ok} ks : StronglySorted (key_lt cmp) ks -> Forall key_ok ks -> NoDup ks.
Proof.
  induction 1 as [|k ks _ IH Hk]; [constructor|]. intros [Hkk Hks]%Forall_cons. constructor; [|by apply IH].
  intros Hin. rewrite Forall_forall in Hk. by apply (key_lt_irrefl cmp key_ok k Hkk), Hk.
Qed.

Lemma find_member cmp key_ok {HO : KeyOrder cmp key_ok} e t : items_ok cmp key_ok (trace t) -> e ∈ contents t ->
  find_entry (e_key e) (contents t) = Some e.
Proof.
  intros Hit (i & Hi & Ei)%list_elem_of_omap. destruct i as [k|e']; [done|]. injection Ei as ->.
  unfold contents. apply list_elem_of_split in Hi as (l1 & l2 & E). rewrite E in *.
  pose proof (other_keys cmp key_ok e l1 l2 Hit) as [Hne _]%Forall_app. rewrite items_entries_app, find_entry_app, (find_entry_none _ _ Hne).
  cbn. by rewrite bool_decide_true.
Qed.

(** ** The operations *)
Inductive kv_op : Type := KvGet k | KvPut k v | KvDelete k.
Inductive kv_result : Type := Found (v : option (list byte)) | Stored | Deleted (b : bool).

Definition run_kv (bt : BTree) (op : kv_op) : M DBImpl kv_result :=
  match op with
  | KvGet k =>
      let* it := Get bt k in
      if iter_end it then ret (Found None)
      else let* (v, _) := with_iterator it iter_value in ret (Found (Some v))
  | KvPut k v => Put bt k v false ;;; ret Stored
  | KvDelete k => let* b := Delete bt k in ret (Deleted b)
  end.

Fixpoint run_all (bt : BTree) (ops : list kv_op) : M DBImpl (list kv_result) :=
  match ops with
  | [] => ret []
  | op :: ops => let* r := run_kv bt op in let* rs := run_all bt ops in ret (r :: rs)
  end.

Lemma tree_end_end bt : iter_end (tree_end bt) = true.
Proof. unfold iter_end, iter_eq, tree_end, new_iterator. cbn. by rewrite bool_decide_true. Qed.

(** ** What they mean on a map.  A put of an existing key is lost only if its
    value is longer than the old one, and the map has entries of other keys
    that leave no room for it next to them in one leaf of [ps] bytes
    ([Put_same_key]): a map whose entries all fit in a leaf loses nothing. *)
Definition crowded (ps : Z) (m : kvmap) k v : Prop := exists l, NoDup (e_key <$> l) /\
  Forall (fun x => e_key x <> k /\ m !! e_key x = Some (e_value x)) l /\ ps - 18 < fill ps (mkEntry k v false :: l).

Inductive kv_step (ps : Z) : kvmap -> kv_op -> kv_result -> kvmap -> Prop :=
| kv_get m k : kv_step ps m (KvGet k) (Found (m !! k)) m
| kv_put_new m k v : m !! k = None -> kv_step ps m (KvPut k v) Stored (<[k := v]> m)
| kv_put_over m k v w : m !! k = Some w -> kv_step ps m (KvPut k v) Stored (<[k := v]> m)
| kv_put_lost m k v w : m !! k = Some w -> (length w < length v)%nat -> crowded ps m k v -> kv_step ps m (KvPut k v) Stored m
| kv_delete m k : kv_step ps m (KvDelete k) (Deleted (bool_decide (is_Some (m !! k)))) (delete k m).

Inductive kv_steps (ps : Z) : kvmap -> list kv_op -> list kv_result -> kvmap -> Prop :=
| kv_done m : kv_steps ps m [] [] m
| kv_more m op r m1 ops rs m2 : kv_step ps m op r m1 -> kv_steps ps m1 ops rs m2 -> kv_steps ps m (op :: ops) (r :: rs) m2.

(** ** Entries kept in the leaf itself *)
Definition plain (ps : Z) e : Prop := e_bucket e = false /\ inline_entry ps e.

Lemma inline_no_pages ps es : Forall (inline_entry ps) es -> overflow_pages ps es = 0.
Proof.
  induction 1 as [|e es He _ IH]; [done|]. rewrite overflow_pages_cons, IH. unfold entry_pages, store_pages.
  by rewrite (proj2 (Z.ltb_ge _ _)) by exact He.
Qed.

Lemma contents_child h p ks ts t : shape (S h) (Branch p ks ts) -> t ∈ ts -> contents t `sublist_of` contents (Branch p ks ts).
Proof.
  intros (_ & Hlen & _)%shape_Branch (m & Hm)%list_elem_of_lookup. pose proof (lookup_lt_Some _ _ _ Hm).
  rewrite <- (plug1_frame_at p ks ts m t Hm). unfold contents. rewrite trace_plug1 by (apply frame_at_balanced; [done|lia]).
  rewrite !items_entries_app. by apply sublist_inserts_l, sublist_inserts_r.
Qed.

Lemma plain_no_overflow ps h t : shape h t -> Forall (inline_entry ps) (contents t) -> leaf_overflow ps t = 0.
Proof.
  revert h. induction t as [p es|p ks ts IH] using tree_induction; intros [|h] Hs Hc; try done.
  - apply inline_no_pages. unfold contents in Hc. cbn [trace] in Hc. by rewrite items_entries_Ent in Hc.
  - pose proof Hs as Hs0. apply shape_Branch in Hs as (_ & _ & Hts). cbn [leaf_overflow].
    assert (Hall : Forall (fun t => leaf_overflow ps t = 0) ts).
    { rewrite Forall_forall in IH, Hts |- *. intros t Ht. apply (IH t Ht h (Hts t Ht)).
      rewrite Forall_forall in Hc |- *. intros x Hx. apply Hc. by eapply elem_of_sublist; [|apply (contents_child h p ks ts t)]. }
    clear -Hall. induction Hall as [|t ts Ht _ IH]; [done|]. cbn [foldr]. lia.
Qed.

(** A record that is not longer fits where the other was. *)
Lemma shorter_fits d t fs p es n e x : db_inv d -> rep d t -> NoDup (footprint d t) -> t = plug fs (Leaf p es) -> es !! n = Some x ->
  inline_entry (page_size d) e -> inline_entry (page_size d) x -> entry_len e <= entry_len x ->
  (fill (page_size d) (<[n := e]> es) <=? page_size d - 18) = true.
Proof.
  intros Hinv Hr Hnd -> Hx He Hxi Hle. rewrite footprint_plug in Hnd. apply NoDup_app in Hnd as [Hnd _]. apply rep_plug in Hr.
  assert (Hlp : leaf_page d p es).
  { split; [done|by apply Forall_singleton|]. unfold forest_fp. cbn [mbind list_bind]. by rewrite app_nil_r. }
  pose proof (leaf_fits d p es Hlp). apply Z.leb_le. rewrite (fill_insert _ _ _ _ _ Hx).
  unfold entry_cost, record_need, inline_entry in *. rewrite (proj2 (Z.ltb_ge _ (entry_len e))), (proj2 (Z.ltb_ge _ (entry_len x))) by done. lia.
Qed.

(** ** The state of a tree as a map: no page at all, or a tree of entries kept
    in their leaves *)
Definition nodes_of (T : option tree) : list Z := match T with Some t => tree_nodes t | None => [] end.
Definition pages_of d (T : option tree) : list Z := match T with Some t => footprint d t | None => [] end.

Section key_value.
Context (cmp : comparator) (key_ok : list byte -> Prop) {HO : KeyOrder cmp key_ok}.
Context (bt : BTree).

Definition kv_state d (T : option tree) (m : kvmap) : Prop :=
  match T with
  | None => opt_comparator (options d) = cmp /\ db_inv d /\ bt_tx bt = UpdateTxRef /\ tree_root bt d = Ok kPageInvalidId d /\ m = ∅
  | Some t => (exists h, own_tree cmp key_ok d bt t h) /\ Forall (plain (page_size d)) (contents t) /\ m = as_map (contents t)
  end.

(** Keys for the tree and values that stay in the leaf. *)
Definition op_ok (ps : Z) (op : kv_op) : Prop :=
  match op with
  | KvGet k | KvDelete k => key_ok k
  | KvPut k v => key_ok k /\ inline_entry ps (mkEntry k v false)
  end.

(** Free page ids for an operation on a tree of any height. *)
Definition kv_room : Z := 77.

(** What an operation leaves of the environment and of the trees of readers, and
    of the account of pages. *)
Record kv_kept d (T : option tree) d' (T' : option tree) : Prop := {
  kk_inv : db_inv d';
  kk_env : tx_env d' = tx_env d;
  kk_turned : turned d (nodes_of T) (pages_of d T) d' (nodes_of T') (pages_of d' T');
}.

Lemma kv_kept_refl d T : db_inv d -> kv_kept d T d T.
Proof. intros Hinv. split; [done|done|apply turned_refl]. Qed.
Lemma kv_kept_trans d T d1 T1 d2 T2 : kv_kept d T d1 T1 -> kv_kept d1 T1 d2 T2 -> kv_kept d T d2 T2.
Proof. intros [A1 A2 A3] [B1 B2 B3]. split; [done|by rewrite B2|]. by eapply turned_trans. Qed.

Lemma kv_inv d T m : kv_state d T m -> db_inv d.
Proof. destruct T as [t|]; [intros ((h & [[] _ _ _]) & _)|intros (_ & ? & _)]; done. Qed.

(** An operation and what it leaves. *)
Definition kv_does d T m op : Prop := exists r d' T' m', run_kv bt op d = Ok r d' /\ kv_step (page_size d) m op r m' /\ kv_state d' T' m' /\
  kv_kept d T d' T' /\ db_space d - kv_room <= db_space d'.

Lemma kv_stays d T m op r : kv_state d T m -> run_kv bt op d = Ok r d -> kv_step (page_size d) m op r m -> kv_does d T m op.
Proof. intros Hs Hrun Hst. exists r, d, T, m. split_and!; try done; [by eapply kv_kept_refl, kv_inv|unfold kv_room; lia]. Qed.

Lemma kv_result_of d t m op r d' h c l m' : put_result cmp key_ok bt d t d' h c l -> c <= kv_room ->
  Forall (plain (page_size d)) l -> m' = as_map l -> run_kv bt op d = Ok r d' -> kv_step (page_size d) m op r m' -> kv_does d (Some t) m op.
Proof.
  intros [(t' & h' & Hown & _ & Hc & Hk) _ He Hsp] Hle Hpl -> Hrun Hst. exists r, d', (Some t'), (as_map l). split_and!; try done; [|split; try done; apply Hown|lia].
  split; [by exists h'|]. rewrite Hc. split; [|done]. by replace (page_size d') with (page_size d) by (unfold page_size; by rewrite (tx_env_options _ _ He)).
Qed.

(** ** A tree without pages *)
Section no_pages.
Context (d : DBImpl) (Hs : kv_state d None ∅) (Hslim : forall k, key_ok k -> slim (page_size d) k) (Hroom : kv_room <= db_space d).

Lemma no_pages_search k : LowerBound bt k d = Ok (new_iterator bt) d.
Proof. destruct Hs as (_ & _ & _ & Hroot & _). exact (LowerBound_empty bt d (mkEntry k [] false) Hroot). Qed.

Lemma no_pages_ok op : op_ok (page_size d) op -> kv_does d None ∅ op.
Proof.
  pose proof Hs as (Hcmp & Hinv & Htx & Hroot & _). destruct op as [k|k v|k].
  - intros _. apply (kv_stays _ _ _ _ (Found ((∅ : kvmap) !! k)) Hs); [|apply kv_get]. cbn [run_kv]. rewrite lookup_empty.
    assert (HG : Get bt k d = Ok (tree_end bt) d) by (unfold Get; by run_step (no_pages_search k)). run_step HG. by rewrite tree_end_end.
  - intros [Hk Hi]. pose proof (page_size_inv d Hinv) as Hps. destruct (page_size_bounds _ Hps) as [Hr _].
    set (e := mkEntry k v false) in *. pose proof (inline_no_pages (page_size d) [e] (proj2 (Forall_singleton _ _) Hi)) as Hp. cbn [overflow_pages foldr] in Hp.
    assert (Hst : storable (page_size d) e).
    { split; [by apply (thin_short _ _ Hps), slim_thin, Hslim|]. unfold inline_entry in Hi.
      pose proof (Z.div_le_upper_bound (page_size d - 34) 2 (page_size d)). lia. }
    destruct (put_empty cmp key_ok bt d e Hcmp Hinv Htx Hroot Hk Hst) as (g & d' & Hrun & S & Hown & Hturn); [unfold kv_room in *; lia|].
    exists Stored, d', (Some (Leaf g [e])), (<[k := v]> ∅). split_and!.
    + unfold run_kv. by run_step Hrun.
    + apply kv_put_new, lookup_empty.
    + split; [by exists 0%nat|]. split; [|done]. replace (page_size d') with (page_size d) by (symmetry; apply S).
      constructor; [by split|constructor].
    + split; [apply S|apply S|exact Hturn].
    + pose proof (st_space _ _ _ _ S). unfold kv_room in *. lia.
  - intros _. apply (kv_stays _ _ _ _ (Deleted false) Hs).
    + cbn [run_kv]. unfold Delete, bind. by rewrite no_pages_search.
    + rewrite <- (delete_empty k : delete k (∅ : kvmap) = ∅) at 2. rewrite <- (bool_decide_false (is_Some ((∅ : kvmap) !! k))); [apply kv_delete|].
      rewrite lookup_empty. by intros [? ?].
Qed.
End no_pages.

(** ** A tree *)
Section one_tree.
Context (d : DBImpl) (t : tree) (h : nat) (Hown : own_tree cmp key_ok d bt t h) (Hplain : Forall (plain (page_size d)) (contents t)).
Context (Hslim : forall k, key_ok k -> slim (page_size d) k) (Hroom : kv_room <= db_space d).
Let m : kvmap := as_map (contents t).

Lemma tree_state : kv_state d (Some t) m.
Proof. split; [by exists h|done]. Qed.

Lemma plain_len : Forall (fun x => entry_len x < 2 ^ 32) (contents t).
Proof.
  destruct (page_size_bounds _ (page_size_inv d (ta_inv _ _ _ _ _ _ Hown))) as [Hr _]. eapply Forall_impl; [exact Hplain|].
  intros x [_ Hi]. unfold inline_entry in Hi. pose proof (Z.div_le_upper_bound (page_size d - 34) 2 (page_size d)). lia.
Qed.

Lemma tree_overflow : leaf_overflow (page_size d) t = 0.
Proof. apply (plain_no_overflow _ h); [apply Hown|]. eapply Forall_impl; [exact Hplain|]. by intros x []. Qed.

Lemma tree_get k : key_ok k -> kv_does d (Some t) m (KvGet k).
Proof.
  intros Hk. pose proof (Get_ok cmp key_ok bt k Hk d t h Hown) as HG. apply (kv_stays _ _ _ _ (Found (m !! k)) tree_state); [|apply kv_get].
  unfold m. rewrite as_map_lookup. cbn [run_kv]. destruct (find_entry k (contents t)) as [x|].
  - destruct HG as (it & HG & Hend & _ & Hval & _). run_step HG. rewrite Hend. by run_step Hval.
  - run_step HG. by rewrite tree_end_end.
Qed.

Lemma tree_delete k : key_ok k -> kv_does d (Some t) m (KvDelete k).
Proof.
  intros Hk. pose proof (own_tree_height _ _ _ _ _ _ Hown) as Hh. assert (Hc : delete_cost (page_size d) t h <= kv_room).
  { unfold delete_cost, kv_room. rewrite tree_overflow. lia. }
  assert (Hr : delete_room d t h) by (unfold delete_room; lia).
  destruct (find_entry k (contents t)) as [x|] eqn:Hf.
  - destruct (find_entry_key _ _ _ Hf) as [_ Hin]. pose proof Hplain as Hp. rewrite Forall_forall in Hp. destruct (Hp x Hin) as [Hb _].
    destruct (delete_found cmp key_ok bt d t h k Hown Hk Hslim Hr plain_len x Hf Hb) as (d' & Hrun & Hres).
    apply (kv_result_of d t m _ (Deleted true) d' h _ _ (delete k m) Hres Hc); [|by unfold m; rewrite as_map_delete|cbn [run_kv]; by run_step Hrun|].
    + apply Forall_forall. intros y [_ Hy]%list_elem_of_filter. by apply Hp.
    + rewrite <- (bool_decide_true (is_Some (m !! k))); [apply kv_delete|]. unfold m. rewrite as_map_lookup, Hf. by eexists.
  - apply (kv_stays _ _ _ _ (Deleted false) tree_state).
    + cbn [run_kv]. by run_step (delete_missing cmp key_ok bt d t h k Hown Hk Hslim Hr plain_len Hf).
    + assert (Hn : m !! k = None) by (unfold m; by rewrite as_map_lookup, Hf).
      rewrite <- (delete_id m k Hn) at 2. rewrite <- (bool_decide_false (is_Some (m !! k))); [apply kv_delete|]. rewrite Hn. by intros [? ?].
Qed.

(** The other entries of the leaf a put finds too full. *)
Lemma leaf_crowded fs p es n x k v : t = plug fs (Leaf p es) -> Forall balanced fs -> es !! n = Some x -> e_key x = k ->
  (fill (page_size d) (<[n := mkEntry k v false]> es) <=? page_size d - 18) = false -> crowded (page_size d) m k v.
Proof.
  intros Et Hbal Hx Hk Hfull%Z.leb_gt. pose proof (ta_items _ _ _ _ _ _ Hown) as Hit. rewrite Et, (trace_plug fs _ Hbal) in Hit.
  apply items_ok_app in Hit as [_ [Hit _]%items_ok_app]. apply (leaf_keys_sorted cmp key_ok) in Hit as [Hs Hkeys].
  pose proof (sorted_keys_NoDup cmp key_ok _ Hs Hkeys) as Hnd.
  rewrite <- (take_drop_middle _ _ _ Hx), fmap_app, fmap_cons in Hnd.
  exists (take n es ++ drop (S n) es). split_and!.
  - rewrite fmap_app. apply NoDup_app in Hnd as (H1 & H2 & [H3 H4]%NoDup_cons). apply NoDup_app. split_and!; try done.
    intros y Hy Hy'. apply (H2 y Hy). by apply list_elem_of_further.
  - apply Forall_forall. intros y Hy. split.
    + intros Ey. apply NoDup_app in Hnd as (_ & H2 & [H3 _]%NoDup_cons). rewrite Hk, <- Ey in *.
      apply elem_of_app in Hy as [Hy%(list_elem_of_fmap_2 e_key)|Hy%(list_elem_of_fmap_2 e_key)]; [|done]. apply (H2 _ Hy), list_elem_of_here.
    + unfold m. rewrite as_map_lookup, (find_member cmp key_ok y t); [done|apply Hown|]. rewrite Et. unfold contents.
      rewrite (trace_plug fs _ Hbal), !items_entries_app, !elem_of_app. right. left. cbn [trace]. rewrite items_entries_Ent, <- (take_drop_middle _ _ _ Hx).
      apply elem_of_app in Hy. rewrite elem_of_app, elem_of_cons. tauto.
  - rewrite insert_take_drop, fill_app, fill_cons in Hfull by (by eapply lookup_lt_Some). rewrite fill_cons, fill_app. lia.
Qed.

Lemma tree_put k v : op_ok (page_size d) (KvPut k v) -> kv_does d (Some t) m (KvPut k v).
Proof.
  intros [Hk Hi]. pose proof (own_tree_height _ _ _ _ _ _ Hown) as Hh. set (e := mkEntry k v false) in *.
  pose proof (page_size_inv d (ta_inv _ _ _ _ _ _ Hown)) as Hps. destruct (page_size_bounds _ Hps) as [Hpr _].
  pose proof (inline_no_pages (page_size d) [e] (proj2 (Forall_singleton _ _) Hi)) as Hp0. cbn [overflow_pages foldr] in Hp0.
  assert (Hc : put_cost (page_size d) t h e <= kv_room) by (unfold put_cost, kv_room; rewrite tree_overflow; lia).
  assert (Hr : put_room d t h e) by (unfold put_room; lia).
  assert (Hth : forall k, key_ok k -> thin (page_size d) k) by (intros k' Hk'; by apply slim_thin, Hslim).
  assert (Hlen : entry_len e < 2 ^ 32).
  { unfold inline_entry in Hi. pose proof (Z.div_le_upper_bound (page_size d - 34) 2 (page_size d)). lia. }
  assert (Hadd : Forall (plain (page_size d)) (put_entry cmp e (contents t))) by (by apply put_entry_Forall).
  assert (Hmap : as_map (put_entry cmp e (contents t)) = <[k := v]> m) by (by apply (as_map_put cmp key_ok e)).
  destruct (find_entry k (contents t)) as [x|] eqn:Hf.
  - destruct (find_entry_key _ _ _ Hf) as [Hxk Hin]. pose proof Hplain as Hp. rewrite Forall_forall in Hp. destruct (Hp x Hin) as [Hb Hxi].
    assert (Hm : m !! k = Some (e_value x)) by (unfold m; by rewrite as_map_lookup, Hf).
    destruct (put_same cmp key_ok bt d t h e x Hown Hk Hth Hr Hlen Hf Hb Hxi) as (fs & p & es & n & d' & Et & Hx & Hbal & Hrun & Hres).
    assert (Hgo : run_kv bt (KvPut k v) d = Ok Stored d') by (unfold run_kv; by run_step Hrun).
    destruct (_ <=? _) eqn:Efit in Hres.
    + apply (kv_result_of d t m _ Stored d' h _ _ (<[k := v]> m) Hres Hc); [done|by rewrite Hmap|done|by apply (kv_put_over _ _ _ _ (e_value x))].
    + apply (kv_result_of d t m _ Stored d' h _ _ m Hres Hc); [done|done|done|]. apply (kv_put_lost _ _ _ _ (e_value x)); [done| |].
      * apply Nat.nle_gt. intros Hle. rewrite (shorter_fits d t fs p es n e x) in Efit; try done; try apply Hown.
        unfold entry_len. rewrite Hxk. cbn [e e_key e_value]. lia.
      * by apply (leaf_crowded fs p es n x k v).
  - destruct (put_new cmp key_ok bt d t h e Hown Hk Hth Hr ltac:(constructor; [done|apply plain_len]) false Hf) as (d' & Hrun & Hres).
    apply (kv_result_of d t m _ Stored d' h _ _ (<[k := v]> m) Hres Hc); [done|by rewrite Hmap|unfold run_kv, Put; by run_step Hrun|].
    apply kv_put_new. unfold m. by rewrite as_map_lookup, Hf.
Qed.
End one_tree.

Lemma kv_op_ok d T m op : kv_state d T m -> op_ok (page_size d) op -> (forall k, key_ok k -> slim (page_size d) k) ->
  kv_room <= db_space d -> kv_does d T m op.
Proof.
  intros Hs Hop Hslim Hroom. destruct T as [t|].
  - destruct Hs as ((h & Hown) & Hpl & ->). destruct op as [k|k v|k];
      [apply (tree_get d t h)|apply (tree_put d t h)|apply (tree_delete d t h)]; done.
  - pose proof Hs as (_ & _ & _ & _ & ->). by apply no_pages_ok.
Qed.

(** ** Any sequence of operations *)
Lemma run_all_ok ops : forall d T m,
  kv_state d T m -> Forall (op_ok (page_size d)) ops -> (forall k, key_ok k -> slim (page_size d) k) ->
  kv_room * Z.of_nat (length ops) <= db_space d ->
  exists rs d' T' m', run_all bt ops d = Ok rs d' /\ kv_steps (page_size d) m ops rs m' /\ kv_state d' T' m' /\ kv_kept d T d' T'.
Proof.
  induction ops as [|op ops IH]; intros d T m Hs Hops Hslim Hroom.
  - exists [], d, T, m. split_and!; try done; [constructor|by eapply kv_kept_refl, kv_inv].
  - apply Forall_cons in Hops as [Hop Hops]. cbn [length] in Hroom. unfold kv_room in *.
    destruct (kv_op_ok d T m op Hs Hop Hslim) as (r & d1 & T1 & m1 & Hrun & Hst & Hs1 & Hk & Hsp); [unfold kv_room; lia|].
    unfold kv_room in Hsp.
    assert (Hps : page_size d1 = page_size d) by (unfold page_size; by rewrite (tx_env_options _ _ (kk_env _ _ _ _ Hk))).
    destruct (IH d1 T1 m1 Hs1) as (rs & d2 & T2 & m2 & Hrun2 & Hst2 & Hs2 & Hk2); rewrite ?Hps; try done; [lia|].
    exists (r :: rs), d2, T2, m2. split_and!; try done.
    + cbn [run_all]. run_step Hrun. by run_step Hrun2.
    + rewrite Hps in Hst2. by econstructor.
    + by eapply kv_kept_trans.
Qed.

(** C3: any sequence of [Get], [Put] and [Delete] on a tree of the open write
    transaction, from a tree without pages on, with keys of a tenth of a page
    and values kept in their leaves, succeeds and returns what the machine of
    maps [kv_steps] returns, and the tree it leaves holds the map that leaves.
    The machine may lose a put in one case: an existing key, a longer value, and
    other entries that would overfill a leaf together with it.  The trees of
    readers are what they were, and stay apart from the new tree. *)
Theorem key_value_refines ops d T m :
  kv_state d T m -> Forall (op_ok (page_size d)) ops -> (forall k, key_ok k -> slim (page_size d) k) ->
  kv_room * Z.of_nat (length ops) <= db_space d ->
  exists rs d' T' m', run_all bt ops d = Ok rs d' /\ kv_steps (page_size d) m ops rs m' /\ kv_state d' T' m' /\ kv_kept d T d' T'.
Proof. exact (run_all_ok ops d T m). Qed.
End key_value.
