(* ===== verification/Peeks.v ===== *)
(** Programs that only read, and only the file, the options and the views'
    transactions: what a search in a view's tree is, whoever is writing.
    [peeks] says that a program leaves the database as it is, and does the same
    on every database that agrees on those. *)
From S2P Require Import Prelude Format Comparator State Memory FreeMap Pager PagerI PagerInst Node Tx Iterator BTree KeyValue.

Implicit Types (d : DBImpl).

Record same_reads d d' : Prop := {
  sr_options : options d' = options d;
  sr_map : db_map d' = db_map d;
  sr_views : view_txs d' = view_txs d;
}.

(** ** Programs over a state with a database in it, from states where [P] *)
Section peeks.
Context {S : Type} (l : lens S DBImpl) (P : S -> Prop).

Definition peeks {A} (m : M S A) : Prop := forall s d', P s -> same_reads (lget l s) d' ->
  match m s with
  | Ok a s1 => (P s1 /\ lget l s1 = lget l s) /\ m (lset l d' s) = Ok a (lset l d' s1)
  | Throw e s1 => (P s1 /\ lget l s1 = lget l s) /\ m (lset l d' s) = Throw e (lset l d' s1)
  | Fault w => m (lset l d' s) = Fault w
  end.

Lemma peeks_ret {A} (a : A) : peeks (ret a).
Proof. done. Qed.
Lemma peeks_throw {A} e : peeks (throw (A := A) e).
Proof. done. Qed.
Lemma peeks_stuck {A} w : peeks (stuck (A := A) w).
Proof. done. Qed.
Lemma peeks_assert b : peeks (assertM b).
Proof. by destruct b. Qed.
Lemma peeks_bind {A B} (m : M S A) (k : A -> M S B) : peeks m -> (forall a, peeks (k a)) -> peeks (bind m k).
Proof.
  intros Hm Hk s d' Hs Hd. unfold bind. specialize (Hm s d' Hs Hd). destruct (m s) as [a s1|e s1|w].
  - destruct Hm as [[Hs1 E] ->]. specialize (Hk a s1 d' Hs1). rewrite E in Hk. exact (Hk Hd).
  - destruct Hm as [E ->]. done.
  - by rewrite Hm.
Qed.
Lemma peeks_gets {A} (g : S -> A) : (forall s d', same_reads (lget l s) d' -> g (lset l d' s) = g s) -> peeks (gets g).
Proof. intros Hg s d' Hs Hd. unfold gets. by rewrite Hg. Qed.
End peeks.

Definition db_lens : lens DBImpl DBImpl := mkLens id (fun d _ => d).
Definition beside_lens {X} : lens (X * DBImpl) DBImpl := mkLens snd (fun d x => (x.1, d)).
Abbreviation peeks_db m := (peeks db_lens (fun _ => True) m).
Abbreviation peeks_on m := (peeks beside_lens (fun _ => True) m).

Create HintDb peeks.
#[export] Hint Resolve peeks_ret peeks_throw peeks_stuck peeks_assert : peeks.

Ltac peeks_step :=
  first
    [ assumption
    | solve [eauto 1 with peeks]
    | apply peeks_bind; [|intros ?]
    | match goal with |- peeks _ _ (match ?x with _ => _ end) => destruct x end ].
Ltac peeks := repeat peeks_step.

Lemma peeks_ok {A} (m : M DBImpl A) d d' a d1 : peeks_db m -> same_reads d d' -> m d = Ok a d1 -> d1 = d /\ m d' = Ok a d'.
Proof. intros Hm Hd E. specialize (Hm d d' I Hd). rewrite E in Hm. destruct Hm as [[_ H] H']. by split. Qed.

Lemma peeks_inside {A X} (P : X * DBImpl -> Prop) (m : M DBImpl A) : peeks_db m -> peeks beside_lens P (zoom (beside_lens (X := X)) m).
Proof.
  intros Hm [x d] d' Hx Hd. unfold zoom. cbn. specialize (Hm d d' I Hd). cbn in Hm. destruct (m d) as [a s1|e s1|w].
  - by destruct Hm as [[_ ->] ->].
  - by destruct Hm as [[_ ->] ->].
  - by rewrite Hm.
Qed.
Lemma peeks_beside {X A} (m : M (X * DBImpl) A) : (forall x d d', same_reads d d' ->
    match m (x, d) with
    | Ok a (x1, d1) => d1 = d /\ m (x, d') = Ok a (x1, d')
    | Throw e (x1, d1) => d1 = d /\ m (x, d') = Throw e (x1, d')
    | Fault w => m (x, d') = Fault w
    end) -> peeks_on m.
Proof.
  intros H [x d] d' _ Hd. specialize (H x d d' Hd). cbn. destruct (m (x, d)) as [a [x1 d1]|e [x1 d1]|w]; [by destruct H as [-> ->]..|done].
Qed.

(** ** Nodes *)
#[local] Abbreviation NodeOp A := (NodeM (St := DBImpl) A).

Lemma same_page_size d d' : same_reads d d' -> page_size d' = page_size d.
Proof. intros [Ho _ _]. unfold page_size. by rewrite Ho. Qed.

Lemma peeks_read g n : peeks_db (pg_read g n).
Proof.
  intros d d' _ Hd. cbn in *. unfold bind, gets, read_at, peek_at. rewrite (same_page_size _ _ Hd), (sr_map _ _ Hd).
  by destruct (_ && _).
Qed.
Lemma peeks_pager_read g n : peeks_on (on_pager (pg_read g n) : NodeOp (list byte)).
Proof. apply peeks_inside, peeks_read. Qed.
Lemma peeks_data : peeks_on (data : NodeOp NodeData).
Proof. by apply peeks_gets. Qed.
Lemma peeks_get_slot i : peeks_on (get_slot i : NodeOp Slot).
Proof. apply peeks_beside. intros nd d d' _. unfold get_slot. cbn. by destruct (nth_slot i nd). Qed.
Lemma peeks_read_record o n : peeks_on (read_record o n : NodeOp (list byte)).
Proof. apply peeks_beside. intros nd d d' _. unfold read_record. cbn. by destruct (_ && _). Qed.
#[local] Hint Resolve peeks_pager_read peeks_data peeks_get_slot peeks_read_record : peeks.

Lemma peeks_GetRawRecordPtr i : peeks_on (GetRawRecordPtr i : NodeOp Z).
Proof. unfold GetRawRecordPtr. peeks. Qed.
#[local] Hint Resolve peeks_GetRawRecordPtr : peeks.
Lemma peeks_record_span i o n : peeks_on (record_span i o n : NodeOp span).
Proof. unfold record_span. peeks. Qed.
Lemma peeks_load_span k : peeks_on (load_span k : NodeOp (list byte)).
Proof. unfold load_span. peeks. Qed.
#[local] Hint Resolve peeks_record_span peeks_load_span : peeks.
Lemma peeks_key_at i : peeks_on (key_at i : NodeOp (list byte)).
Proof. unfold key_at, GetKey. peeks. Qed.
Lemma peeks_value_at i : peeks_on (value_at i : NodeOp (list byte)).
Proof. unfold value_at, GetValue. peeks. Qed.
#[local] Hint Resolve peeks_key_at : peeks.
Lemma peeks_Node_LowerBound cmp k : peeks_on (Node_LowerBound cmp k : NodeOp (Z * bool)).
Proof.
  unfold Node_LowerBound. apply peeks_bind; [apply peeks_data|]. intros nd. generalize (Datatypes.S (Z.to_nat (count nd))) as n. intros n.
  generalize 0 (count nd) false. induction n as [|n IH]; intros a b eq; cbn [lower_bound_loop]; peeks.
Qed.
Lemma peeks_GetLeftChild i : peeks_on (GetLeftChild i : NodeOp Z).
Proof. unfold GetLeftChild, GetTailChild. peeks. Qed.

(** On the pages of the file. *)
Lemma peeks_Reference p : peeks_db (Reference p).
Proof.
  intros d d' _ Hd. cbn in *. unfold Reference. rewrite (same_page_size _ _ Hd), (sr_map _ _ Hd). destruct (_ && _); [|done]. by destruct (_ <=? _).
Qed.
Lemma peeks_look {A} p (op : NodeOp A) : peeks_on op -> peeks_db (look p op).
Proof.
  intros Hop d d' _ Hd. unfold look. pose proof (peeks_Reference p d d' I Hd) as Hr. cbn in *. destruct (Reference p d) as [nd d1|e d1|]; [|by destruct Hr as [[_ ->] ->]|by rewrite Hr].
  destruct Hr as [[_ ->] ->]. specialize (Hop (nd, d) d' I Hd). cbn in Hop. destruct (op (nd, d)) as [a [x d1]|e [x d1]|]; cbn in Hop; [by destruct Hop as [[_ ->] ->]..|by rewrite Hop].
Qed.
Lemma peeks_new_node p : peeks_db (new_node p).
Proof. unfold new_node. apply peeks_bind; [apply peeks_Reference|]. intros _. peeks. Qed.
#[export] Hint Resolve peeks_Node_LowerBound peeks_GetLeftChild peeks_key_at peeks_value_at peeks_new_node : peeks.

Lemma peeks_node_bits p : peeks_db (node_is_leaf p) /\ peeks_db (node_is_branch p) /\ peeks_db (node_count p).
Proof. split_and!; apply peeks_look; by apply peeks_gets. Qed.

(** ** The iterator, on a view's tree *)
Section view.
Context (h : nat) (root : RootRef).
Let bt : BTree := mkBTree (ViewTxRef h) root.
Let at_tree (x : BTreeIterator * DBImpl) : Prop := it_btree x.1 = bt.
Abbreviation peeks_it m := (peeks beside_lens at_tree m).

Lemma peeks_on_db {A} (m : M DBImpl A) : peeks_db m -> peeks_it (on_db m).
Proof. apply peeks_inside. Qed.
Lemma peeks_iter {A} (k : BTreeIterator -> IterM A) : (forall it, it_btree it = bt -> peeks_it (k it)) -> peeks_it (bind iter k).
Proof. intros Hk [it d] d' Hx Hd. exact (Hk it Hx (it, d) d' Hx Hd). Qed.
Lemma peeks_on_iter f : (forall it, it_btree (f it) = it_btree it) -> peeks_it (on_iter f).
Proof. intros Hf [it d] d' Hx _. split; [|done]. split; [|done]. unfold at_tree in *. cbn in *. by rewrite Hf. Qed.
Lemma peeks_look_db {A} p (op : NodeM (St := DBImpl) A) : peeks_on op -> peeks_it (on_db (look p op)).
Proof. intros Hop. by apply peeks_on_db, peeks_look. Qed.
Lemma peeks_reads p : peeks_it (on_db (node_is_leaf p)) /\ peeks_it (on_db (node_is_branch p)) /\ peeks_it (on_db (node_count p)) /\
  peeks_it (on_db (new_node p)) /\ peeks_it (on_db (look p GetTailChild)) /\ forall i, peeks_it (on_db (look p (GetLeftChild i))).
Proof.
  destruct (peeks_node_bits p) as (H1 & H2 & H3). split_and!; try by apply peeks_on_db.
  - apply peeks_on_db, peeks_new_node.
  - apply peeks_look_db. unfold GetTailChild. peeks.
  - intros i. apply peeks_look_db, peeks_GetLeftChild.
Qed.
#[local] Hint Extern 1 (peeks _ _ (on_db (node_is_leaf _))) => apply peeks_reads : peeks.
#[local] Hint Extern 1 (peeks _ _ (on_db (node_is_branch _))) => apply peeks_reads : peeks.
#[local] Hint Extern 1 (peeks _ _ (on_db (node_count _))) => apply peeks_reads : peeks.
#[local] Hint Extern 1 (peeks _ _ (on_db (new_node _))) => apply peeks_reads : peeks.
#[local] Hint Extern 1 (peeks _ _ (on_db (look _ (GetLeftChild _)))) => apply peeks_reads : peeks.
#[local] Hint Extern 1 (peeks _ _ (on_iter _)) => apply peeks_on_iter; intros ?; reflexivity : peeks.

Lemma peeks_Push e : peeks_it (Push e).
Proof. unfold Push. apply peeks_iter. intros it _. peeks. Qed.
#[local] Hint Resolve peeks_Push : peeks.

Lemma peeks_GetLeafNode : peeks_it GetLeafNode.
Proof. unfold GetLeafNode. apply peeks_iter. intros it _. peeks. Qed.
Lemma peeks_iter_value : peeks_it iter_value.
Proof.
  unfold iter_value. apply peeks_bind; [apply peeks_GetLeafNode|]. intros [p i]. apply peeks_look_db, peeks_value_at.
Qed.

Lemma peeks_with_iterator {A} it (m : IterM A) : it_btree it = bt -> peeks_it m -> peeks_db (with_iterator it m).
Proof.
  intros Hit Hm d d' _ Hd. unfold with_iterator. specialize (Hm (it, d) d' Hit Hd). cbn in *.
  destruct (m (it, d)) as [a [x d1]|e [x d1]|]; cbn in Hm; [by destruct Hm as [[_ ->] ->]..|by rewrite Hm].
Qed.

Lemma peeks_set_search_status p i c eq : peeks_it (set_search_status p i c eq).
Proof. unfold set_search_status. peeks. Qed.
#[local] Hint Resolve peeks_set_search_status : peeks.

Lemma peeks_comparator : peeks_it (on_db (gets (fun d => opt_comparator (options d)))).
Proof. apply peeks_on_db, peeks_gets. intros d d' [Ho _ _]. cbn in *. by rewrite Ho. Qed.
#[local] Hint Resolve peeks_comparator : peeks.

Lemma peeks_get_tx : peeks_db (get_tx (ViewTxRef h)).
Proof. intros d d' _ Hd. cbn in *. rewrite (sr_views _ _ Hd). by destruct (view_txs d !! h) as [[t|]|]. Qed.
Lemma peeks_at_bucket i : peeks_db (at_bucket (ViewTxRef h) i).
Proof. unfold at_bucket. apply peeks_bind; [apply peeks_get_tx|]. intros t. peeks. Qed.
Lemma peeks_tree_root : peeks_db (tree_root bt).
Proof.
  unfold tree_root. cbn [bt bt_tx bt_root]. unfold get_root. destruct root.
  - apply peeks_bind; [apply peeks_get_tx|]. intros t. peeks.
  - apply peeks_bind; [apply peeks_at_bucket|]. intros b. peeks.
Qed.

Lemma peeks_Down key : peeks_it (Down key).
Proof.
  unfold Down. apply peeks_iter. intros it Hit. rewrite Hit. apply peeks_bind.
  - destruct (it_stack it) as [|[parent slot] st]; [|peeks].
    apply peeks_bind; [apply peeks_on_db, peeks_tree_root|]. intros r. peeks.
  - intros [p|]; [|peeks]. do 5 (apply peeks_bind; [solve [peeks]|intros ?]).
    apply peeks_bind; [|intros ?; peeks]. destruct (0 <? a2); [|peeks].
    apply peeks_bind; [apply peeks_look_db, peeks_Node_LowerBound|]. intros [i eq]. peeks.
Qed.
Lemma peeks_descend n key : peeks_it (descend n key).
Proof. induction n as [|n IH]; cbn [descend]; [peeks|]. apply peeks_bind; [apply peeks_Down|]. intros [|]; [exact IH|peeks]. Qed.

Lemma peeks_Get key : peeks_db (Get bt key).
Proof.
  unfold Get, LowerBound. apply peeks_bind; [|intros it; peeks]. apply peeks_bind; [|intros [u it]; peeks].
  apply peeks_with_iterator; [done|]. apply peeks_bind; [apply peeks_Down|]. intros [|]; [apply peeks_descend|peeks].
Qed.

Lemma Get_on_tree key d it d1 : Get bt key d = Ok it d1 -> it_btree it = bt.
Proof.
  unfold Get, LowerBound. set (m := bind (Top key) _). assert (Hm : peeks_it m).
  { apply peeks_bind; [apply peeks_Down|]. intros [|]; [apply peeks_descend|peeks]. }
  specialize (Hm (new_iterator bt, d) d eq_refl ltac:(by split)). unfold bind, with_iterator, ret.
  destruct (m (new_iterator bt, d)) as [a [x d2]|e [x d2]|]; [|done|done]. destruct Hm as [[Hx _] _]. intros [= <- _]. by case_bool_decide.
Qed.

(** A lookup in a view's tree. *)
Lemma view_get key d d' r d1 : same_reads d d' -> run_kv bt (KvGet key) d = Ok r d1 -> d1 = d /\ run_kv bt (KvGet key) d' = Ok r d'.
Proof.
  intros Hd. cbn [run_kv]. unfold bind at 1. destruct (Get bt key d) as [it d2|e d2|] eqn:EG; [|done|done].
  destruct (peeks_ok _ _ _ _ _ (peeks_Get key) Hd EG) as [-> EG']. pose proof (Get_on_tree _ _ _ _ EG) as Hit.
  unfold bind at 2. rewrite EG'. apply peeks_ok; [|done]. destruct (iter_end it); [peeks|].
  apply peeks_bind; [by apply peeks_with_iterator, peeks_iter_value|]. intros [v it']. peeks.
Qed.
End view.
