(* ===== verification/PutSamples.v ===== *)
(** The theorems on [Put] and [Insert] at the sample tree. *)
From S2P Require Import Prelude Format Comparator State Memory FreeMap Pager PagerI PagerInst.
From S2P Require Import Node NodeWf NodeSpec Sample Search BranchSpec Tx Iterator BTree NodeDb Tree TreeSearch TreeGet SampleTree TreeWalk Copying.
From S2P Require Import TreeSteps Forest LeafPage LeafSplit BranchPage BranchSplit Rebuild PutUp PutTree PutOrder PutTheorems PutSame.

(** Keys of which a branch of 256 bytes takes four. *)
Definition thin_key (k : list byte) : Prop := (length k <= 40)%nat.

Lemma KeyOrder_weaken cmp (P Q : list byte -> Prop) : (forall k, Q k -> P k) -> KeyOrder cmp P -> KeyOrder cmp Q.
Proof. intros H [K1 K2 K3 K4]. split; eauto. Qed.

#[export] Instance thin_key_order : KeyOrder ByteArrayComparator thin_key.
Proof.
  apply (KeyOrder_weaken _ short_key); [|apply _]. unfold thin_key, short_key, kKeyMaxSize. lia.
Qed.

Lemma sample_key_thin x : thin_key [x].
Proof. unfold thin_key. cbn. lia. Qed.
Lemma thin_key_256 k : thin_key k -> thin (page_size tree_db) k.
Proof. unfold thin_key, thin, key_cost. change (page_size tree_db) with 256. lia. Qed.

(** The sample tree, for any bound on keys that one byte meets. *)
Lemma sample_own_tree_of (P : list byte -> Prop) : (forall x, P [x]) -> own_tree ByteArrayComparator P tree_db sample_bt sample_tree 1.
Proof.
  intros HP. pose proof sample_tree_at as H. split; [split|reflexivity| |].
  - exact (ta_cmp _ _ _ _ _ _ H).
  - exact (ta_inv _ _ _ _ _ _ H).
  - exact (ta_rep _ _ _ _ _ _ H).
  - exact (ta_root _ _ _ _ _ _ H).
  - exact (ta_shape _ _ _ _ _ _ H).
  - exact (ta_height _ _ _ _ _ _ H).
  - split; [exact (proj1 (ta_items _ _ _ _ _ _ H))|]. change (trace sample_tree) with sample_trace. unfold sample_trace.
    repeat (apply Forall_cons_2; [apply HP|]). apply Forall_nil_2.
  - apply (bool_decide_unpack _). by vm_compute.
  - apply own_closed_Branch. apply Forall_pair; (split; [|done]); intros Ho; vm_compute in Ho; discriminate.
Qed.
Lemma sample_own_tree : own_tree ByteArrayComparator thin_key tree_db sample_bt sample_tree 1.
Proof. exact (sample_own_tree_of thin_key sample_key_thin). Qed.

Lemma sample_room (v : list byte) (x : byte) b :
  (length v <= 100)%nat -> put_room tree_db sample_tree 1 (mkEntry [x] v b) /\
  Forall (fun y => entry_len y < 2 ^ 32) (mkEntry [x] v b :: contents sample_tree).
Proof.
  intros Hv. split.
  - unfold put_room, put_cost. change (db_space tree_db) with 16777209. change (leaf_overflow (page_size tree_db) sample_tree) with 0.
    assert (entry_pages (page_size tree_db) (mkEntry [x] v b) = 0) as ->; [|lia].
    unfold entry_pages, store_pages, entry_len. change ((page_size tree_db - 34) / 2) with 111. cbn [e_key e_value length].
    by rewrite (proj2 (Z.ltb_ge _ _)) by lia.
  - constructor; [unfold entry_len; cbn [e_key e_value length]; lia|].
    change (contents sample_tree) with [small x61 x01; small x62 x02; small x63 x03; small x65 x05].
    repeat (apply Forall_cons_2; [done|]). apply Forall_nil_2.
Qed.

Lemma Put_new_key_witness :
  exists d', Put sample_bt [x64] [x04] false tree_db = Ok tt d' /\
    put_result ByteArrayComparator thin_key sample_bt tree_db sample_tree d' 1 5
      [small x61 x01; small x62 x02; small x63 x03; small x64 x04; small x65 x05].
Proof.
  destruct (sample_room [x04] x64 false) as [Hroom Hlen]; [cbn; lia|].
  exact (proj1 (Put_new_key ByteArrayComparator thin_key sample_bt tree_db sample_tree 1 (small x64 x04) sample_own_tree
    (sample_key_thin x64) thin_key_256 Hroom Hlen eq_refl)).
Defined.

Lemma Put_same_key_witness :
  exists d', Put sample_bt [x63] [x33] false tree_db = Ok tt d' /\
    exists l, put_result ByteArrayComparator thin_key sample_bt tree_db sample_tree d' 1 5 l.
Proof.
  destruct (sample_room [x33] x63 false) as [Hroom Hlen]; [cbn; lia|]. apply Forall_cons in Hlen as [Hlen _].
  destruct (Put_same_key ByteArrayComparator thin_key sample_bt tree_db sample_tree 1 (small x63 x33) (small x63 x03) sample_own_tree
    (sample_key_thin x63) thin_key_256 Hroom Hlen eq_refl eq_refl) as (fs & p & es & n & d' & _ & _ & Hput & Hres).
  - unfold inline_entry. vm_compute. discriminate.
  - exists d'. split; [exact Hput|]. eexists. exact Hres.
Defined.

(** The sample database with no tree. *)
Definition empty_tx : TxImpl :=
  mkTx (set_user_root kPageInvalidId sample_meta) true (mkBucket kUserRootBucketId true UserRoot None) [].
Definition empty_db : DBImpl := set_tx_manager (mkTxManager kTxInvalidId (Some empty_tx) [] 6) sample_db.

Lemma empty_inv : db_inv empty_db.
Proof.
  destruct sample_alloc_wf as [_ H2 H3 H4 H5 H6 H7 H8]. split; [by exists empty_tx|].
  intros q p Hq. cbn in Hq. by rewrite lookup_empty in Hq.
Qed.

Lemma Put_empty_tree_witness :
  exists d', Put sample_bt [x61] [x01] false empty_db = Ok tt d' /\
    exists t', own_tree ByteArrayComparator thin_key d' sample_bt t' 0 /\ contents t' = [small x61 x01].
Proof.
  destruct (Put_empty_tree ByteArrayComparator thin_key sample_bt empty_db (small x61 x01) eq_refl empty_inv eq_refl eq_refl
    (sample_key_thin x61)) as (d' & Hput & _ & _ & Ht).
  - split; vm_compute; [discriminate|reflexivity].
  - vm_compute. discriminate.
  - exists d'. split; [exact Hput|exact Ht].
Defined.
