(* ===== verification/DeleteSamples.v ===== *)
(** The theorem on [Delete] at the sample tree. *)
From S2P Require Import Prelude Format Comparator State Memory FreeMap Pager PagerI PagerInst.
From S2P Require Import Node NodeWf NodeSpec Sample Search BranchSpec Tx Iterator BTree NodeDb Tree TreeSearch TreeGet SampleTree TreeWalk Copying.
From S2P Require Import TreeSteps Forest LeafPage LeafSplit BranchPage BranchSplit Rebuild PutUp PutTree PutOrder PutTheorems PutSame PutSamples.
From S2P Require Import Holes Siblings DeleteUp DeleteLeaf DeleteTheorems.

(** Keys of which a branch of 256 bytes takes ten. *)
Definition slim_key (k : list byte) : Prop := (length k <= 15)%nat.

#[export] Instance slim_key_order : KeyOrder ByteArrayComparator slim_key.
Proof. apply (KeyOrder_weaken _ thin_key); [|apply _]. unfold slim_key, thin_key. lia. Qed.

Lemma slim_key_256 k : slim_key k -> slim (page_size tree_db) k.
Proof. unfold slim_key, slim, key_cost. change (page_size tree_db) with 256. lia. Qed.
Lemma sample_key_slim x : slim_key [x].
Proof. unfold slim_key. cbn. lia. Qed.

(** The leaf is left with one entry and its sibling has two: they are merged,
    and the root, which has no key any more, gives way to the merged leaf. *)
Lemma Delete_key_witness :
  exists d', Delete sample_bt [x63] tree_db = Ok true d' /\
    put_result ByteArrayComparator slim_key sample_bt tree_db sample_tree d' 1 8 [small x61 x01; small x62 x02; small x65 x05].
Proof.
  destruct (sample_room [] x63 false) as [_ Hlen]; [cbn; lia|]. apply Forall_cons in Hlen as [_ Hlen].
  refine (proj1 (Delete_key ByteArrayComparator slim_key sample_bt tree_db sample_tree 1 [x63]
    (sample_own_tree_of slim_key sample_key_slim) (sample_key_slim x63) slim_key_256 _ Hlen) (small x63 x03) eq_refl eq_refl).
  unfold delete_room, delete_cost. change (db_space tree_db) with 16777209. change (leaf_overflow (page_size tree_db) sample_tree) with 0. lia.
Defined.
