(* ===== verification/PagerTheorems.v ===== *)
(** What the pager promises ([src/pager.cpp]): allocation, delayed release,
    rollback, and the saved free list. *)
From S2P Require Import Prelude Format Comparator State Memory FreeMap Pager PagerI PagerInst.
From S2P Require Import NodeWf NodeSpec NodeDb Sample.

Implicit Types (d : DBImpl) (p : Pager) (tx : TxImpl).

(** ** Allocation *)

(** C12: [Alloc] returns pages that nobody uses, past the two meta pages; after
    it those pages, and no others, are in use besides the ones that were; it
    changes no byte of the file, and keeps the pager's invariant. *)
Theorem Alloc_fresh d tx n :
  alloc_wf d tx -> 0 < n -> (m_page_count (meta_format tx) + n) * page_size d < 2 ^ 32 ->
  exists pgid d' tx', Alloc n d = Ok pgid d' /\ alloc_wf d' tx' /\ 2 <= pgid /\
    (forall q, pgid <= q < pgid + n -> ~ in_use d tx q) /\
    (forall q, in_use d' tx' q <-> in_use d tx q \/ pgid <= q < pgid + n) /\
    file_pages (db_map d') = file_pages (db_map d) /\
    pending_map (pager d') = pending_map (pager d).
Proof.
  intros Hwf Hn Hlim.
  destruct (Alloc_spec d tx n Hwf Hn Hlim) as (g & d' & tx' & HA & Hwf' & Hfr & Hg & _ & _ & Hfresh & Hused).
  exists g, d', tx'. split_and!; try done; apply Hfr.
Qed.

(** C21: [FreeToMap] adds exactly the given pages to the free map, joining them
    with the ranges next to them; it steps an iterator before [begin()] exactly
    when the first free range starts where the given pages end. *)
Theorem FreeToMap_exact pgid n p :
  free_wf p -> 0 <= pgid -> 0 < n -> pgid + n <= kPageInvalidId ->
  (forall q, pgid <= q < pgid + n -> ~ covers (free_map p) q) ->
  match FreeToMap pgid n p with
  | Ok _ p' => free_wf p' /\ pending_map p' = pending_map p /\
      (forall q, covers (free_map p') q <-> covers (free_map p) q \/ pgid <= q < pgid + n)
  | Throw _ _ => False
  | Fault w => w = BadIterator
  end /\
  (FreeToMap pgid n p = Fault BadIterator <-> exists c fm, free_map p = (pgid + n, c) :: fm).
Proof.
  intros Hwf Hp Hn Hlim Hdis. pose proof (FreeToMap_spec pgid n p Hwf Hp Hn Hlim Hdis) as H.
  split; [destruct (FreeToMap pgid n p); [|done|apply H]; split_and!; apply H|].
  rewrite (FreeToMap_fault pgid n p) by done. apply lowest_first, Hwf.
Qed.

(** ** Delayed release *)

(** C13: [Release] gives back exactly the pages freed by transactions before
    the given one, and leaves the lists of the others pending; it steps an
    iterator before [begin()] exactly when one of the ranges it gives back, in
    their order, ends where the lowest page free by then starts. *)
Theorem Release_exact t p :
  free_wf p -> disjoint_pairs (released t (pending_map p)) ->
  (forall q, covers (released t (pending_map p)) q -> ~ covers (free_map p) q) ->
  match Release t p with
  | Ok _ p' => free_wf p' /\ pending_map p' = kept t (pending_map p) /\ alloc_records p' = [] /\
      forall q, covers (free_map p') q <-> covers (free_map p) q \/ covers (released t (pending_map p)) q
  | Throw _ _ => False
  | Fault w => w = BadIterator
  end /\
  (Release t p = Fault BadIterator <-> runs_into (covers (free_map p)) (released t (pending_map p))).
Proof. intros Hwf Hd Hn. split; [by apply Release_spec|by apply Release_fault]. Qed.

(** ** Rollback *)

(** The steps of a write transaction, as the pager sees them. *)
Inductive tx_step : DBImpl -> DBImpl -> Prop :=
| step_alloc n pgid d d' : 0 < n -> Alloc n d = Ok pgid d' -> tx_step d d'
| step_free g n d d' : Free g n d = Ok tt d' -> tx_step d d'
| step_other d d' : pager d' = pager d -> update_txid d' = update_txid d -> tx_step d d'.

(** What every step of the transaction [t] keeps. *)
Definition rollback_inv (base : Z -> Prop) (pending : list (Z * list (Z * Z))) (t : Z) d : Prop :=
  tx_allocs base (pager d) /\ map_erase t (pending_map (pager d)) = pending /\ update_txid d = Some t.

(** The pager after an allocation: as it was, or as [AllocFromMap] leaves it. *)
Lemma Alloc_pager n pgid d d' :
  free_wf (pager d) -> 0 < n -> Alloc n d = Ok pgid d' ->
  (pager d' = pager d \/ AllocFromMap n (pager d) = Ok pgid (pager d')) /\ update_txid d' = update_txid d.
Proof.
  intros Hwf Hn. unfold Alloc, get_update_tx, update_txid, bind at 1.
  destruct (update_tx (tx_manager d)) as [tx|] eqn:Htx; [|done]. unfold bind at 1, zoom. cbn [lget lset pager_lens].
  pose proof (AllocFromMap_spec n (pager d) Hwf Hn) as Hspec.
  destruct (AllocFromMap n (pager d)) as [g p'| |] eqn:E; [|done|done].
  destruct (Z.eqb_spec g kPageInvalidId) as [->|Hne].
  - destruct Hspec as [-> _]. case_match; [done|]. unfold put_update_tx, bind, modify, gets. cbn.
    unfold Remmap, bind, gets, assertM, modify, ret.
    repeat case_match; try done; intros [= <- <-]; repeat case_match; simplify_eq; cbn; auto.
  - intros [= <- <-]. cbn. rewrite Htx. auto.
Qed.

Lemma Alloc_allocs base n pgid d d' :
  tx_allocs base (pager d) -> 0 < n -> Alloc n d = Ok pgid d' ->
  tx_allocs base (pager d') /\ pending_map (pager d') = pending_map (pager d) /\ update_txid d' = update_txid d.
Proof.
  intros Hb Hn HA. destruct (Alloc_pager n pgid d d' (proj1 Hb) Hn HA) as [[->|E] Ht]; [done|].
  destruct (tx_allocs_alloc base n (pager d) pgid (pager d') Hb Hn E). done.
Qed.

Lemma tx_step_inv base pending t d d' :
  tx_step d d' -> rollback_inv base pending t d -> rollback_inv base pending t d'.
Proof.
  intros [n g d1 d2 Hn HA|g n d1 d2 HF|d1 d2 Hp Htx] (Hb & He & Ht).
  - destruct (Alloc_allocs base n g d1 d2 Hb Hn HA) as (Hb' & Hp' & Ht').
    split_and!; [done|by rewrite Hp'|congruence].
  - unfold Free in HF. destruct (negb _); [|done]. unfold get_update_tx, bind, assertM, ret, update_txid in *.
    destruct (update_tx (tx_manager d1)) as [tx|] eqn:Htx; [|done]. injection HF as <-.
    cbn in Ht. injection Ht as <-. split_and!; [exact Hb|by cbn; rewrite erase_push|].
    unfold update_txid. cbn. by rewrite Htx.
  - unfold rollback_inv. by rewrite Hp, Htx.
Qed.

Lemma PagerRollback_restores base pending t d :
  rollback_inv base pending t d ->
  match PagerRollback d with
  | Ok _ d' => free_wf (pager d') /\ (forall q, covers (free_map (pager d')) q <-> base q) /\
      pending_map (pager d') = pending /\ alloc_records (pager d') = []
  | Throw _ _ => False
  | Fault w => w = BadIterator
  end.
Proof.
  intros ((Hwf & Hd & Hn & Hb) & He & Ht). unfold update_txid in Ht. unfold PagerRollback, get_update_tx, bind at 1.
  destruct (update_tx (tx_manager d)) as [tx|]; [|done]. injection Ht as <-.
  unfold zoom, bind, modify, gets. cbn [lget pager_lens].
  set (p1 := set_pending_map _ _).
  pose proof (free_pairs_spec (alloc_records (pager d)) p1 Hwf Hd Hn) as H.
  change (alloc_records p1) with (alloc_records (pager d)).
  destruct (free_pairs (alloc_records (pager d)) p1) as [[] p2| |]; [|done|done].
  destruct H as (Hwf2 & Hp2 & _ & Hc2). cbn. split_and!; [done| |by rewrite Hp2|done].
  intros q. rewrite Hc2, Hb. done.
Qed.

Lemma PagerRollback_fault base pending t d :
  rollback_inv base pending t d ->
  PagerRollback d = Fault BadIterator <-> runs_into (covers (free_map (pager d))) (alloc_records (pager d)).
Proof.
  intros ((Hwf & Hd & Hn & Hb) & He & Ht). unfold update_txid in Ht. unfold PagerRollback, get_update_tx, bind at 1.
  destruct (update_tx (tx_manager d)) as [tx|]; [|done]. injection Ht as <-.
  unfold zoom, bind, modify, gets. cbn [lget pager_lens].
  set (p1 := set_pending_map _ _).
  pose proof (free_pairs_fault (alloc_records (pager d)) p1 Hwf Hd Hn) as H.
  change (free_map p1) with (free_map (pager d)) in H. rewrite <- H.
  change (alloc_records p1) with (alloc_records (pager d)).
  destruct (free_pairs (alloc_records (pager d)) p1) as [[] p2| |w]; [done..|by destruct w].
Qed.

Lemma tx_steps_inv base pending t d d' :
  rtc tx_step d d' -> rollback_inv base pending t d -> rollback_inv base pending t d'.
Proof. induction 1 as [d|d1 d2 d3 Hs _ IH]; intros H0; [done|]. apply IH. by apply (tx_step_inv _ _ _ d1). Qed.

(** C11: whatever a write transaction allocated and freed, rolling it back
    leaves the free pages and the pending lists as they were when it began,
    unless one of the ranges it allocated, given back in their order, ends
    where the lowest page free by then starts: then, and only then, an
    iterator is stepped before [begin()]. *)
Theorem rollback_restores d tx d' :
  free_wf (pager d) -> alloc_records (pager d) = [] -> update_tx (tx_manager d) = Some tx ->
  map_find (m_txid (meta_format tx)) (pending_map (pager d)) = None ->
  rtc tx_step d d' ->
  match PagerRollback d' with
  | Ok _ d2 => free_wf (pager d2) /\
      (forall q, covers (free_map (pager d2)) q <-> covers (free_map (pager d)) q) /\
      pending_map (pager d2) = pending_map (pager d) /\ alloc_records (pager d2) = []
  | Throw _ _ => False
  | Fault w => w = BadIterator
  end /\
  (PagerRollback d' = Fault BadIterator <->
   runs_into (covers (free_map (pager d'))) (alloc_records (pager d'))).
Proof.
  intros Hwf Hr Htx Hf Hsteps. set (t := m_txid (meta_format tx)).
  assert (H0 : rollback_inv (covers (free_map (pager d))) (pending_map (pager d)) t d).
  { split_and!; [by apply tx_allocs_start|by apply erase_absent|]. unfold update_txid. by rewrite Htx. }
  apply (tx_steps_inv _ _ _ d d' Hsteps) in H0.
  split; [exact (PagerRollback_restores _ _ t _ H0)|exact (PagerRollback_fault _ _ t _ H0)].
Qed.

(** ** The saved free list *)
Lemma length_encode_pairs l : length (concat (encode_pair <$> l)) = (8 * length l)%nat.
Proof. induction l as [|e l IH]; [done|]. cbn [fmap list_fmap concat length]. rewrite length_app, IH. cbn. lia. Qed.

Lemma decode_encode_pairs l :
  Forall (fun e => 0 <= e.1 < 2 ^ 32 /\ 0 <= e.2 < 2 ^ 32) l ->
  decode_pairs (length l) (concat (encode_pair <$> l)) = l.
Proof.
  induction 1 as [|[a b] l [Ha Hb] Hl IH]; [done|]. cbn in Ha, Hb.
  cbn [length fmap list_fmap concat decode_pairs].
  rewrite (take_app_length' (encode_pair (a, b))), (drop_app_length' (encode_pair (a, b))) by done.
  rewrite IH. f_equal. unfold decode_pair, encode_pair. cbn [fst snd].
  rewrite (slice_app_here 4 (le_bytes 4 a)) by done.
  rewrite slice_app_skip by (rewrite length_le_bytes; lia). rewrite length_le_bytes.
  replace (4 - Z.of_nat 4) with 0 by lia. rewrite (slice_all 4 (le_bytes 4 b)) by done.
  by rewrite !le_value_bytes by (change (256 ^ Z.of_nat 4) with (2 ^ 32); lia).
Qed.

Lemma disjoint_pairs_ranges l :
  disjoint_pairs l -> Forall (fun e => 0 <= e.1 < 2 ^ 32 /\ 0 < e.2 < 2 ^ 32) l.
Proof.
  induction l as [|[f c] l IH]; [constructor|]. intros (Hf & Hc & Hlim & _ & Hl). unfold kPageInvalidId in Hlim.
  constructor; [cbn; lia|auto].
Qed.

Lemma load_pairs_free l : Forall (fun e => 0 < e.2) l -> forall p, load_pairs l p = free_pairs l p.
Proof.
  induction 1 as [|[f c] l Hc Hl IH]; intros p; [done|]. cbn in Hc. cbn [load_pairs free_pairs].
  rewrite (proj2 (Z.eqb_neq c 0)) by lia. unfold bind. destruct (FreeToMap f c p); [apply IH|done..].
Qed.

Lemma wf_from_disjoint lo fm : 0 <= lo -> wf_from lo fm -> disjoint_pairs fm.
Proof.
  revert lo. induction fm as [|[f c] fm IH]; intros lo Hlo; [done|]. cbn. intros (Hf & Hc & Hlim & Hwf).
  split_and!; try done; [lia| |apply (IH (f + c)); [lia|done]].
  intros q Hq Hcov. pose proof (covers_ge _ _ _ Hwf Hcov). lia.
Qed.

Definition saved_pairs p : list (Z * Z) := free_map p ++ concat (snd <$> pending_map p).

Lemma pair_count_saved p :
  Z.of_nat (length (free_map p) ) + foldr (fun e n => Z.of_nat (length e.2) + n) 0 (pending_map p) =
  Z.of_nat (length (saved_pairs p)).
Proof.
  unfold saved_pairs. rewrite length_app, Nat2Z.inj_add. f_equal.
  induction (pending_map p) as [|e m IH]; [done|]. cbn. rewrite length_app, IH. lia.
Qed.

Lemma debug_erase_free_map g n p p' : debug_erase g n p = Ok tt p' -> free_map p' = free_map p.
Proof.
  revert g p. induction n as [|n IH]; intros g p; [by intros [= <-]|]. cbn [debug_erase].
  unfold bind at 1 2, gets, assertM. destruct (bool_decide _); [|done].
  unfold ret, bind, modify. intros H. by rewrite (IH _ _ H).
Qed.

Lemma length_map_insert {V} k (v : V) m : (length (map_insert k v m) <= S (length m))%nat.
Proof.
  induction m as [|[k' v'] m IH]; [done|]. cbn. repeat case_match; cbn; lia.
Qed.

Lemma AllocFromMap_length n g p p' :
  AllocFromMap n p = Ok g p' -> (length (free_map p') <= length (free_map p))%nat.
Proof.
  unfold AllocFromMap, bind at 1, gets. destruct (alloc_pos n (free_map p)) as [i|]; [|done].
  destruct (free_map p !! i) as [[f c]|] eqn:Ei; [|by intros [= _ <-]].
  apply lookup_lt_Some in Ei. unfold bind at 1, modify at 1.
  set (fm := delete i (free_map p)).
  assert (Hl : length fm = pred (length (free_map p))) by (subst fm; rewrite length_delete; [lia|by apply lookup_lt_is_Some]).
  pose proof (length_map_insert (u32 (f + n)) (u32 (c - n)) fm) as Hi.
  assert (He : forall p1, (length (free_map p1) <= length (free_map p))%nat ->
    ((modify (fun p => set_alloc_records (alloc_records p ++ [(f, n)]) p) ;;;
      (if f =? kPageInvalidId then ret tt else debug_erase f (Z.to_nat n)) ;;; ret f) p1 = Ok g p') ->
    (length (free_map p') <= length (free_map p))%nat).
  { intros p1 H1. unfold bind, modify, ret. destruct (f =? kPageInvalidId); [by intros [= _ <-]|].
    destruct (debug_erase _ _ _) as [[] p2| |] eqn:E; [|done|done]. apply debug_erase_free_map in E.
    intros [= _ <-]. by rewrite E. }
  destruct (n <? c).
  - rewrite bind_assoc. unfold assertM. destruct (bool_decide _); [|done]. apply He. cbn. lia.
  - apply He. cbn. lia.
Qed.

(** After the allocation for the list itself, fewer pages are free. *)
Lemma saved_after_alloc n g d d' :
  free_wf (pager d) -> 0 < n -> Alloc n d = Ok g d' -> disjoint_pairs (saved_pairs (pager d)) ->
  disjoint_pairs (saved_pairs (pager d')) /\ (length (saved_pairs (pager d')) <= length (saved_pairs (pager d)))%nat /\
  (forall q, covers (saved_pairs (pager d')) q ->
    covers (saved_pairs (pager d)) q).
Proof.
  intros Hwf Hn HA Hd. destruct (Alloc_pager n g d d' Hwf Hn HA) as [[->|E] _]; [done|].
  pose proof (AllocFromMap_spec n (pager d) Hwf Hn) as H. rewrite E in H.
  destruct (g =? kPageInvalidId); [by destruct H as [-> _]|].
  destruct H as ([Hwf' _] & Hp' & _ & _ & _ & Hcov & _).
  unfold saved_pairs in *. rewrite Hp'. apply disjoint_pairs_app in Hd as (H1 & H2 & H12).
  split_and!.
  - apply disjoint_pairs_app. split_and!; [by apply (wf_from_disjoint 0)|done|].
    intros q Hq. apply H12, Hcov. auto.
  - rewrite !length_app. apply Nat.add_le_mono_r. exact (AllocFromMap_length n g _ _ E).
  - intros q. rewrite !covers_app, Hcov. tauto.
Qed.

(** The database a later [Open] sees: the same file and page size, the meta the
    transaction left, and a pager with nothing in it. *)
Record reopened d tx d2 : Prop := {
  ro_map : db_map d2 = db_map d;
  ro_ps : page_size d2 = page_size d;
  ro_meta : shm_meta d2 = meta_format tx;
  ro_pager : pager d2 = mkPager [] [] [] ∅;
}.

Lemma read_at_reopened d d2 ptr n bs :
  db_map d2 = db_map d -> page_size d2 = page_size d ->
  read_at ptr n d = Ok bs d -> read_at ptr n d2 = Ok bs d2.
Proof.
  intros Hm Hp. unfold read_at, peek_at. rewrite Hm, Hp. case_match; [|done]. by intros [= ->].
Qed.

Lemma LoadFreeList_ok d2 pairs :
  pager d2 = mkPager [] [] [] ∅ -> m_free_list_pgid (shm_meta d2) <> kPageInvalidId ->
  m_free_pair_count (shm_meta d2) = Z.of_nat (length pairs) -> disjoint_pairs pairs ->
  read_at (GetPtr (page_size d2) (m_free_list_pgid (shm_meta d2)) 0) (Z.of_nat (length pairs) * 8) d2 =
    Ok (concat (encode_pair <$> pairs)) d2 ->
  match LoadFreeList d2 with
  | Ok _ d3 => free_wf (pager d3) /\ forall q, covers (free_map (pager d3)) q <-> covers pairs q
  | Throw _ _ => False
  | Fault w => w = BadIterator
  end.
Proof.
  intros Hp Hg Hn Hd Hr. pose proof (disjoint_pairs_ranges _ Hd) as Hrg.
  unfold LoadFreeList, bind at 1, gets at 1. rewrite (proj2 (Z.eqb_neq _ _) Hg).
  unfold bind at 1, gets at 1. rewrite Hn. unfold sizeof_PagePair. run_step Hr. rewrite Nat2Z.id.
  rewrite decode_encode_pairs by (eapply Forall_impl; [exact Hrg|]; cbn; lia).
  unfold zoom. cbn [lget pager_lens].
  rewrite load_pairs_free by (eapply Forall_impl; [exact Hrg|]; cbn; lia).
  assert (Hwf : free_wf (pager d2)) by (rewrite Hp; split; [done|]; intros q; cbn; rewrite covers_nil; set_solver).
  pose proof (free_pairs_spec pairs (pager d2) Hwf Hd) as H. rewrite Hp in *.
  destruct (free_pairs pairs _) as [[] p3| |]; [|apply H; intros q _ Hq; by apply covers_nil in Hq..].
  destruct H as (Hwf3 & _ & _ & Hc); [intros q _ Hq; by apply covers_nil in Hq|].
  cbn. split; [done|]. intros q. rewrite Hc. cbn. rewrite covers_nil. tauto.
Qed.

(** Bytes written over pages read back; the other pages stay. *)
Lemma write_read d g pc bytes :
  db_inv d -> 0 <= g -> 0 <= pc -> (g + pc) * page_size d <= map_size (db_map d) -> (g + pc) * page_size d <= 2 ^ 32 ->
  Z.of_nat (length bytes) <= pc * page_size d ->
  exists m, let d' := set_db_map m d in
    WriteByBytes g 0 bytes d = Ok tt d' /\ db_inv d' /\ map_size m = map_size (db_map d) /\
    read_at (GetPtr (page_size d) g 0) (Z.of_nat (length bytes)) d' = Ok bytes d' /\
    (forall q, ~ g <= q < g + pc -> db_node d' q = db_node d q) /\
    (forall a, ~ g <= a / page_size d < g + pc -> db_mem d' a = db_mem d a).
Proof.
  intros Hinv Hg Hpc Hmap Haddr Hlen. pose proof Hinv as [(tx & Hwf) Hok]. destruct (page_size_bounds _ (aw_ps _ _ Hwf)) as [Hps _].
  set (ptr := GetPtr (page_size d) g 0).
  assert (Hptr : 0 <= ptr /\ ptr + Z.of_nat (length bytes) <= map_size (db_map d) /\
    forall b, ptr <= b < ptr + Z.of_nat (length bytes) -> g <= b / page_size d < g + pc).
  { unfold ptr, GetPtr. rewrite Z.add_0_r. destruct (decide (g * page_size d < 2 ^ 32)) as [Hlt|Hge].
    - rewrite u32_small by nia. split_and!; [nia|nia|]. intros b Hb. apply in_pages; lia.
    - assert (E : g * page_size d = 2 ^ 32) by nia. rewrite E. change (u32 (2 ^ 32)) with 0. split_and!; nia. }
  destruct Hptr as (Hp0 & Hp1 & Hin). destruct (write_at_ok d ptr bytes (aw_ps _ _ Hwf) Hok Hp0 Hp1) as (m & HW & Hok' & Hrd & Hmem & Hlk).
  exists (mkMapping m (map_size (db_map d))). set (d' := set_db_map _ d). split_and!; try done.
  - split; [|done]. exists tx. destruct Hwf. by split.
  - unfold read_at. rewrite !(proj2 (Z.leb_le _ _)) by (cbn; lia). cbn [andb]. f_equal. rewrite <- Hrd at 2. apply peek_at_ok; [apply Hwf|done|lia].
  - intros q Hq. unfold db_node, page_at. cbn. rewrite Hlk; [done|]. intros b Hb <-. by apply Hq, Hin.
  - intros b Hb. apply Hmem. by intros ?%Hin.
Qed.

(** An allocation of no page, when none is free, and of any. *)
Lemma Alloc_any d tx n : alloc_wf d tx -> 0 <= n <= db_space d -> (n = 0 -> free_map (pager d) = []) ->
  exists g d' tx', Alloc n d = Ok g d' /\ alloc_wf d' tx' /\ alloc_frame d tx d' tx' /\ 2 <= g /\ g + n <= m_page_count (meta_format tx') /\
    (forall q, g <= q < g + n -> ~ in_use d tx q) /\ (forall q, in_use d' tx' q <-> in_use d tx q \/ g <= q < g + n) /\
    (n = 0 -> pager d' = pager d).
Proof.
  intros Hwf Hn H0. destruct (page_size_bounds _ (aw_ps _ _ Hwf)) as [Hr _]. unfold db_space in Hn. rewrite (aw_tx _ _ Hwf) in Hn.
  pose proof (Z.mul_div_le (2 ^ 32 - 1) (page_size d) ltac:(lia)). destruct (decide (n = 0)) as [->|Hne].
  - set (c := m_page_count (meta_format tx)). set (d' := set_tx_manager (set_update_tx (Some (set_meta_format (set_page_count c (meta_format tx)) tx)) (tx_manager d)) d).
    assert (Etx : set_meta_format (set_page_count c (meta_format tx)) tx = tx) by (unfold c; by rewrite set_page_count_id, set_meta_format_id).
    assert (Ed : d' = d) by (unfold d'; rewrite Etx, <- (aw_tx _ _ Hwf), set_update_tx_id; by destruct d).
    pose proof (page_count_lt _ _ (aw_ps _ _ Hwf) (aw_addr _ _ Hwf)) as Hc. fold c in Hc. pose proof (aw_count _ _ Hwf) as Hc2. fold c in Hc2.
    pose proof (aw_map _ _ Hwf) as Hmap. fold c in Hmap. exists c, d, tx. split_and!; try done; try (fold c; lia).
    + unfold Alloc. rewrite (bind_ok _ _ d tx d) by (unfold get_update_tx; by rewrite (aw_tx _ _ Hwf)).
      assert (EA : zoom pager_lens (AllocFromMap 0) d = Ok kPageInvalidId d).
      { unfold zoom, AllocFromMap, bind, gets. cbn [lget pager_lens]. rewrite (H0 eq_refl). cbn. by destruct d. }
      run_step EA. rewrite Z.eqb_refl. fold c. rewrite Z.add_0_r, u32_small by lia. rewrite (proj2 (Z.ltb_ge c c)) by lia.
      rewrite (bind_ok (put_update_tx _) _ d tt d) by (rewrite <- Ed at 2; done).
      rewrite (bind_ok (gets page_size) _ d (page_size d) d) by done. unfold bind at 1, gets at 1. cbv zeta.
      assert (Hu : u32 (c * page_size d) <= c * page_size d) by (apply Z.mod_le; nia).
      rewrite (proj2 (Z.ltb_ge _ _)) by lia. done.
    + split; try done; [by destruct d|by rewrite <- (aw_tx _ _ Hwf), set_update_tx_id|]. exists c. split; [fold c; lia|by rewrite Etx].
    + intros q. split; [tauto|]. intros [?|?]; [done|lia].
  - destruct (Alloc_spec d tx n Hwf ltac:(lia)) as (g & d' & tx' & A1 & A2 & A3 & A4 & A5 & _ & A7 & A8); [nia|].
    exists g, d', tx'. by split_and!.
Qed.

(** What saving the list does: the list is on pages of its own, and the pages
    in use stay. *)
Record list_saved d tx d' tx' : Prop := {
  ls_tx : update_tx (tx_manager d') = Some tx';
  ls_inv : db_inv d';
  ls_keeps : keeps_pages (fun _ => False) d d';
  ls_pending : pending_map (pager d') = pending_map (pager d);
  ls_taken : tx_pages (pager d') = tx_pages (pager d);
  ls_free q : covers (free_map (pager d')) q -> covers (free_map (pager d)) q;
  ls_map : map_size (db_map d) <= map_size (db_map d');
  ls_saved q : covers (saved_pairs (pager d')) q -> covers (saved_pairs (pager d)) q;
  ls_disjoint : disjoint_pairs (saved_pairs (pager d'));
  ls_list : m_free_list_pgid (meta_format tx') <> kPageInvalidId;
  ls_count : m_free_pair_count (meta_format tx') = Z.of_nat (length (saved_pairs (pager d')));
  ls_read : read_at (GetPtr (page_size d) (m_free_list_pgid (meta_format tx')) 0)
    (Z.of_nat (length (saved_pairs (pager d'))) * 8) d' = Ok (concat (encode_pair <$> saved_pairs (pager d'))) d';
}.

Lemma SaveFreeList_ok d tx :
  db_inv d -> update_tx (tx_manager d) = Some tx -> m_free_list_pgid (meta_format tx) = kPageInvalidId ->
  disjoint_pairs (saved_pairs (pager d)) ->
  Z.of_nat (length (saved_pairs (pager d))) * 8 < 2 ^ 32 ->
  GetPageCount (page_size d) (Z.of_nat (length (saved_pairs (pager d))) * 8) <= db_space d ->
  exists d' tx', SaveFreeList d = Ok tt d' /\ list_saved d tx d' tx'.
Proof.
  intros Hinv Htx Hno Hd Hlen Hspace. set (n := length (saved_pairs (pager d))) in *.
  destruct Hinv as [(tx0 & Hwf) Hpages]. assert (tx0 = tx) as -> by (pose proof (aw_tx _ _ Hwf); congruence).
  destruct (GetPageCount_spec (page_size d) (Z.of_nat n * 8) (aw_ps _ _ Hwf)) as [Hc0 Hc]; [lia|].
  destruct (page_size_bounds _ (aw_ps _ _ Hwf)) as [Hps _].
  set (pc := GetPageCount (page_size d) (Z.of_nat n * 8)) in *.
  set (tx1 := set_meta_format (set_free_list (m_free_list_pgid (meta_format tx))
    (m_free_pair_count (meta_format tx)) pc (meta_format tx)) tx).
  set (d1 := set_tx_manager (set_update_tx (Some tx1) (tx_manager d)) d).
  assert (Hwf1 : alloc_wf d1 tx1) by (destruct Hwf; by split).
  assert (Hsp1 : db_space d1 = db_space d) by (unfold db_space; cbn; by rewrite Htx).
  assert (Hn0 : pc = 0 -> saved_pairs (pager d) = []) by (intros E; apply nil_length_inv; fold n; lia).
  destruct (Alloc_any d1 tx1 pc Hwf1) as (g & d2 & tx2 & HA & Hwf2 & Hfr & Hg & Hgc & Hnu & Hu & Hp0); [lia|by intros [E _]%Hn0%app_nil|].
  assert (Hps2 : page_size d2 = page_size d) by (unfold page_size; by rewrite (af_options _ _ _ _ Hfr)).
  assert (Hsv : disjoint_pairs (saved_pairs (pager d2)) /\ (length (saved_pairs (pager d2)) <= n)%nat /\
    (forall q, covers (saved_pairs (pager d2)) q -> covers (saved_pairs (pager d)) q)).
  { destruct (decide (pc = 0)) as [E|E]; [by rewrite (Hp0 E)|]. exact (saved_after_alloc pc g d1 d2 (aw_free _ _ Hwf) ltac:(lia) HA Hd). }
  destruct Hsv as (Hd2 & Hl2 & Hcov2). pose proof (aw_tx _ _ Hwf2) as Htx2.
  set (tx3 := set_meta_format (set_free_list g (Z.of_nat (length (saved_pairs (pager d2)))) pc (meta_format tx2)) tx2).
  set (d3 := set_tx_manager (set_update_tx (Some tx3) (tx_manager d2)) d2).
  assert (Hpg2 : pages_ok (page_size d2) (file_pages (db_map d2))) by (by rewrite Hps2, (af_pages _ _ _ _ Hfr)).
  assert (Hinv3 : db_inv d3) by (split; [|exact Hpg2]; exists tx3; destruct Hwf2; by split).
  pose proof (length_encode_pairs (saved_pairs (pager d2))) as Hbl. pose proof (aw_map _ _ Hwf2) as Hm2. pose proof (aw_addr _ _ Hwf2) as Ha2.
  destruct (write_read d3 g pc (concat (encode_pair <$> saved_pairs (pager d2))) Hinv3) as (m & HW & Hinv4 & Hms & Hrd & Hnd & Hmem);
    change (page_size d3) with (page_size d2) in *; change (map_size (db_map d3)) with (map_size (db_map d2)) in *; [lia|lia|nia|nia|lia|].
  pose proof (page_count_lt _ _ (aw_ps _ _ Hwf2) Ha2) as Hcl.
  assert (Hin : forall q, db_used d q <-> in_use d1 tx1 q) by (intros q; apply (db_used_tx d tx q Htx)).
  exists (set_db_map m d3), tx3. split; [|split]; try done.
  - unfold SaveFreeList. rewrite (bind_ok _ _ d tx d) by (unfold get_update_tx; by rewrite Htx).
    rewrite Hno, Z.eqb_refl. unfold bind at 1, ret at 1. unfold bind at 1, gets at 1.
    rewrite pair_count_saved. fold n. rewrite u32_small by lia. unfold bind at 1, gets at 1.
    change (GetPageCount (page_size d) (Z.of_nat n * sizeof_PagePair)) with pc. rewrite <- Hno. fold tx1.
    rewrite (bind_ok _ _ _ tt d1) by done. run_step HA. unfold bind at 1, gets at 1.
    rewrite (bind_ok _ _ d2 tx2 d2) by (unfold get_update_tx; by rewrite Htx2).
    fold (saved_pairs (pager d2)). rewrite u32_small by lia. fold tx3.
    rewrite (bind_ok _ _ _ tt d3) by done. exact HW.
  - split; [exact Hps2|..].
    + intros q Hq. apply (db_used_tx (set_db_map m d3) tx3 q eq_refl). apply (Hu q). left. by apply Hin.
    + intros q Hq _. rewrite Hnd; [|intros Hgq; by apply (Hnu q Hgq), Hin]. unfold db_node. change (db_map d3) with (db_map d2).
      change (page_size d3) with (page_size d2). by rewrite Hps2, (af_pages _ _ _ _ Hfr).
    + intros a Hq _. rewrite Hmem; [|rewrite Hps2; intros Hgq; by apply (Hnu _ Hgq), Hin]. unfold db_mem. change (db_map d3) with (db_map d2).
      change (page_size d3) with (page_size d2). by rewrite Hps2, (af_pages _ _ _ _ Hfr).
  - apply (af_pending _ _ _ _ Hfr).
  - apply (af_taken _ _ _ _ Hfr).
  - intros q Hq. change (free_map (pager (set_db_map m d3))) with (free_map (pager d2)) in Hq.
    destruct (decide (pc = 0)) as [E|E]; [rewrite (Hp0 E) in Hq; exact Hq|].
    destruct (Alloc_pager pc g d1 d2 (aw_free _ _ Hwf) ltac:(lia) HA) as [[E1|E1] _]; [rewrite E1 in Hq; exact Hq|].
    pose proof (AllocFromMap_spec pc (pager d1) (aw_free _ _ Hwf) ltac:(lia)) as HS. rewrite E1 in HS.
    destruct (g =? kPageInvalidId); [destruct HS as [E2 _]; rewrite E2 in Hq; exact Hq|]. destruct HS as (_ & _ & _ & _ & _ & HS & _). apply HS. left; exact Hq.
  - change (map_size m) with (map_size (db_map (set_db_map m d3))) in Hms. pose proof (af_map _ _ _ _ Hfr) as Hmm. change (map_size (db_map d1)) with (map_size (db_map d)) in Hmm.
    cbn in *. lia.
  - unfold kPageInvalidId. cbn. lia.
  - rewrite Hbl, Hps2 in Hrd. cbn in *.
    by replace (Z.of_nat (length (saved_pairs (pager d2))) * 8) with (Z.of_nat (8 * length (saved_pairs (pager d2)))) by lia.
Qed.

(** [LoadFreeList] reads back the list [SaveFreeList] writes, when the meta
    record read is the one [SaveFreeList] leaves in the transaction: the free
    pages are then those that were free or pending when it was saved, but for
    the pages the list is on.  [Commit] writes another record, without the
    list ([TxTheorems.Commit_forgets_free_list]). *)
Lemma free_list_roundtrip d tx :
  db_inv d -> update_tx (tx_manager d) = Some tx -> m_free_list_pgid (meta_format tx) = kPageInvalidId ->
  disjoint_pairs (saved_pairs (pager d)) ->
  Z.of_nat (length (saved_pairs (pager d))) * 8 < 2 ^ 32 ->
  GetPageCount (page_size d) (Z.of_nat (length (saved_pairs (pager d))) * 8) <= db_space d ->
  exists d' tx', SaveFreeList d = Ok tt d' /\ update_tx (tx_manager d') = Some tx' /\ db_inv d' /\
    (forall q, covers (saved_pairs (pager d')) q -> covers (saved_pairs (pager d)) q) /\
    forall d2, reopened d' tx' d2 ->
      match LoadFreeList d2 with
      | Ok _ d3 => free_wf (pager d3) /\ forall q, covers (free_map (pager d3)) q <-> covers (saved_pairs (pager d')) q
      | Throw _ _ => False
      | Fault w => w = BadIterator
      end.
Proof.
  intros Hinv Htx Hno Hd Hlen Hspace. destruct (SaveFreeList_ok d tx Hinv Htx Hno Hd Hlen Hspace) as (d' & tx' & HS & Hl).
  pose proof Hl as [Htx' Hinv' Hk _ _ _ _ Hsub Hd' Hg Hn Hr]. pose proof (kp_ps _ _ _ Hk) as Hps.
  exists d', tx'. split_and!; try done. intros d2 [Hm2 Hp2 Hmeta Hpg].
  apply LoadFreeList_ok; rewrite ?Hmeta; try done. rewrite Hp2, Hps.
  apply (read_at_reopened d'); done.
Qed.

(** ** On a sample database *)
Definition free_meta : MetaStruct := mkMeta ATOMKV_SIGN 256 1 8 kPageInvalidId kPageInvalidId 0 0 7 0.
Definition free_tx : TxImpl := mkTx free_meta true (mkBucket kUserRootBucketId true UserRoot None) [].
Definition free_pager : Pager := mkPager [(6, [(3, 1)]); (7, [(4, 1)])] [(2, 1); (5, 3)] [] {[2; 5; 6; 7]}.
Definition free_db : DBImpl :=
  mkDB (mkOptions 256 ByteArrayComparator false true kUpdateInPlace 1024) (mkMapping ∅ 2048) 0 [] free_meta true 0
    free_pager (mkTxManager kTxInvalidId (Some free_tx) [] 6) [] (mkLogger [] false false).

Lemma free_db_wf : alloc_wf free_db free_tx.
Proof.
  split; try done.
  - unfold page_size_ok. set_solver.
  - split; [done|]. intros q. cbn. rewrite !covers_cons, covers_nil, !elem_of_union, !elem_of_singleton. lia.
  - intros q. rewrite elem_of_tx_pages. cbn. rewrite !covers_cons, !covers_nil. lia.
  - split; [done|]. intros q Hq. by apply covers_nil in Hq.
Qed.

Lemma free_db_inv : db_inv free_db.
Proof. split; [exists free_tx; apply free_db_wf|]. intros q p Hq. cbn in Hq. by rewrite lookup_empty in Hq. Qed.

Lemma Alloc_fresh_witness :
  exists pgid d' tx', Alloc 2 free_db = Ok pgid d' /\ alloc_wf d' tx' /\
    (forall q, pgid <= q < pgid + 2 -> ~ in_use free_db free_tx q).
Proof.
  destruct (Alloc_fresh free_db free_tx 2 free_db_wf) as (g & d' & tx' & HA & Hwf & _ & Hf & _); [lia|reflexivity|].
  exists g, d', tx'. split; [exact HA|]. split; [exact Hwf|exact Hf].
Defined.

Lemma FreeToMap_exact_witness :
  match FreeToMap 3 1 free_pager with
  | Ok _ p' => free_wf p' /\ pending_map p' = pending_map free_pager /\
      (forall q, covers (free_map p') q <-> covers (free_map free_pager) q \/ 3 <= q < 3 + 1)
  | Throw _ _ => False
  | Fault w => w = BadIterator
  end.
Proof.
  apply (FreeToMap_exact 3 1 free_pager (aw_free _ _ free_db_wf)); [lia|lia|unfold kPageInvalidId; lia|].
  intros q Hq. cbn. rewrite !covers_cons, covers_nil. lia.
Defined.

Lemma Release_exact_witness :
  match Release 7 free_pager with
  | Ok _ p' => free_wf p' /\ pending_map p' = [(7, [(4, 1)])] /\ alloc_records p' = [] /\
      forall q, covers (free_map p') q <-> covers (free_map free_pager) q \/ covers [(3, 1)] q
  | Throw _ _ => False
  | Fault w => w = BadIterator
  end.
Proof.
  refine (proj1 (Release_exact 7 free_pager (aw_free _ _ free_db_wf) _ _)).
  - cbn. unfold kPageInvalidId. split_and!; try lia. intros q _ Hq. by apply covers_nil in Hq.
  - intros q. cbn. rewrite !covers_cons, !covers_nil. lia.
Defined.

(** The sample before the transaction 7 freed anything. *)
Definition begun_db : DBImpl := set_pager (set_pending_map [(6, [(3, 1)])] free_pager) free_db.

(** The sample with three free pages, the lowest ones of them handed out first. *)
Definition single_db : DBImpl := set_pager (mkPager [(6, [(3, 1)])] [(5, 3)] [] {[5; 6; 7]}) free_db.

(** An allocation of [n] pages and the rollback after it: the page, the ranges
    free in between, the ranges handed out, and how the rollback ends. *)
Definition alloc_and_back (n : Z) d : option (Z * list (Z * Z) * list (Z * Z) * bool) :=
  match Alloc n d with
  | Ok g d' => Some (g, free_map (pager d'), alloc_records (pager d'), if PagerRollback d' is Ok _ _ then true else false)
  | _ => None
  end.

Lemma alloc_and_back_begun : alloc_and_back 2 begun_db = Some (5, [(2, 1); (7, 1)], [(5, 2)], true).
Proof. vm_compute. reflexivity. Qed.
Lemma alloc_and_back_single : alloc_and_back 1 single_db = Some (5, [(6, 2)], [(5, 1)], false).
Proof. vm_compute. reflexivity. Qed.

(** Two pages from the map [2; 5-7] and back: a page below the range given back
    is still free. One page from [5-7] and back: the range ends where the
    lowest free page starts, and the rollback steps before [begin()]. *)
Lemma rollback_restores_witness :
  (exists g d' d2, Alloc 2 begun_db = Ok g d' /\ PagerRollback d' = Ok tt d2 /\
    (forall q, covers (free_map (pager d2)) q <-> covers (free_map (pager begun_db)) q) /\
    pending_map (pager d2) = pending_map (pager begun_db) /\ alloc_records (pager d2) = []) /\
  (exists d', Alloc 1 single_db = Ok 5 d' /\ PagerRollback d' = Fault BadIterator).
Proof.
  split.
  - pose proof alloc_and_back_begun as E. unfold alloc_and_back in E.
    destruct (Alloc 2 begun_db) as [g d'| |] eqn:HA; [|discriminate..].
    destruct (rollback_restores begun_db free_tx d' (aw_free _ _ free_db_wf) eq_refl eq_refl eq_refl) as [H1 _].
    { apply rtc_once. apply (step_alloc 2 g); [lia|exact HA]. }
    destruct (PagerRollback d') as [[] d2| |] eqn:HR; [|discriminate..].
    exists g, d', d2. destruct H1 as (_ & H1). auto.
  - pose proof alloc_and_back_single as E. unfold alloc_and_back in E.
    destruct (Alloc 1 single_db) as [g d'| |] eqn:HA; [|discriminate..].
    assert (Hwf : free_wf (pager single_db)).
    { split; [done|]. intros q. cbn. rewrite !covers_cons, covers_nil, !elem_of_union, !elem_of_singleton. lia. }
    destruct (rollback_restores single_db free_tx d' Hwf eq_refl eq_refl eq_refl) as [_ H2].
    { apply rtc_once. apply (step_alloc 1 g); [lia|exact HA]. }
    injection E as -> Ef Ea _. exists d'. split; [reflexivity|]. apply H2. rewrite Ef, Ea. left.
    split; [rewrite covers_cons; lia|]. intros q Hq. rewrite covers_cons, covers_nil. lia.
Defined.

Lemma free_list_roundtrip_witness :
  exists d' tx', SaveFreeList free_db = Ok tt d' /\ update_tx (tx_manager d') = Some tx' /\
    forall d2, reopened d' tx' d2 ->
      match LoadFreeList d2 with
      | Ok _ d3 => free_wf (pager d3) /\ forall q, covers (free_map (pager d3)) q <-> covers (saved_pairs (pager d')) q
      | Throw _ _ => False
      | Fault w => w = BadIterator
      end.
Proof.
  destruct (free_list_roundtrip free_db free_tx free_db_inv eq_refl eq_refl) as (d' & tx' & HS & Htx & _ & _ & HL).
  - cbn. unfold kPageInvalidId. split_and!; try lia; intros q; rewrite ?covers_cons, ?covers_nil; lia.
  - reflexivity.
  - vm_compute. discriminate.
  - exists d', tx'. split; [exact HS|]. split; [exact Htx|exact HL].
Defined.
