(* ===== verification/MetaTheorems.v ===== *)
(** The two meta records are an atomic switch ([src/meta.cpp]): a write of one
    of them cut short anywhere leaves a file that loads as the version before
    or as the new one. *)
From S2P Require Import Prelude Format Comparator State Memory PagerI PagerInst Meta.

Implicit Types (d : DBImpl) (m : MetaStruct).

(** ** Bytes of a record partly overwritten *)
Definition torn (k : nat) (new old : list byte) : list byte := take k new ++ drop k old.

Lemma torn_lookup k new old i :
  length new = length old -> (k <= length new)%nat ->
  torn k new old !! i = if decide (i < k)%nat then new !! i else old !! i.
Proof.
  intros Hl Hk. unfold torn. case_decide as Hi.
  - rewrite lookup_app_l by (rewrite length_take; lia). by rewrite lookup_take_lt.
  - rewrite lookup_app_r by (rewrite length_take; lia). rewrite length_take, lookup_drop. f_equal. lia.
Qed.

Lemma torn_all new old : length new = length old -> torn (length new) new old = new.
Proof. intros Hl. unfold torn. rewrite firstn_all, drop_ge by lia. apply app_nil_r. Qed.

Lemma length_torn k new old : length new = length old -> (k <= length new)%nat -> length (torn k new old) = length old.
Proof. intros. unfold torn. rewrite length_app, length_take, length_drop. lia. Qed.

Lemma torn_slice k new old o n :
  length new = length old -> (k <= length new)%nat ->
  (forall i, (Z.to_nat o <= i < Z.to_nat o + Z.to_nat n)%nat -> new !! i = old !! i) ->
  slice o n (torn k new old) = slice o n new.
Proof.
  intros Hl Hk He. apply list_eq. intros i. unfold slice.
  destruct (decide (i < Z.to_nat n)%nat).
  - rewrite !lookup_take_lt, !lookup_drop, torn_lookup by done. case_decide; [done|].
    symmetry. apply He. lia.
  - by rewrite !lookup_take_ge by lia.
Qed.

(** Reading back a range of the file after a partial write at its start. *)
Lemma mem_read_torn mm mm' a n k bs :
  0 <= n -> (k <= length bs)%nat -> (k <= Z.to_nat n)%nat -> Z.of_nat (length bs) = n ->
  (forall b, mm' b = if decide (a <= b < a + Z.of_nat k) then default x00 (bs !! Z.to_nat (b - a)) else mm b) ->
  mem_read mm' a n = torn k bs (mem_read mm a n).
Proof.
  intros Hn Hk Hkn Hl Hm. apply list_eq. intros i.
  rewrite torn_lookup by (rewrite ?length_mem_read; lia). unfold mem_read.
  destruct (decide (i < Z.to_nat n)%nat).
  - rewrite !list_lookup_fmap, lookup_seqZ_lt by lia. cbn. rewrite Hm. repeat case_decide; try lia; [|done].
    replace (Z.to_nat (a + Z.of_nat i - a)) with i by lia.
    destruct (lookup_lt_is_Some_2 bs i) as [x Hx]; [lia|]. by rewrite Hx.
  - case_decide; [lia|]. rewrite !list_lookup_fmap, lookup_seqZ_ge by lia. done.
Qed.

(** ** Records of a file *)
Section meta_theorems.
Context `{Crc32}.

(** The file has room for both records, in pages of the right size. *)
Record meta_file d : Prop := {
  mf_ps : page_size_ok (page_size d);
  mf_pages : pages_ok (page_size d) (file_pages (db_map d));
  mf_size : 2 * page_size d <= map_size (db_map d);
}.

Definition meta_at d (i : Z) : list byte := mem_read (db_mem d) (i * page_size d) kMetaSize.
Lemma meta_at_map d d' i : page_size d' = page_size d -> db_map d' = db_map d -> meta_at d' i = meta_at d i.
Proof. intros Hps Hm. unfold meta_at, db_mem. by rewrite Hm, Hps. Qed.

Definition crc_ok (bs : list byte) : Prop :=
  u32 (crc_End (crc_Append crc_new (crc_bytes bs))).1 = m_crc32 (decode_meta bs).

(** A record [Meta_Save] can have written for pages of [ps] bytes. *)
Record meta_valid (ps : Z) m : Prop := {
  mv_ranges : meta_ranges m;
  mv_sign : m_sign m = ATOMKV_SIGN;
  mv_ps : m_page_size m = ps;
  mv_version : m_min_version m = ATOMKV_VERSION;
}.

(** The record as it is written. *)
Definition sealed m : MetaStruct := set_m_crc32 (meta_crc m) m.

Lemma sealed_bytes m : crc_bytes (encode_meta (sealed m)) = crc_bytes (encode_meta m).
Proof. reflexivity. Qed.

Lemma sealed_valid ps m : meta_valid ps m -> meta_valid ps (sealed m).
Proof. intros [[] ? ? ?]. split; try done. split; try done. cbn. apply u32_range. Qed.

Lemma decode_sealed ps m : meta_valid ps m -> decode_meta (encode_meta (sealed m)) = sealed m.
Proof.
  intros Hv. rewrite <- (app_nil_r (encode_meta _)). apply decode_encode_meta, (sealed_valid ps m Hv).
Qed.

Lemma sealed_crc ps m : meta_valid ps m -> crc_ok (encode_meta (sealed m)).
Proof. intros Hv. unfold crc_ok. rewrite (decode_sealed ps m Hv), sealed_bytes. done. Qed.

(** ** What [Load] does with the two records *)
Lemma read_meta d i : meta_file d -> 0 <= i <= 1 -> read_at (i * page_size d) kMetaSize d = Ok (meta_at d i) d.
Proof.
  intros [Hps Hok Hsz] Hi. destruct (page_size_bounds _ Hps) as [Hr _]. unfold read_at, kMetaSize.
  rewrite !(proj2 (Z.leb_le _ _)) by nia. cbn [andb]. unfold meta_at, kMetaSize.
  by rewrite peek_at_ok by (done || lia).
Qed.

Definition loaded d (i : Z) (bs : list byte) : DBImpl := set_shm_meta (decode_meta bs) (set_cur_meta_index i d).

(** The slot [Load] tries first, and what decides it. *)
Definition newest d : Z :=
  if m_txid (decode_meta (meta_at d 0)) <? m_txid (decode_meta (meta_at d 1)) then 1 else 0.

Lemma newest_is d i :
  0 <= i <= 1 -> m_txid (decode_meta (meta_at d (1 - i))) < m_txid (decode_meta (meta_at d i)) -> newest d = i.
Proof.
  intros Hi. unfold newest. assert (i = 0 \/ i = 1) as [->| ->] by lia;
    [change (1 - 0) with 1|change (1 - 1) with 0]; destruct (Z.ltb_spec (m_txid (decode_meta (meta_at d 0))) (m_txid (decode_meta (meta_at d 1)))); lia.
Qed.

Lemma Meta_Load_ok d (i : Z) :
  meta_file d -> 0 <= i <= 1 ->
  m_sign (decode_meta (meta_at d 0)) = ATOMKV_SIGN -> m_min_version (decode_meta (meta_at d 0)) <= ATOMKV_VERSION ->
  crc_ok (meta_at d i) -> m_page_size (decode_meta (meta_at d i)) = page_size d ->
  newest d = i \/ ~ crc_ok (meta_at d (1 - i)) /\ (forall o, (crc_End o).2 = crc_new) ->
  Meta_Load d = Ok tt (loaded d i (meta_at d i)).
Proof.
  intros Hf Hi Hsg Hver Hcrc Hps Hsel. unfold Meta_Load, bind at 1, gets at 1.
  pose proof (read_meta d 0 Hf ltac:(lia)) as H0. rewrite Z.mul_0_l in H0. run_step H0.
  pose proof (read_meta d 1 Hf ltac:(lia)) as H1. rewrite Z.mul_1_l in H1. run_step H1.
  rewrite Hsg, Z.eqb_refl. cbn [negb andb]. rewrite (proj2 (Z.ltb_ge _ _)) by done. fold (newest d).
  set (nw := newest d) in *.
  set (sel := fun j => if j =? 1 then meta_at d 1 else meta_at d 0).
  change (if nw =? 1 then meta_at d 1 else meta_at d 0) with (sel nw).
  assert (Hseli : sel i = meta_at d i) by (unfold sel; destruct (Z.eqb_spec i 1); [by subst|by replace i with 0 by lia]).
  assert (Hn : nw = 0 \/ nw = 1) by (subst nw; unfold newest; destruct (_ <? _); auto).
  destruct (crc_End (crc_Append crc_new (crc_bytes (sel nw)))) as [v o] eqn:Ec.
  rewrite (bind_ok (modify (set_cur_meta_index nw)) _ d tt (set_cur_meta_index nw d)) by done. cbv beta.
  destruct (decide (nw = i)) as [E|E].
  - assert (Hv : u32 v = m_crc32 (decode_meta (sel nw))).
    { rewrite E, Hseli in *. unfold crc_ok in Hcrc. by rewrite Ec in Hcrc. }
    rewrite (proj2 (Z.eqb_eq _ _) Hv). unfold bind, ret. by rewrite E, Hseli, Hps, Z.eqb_refl.
  - destruct Hsel as [Hsel|[Hsel Hend]]; [done|].
    assert (Ho : o = crc_new) by (rewrite <- (Hend (crc_Append crc_new (crc_bytes (sel nw)))); by rewrite Ec).
    assert (E1 : nw = 1 - i) by lia. assert (Hself : sel nw = meta_at d (1 - i)).
    { unfold sel. rewrite E1. destruct (Z.eqb_spec (1 - i) 1) as [->|]; [done|]. by replace (1 - i) with 0 by lia. }
    assert (Hv : u32 v <> m_crc32 (decode_meta (sel nw))).
    { intros Hv. apply Hsel. rewrite <- Hself. unfold crc_ok. by rewrite Ec. }
    rewrite (proj2 (Z.eqb_neq _ _) Hv).
    assert (Ei : (if nw =? 1 then 0 else 1) = i) by (destruct (Z.eqb_spec nw 1); lia).
    rewrite Ei. change (if i =? 1 then meta_at d 1 else meta_at d 0) with (sel i). rewrite Hseli, Ho.
    unfold bind, modify. unfold crc_ok in Hcrc.
    destruct (crc_End (crc_Append crc_new (crc_bytes (meta_at d i)))) as [v' o'].
    cbn [fst] in Hcrc. rewrite Hcrc, Z.eqb_refl. unfold ret. by rewrite Hps, Z.eqb_refl.
Qed.

(** ** Saving, and a save cut short *)

(** The file with the first [k] bytes of [bs] written at [off]. *)
Definition cut (k : nat) (off : Z) (bs : list byte) d : Mapping :=
  mkMapping (write_pages (page_size d) (length (take k bs)) (off / page_size d) (off mod page_size d) (take k bs)
    (file_pages (db_map d))) (map_size (db_map d)).

Lemma Meta_Save_run d ps :
  m_page_size (shm_meta d) = ps -> page_size d = ps ->
  let off := cur_meta_index d * ps in let bs := encode_meta (sealed (shm_meta d)) in
  exists d', Meta_Save d = Ok tt d' /\ db_map d' = cut (length bs) off bs d /\
    io_trace d' = io_trace d ++ [MetaWrite off bs; FileSync] /\ shm_meta d' = sealed (shm_meta d) /\
    cur_meta_index d' = cur_meta_index d.
Proof.
  intros Hps <- off bs. set (d1 := set_shm_meta (sealed (shm_meta d)) d).
  unfold Meta_Save. rewrite (bind_ok _ _ d tt d1) by done.
  rewrite (bind_ok (gets cur_meta_index) _ d1 (cur_meta_index d) d1) by done.
  rewrite (bind_ok (gets shm_meta) _ d1 (sealed (shm_meta d)) d1) by done.
  change (m_page_size (sealed (shm_meta d))) with (m_page_size (shm_meta d)). rewrite Hps. fold off bs.
  set (d2 := log_io (MetaWrite off bs) (set_db_map (cut (length bs) off bs d) d1)).
  assert (Hw : file_write off bs d1 = Ok tt d2).
  { unfold file_write, modify, d2, cut. by rewrite firstn_all. }
  run_step Hw. exists (log_io FileSync d2). split; [done|]. split; [done|]. split; [|split; reflexivity].
  change (io_trace (log_io FileSync d2)) with ((io_trace d ++ [MetaWrite off bs]) ++ [FileSync]).
  by rewrite <- app_assoc.
Qed.

Lemma cut_file d i k bs :
  meta_file d -> 0 <= i <= 1 -> Z.of_nat (length bs) = kMetaSize -> (k <= length bs)%nat ->
  let d' := set_db_map (cut k (i * page_size d) bs d) d in
  meta_file d' /\ meta_at d' i = torn k bs (meta_at d i) /\ meta_at d' (1 - i) = meta_at d (1 - i).
Proof.
  intros [Hps Hok Hsz] Hi Hl Hk d'. destruct (page_size_bounds _ Hps) as [Hr _]. unfold kMetaSize in Hl.
  destruct (write_pages_ok (page_size d) (length (take k bs)) (i * page_size d / page_size d)
    (i * page_size d mod page_size d) (take k bs) (file_pages (db_map d))) as [Hok' Hm].
  { lia. } { done. } { apply Z.mod_pos_bound. lia. } { done. }
  rewrite Z.div_mul, Z.mod_mul, Z.add_0_r in Hm by lia.
  assert (Hm' : forall b, db_mem d' b = if decide (i * page_size d <= b < i * page_size d + Z.of_nat k)
    then default x00 (bs !! Z.to_nat (b - i * page_size d)) else db_mem d b).
  { intros b. unfold db_mem at 1. cbn. rewrite Z.div_mul, Z.mod_mul by lia. rewrite Hm, length_take.
    replace (k `min` length bs)%nat with k by lia. case_decide; [|done]. by rewrite lookup_take_lt by lia. }
  split_and!.
  - split; [done|exact Hok'|exact Hsz].
  - apply mem_read_torn; [unfold kMetaSize; lia|done|unfold kMetaSize; lia|done|exact Hm'].
  - apply mem_read_ext. intros b Hb. change (page_size d') with (page_size d) in Hb. unfold kMetaSize in Hb.
    rewrite Hm'. case_decide; [nia|done].
Qed.

(** A record torn between two valid ones still shows its sign and version. *)
Lemma torn_head ps m old k :
  meta_valid ps m -> meta_valid ps old -> (k <= 42)%nat ->
  let mix := decode_meta (torn k (encode_meta (sealed m)) (encode_meta (sealed old))) in
  m_sign mix = ATOMKV_SIGN /\ m_min_version mix = ATOMKV_VERSION.
Proof.
  intros Hm Ho Hk mix. pose proof (decode_sealed ps m Hm) as Hd.
  assert (Ht : take 10 (encode_meta (sealed m)) = take 10 (encode_meta (sealed old))).
  { change (take 10 (encode_meta (sealed m))) with
      (le_bytes 4 (m_sign m) ++ le_bytes 2 (m_page_size m) ++ le_bytes 4 (m_min_version m)).
    change (take 10 (encode_meta (sealed old))) with
      (le_bytes 4 (m_sign old) ++ le_bytes 2 (m_page_size old) ++ le_bytes 4 (m_min_version old)).
    destruct Hm as [_ -> -> ->], Ho as [_ -> -> ->]. done. }
  assert (He : forall i, (i < 10)%nat -> encode_meta (sealed m) !! i = encode_meta (sealed old) !! i).
  { intros i Hi. rewrite <- (lookup_take_lt (encode_meta (sealed m)) 10) by done.
    rewrite Ht. by apply lookup_take_lt. }
  assert (Hsl : forall o n, (Z.to_nat o + Z.to_nat n <= 10)%nat ->
    slice o n (torn k (encode_meta (sealed m)) (encode_meta (sealed old))) = slice o n (encode_meta (sealed m))).
  { intros o n Hon. apply torn_slice; [done|exact Hk|]. intros i Hi. apply He. lia. }
  split.
  - rewrite <- (mv_sign _ _ (sealed_valid ps m Hm)), <- Hd. unfold mix, decode_meta. cbn [m_sign]. by rewrite Hsl by lia.
  - rewrite <- (mv_version _ _ (sealed_valid ps m Hm)), <- Hd. unfold mix, decode_meta. cbn [m_min_version].
    by rewrite Hsl by lia.
Qed.
(** The two records of the file: slot [i] holds the older one, [old], the
    other slot the current one, [cur]. *)
Record meta_pair d (i : Z) (old cur : MetaStruct) : Prop := {
  mp_file : meta_file d;
  mp_index : 0 <= i <= 1;
  mp_old : meta_valid (page_size d) old;
  mp_cur : meta_valid (page_size d) cur;
  mp_old_at : meta_at d i = encode_meta (sealed old);
  mp_cur_at : meta_at d (1 - i) = encode_meta (sealed cur);
  mp_order : m_txid old < m_txid cur;
}.

(** A file whose slot [i] was being overwritten by [m]. *)
Lemma torn_loads d i old cur m k :
  meta_pair d i old cur -> meta_valid (page_size d) m -> m_txid cur < m_txid m -> (k <= 42)%nat ->
  (forall o, (crc_End o).2 = crc_new) ->
  let mix := torn k (encode_meta (sealed m)) (encode_meta (sealed old)) in
  (mix <> encode_meta (sealed m) -> mix <> encode_meta (sealed old) -> ~ crc_ok mix) ->
  forall dc, meta_file dc -> page_size dc = page_size d -> meta_at dc i = mix -> meta_at dc (1 - i) = meta_at d (1 - i) ->
  exists d2, Meta_Load dc = Ok tt d2 /\
    if decide (mix = encode_meta (sealed m)) then shm_meta d2 = sealed m /\ cur_meta_index d2 = i
    else shm_meta d2 = sealed cur /\ cur_meta_index d2 = 1 - i.
Proof.
  intros [Hf Hi Ho Hc Hoat Hcat Hord] Hm Hlt Hk Hend mix Hcol dc Hfc Hps Hati Hatj. rewrite Hcat in Hatj.
  destruct (torn_head _ m old k Hm Ho Hk) as [Hs1 Hv1]. fold mix in Hs1, Hv1.
  assert (Hfirst : m_sign (decode_meta (meta_at dc 0)) = ATOMKV_SIGN /\
    m_min_version (decode_meta (meta_at dc 0)) <= ATOMKV_VERSION).
  { assert (i = 0 \/ i = 1) as [->| ->] by lia; [by rewrite Hati, Hv1|].
    change (1 - 1) with 0 in Hatj. rewrite Hatj, (decode_sealed _ cur Hc).
    destruct (sealed_valid _ cur Hc) as [_ -> _ ->]. done. }
  destruct Hfirst as [Hs0 Hv0].
  assert (Hload : forall j x, 0 <= j <= 1 -> meta_valid (page_size d) x -> meta_at dc j = encode_meta (sealed x) ->
    newest dc = j \/ ~ crc_ok (meta_at dc (1 - j)) /\ (forall o, (crc_End o).2 = crc_new) ->
    exists d2, Meta_Load dc = Ok tt d2 /\ shm_meta d2 = sealed x /\ cur_meta_index d2 = j).
  { intros j x Hj Hx Hat Hn. exists (loaded dc j (meta_at dc j)).
    split; [apply Meta_Load_ok; try done; rewrite Hat|rewrite Hat; unfold loaded].
    - exact (sealed_crc _ x Hx).
    - rewrite (decode_sealed _ x Hx), Hps. apply (mv_ps _ _ (sealed_valid _ x Hx)).
    - rewrite (decode_sealed _ x Hx). done. }
  case_decide as E.
  - apply (Hload i m); try done; [by rewrite Hati|]. left. apply newest_is; [done|].
    rewrite Hati, Hatj, E, (decode_sealed _ m Hm), (decode_sealed _ cur Hc). exact Hlt.
  - apply (Hload (1 - i) cur); [lia|done|done|]. replace (1 - (1 - i)) with i by lia. rewrite Hati.
    destruct (decide (mix = encode_meta (sealed old))) as [E'|E']; [left|right; auto].
    apply newest_is; [lia|]. replace (1 - (1 - i)) with i by lia.
    rewrite Hati, Hatj, E', (decode_sealed _ old Ho), (decode_sealed _ cur Hc). exact Hord.
Qed.

(** C22: the switch to a new version is atomic: [Meta_Save] writes one record
    over the older of the two and syncs the file; if only the first [k] bytes
    of that record reach the file, opening it loads the current version, and if
    all of them do, the new one (as long as a torn record fails its checksum). *)
Theorem Meta_Save_atomic d old cur :
  let i := cur_meta_index d in let m := shm_meta d in
  meta_pair d i old cur -> meta_valid (page_size d) m -> m_txid cur < m_txid m ->
  (forall o, (crc_End o).2 = crc_new) ->
  (forall k, let mix := torn k (encode_meta (sealed m)) (encode_meta (sealed old)) in
    mix <> encode_meta (sealed m) -> mix <> encode_meta (sealed old) -> ~ crc_ok mix) ->
  exists d' bs, Meta_Save d = Ok tt d' /\ length bs = 42%nat /\
    io_trace d' = io_trace d ++ [MetaWrite (i * page_size d) bs; FileSync] /\
    db_map d' = cut 42 (i * page_size d) bs d /\
    forall k dc, (k <= 42)%nat -> db_map dc = cut k (i * page_size d) bs d -> page_size dc = page_size d ->
      exists d2, Meta_Load dc = Ok tt d2 /\
        (shm_meta d2 = sealed cur \/ shm_meta d2 = sealed m) /\
        (k = 42%nat -> shm_meta d2 = sealed m /\ cur_meta_index d2 = i).
Proof.
  intros i m Hp Hm Hlt Hend Hcol. pose proof Hp as [Hf Hi _ _ Hoat _ _].
  destruct (Meta_Save_run d _ (mv_ps _ _ Hm) eq_refl) as (d' & Hrun & Hmap & Hio & _ & _).
  exists d', (encode_meta (sealed m)). split; [done|]. split; [done|]. split; [done|]. split; [done|].
  intros k dc Hk Hmc Hpc.
  destruct (cut_file d i k (encode_meta (sealed m)) Hf Hi (eq_refl 42) Hk) as (Hfc & Hati & Hatj).
  assert (Hsame : forall j, meta_at dc j = meta_at (set_db_map (cut k (i * page_size d) (encode_meta (sealed m)) d) d) j).
  { intros j. unfold meta_at, db_mem. by rewrite Hpc, Hmc. }
  assert (Hfdc : meta_file dc).
  { destruct Hfc as [H1 H2 H3]. split; rewrite ?Hpc, ?Hmc; done. }
  rewrite Hoat in Hati.
  destruct (torn_loads d i old cur m k Hp Hm Hlt Hk Hend (Hcol k) dc Hfdc Hpc) as (d2 & HL & Hres);
    [by rewrite Hsame|by rewrite Hsame|].
  exists d2. split; [done|]. case_decide as E.
  - destruct Hres. split; [by right|done].
  - split; [left; apply Hres|]. intros ->. exfalso. apply E.
    exact (torn_all (encode_meta (sealed m)) (encode_meta (sealed old)) eq_refl).
Qed.
End meta_theorems.

(** ** On a sample file, with a small checksum *)
#[local] Instance sample_crc : Crc32 := {
  crc_object := Z;
  crc_new := 0;
  crc_Append o bs := foldl (fun h b => (h * 31 + Z_of_byte b) mod 2 ^ 32) o bs;
  crc_End o := (o, 0);
}.

Definition old_meta : MetaStruct := mkMeta ATOMKV_SIGN 256 ATOMKV_VERSION 2 kPageInvalidId kPageInvalidId 0 0 1 0.
Definition cur_meta : MetaStruct := mkMeta ATOMKV_SIGN 256 ATOMKV_VERSION 4 2 kPageInvalidId 0 0 2 0.
Definition new_meta : MetaStruct := mkMeta ATOMKV_SIGN 256 ATOMKV_VERSION 6 5 kPageInvalidId 0 0 3 0.
Definition meta_page (m : MetaStruct) : Page := RawPage (encode_meta (sealed m) ++ replicate 214 x00).
Definition meta_db : DBImpl :=
  mkDB (mkOptions 256 ByteArrayComparator false true kUpdateInPlace 1024)
    (mkMapping (<[0 := meta_page cur_meta]> {[1 := meta_page old_meta]}) 2048) 0 [] new_meta true 1
    (mkPager [] [] [] ∅) (mkTxManager kTxInvalidId None [] 0) [] (mkLogger [] false false).

Lemma sample_meta_valid c r t : 0 <= c < 2 ^ 32 -> 0 <= r < 2 ^ 32 -> 0 <= t < 2 ^ 64 ->
  meta_valid 256 (mkMeta ATOMKV_SIGN 256 ATOMKV_VERSION c r kPageInvalidId 0 0 t 0).
Proof. intros. split; [split; done|done..]. Qed.

Lemma sample_pair : meta_pair meta_db 1 old_meta cur_meta.
Proof.
  split; [|lia|apply sample_meta_valid; unfold kPageInvalidId; lia|apply sample_meta_valid; lia
    |vm_compute; reflexivity|vm_compute; reflexivity|reflexivity].
  split; [unfold page_size_ok; set_solver| |cbn; lia].
  intros q p Hq. cbn in Hq. apply lookup_insert_Some in Hq as [[<- <-]|[_ Hq]]; [vm_compute; done|].
  apply lookup_singleton_Some in Hq as [<- <-]. vm_compute. done.
Qed.

(** The checksum tells every torn record of the sample from the two whole ones. *)
Definition torn_check (k : nat) : bool :=
  let new := encode_meta (sealed new_meta) in let old := encode_meta (sealed old_meta) in
  let mix := torn k new old in
  bool_decide (mix = new) || bool_decide (mix = old) ||
  negb (u32 (crc_End (crc_Append crc_new (crc_bytes mix))).1 =? m_crc32 (decode_meta mix)).

Lemma sample_torn k :
  let mix := torn k (encode_meta (sealed new_meta)) (encode_meta (sealed old_meta)) in
  mix <> encode_meta (sealed new_meta) -> mix <> encode_meta (sealed old_meta) -> ~ crc_ok mix.
Proof.
  intros mix Hn Ho. destruct (decide (k < 43)%nat) as [Hk|Hk].
  - assert (Hall : forallb torn_check (seq 0 43) = true) by (vm_compute; reflexivity).
    rewrite forallb_forall in Hall. specialize (Hall k ltac:(apply in_seq; lia)).
    unfold torn_check in Hall. fold mix in Hall. cbv zeta in Hall. fold mix in Hall.
    rewrite !bool_decide_eq_false_2, orb_false_l, negb_true_iff, Z.eqb_neq in Hall by done. exact Hall.
  - exfalso. apply Hn. unfold mix, torn. rewrite take_ge, drop_ge by (rewrite length_encode_meta; lia). apply app_nil_r.
Qed.

Lemma Meta_Save_atomic_witness :
  exists d' bs, Meta_Save meta_db = Ok tt d' /\
    forall k dc, (k <= 42)%nat -> db_map dc = cut k (1 * 256) bs meta_db -> page_size dc = 256 ->
      exists d2, Meta_Load dc = Ok tt d2 /\ (shm_meta d2 = sealed cur_meta \/ shm_meta d2 = sealed new_meta).
Proof.
  destruct (Meta_Save_atomic meta_db old_meta cur_meta sample_pair) as (d' & bs & Hrun & _ & _ & _ & Hcut).
  - apply sample_meta_valid; lia.
  - reflexivity.
  - reflexivity.
  - exact sample_torn.
  - exists d', bs. split; [exact Hrun|]. intros k dc Hk Hm Hp.
    destruct (Hcut k dc Hk Hm Hp) as (d2 & HL & Hor & _). exists d2. split; [exact HL|exact Hor].
Defined.
