(* ===== verification/Keeps.v ===== *)
(** Frames: [keeps f m] says that the program [m], however it ends, leaves the
    view [f] of the database as it was.  The hint database [keeps] proves it
    for the programs built from the primitives. *)
From S2P Require Import Prelude Format Comparator State Memory FreeMap Pager Tx Meta Logger TxManager.

Definition keeps {X A} (f : DBImpl -> X) (m : M DBImpl A) : Prop := forall d,
  match m d with Ok _ d' | Throw _ d' => f d' = f d | Fault _ => True end.

Section keeps.
Context {X : Type} (f : DBImpl -> X).

Lemma keeps_ret {A} (a : A) : keeps f (ret a).
Proof. by intros d. Qed.
Lemma keeps_throw {A} e : keeps f (throw (A := A) e).
Proof. by intros d. Qed.
Lemma keeps_stuck {A} w : keeps f (stuck (A := A) w).
Proof. by intros d. Qed.
Lemma keeps_gets {A} (g : DBImpl -> A) : keeps f (gets g).
Proof. by intros d. Qed.
Lemma keeps_assert b : keeps f (assertM b).
Proof. intros d. by destruct b. Qed.
Lemma keeps_bind {A B} (m : M DBImpl A) (k : A -> M DBImpl B) :
  keeps f m -> (forall a, keeps f (k a)) -> keeps f (bind m k).
Proof.
  intros Hm Hk d. unfold bind. specialize (Hm d). destruct (m d) as [a d1|e d1|]; [|done|done].
  specialize (Hk a d1). destruct (k a d1); congruence.
Qed.
Lemma keeps_modify g : (forall d, f (g d) = f d) -> keeps f (modify g).
Proof. intros Hg d. apply Hg. Qed.
Lemma keeps_if {A} (b : bool) (m1 m2 : M DBImpl A) : keeps f m1 -> keeps f m2 -> keeps f (if b then m1 else m2).
Proof. by destruct b. Qed.
Lemma keeps_zoom {A T} (l : lens DBImpl T) (m : M T A) :
  (forall t d, f (lset l t d) = f d) -> keeps f (zoom l m).
Proof. intros Hl d. unfold zoom. by destruct (m (lget l d)). Qed.
Lemma keeps_ok {A} (m : M DBImpl A) d a d' : keeps f m -> m d = Ok a d' -> f d' = f d.
Proof. intros Hk Hm. specialize (Hk d). by rewrite Hm in Hk. Qed.
End keeps.

Create HintDb keeps.
#[export] Hint Resolve keeps_ret keeps_throw keeps_stuck keeps_gets keeps_assert : keeps.

(** One step of a frame proof: take the program apart, or use a frame known. *)
Ltac keeps_step :=
  first
    [ assumption
    | solve [eauto 1 with keeps]
    | apply keeps_bind; [|intros ?]
    | apply keeps_if
    | apply keeps_modify; intros ?; reflexivity
    | apply keeps_zoom; intros ??; reflexivity
    | match goal with |- keeps _ (match ?x with _ => _ end) => destruct x end ].
Ltac keeps := repeat keeps_step.

(** ** Views the pager and the log leave alone *)
Section pager_keeps.
Context `{Crc32, WalWriter} {X : Type} (f : DBImpl -> X).
Context (f_pager : forall p d, f (set_pager p d) = f d).
Context (f_map : forall mp d, f (set_db_map mp d) = f d).
Context (f_mmap : forall n d, f (set_db_mmap_pending n d) = f d).
Context (f_tx : forall t d, f (set_tx_manager (set_update_tx t (tx_manager d)) d) = f d).

Lemma keeps_get_update_tx : keeps f get_update_tx.
Proof. intros d. unfold get_update_tx. by destruct (update_tx (tx_manager d)). Qed.
Lemma keeps_put_update_tx t : keeps f (put_update_tx t).
Proof. apply keeps_modify. intros d. apply f_tx. Qed.

Lemma keeps_Remmap n : keeps f (Remmap n).
Proof.
  unfold Remmap. apply keeps_bind; [auto with keeps|]. intros ps. apply keeps_bind; [auto with keeps|]. intros _.
  apply keeps_modify. intros d. by rewrite f_mmap, f_map.
Qed.

Lemma keeps_pager {A} (m : M Pager A) : keeps f (zoom pager_lens m).
Proof. apply keeps_zoom. intros p d. apply f_pager. Qed.

Lemma keeps_Alloc n : keeps f (Alloc n).
Proof. pose proof keeps_get_update_tx. pose proof keeps_put_update_tx. pose proof keeps_Remmap.
  pose proof (fun A => @keeps_pager A). unfold Alloc. keeps; auto. Qed.
Lemma keeps_Free g n : keeps f (Free g n).
Proof. pose proof keeps_get_update_tx. pose proof (fun A => @keeps_pager A). unfold Free. keeps; auto. Qed.

Lemma keeps_WriteByBytes g o bs : keeps f (WriteByBytes g o bs).
Proof. intros d. unfold WriteByBytes, write_at. destruct (_ && _); [apply f_map|done]. Qed.

Lemma keeps_SaveFreeList : keeps f SaveFreeList.
Proof.
  pose proof keeps_get_update_tx. pose proof keeps_put_update_tx. pose proof keeps_Alloc.
  pose proof keeps_Free. pose proof keeps_WriteByBytes. unfold SaveFreeList. keeps; auto.
Qed.

Lemma keeps_PagerRollback : keeps f PagerRollback.
Proof. pose proof keeps_get_update_tx. pose proof (fun A => @keeps_pager A). unfold PagerRollback. keeps; auto. Qed.
End pager_keeps.

(** ** Views the log and the manager leave alone *)
Section manager_keeps.
Context `{Crc32, WalWriter} {X : Type} (f : DBImpl -> X).
Context (f_logger : forall l d, f (set_logger l d) = f d).

Lemma keeps_writer_call c : keeps f (writer_call c).
Proof. apply keeps_modify. intros d. apply f_logger. Qed.
Lemma keeps_checkpoint_needed b : keeps f (set_checkpoint_needed b).
Proof. apply keeps_modify. intros d. apply f_logger. Qed.
Lemma keeps_append_records l : keeps f (append_records l).
Proof. pose proof keeps_writer_call. induction l as [|r l IH]; cbn; keeps; auto. Qed.
Lemma keeps_AppendLog l : keeps f (AppendLog l).
Proof.
  pose proof (keeps_append_records l). pose proof keeps_checkpoint_needed. unfold AppendLog. keeps; auto.
Qed.
Lemma keeps_FlushLog : keeps f FlushLog.
Proof. pose proof keeps_writer_call. unfold FlushLog. keeps; auto. Qed.
Lemma keeps_AppendCommitLog : keeps f AppendCommitLog.
Proof. pose proof keeps_AppendLog. pose proof keeps_FlushLog. unfold AppendCommitLog. keeps; auto. Qed.

Context (f_pager : forall p d, f (set_pager p d) = f d).
Context (f_map : forall mp d, f (set_db_map mp d) = f d).
Context (f_mmap : forall n d, f (set_db_mmap_pending n d) = f d).
Context (f_tx : forall t d, f (set_tx_manager (set_update_tx t (tx_manager d)) d) = f d).
Context (f_io : forall e d, f (log_io e d) = f d).
Context (f_shm : forall m d, f (set_shm_meta m d) = f d).
Context (f_index : forall i d, f (set_cur_meta_index i d) = f d).
Context (f_persisted : forall v d, f (set_tx_manager (set_persisted_txid v (tx_manager d)) d) = f d).
Context (f_lock : forall b d, f (set_update_lock b d) = f d).

Lemma keeps_Meta_Reset m : keeps f (Meta_Reset m).
Proof. apply keeps_modify. intros d. apply f_shm. Qed.
Lemma keeps_Meta_Switch : keeps f Meta_Switch.
Proof. apply keeps_modify. intros d. apply f_index. Qed.
Lemma keeps_Meta_Save : keeps f Meta_Save.
Proof.
  unfold Meta_Save. apply keeps_bind; [apply keeps_modify; intros d; apply f_shm|]. intros _.
  apply keeps_bind; [auto with keeps|]. intros i. apply keeps_bind; [auto with keeps|]. intros m.
  apply keeps_bind; [apply keeps_modify; intros d; by rewrite f_io, f_map|]. intros _.
  apply keeps_modify. intros d. apply f_io.
Qed.
Lemma keeps_WriteAllDirtyPages : keeps f WriteAllDirtyPages.
Proof. apply keeps_modify. intros d. apply f_io. Qed.
Lemma keeps_set_persisted : keeps f (modify (fun d => set_tx_manager (set_persisted_txid (m_txid (shm_meta d)) (tx_manager d)) d)).
Proof. apply keeps_modify. intros d. apply f_persisted. Qed.

Lemma keeps_Checkpoint : keeps f Checkpoint.
Proof.
  pose proof (keeps_SaveFreeList f f_pager f_map f_mmap f_tx). pose proof keeps_WriteAllDirtyPages.
  pose proof keeps_Meta_Switch. pose proof keeps_Meta_Save. pose proof keeps_set_persisted.
  pose proof keeps_writer_call. pose proof keeps_AppendLog. pose proof keeps_checkpoint_needed.
  unfold Checkpoint, Logger_Reset, AppendWalTxIdLog. keeps; auto.
Qed.

Lemma keeps_end_update : keeps f end_update.
Proof.
  unfold end_update, unlock_update. apply keeps_bind; [apply keeps_modify; intros d; apply f_tx|]. intros _.
  apply keeps_modify. intros d. apply f_lock.
Qed.

Lemma keeps_Commit : keeps f Commit.
Proof.
  pose proof (keeps_SaveFreeList f f_pager f_map f_mmap f_tx). pose proof keeps_WriteAllDirtyPages.
  pose proof keeps_Meta_Switch. pose proof keeps_Meta_Save. pose proof keeps_Meta_Reset.
  pose proof keeps_AppendCommitLog. pose proof keeps_Checkpoint. pose proof keeps_end_update.
  unfold Commit. keeps; auto.
Qed.

Lemma keeps_RollBack : keeps f RollBack.
Proof.
  pose proof (keeps_PagerRollback f f_pager). pose proof keeps_AppendLog.
  pose proof keeps_Checkpoint. pose proof keeps_end_update.
  unfold RollBack, AppendRollbackLog. keeps; auto.
Qed.
End manager_keeps.
