(* ===== verification/TxTheorems.v ===== *)
(** What the transaction manager promises ([src/tx_manager.cpp]): the counts of
    views, the one write transaction, what opening one may release, and the
    order of a commit's writes. *)
From S2P Require Import Prelude Format Comparator State Memory FreeMap Pager PagerI PagerInst.
From S2P Require Import NodeSpec Tx Meta Logger TxManager Keeps Sample PagerTheorems MetaTheorems.

Implicit Types (d : DBImpl) (t : TxImpl) (m : MetaStruct).

(** ** std::map, by its lookups *)
Section maps.
Context {V : Type}.
Implicit Types (l : list (Z * V)) (k : Z) (v : V).

Definition map_sorted l : Prop := StronglySorted Z.lt (fst <$> l).

Lemma find_insert l k v k' :
  map_find k l = None -> map_find k' (map_insert k v l) = if decide (k' = k) then Some v else map_find k' l.
Proof.
  induction l as [|[a b] l IH]; cbn.
  - destruct (Z.eqb_spec k k'); case_decide; congruence.
  - destruct (Z.eqb_spec a k) as [->|Hne]; [done|]. intros Hf. destruct (Z.ltb_spec a k); cbn.
    + rewrite (IH Hf). destruct (Z.eqb_spec a k'); [|done]. case_decide; [congruence|done].
    + destruct (Z.eqb_spec k k'); case_decide; congruence.
Qed.

Lemma find_assign l k v k' w :
  map_find k l = Some w -> map_find k' (map_assign k v l) = if decide (k' = k) then Some v else map_find k' l.
Proof.
  induction l as [|[a b] l IH]; [done|]. cbn. destruct (Z.eqb_spec a k) as [->|Hne]; cbn.
  - intros _. destruct (Z.eqb_spec k k'); case_decide; congruence.
  - intros Hf. rewrite (IH Hf). destruct (Z.eqb_spec a k'); [|done]. case_decide; congruence.
Qed.

Lemma find_above l k : Forall (fun a => k < a) (fst <$> l) -> map_find k l = None.
Proof.
  induction l as [|[a b] l IH]; [done|]. cbn. intros [Ha Hl]%Forall_cons.
  destruct (Z.eqb_spec a k); [cbn in Ha; lia|auto].
Qed.

Lemma find_erase l k k' :
  map_sorted l -> map_find k' (map_erase k l) = if decide (k' = k) then None else map_find k' l.
Proof.
  unfold map_sorted. induction l as [|[a b] l IH]; [cbn; by case_decide|]. cbn.
  intros [Hs Ha]%StronglySorted_inv. destruct (Z.eqb_spec a k) as [->|Hne]; cbn.
  - destruct (Z.eqb_spec k k') as [->|]; case_decide; try congruence; try done. by apply find_above.
  - rewrite (IH Hs). destruct (Z.eqb_spec a k'); [|done]. case_decide; congruence.
Qed.

Lemma sorted_insert l k v : map_sorted l -> map_sorted (map_insert k v l).
Proof.
  unfold map_sorted. induction l as [|[a b] l IH]; cbn; [repeat constructor|].
  intros Hs. pose proof Hs as [Hs' Ha]%StronglySorted_inv.
  destruct (Z.ltb_spec a k); [|destruct (Z.eqb_spec a k); [done|]]; cbn.
  - constructor; [auto|]. clear -Ha H. induction l as [|[c e] l IH]; cbn; [repeat constructor; done|].
    apply Forall_cons in Ha as [Hc Ha]. cbn in Hc.
    destruct (Z.ltb_spec c k); [|destruct (Z.eqb_spec c k)]; cbn; repeat constructor; auto; lia.
  - constructor; [done|]. constructor; [lia|]. eapply Forall_impl; [exact Ha|]. cbn. lia.
Qed.

Lemma keys_assign l k v : fst <$> map_assign k v l = fst <$> l.
Proof. induction l as [|[a b] l IH]; [done|]. cbn. destruct (a =? k); cbn; [done|]. by rewrite IH. Qed.

Lemma sorted_erase l k : map_sorted l -> map_sorted (map_erase k l).
Proof.
  unfold map_sorted. induction l as [|[a b] l IH]; [done|]. cbn. intros [Hs Ha]%StronglySorted_inv.
  destruct (a =? k); [done|]. cbn. constructor; [auto|]. clear -Ha.
  induction l as [|[c e] l IH]; [done|]. cbn in *. apply Forall_cons in Ha as [Hc Ha].
  destruct (c =? k); [done|]. constructor; auto.
Qed.

Lemma find_first l k v k' w : map_sorted ((k, v) :: l) -> map_find k' ((k, v) :: l) = Some w -> k <= k'.
Proof.
  unfold map_sorted. cbn. intros [_ Ha]%StronglySorted_inv. destruct (Z.eqb_spec k k'); [lia|].
  intros Hf. destruct (decide (k < k')); [lia|]. exfalso. revert Hf. rewrite find_above; [done|].
  eapply Forall_impl; [exact Ha|]. cbn. lia.
Qed.
End maps.

(** ** The counts of the views *)

(** The versions the live views read. *)
Definition view_txids d : list Z := omap (fun v => txid <$> v) (view_txs d).
Definition views_at d (id : Z) : nat := length (filter (fun i => i = id) (view_txids d)).

(** [view_tx_map_] counts the live views of each version. *)
Record views_ok d : Prop := {
  vo_sorted : map_sorted (view_tx_map (tx_manager d));
  vo_count id : map_find id (view_tx_map (tx_manager d)) =
    if decide (views_at d id = O) then None else Some (Z.of_nat (views_at d id));
}.

Section tx_theorems.
Context `{Crc32, WalWriter}.

Lemma new_TxImpl_txid m w : txid (new_TxImpl m w) = m_txid m.
Proof. done. Qed.

Lemma View_ok d :
  views_ok d -> Z.of_nat (length (view_txids d)) < 2 ^ 32 - 1 ->
  exists d', View d = Ok (length (view_txs d)) d' /\ views_ok d' /\
    view_txids d' = view_txids d ++ [m_txid (shm_meta d)] /\
    view_txs d' !! length (view_txs d) = Some (Some (new_TxImpl (shm_meta d) false)).
Proof.
  intros [Hs Hc] Hlt. set (id := m_txid (shm_meta d)) in *. eexists. split; [reflexivity|].
  set (d' := set_view_txs _ _). assert (Hids : view_txids d' = view_txids d ++ [id]).
  { unfold view_txids, d'. cbn. rewrite omap_app. done. }
  assert (Hn : forall j, views_at d' j = (views_at d j + if decide (j = id) then 1 else 0)%nat).
  { intros j. unfold views_at. rewrite Hids, filter_app, length_app. f_equal.
    rewrite filter_cons. repeat case_decide; cbn; congruence. }
  assert (Hle : forall j, (views_at d j <= length (view_txids d))%nat) by (intros j; apply length_filter).
  split; [|split; [done|cbn; rewrite lookup_app_r by lia; by rewrite Nat.sub_diag]].
  assert (Hmap : view_tx_map (tx_manager d') = view_enter id (view_tx_map (tx_manager d))) by done.
  pose proof (Hc id) as Hid. pose proof (Hle id). split; rewrite Hmap; unfold view_enter; rewrite Hid.
  - case_decide; [by apply sorted_insert|]. unfold map_sorted. by rewrite keys_assign.
  - intros j. rewrite Hn. destruct (decide (views_at d id = 0)%nat) as [E|E]; rewrite ?E in Hid.
    + rewrite find_insert by done. repeat case_decide; subst; try lia; try done; rewrite ?E; try done; rewrite Hc.
      * by rewrite decide_True by lia.
      * rewrite decide_False by lia. do 2 f_equal. lia.
    + rewrite (find_assign _ _ _ _ _ Hid). repeat case_decide; subst; try lia; try done.
      * f_equal. rewrite u32_small; lia.
      * rewrite Hc. by rewrite decide_True by lia.
      * rewrite Hc. rewrite decide_False by lia. do 2 f_equal. lia.
Qed.
Lemma views_at_app l1 l2 id :
  length (filter (fun i => i = id) (l1 ++ l2 : list Z)) =
  (length (filter (fun i => i = id) l1) + length (filter (fun i => i = id) l2))%nat.
Proof. by rewrite filter_app, length_app. Qed.

Lemma destroy_view_ok d h t :
  views_ok d -> view_txs d !! h = Some (Some t) ->
  exists d', destroy_view h d = Ok tt d' /\ views_ok d' /\ view_txs d' = <[h := None]> (view_txs d).
Proof.
  intros [Hs Hc] Hh. set (id := txid t). set (d' := set_view_txs (<[h := None]> (view_txs d)) d).
  assert (Hn : forall j, views_at d j = (views_at d' j + if decide (j = id) then 1 else 0)%nat).
  { intros j. unfold views_at, view_txids, d'. cbn.
    rewrite (insert_take_drop _ _ _ (lookup_lt_Some _ _ _ Hh)), <- (take_drop_middle _ _ _ Hh) at 1.
    rewrite !omap_app, !views_at_app.
    set (f := fun v : option TxImpl => txid <$> v). set (l2 := drop (S h) (view_txs d)).
    change (omap f (Some t :: l2)) with (id :: omap f l2). change (omap f (None :: l2)) with (omap f l2).
    rewrite filter_cons. repeat case_decide; cbn [length]; subst; try done; lia. }
  assert (Hid : map_find id (view_tx_map (tx_manager d)) = Some (Z.of_nat (S (views_at d' id)))).
  { rewrite Hc. replace (views_at d id) with (S (views_at d' id)) by (rewrite Hn, decide_True by done; lia). done. }
  unfold destroy_view. cbn [get_tx]. unfold bind at 1. rewrite Hh. fold id.
  unfold RollBackView, bind at 1 2, gets. rewrite Hid.
  rewrite (bind_assert (0 <? _)) by (apply Z.ltb_lt; lia). eexists. split; [reflexivity|].
  split; [|done]. set (d2 := set_view_txs _ _).
  assert (Hmap : view_tx_map (tx_manager d2) = if Z.of_nat (S (views_at d' id)) - 1 =? 0
    then map_erase id (view_tx_map (tx_manager d))
    else map_assign id (Z.of_nat (S (views_at d' id)) - 1) (view_tx_map (tx_manager d))) by done.
  assert (Hv : forall j, views_at d2 j = views_at d' j) by done.
  split; rewrite Hmap.
  - destruct (_ =? 0); [by apply sorted_erase|]. unfold map_sorted. by rewrite keys_assign.
  - intros j. rewrite Hv. specialize (Hn j). destruct (Z.eqb_spec (Z.of_nat (S (views_at d' id)) - 1) 0) as [E|E].
    + rewrite find_erase by done. case_decide as Ej; [subst j; rewrite decide_True by lia; done|].
      rewrite Hc, Hn, Nat.add_0_r. done.
    + rewrite (find_assign _ _ _ _ _ Hid). case_decide as Ej.
      * subst j. rewrite decide_False by lia. f_equal. lia.
      * rewrite Hc, Hn, Nat.add_0_r. done.
Qed.

(** ** Opening a write transaction *)

(** The version [Update] reads first: the oldest a live view reads, or the
    current one. *)
Definition oldest_view d : Z :=
  match view_tx_map (tx_manager d) with [] => m_txid (shm_meta d) | (id, _) :: _ => id end.

Lemma oldest_le d id : views_ok d -> id ∈ view_txids d -> oldest_view d <= id.
Proof.
  intros [Hs Hc] Hin. assert (Hpos : views_at d id <> O).
  { unfold views_at. intros E. apply nil_length_inv in E.
    assert (Hf : id ∈ filter (fun i => i = id) (view_txids d)) by (by apply list_elem_of_filter).
    rewrite E in Hf. by apply elem_of_nil in Hf. }
  specialize (Hc id). rewrite decide_False in Hc by done. unfold oldest_view.
  destruct (view_tx_map (tx_manager d)) as [|[k v] l]; [done|]. exact (find_first l k v id _ Hs Hc).
Qed.

Lemma kept_in r (l : list (Z * list (Z * Z))) e : e ∈ l -> r <= e.1 -> e ∈ kept r l.
Proof.
  induction l as [|[k v] l IH]; [by intros ?%elem_of_nil|]. intros [->|He]%elem_of_cons Hle; cbn in *.
  - rewrite (proj2 (Z.leb_le _ _) Hle). apply list_elem_of_here.
  - destruct (r <=? k); [by apply list_elem_of_further|auto].
Qed.

Lemma released_in r l q : covers (released r l) q -> exists e, e ∈ l /\ e.1 < r /\ covers e.2 q.
Proof.
  induction l as [|[k v] l IH]; cbn; [by intros ?%covers_nil|].
  destruct (Z.leb_spec r k); [by intros ?%covers_nil|]. intros [Hq|Hq]%covers_app.
  - exists (k, v). split; [apply list_elem_of_here|]. split; [cbn; lia|done].
  - destruct (IH Hq) as (e & He & Hr). exists e. split; [by apply list_elem_of_further|done].
Qed.

(** A database between write transactions. *)
Record idle d : Prop := {
  id_lock : update_lock d = false;
  id_tx : update_tx (tx_manager d) = None;
  id_mmap : db_mmap_pending d = O \/ live_views d = O;
  id_txid : 0 < m_txid (shm_meta d) < 2 ^ 64 - 2;
  id_wal : is_wal d = false;
}.

(** The database [Update] leaves, up to the release of pages. *)
Definition opening_tx d : TxImpl := set_txid (m_txid (shm_meta d) + 1) (new_TxImpl (shm_meta d) true).
Definition opened d (n : nat) : DBImpl :=
  set_tx_manager (set_min_view_txid (oldest_view d) (set_update_tx (Some (opening_tx d)) (tx_manager d)))
    (set_db_mmap_pending n (set_update_lock true d)).

Lemma ClearPendingMmap_runs d : db_mmap_pending d = O \/ live_views d = O -> exists n, ClearPendingMmap d = Ok tt (set_db_mmap_pending n d).
Proof.
  intros Hm. unfold ClearPendingMmap. destruct (db_mmap_pending d) as [|k] eqn:E; [|exists O; destruct Hm as [?|Hl]; [done|by rewrite Hl]].
  exists O. f_equal. destruct d. cbn in E. by subst.
Qed.

Lemma Update_run d : idle d ->
  exists n, Update d = zoom pager_lens (Release (u64 (oldest_view d - 1))) (opened d n).
Proof.
  intros [Hl Ht Hm Hid Hw]. unfold Update, lock_update. unfold bind at 1. rewrite Hl.
  set (d1 := set_update_lock true d).
  destruct (ClearPendingMmap_runs d1 Hm) as (n & Hc). run_step Hc. exists n. set (d2 := set_db_mmap_pending n d1).
  rewrite (bind_ok (gets tx_manager) _ d2 (tx_manager d) d2) by done.
  rewrite Ht, bind_assert by (by apply bool_decide_eq_true).
  assert (Hwal : gets is_wal d2 = Ok false d2) by (unfold gets; f_equal; exact Hw).
  run_step Hwal. rewrite (bind_ok (ret tt) _ d2 tt d2) by done.
  rewrite (bind_ok (gets shm_meta) _ d2 (shm_meta d) d2) by done.
  rewrite new_TxImpl_txid, u64_small by lia. fold (opening_tx d).
  change (txid (opening_tx d)) with (m_txid (shm_meta d) + 1).
  rewrite (proj2 (Z.eqb_neq _ _)) by (unfold kTxInvalidId; lia). done.
Qed.

(** C24: opening a write transaction takes a new version number and gives back
    only pages no live view can still read: every page freed by a transaction
    later than a live view's version stays pending. *)
Theorem Update_protects_views d :
  idle d -> views_ok d -> Forall (fun id => 0 < id < 2 ^ 64) (m_txid (shm_meta d) :: (fst <$> view_tx_map (tx_manager d))) ->
  free_wf (pager d) -> disjoint_pairs (released (oldest_view d - 1) (pending_map (pager d))) ->
  (forall q, covers (released (oldest_view d - 1) (pending_map (pager d))) q -> ~ covers (free_map (pager d)) q) ->
  match Update d with
  | Ok _ d' =>
      update_tx (tx_manager d') = Some (opening_tx d) /\ txid (opening_tx d) = m_txid (shm_meta d) + 1 /\
      update_lock d' = true /\ view_txids d' = view_txids d /\ views_ok d' /\
      (forall id n pairs, id ∈ view_txids d -> (n, pairs) ∈ pending_map (pager d) -> id < n ->
         (n, pairs) ∈ pending_map (pager d')) /\
      (forall q, covers (free_map (pager d')) q -> covers (free_map (pager d)) q \/
         exists n pairs, (n, pairs) ∈ pending_map (pager d) /\ covers pairs q /\
           forall id, id ∈ view_txids d -> n < id)
  | Throw _ _ => False
  | Fault w => w = BadIterator
  end.
Proof.
  intros Hidle Hv Hpos Hwf Hd Hn. destruct (Update_run d Hidle) as (k & ->).
  assert (Hold : 0 < oldest_view d < 2 ^ 64).
  { apply Forall_cons in Hpos as [Hm Hpos]. unfold oldest_view.
    destruct (view_tx_map (tx_manager d)) as [|[a b] l]; [done|]. by apply Forall_cons in Hpos as [? _]. }
  rewrite u64_small by lia. unfold zoom. cbn [lget pager_lens]. change (pager (opened d k)) with (pager d).
  pose proof (Release_spec (oldest_view d - 1) (pager d) Hwf Hd Hn) as H1.
  destruct (Release (oldest_view d - 1) (pager d)) as [[] p'| |]; [|done|done].
  destruct H1 as (_ & Hp & _ & Hc). cbn [lset pager_lens]. split_and!; try done.
  - destruct Hv as [Hs Hcnt]. by split.
  - intros id n pairs Hid Hin Hlt. cbn. rewrite Hp. apply kept_in; [done|].
    pose proof (oldest_le d id Hv Hid). cbn. lia.
  - intros q Hq. cbn in Hq. apply Hc in Hq as [Hq|Hq]; [by left|right].
    apply released_in in Hq as ([n pairs] & He & Hr & Hq). exists n, pairs. split; [done|]. split; [done|].
    intros id Hid. pose proof (oldest_le d id Hv Hid). cbn in Hr. lia.
Qed.

(** C32: a version number that has run out is an error that leaves the write
    lock held: every later [Update] waits for ever. *)
Theorem Update_overflow_stuck d :
  update_lock d = false -> update_tx (tx_manager d) = None -> db_mmap_pending d = O -> is_wal d = false ->
  m_txid (shm_meta d) + 1 = kTxInvalidId ->
  exists d', Update d = Throw (RuntimeError "Txid overflow.") d' /\ Update d' = Fault Blocked.
Proof.
  intros Hl Ht Hm Hw Hid. set (d1 := set_update_lock true d).
  exists (set_tx_manager (set_update_tx (Some (opening_tx d)) (tx_manager d)) d1).
  split; [|done]. unfold Update, lock_update. unfold bind at 1. rewrite Hl. fold d1.
  assert (Hc : ClearPendingMmap d1 = Ok tt d1).
  { unfold ClearPendingMmap. change (db_mmap_pending d1) with (db_mmap_pending d). by rewrite Hm. }
  run_step Hc. rewrite (bind_ok (gets tx_manager) _ d1 (tx_manager d) d1) by done.
  rewrite Ht, bind_assert by (by apply bool_decide_eq_true).
  assert (Hwal : gets is_wal d1 = Ok false d1) by (unfold gets; f_equal; exact Hw).
  run_step Hwal. rewrite (bind_ok (ret tt) _ d1 tt d1) by done.
  rewrite (bind_ok (gets shm_meta) _ d1 (shm_meta d) d1) by done.
  rewrite new_TxImpl_txid, u64_small by (rewrite Hid; done). fold (opening_tx d).
  change (txid (opening_tx d)) with (m_txid (shm_meta d) + 1). rewrite Hid, Z.eqb_refl. done.
Qed.

(** ** The manager as a state machine *)

(** What the counts of views depend on. *)
Definition mgr_views d : list (Z * Z) * list (option TxImpl) := (view_tx_map (tx_manager d), view_txs d).

Lemma views_ok_same d d' : mgr_views d' = mgr_views d -> views_ok d -> views_ok d'.
Proof.
  unfold mgr_views. intros [= H1 H2] [Hs Hc]. split; [by rewrite H1|].
  intros id. unfold views_at, view_txids. rewrite H1, H2. apply Hc.
Qed.

Lemma Update_keeps : keeps mgr_views Update.
Proof.
  unfold Update. apply keeps_bind; [intros d; unfold lock_update; by destruct (update_lock d)|]. intros _.
  apply keeps_bind.
  { intros d. unfold ClearPendingMmap. destruct (db_mmap_pending d); [done|]. by destruct (live_views d =? 0)%nat. }
  intros _. pose proof (keeps_AppendLog mgr_views (fun l d => eq_refl)). unfold AppendBeginLog, put_update_tx. keeps; auto.
Qed.

(** The steps: the manager's methods, and what a write transaction does between
    them (which leaves the views, the lock and the open transaction alone).  A
    view's count is 32 bits wide. *)
Inductive mgr_step : DBImpl -> DBImpl -> Prop :=
| ms_view d h d' : Z.of_nat (length (view_txids d)) < 2 ^ 32 - 1 -> View d = Ok h d' -> mgr_step d d'
| ms_end_view d h d' : destroy_view h d = Ok tt d' -> mgr_step d d'
| ms_update d d' : Update d = Ok tt d' -> mgr_step d d'
| ms_work d d' : mgr_views d' = mgr_views d -> update_lock d' = update_lock d ->
    is_Some (update_tx (tx_manager d')) <-> is_Some (update_tx (tx_manager d)) -> mgr_step d d'
| ms_commit d d' : Commit d = Ok tt d' -> mgr_step d d'
| ms_rollback d d' : RollBack d = Ok tt d' -> mgr_step d d'.

(** The lock is held exactly while a write transaction is open. *)
Definition mgr_inv d : Prop :=
  views_ok d /\ (update_lock d = true <-> is_Some (update_tx (tx_manager d))).

Lemma end_update_inv (m : M DBImpl unit) d d' :
  (m ;;; end_update) d = Ok tt d' -> update_lock d' = false /\ update_tx (tx_manager d') = None.
Proof. unfold bind at 1. destruct (m d); [|done|done]. intros [= <-]. done. Qed.

Lemma closed_inv d : update_lock d = false -> update_tx (tx_manager d) = None ->
  update_lock d = true <-> is_Some (update_tx (tx_manager d)).
Proof. intros -> ->. split; [done|by intros [? ?]]. Qed.

Lemma Commit_closes d d' : Commit d = Ok tt d' -> update_lock d' = false /\ update_tx (tx_manager d') = None.
Proof.
  unfold Commit, bind at 1, gets at 1. destruct (update_tx (tx_manager d)) as [t|]; [|done].
  unfold bind at 1. cbn. unfold bind at 1, gets at 1. apply end_update_inv.
Qed.

Lemma RollBack_closes d d' : RollBack d = Ok tt d' -> update_lock d' = false /\ update_tx (tx_manager d') = None.
Proof. unfold RollBack. rewrite <- !bind_assoc. apply end_update_inv. Qed.

Lemma bind_inv {S A B} (m : M S A) (k : A -> M S B) s b s' :
  bind m k s = Ok b s' -> exists a s1, m s = Ok a s1 /\ k a s1 = Ok b s'.
Proof. unfold bind. destruct (m s) as [a s1| |]; [eauto|done|done]. Qed.

Lemma Update_opens d d' : Update d = Ok tt d' -> update_lock d' = true /\ is_Some (update_tx (tx_manager d')).
Proof.
  intros Hu. unfold Update in Hu. apply bind_inv in Hu as ([] & d1 & H1 & Hu).
  assert (Hl : update_lock d1 = true) by (revert H1; unfold lock_update; destruct (update_lock d); [done|by intros [= <-]]).
  split.
  - rewrite <- Hl. revert Hu. apply keeps_ok.
    pose proof (keeps_AppendLog update_lock (fun l d => eq_refl)). unfold AppendBeginLog, put_update_tx. 
    apply keeps_bind; [|intros _; keeps; auto].
    intros x. unfold ClearPendingMmap. destruct (db_mmap_pending x); [done|]. by destruct (live_views x =? 0)%nat.
  - do 6 (apply bind_inv in Hu as (? & ? & _ & Hu)). apply bind_inv in Hu as ([] & d2 & H2 & Hu).
    assert (Ht : is_Some (update_tx (tx_manager d2))) by (injection H2 as <-; by eexists).
    revert Hu. destruct (_ =? kTxInvalidId); [done|]. intros Hu.
    set (f := fun x => bool_decide (is_Some (update_tx (tx_manager x)))).
    assert (Hk : f d' = f d2).
    { revert Hu. apply keeps_ok. keeps. }
    unfold f in Hk. rewrite (bool_decide_eq_true_2 _ Ht) in Hk. by apply bool_decide_eq_true in Hk.
Qed.

Lemma mgr_step_inv d d' : mgr_step d d' -> mgr_inv d -> mgr_inv d'.
Proof.
  intros [d1 h d2 Hn Hs|d1 h d2 Hs|d1 d2 Hs|d1 d2 Hv Hl Ht|d1 d2 Hs|d1 d2 Hs] [Hvo Hlt].
  - destruct (View_ok d1 Hvo Hn) as (d3 & Hr & Hv3 & _). rewrite Hs in Hr. injection Hr as -> ->.
    split; [done|]. revert Hs. unfold View. intros [= <-]. exact Hlt.
  - assert (Ht : exists t, view_txs d1 !! h = Some (Some t)).
    { revert Hs. unfold destroy_view, bind at 1. cbn. destruct (view_txs d1 !! h) as [[t|]|]; [by eexists|done|done]. }
    destruct Ht as (t & Ht). destruct (destroy_view_ok d1 h t Hvo Ht) as (d3 & Hr & Hv3 & _).
    rewrite Hs in Hr. injection Hr as ->. split; [done|].
    set (f := fun x => (update_lock x, update_tx (tx_manager x))).
    assert (Hf : f d3 = f d1).
    { revert Hs. apply keeps_ok. unfold destroy_view, RollBackView.
      apply keeps_bind; [intros x; cbn; by destruct (view_txs x !! h) as [[?|]|]|]. intros t'. keeps. }
    unfold f in Hf. injection Hf as -> ->. exact Hlt.
  - destruct (Update_opens d1 d2 Hs) as [Hl Ht].
    split; [|by rewrite Hl]. apply (views_ok_same d1); [|done]. revert Hs. apply keeps_ok, Update_keeps.
  - split; [by apply (views_ok_same d1)|]. by rewrite Hl, Ht.
  - destruct (Commit_closes d1 d2 Hs). split; [|by apply closed_inv]. apply (views_ok_same d1); [|done].
    revert Hs. apply keeps_ok, keeps_Commit; done.
  - destruct (RollBack_closes d1 d2 Hs). split; [|by apply closed_inv]. apply (views_ok_same d1); [|done].
    revert Hs. apply keeps_ok, keeps_RollBack; done.
Qed.

(** C25: in every state the manager can reach from a new database, the map of
    views counts exactly the live views of each version, so that ending any of
    them succeeds; the write lock is held exactly while a write transaction is
    open, so that a second one has to wait. *)
Theorem manager_invariant d d' :
  view_tx_map (tx_manager d) = [] -> view_txs d = [] -> update_lock d = false -> update_tx (tx_manager d) = None ->
  rtc mgr_step d d' ->
  mgr_inv d' /\
  (forall h t, view_txs d' !! h = Some (Some t) -> exists d2, destroy_view h d' = Ok tt d2) /\
  (is_Some (update_tx (tx_manager d')) -> Update d' = Fault Blocked).
Proof.
  intros Hm Hv Hl Ht Hs.
  assert (H0' : mgr_inv d).
  { split; [|by apply closed_inv]. split; rewrite ?Hm; [constructor|].
    intros id. unfold views_at, view_txids. by rewrite Hv. }
  assert (Hinv : mgr_inv d').
  { clear Hm Hv Hl Ht. induction Hs as [d|d1 d2 d3 Hstep _ IH]; [done|]. apply IH. by apply (mgr_step_inv d1). }
  destruct Hinv as [Hvo Hlt]. split; [by split|]. split.
  - intros h t Hh. destruct (destroy_view_ok d' h t Hvo Hh) as (d2 & Hr & _). by exists d2.
  - intros Hx. apply Hlt in Hx. unfold Update, bind at 1, lock_update. by rewrite Hx.
Qed.

(** ** The order of a commit's writes *)

(** A write transaction, in place, whose free list can be saved. *)
Record committable d t : Prop := {
  cm_wal : is_wal d = false;
  cm_inv : db_inv d;
  cm_tx : update_tx (tx_manager d) = Some t;
  cm_ps : m_page_size (shm_meta d) = page_size d;
  cm_list : m_free_list_pgid (meta_format t) = kPageInvalidId;
  cm_pairs : disjoint_pairs (saved_pairs (pager d));
  cm_len : Z.of_nat (length (saved_pairs (pager d))) * 8 < 2 ^ 32;
  cm_space : GetPageCount (page_size d) (Z.of_nat (length (saved_pairs (pager d))) * 8) <= db_space d;
}.

Definition committed_meta d t : MetaStruct := sealed (CopyMetaInfo (shm_meta d) (meta_format t)).
Definition other_index d : Z := if cur_meta_index d =? 0 then 1 else 0.

Lemma Commit_run d t : committable d t ->
  exists d2 t2 d', Commit d = Ok tt d' /\ list_saved d t d2 t2 /\ pager d' = pager d2 /\
    db_map d' = cut (length (encode_meta (committed_meta d t))) (other_index d * page_size d) (encode_meta (committed_meta d t)) d2 /\
    io_trace d' = io_trace d ++ [MmapSync; MetaWrite (other_index d * page_size d) (encode_meta (committed_meta d t)); FileSync] /\
    shm_meta d' = committed_meta d t /\ cur_meta_index d' = other_index d /\ persisted_txid (tx_manager d') = persisted_txid (tx_manager d).
Proof.
  intros [Hw Hinv Ht Hps Hlist Hd Hlen Hsp]. unfold Commit.
  rewrite (bind_ok (gets tx_manager) _ d (tx_manager d) d) by done. rewrite Ht.
  set (d1 := set_shm_meta (CopyMetaInfo (shm_meta d) (meta_format t)) d).
  rewrite (bind_ok (Meta_Reset _) _ d tt d1) by done.
  assert (Hwal : gets is_wal d1 = Ok false d1) by (unfold gets; f_equal; exact Hw). run_step Hwal.
  assert (Hinv1 : db_inv d1) by (destruct Hinv as [(tx0 & []) Hp]; split; [exists tx0; by split|exact Hp]).
  destruct (SaveFreeList_ok d1 t Hinv1 Ht Hlist Hd Hlen Hsp) as (d2 & t2 & HS & HL).
  assert (HL' : list_saved d t d2 t2) by (destruct HL as [L1 L2 [] L4 L5 L6 L7 L8 L9 L10 L11 L12]; by split).
  set (f := fun x => (io_trace x, shm_meta x, cur_meta_index x, options x, persisted_txid (tx_manager x))).
  assert (Hf : f d2 = f d1) by (revert HS; apply keeps_ok, keeps_SaveFreeList; done).
  unfold f in Hf. injection Hf as Hio Hshm Hidx Hopt Hper.
  rewrite !bind_assoc. run_step HS.
  set (d3 := log_io MmapSync d2). rewrite bind_assoc, (bind_ok WriteAllDirtyPages _ d2 tt d3) by done.
  set (d4 := set_cur_meta_index (other_index d) d3).
  assert (Hsw : Meta_Switch d3 = Ok tt d4).
  { unfold Meta_Switch, modify. change (cur_meta_index d3) with (cur_meta_index d2). by rewrite Hidx. }
  rewrite bind_assoc. run_step Hsw.
  destruct (Meta_Save_run d4 (page_size d)) as (d5 & Hrun & Hmap5 & Hio5 & Hshm5 & Hidx5).
  { change (shm_meta d4) with (shm_meta d2). by rewrite Hshm. }
  { change (page_size d4) with (page_size d2). unfold page_size. by rewrite Hopt. }
  assert (Hpg5 : pager d5 = pager d4) by (revert Hrun; by apply keeps_ok).
  assert (Htm5 : tx_manager d5 = tx_manager d4) by (revert Hrun; by apply keeps_ok).
  run_step Hrun. exists d2, t2. eexists. split; [reflexivity|]. cbn [io_trace shm_meta cur_meta_index set_update_lock set_tx_manager pager db_map tx_manager set_update_tx persisted_txid].
  change (shm_meta d4) with (shm_meta d2) in *. rewrite Hio5, Hshm5, Hidx5, Hmap5, Hpg5, Hshm.
  change (io_trace d4) with (io_trace d2 ++ [MmapSync]). rewrite Hio, <- app_assoc. fold (committed_meta d t).
  change (cur_meta_index d4) with (other_index d). split_and!; [exact HL'|reflexivity..|by rewrite Htm5].
Qed.

(** C23: an in-place commit asks the system to write the pages before the meta
    record that makes them reachable, and to sync the file after it; the record
    goes to the slot that does not hold the current version; the transaction
    then has ended and the lock is free. *)
Theorem Commit_order d t : committable d t ->
  exists d', Commit d = Ok tt d' /\
    io_trace d' = io_trace d ++
      [MmapSync; MetaWrite (other_index d * page_size d) (encode_meta (committed_meta d t)); FileSync] /\
    shm_meta d' = committed_meta d t /\ cur_meta_index d' = other_index d /\
    update_tx (tx_manager d') = None /\ update_lock d' = false /\ mgr_views d' = mgr_views d.
Proof.
  intros Hc. destruct (Commit_run d t Hc) as (d2 & t2 & d' & Hrun & _ & _ & _ & Hio & Hm & Hi & _).
  destruct (Commit_closes d d' Hrun) as [Hl Ht]. exists d'. split_and!; try done.
  revert Hrun. apply keeps_ok, keeps_Commit; done.
Qed.

(** C36: the free list the commit saves is lost: the meta record was copied from
    the transaction before, so a database opened on it loads no free page. *)
Theorem Commit_forgets_free_list d t : committable d t ->
  exists d', Commit d = Ok tt d' /\
    forall d2, shm_meta d2 = shm_meta d' -> LoadFreeList d2 = Ok tt d2.
Proof.
  intros Hc. destruct (Commit_run d t Hc) as (dl & tl & d' & Hrun & _ & _ & _ & _ & Hm & _). exists d'. split; [done|].
  intros d2 Hd2. unfold LoadFreeList. rewrite (bind_ok (gets shm_meta) _ d2 (shm_meta d2) d2) by done.
  rewrite Hd2, Hm. unfold committed_meta, sealed. cbn [m_free_list_pgid CopyMetaInfo set_m_crc32].
  by rewrite (cm_list _ _ Hc), Z.eqb_refl.
Qed.

(** C28: in log mode a commit with no checkpoint due writes only the log: its
    commit record, flushed, and synced if the options ask for it; neither the
    pages nor the meta record are written. *)
Theorem Commit_wal d t :
  is_wal d = true -> update_tx (tx_manager d) = Some t -> disable_writing (logger d) = false ->
  checkpoint_needed (logger d) = false ->
  writer_size (writer_calls (logger d) ++ [AppendRecordToBuffer (le_bytes 1 kCommit)]) < opt_max_wal_size (options d) ->
  exists d', Commit d = Ok tt d' /\ io_trace d' = io_trace d /\ db_map d' = db_map d /\
    shm_meta d' = CopyMetaInfo (shm_meta d) (meta_format t) /\
    writer_calls (logger d') = writer_calls (logger d) ++
      AppendRecordToBuffer (le_bytes 1 kCommit) :: FlushBuffer :: (if opt_sync (options d) then [Sync] else []) /\
    update_tx (tx_manager d') = None /\ update_lock d' = false.
Proof.
  intros Hw Ht Hdis Hck Hsz. unfold Commit.
  rewrite (bind_ok (gets tx_manager) _ d (tx_manager d) d) by done. rewrite Ht.
  set (d1 := set_shm_meta (CopyMetaInfo (shm_meta d) (meta_format t)) d).
  rewrite (bind_ok (Meta_Reset _) _ d tt d1) by done.
  assert (Hwal : gets is_wal d1 = Ok true d1) by (unfold gets; f_equal; exact Hw). run_step Hwal.
  set (calls := writer_calls (logger d) ++ [AppendRecordToBuffer (le_bytes 1 kCommit)]) in *.
  set (d2 := set_logger (mkLogger calls false false) d1).
  assert (Ha : AppendLog [le_bytes 1 kCommit] d1 = Ok tt d2).
  { unfold AppendLog. rewrite (bind_ok (gets logger) _ d1 (logger d) d1) by done. rewrite Hdis.
    assert (Hr : append_records [le_bytes 1 kCommit] d1 = Ok tt d2).
    { unfold d2, calls. rewrite <- Hdis at 1. rewrite <- Hck. done. }
    run_step Hr. rewrite (bind_ok (gets (fun d => d)) _ d2 d2 d2) by done.
    change (negb (checkpoint_needed (logger d2))) with true. cbn [andb].
    rewrite (proj2 (Z.leb_gt _ _)); [done|]. exact Hsz. }
  rewrite !bind_assoc. unfold AppendCommitLog. rewrite bind_assoc. run_step Ha.
  unfold FlushLog. rewrite bind_assoc, (bind_ok (gets logger) _ d2 (logger d2) d2) by done.
  change (disable_writing (logger d2)) with false. cbv iota. rewrite bind_assoc.
  set (d3 := set_logger (mkLogger (calls ++ [FlushBuffer]) false false) d2).
  rewrite (bind_ok (writer_call FlushBuffer) _ d2 tt d3) by done. rewrite bind_assoc.
  rewrite (bind_ok (gets options) _ d3 (options d) d3) by done.
  unfold calls in *. destruct (opt_sync (options d)).
  - eexists. split; [reflexivity|]. cbn. rewrite <- !app_assoc. done.
  - eexists. split; [reflexivity|]. cbn. rewrite <- !app_assoc. done.
Qed.
End tx_theorems.

(** ** On a sample database *)
Definition one_view : TxImpl := new_TxImpl (set_m_txid 6 free_meta) false.
Definition idle_db : DBImpl :=
  mkDB (options free_db) (db_map free_db) 0 [] free_meta false 0
    (mkPager [(3, [(3, 1)]); (7, [(4, 1)])] [(2, 1); (5, 3)] [] {[2; 5; 6; 7]})
    (mkTxManager kTxInvalidId None [(6, 1)] 6) [Some one_view] (mkLogger [] false false).

#[local] Instance sample_writer : WalWriter := { writer_size l := Z.of_nat (length l) }.
#[local] Existing Instance sample_crc.

Lemma idle_db_idle : idle idle_db.
Proof. split; [reflexivity|reflexivity|by left|done|reflexivity]. Qed.

Lemma idle_db_views : views_ok idle_db.
Proof.
  split; [repeat constructor|]. intros id. change (view_tx_map (tx_manager idle_db)) with [(6, 1)].
  unfold views_at. change (view_txids idle_db) with [6]. rewrite filter_cons. cbn [map_find].
  destruct (Z.eqb_spec 6 id) as [<-|Hne]; [by rewrite (decide_True (P := 6 = 6))|]. by rewrite (decide_False (P := 6 = id)).
Qed.

Lemma idle_db_free : free_wf (pager idle_db).
Proof.
  split; [done|]. intros q. cbn. rewrite !covers_cons, covers_nil, !elem_of_union, !elem_of_singleton. lia.
Qed.

Lemma Update_protects_views_witness :
  match Update idle_db with
  | Ok _ d' => update_tx (tx_manager d') = Some (opening_tx idle_db) /\ (7, [(4, 1)]) ∈ pending_map (pager d')
  | Throw _ _ => False
  | Fault w => w = BadIterator
  end.
Proof.
  assert (Hpos : Forall (fun id => 0 < id < 2 ^ 64) [7; 6]) by (repeat constructor; done).
  assert (Hd : disjoint_pairs [(3, 1)]).
  { cbn. unfold kPageInvalidId. split_and!; try lia. intros q _ Hq. by apply covers_nil in Hq. }
  assert (Hn : forall q, covers [(3, 1)] q -> ~ covers (free_map (pager idle_db)) q).
  { intros q. cbn. rewrite !covers_cons, !covers_nil. lia. }
  pose proof (Update_protects_views idle_db idle_db_idle idle_db_views Hpos idle_db_free Hd Hn) as H.
  destruct (Update idle_db) as [[] d'| |]; [|exact H|exact H].
  destruct H as (Htx & _ & _ & _ & _ & Hk & _). split; [exact Htx|].
  apply (Hk 6); [apply list_elem_of_here|apply list_elem_of_further, list_elem_of_here|reflexivity].
Defined.

(** The same database with no version number left. *)
Lemma Update_overflow_stuck_witness :
  let d := set_shm_meta (set_m_txid (2 ^ 64 - 2) free_meta) idle_db in
  exists d', Update d = Throw (RuntimeError "Txid overflow.") d' /\ Update d' = Fault Blocked.
Proof.
  apply (Update_overflow_stuck (set_shm_meta (set_m_txid (2 ^ 64 - 2) free_meta) idle_db)); reflexivity.
Defined.

(** A new database, and a view opened and ended. *)
Definition new_db : DBImpl :=
  set_view_txs [] (set_tx_manager (mkTxManager kTxInvalidId None [] 6) idle_db).

Lemma manager_invariant_witness :
  exists d', mgr_step new_db d' /\ mgr_inv d' /\ (exists d2, destroy_view 0 d' = Ok tt d2).
Proof.
  assert (Hv : views_ok new_db).
  { split; [constructor|]. intros id. reflexivity. }
  destruct (View_ok new_db Hv) as (d' & Hr & _ & _ & Hl); [reflexivity|].
  assert (Hs : mgr_step new_db d') by (apply (ms_view new_db 0 d'); [reflexivity|exact Hr]).
  destruct (manager_invariant new_db d' eq_refl eq_refl eq_refl eq_refl (rtc_once _ _ Hs)) as (Hi & Hd & _).
  exists d'. split; [exact Hs|]. split; [exact Hi|]. apply (Hd 0%nat (new_TxImpl (shm_meta new_db) false)). exact Hl.
Defined.

Lemma free_db_committable : committable free_db free_tx.
Proof.
  split; try reflexivity.
  - exact free_db_inv.
  - cbn. unfold kPageInvalidId. split_and!; try lia; intros q; rewrite ?covers_cons, ?covers_nil; lia.
  - vm_compute. discriminate.
Qed.

Lemma Commit_order_witness :
  exists d', Commit free_db = Ok tt d' /\
    io_trace d' = [MmapSync; MetaWrite 256 (encode_meta (committed_meta free_db free_tx)); FileSync].
Proof.
  destruct (Commit_order free_db free_tx free_db_committable) as (d' & Hrun & Hio & _).
  exists d'. split; [exact Hrun|exact Hio].
Defined.

Lemma Commit_forgets_free_list_witness :
  exists d', Commit free_db = Ok tt d' /\ forall d2, shm_meta d2 = shm_meta d' -> LoadFreeList d2 = Ok tt d2.
Proof. exact (Commit_forgets_free_list free_db free_tx free_db_committable). Defined.

Definition wal_db : DBImpl :=
  mkDB (mkOptions 256 ByteArrayComparator false true kWal 1024) (db_map free_db) 0 [] free_meta true 0
    free_pager (tx_manager free_db) [] (mkLogger [] false false).

Lemma Commit_wal_witness :
  exists d', Commit wal_db = Ok tt d' /\ io_trace d' = [] /\
    writer_calls (logger d') = [AppendRecordToBuffer (le_bytes 1 kCommit); FlushBuffer; Sync].
Proof.
  destruct (Commit_wal wal_db free_tx) as (d' & Hrun & Hio & _ & _ & Hc & _); [reflexivity..|].
  exists d'. split; [exact Hrun|]. split; [exact Hio|exact Hc].
Defined.
