(* ===== verification/LogTheorems.v ===== *)
(** The log and its replay ([src/logger.cpp], [src/log_type.h]): the records an
    operation appends are replayed as that operation. *)
From S2P Require Import Prelude Format Comparator State Memory FreeMap Pager PagerI PagerInst Node Tx Iterator BTree.
From S2P Require Import Meta Logger TxManager Bucket Recovery MetaTheorems.

Implicit Types (d : DBImpl).

(** ** Operations and their records *)
Inductive LogOp : Type :=
| OpBegin
| OpRollback
| OpCommit
| OpSubBucket (bucket_id : Z) (key : list byte)
| OpPut (bucket_id : Z) (key value : list byte) (is_bucket : bool)
| OpDelete (bucket_id : Z) (key : list byte).

Definition op_records (op : LogOp) : list (list byte) :=
  match op with
  | OpBegin => [le_bytes 1 kBegin]
  | OpRollback => [le_bytes 1 kRollback]
  | OpCommit => [le_bytes 1 kCommit]
  | OpSubBucket id key => [encode_bucket_log kSubBucket id; key]
  | OpPut id key value b => [encode_bucket_log (if b then kPut_IsBucket else kPut_NotBucket) id; key; value]
  | OpDelete id key => [encode_bucket_log kDelete id; key]
  end.

Definition op_id (op : LogOp) : Z :=
  match op with OpSubBucket id _ | OpPut id _ _ _ | OpDelete id _ => id | _ => 0 end.

(** *** The fields of a record *)
Lemma length_bucket_log ty id : length (encode_bucket_log ty id) = 5%nat.
Proof. done. Qed.

Lemma bucket_log_type ty id : 0 <= ty < 256 -> log_type (encode_bucket_log ty id) = ty.
Proof.
  intros Ht. unfold log_type, encode_bucket_log. rewrite slice_app_here by done.
  apply le_value_bytes. change (256 ^ Z.of_nat 1) with 256. lia.
Qed.

Lemma bucket_log_id ty id : 0 <= id < 2 ^ 32 -> log_bucket_id (encode_bucket_log ty id) = id.
Proof.
  intros Hi. unfold log_bucket_id, encode_bucket_log. rewrite slice_app_skip by (rewrite length_le_bytes; lia).
  rewrite length_le_bytes. replace (1 - Z.of_nat 1) with 0 by lia. rewrite slice_all by done.
  apply le_value_bytes. change (256 ^ Z.of_nat 4) with (2 ^ 32). lia.
Qed.

Lemma txid_log_type x : log_type (encode_txid_log x) = kWalTxId.
Proof. reflexivity. Qed.

Lemma txid_log_txid x : 0 <= x < 2 ^ 64 -> log_txid (encode_txid_log x) = x.
Proof.
  intros Hx. unfold log_txid, encode_txid_log. rewrite slice_app_skip by (rewrite length_le_bytes; lia).
  rewrite length_le_bytes. replace (1 - Z.of_nat 1) with 0 by lia. rewrite slice_all by done.
  apply le_value_bytes. change (256 ^ Z.of_nat 8) with (2 ^ 64). lia.
Qed.

(** The operation as the replay runs it: a sub-bucket's key is cut at its first
    zero byte. *)
Definition replayed (op : LogOp) : LogOp :=
  match op with OpSubBucket id key => OpSubBucket id (c_string key) | _ => op end.

(** The operations the log can carry: ids of 32 bits, and no zero byte in the
    key of a sub-bucket. *)
Definition op_ok (op : LogOp) : Prop :=
  0 <= op_id op < 2 ^ 32 /\ match op with OpSubBucket _ key => x00 ∉ key | _ => True end.
Definition ops_ok : list LogOp -> Prop := Forall op_ok.

Lemma c_string_id bs : x00 ∉ bs -> c_string bs = bs.
Proof.
  induction bs as [|b bs IH]; [done|]. intros Hn. apply not_elem_of_cons in Hn as [Hb Hn]. cbn.
  rewrite bool_decide_false by congruence. by rewrite IH.
Qed.
Lemma replayed_id op : op_ok op -> replayed op = op.
Proof. destruct op; intros [_ Hk]; cbn in *; by rewrite ?c_string_id. Qed.
Lemma replayed_ids ops : ops_ok ops -> replayed <$> ops = ops.
Proof. induction 1 as [|op ops Ho _ IH]; [done|]. cbn. by rewrite replayed_id, IH. Qed.

Section log_theorems.
Context `{Crc32, WalWriter, HU : Uninitialised}.

(** *** What the appends write *)
Definition records_of (l : list WalCall) : list (list byte) :=
  omap (fun c => match c with AppendRecordToBuffer r => Some r | _ => None end) l.
Definition log_records d : list (list byte) := records_of (writer_calls (logger d)).

Definition logging d : Prop := is_wal d = true /\ disable_writing (logger d) = false.

Lemma append_records_ok l d :
  exists d', append_records l d = Ok tt d' /\ options d' = options d /\ logger d' =
    mkLogger (writer_calls (logger d) ++ (AppendRecordToBuffer <$> l)) (disable_writing (logger d)) (checkpoint_needed (logger d)).
Proof.
  revert d. induction l as [|r l IH]; intros d.
  - exists d. rewrite app_nil_r. by destruct (logger d).
  - cbn [append_records]. unfold bind at 1, writer_call, modify. set (d1 := set_logger _ d).
    destruct (IH d1) as (d' & Hr & Ho & Hl). exists d'. split_and!; [done|done|]. rewrite Hl. cbn.
    by rewrite <- app_assoc.
Qed.

Lemma records_of_app l1 l2 : records_of (l1 ++ l2) = records_of l1 ++ records_of l2.
Proof. apply omap_app. Qed.
Lemma records_of_appends l : records_of (AppendRecordToBuffer <$> l) = l.
Proof. induction l as [|r l IH]; [done|]. cbn. f_equal. exact IH. Qed.

Lemma AppendLog_ok l d : logging d ->
  exists d', AppendLog l d = Ok tt d' /\ log_records d' = log_records d ++ l /\ logging d'.
Proof.
  intros [Hw Hd]. unfold AppendLog. rewrite (bind_ok (gets logger) _ d (logger d) d) by done. rewrite Hd.
  destruct (append_records_ok l d) as (d1 & Hr & Ho & Hl). run_step Hr.
  rewrite (bind_ok (gets (fun d => d)) _ d1 d1 d1) by done.
  assert (Hrec : log_records d1 = log_records d ++ l).
  { unfold log_records. rewrite Hl. cbn. by rewrite records_of_app, records_of_appends. }
  assert (Hw1 : is_wal d1 = true) by (unfold is_wal in *; by rewrite Ho).
  assert (Hd1 : disable_writing (logger d1) = false) by by rewrite Hl.
  destruct (_ && _); [|by exists d1]. eexists. split; [reflexivity|]. by split.
Qed.

Lemma flush_call_ok c d : c = FlushBuffer \/ c = Sync -> logging d ->
  exists d', writer_call c d = Ok tt d' /\ log_records d' = log_records d /\ logging d'.
Proof.
  intros Hc Hd. eexists. split; [reflexivity|]. split; [|exact Hd]. unfold log_records. cbn.
  rewrite records_of_app. destruct Hc as [-> | ->]; apply app_nil_r.
Qed.

Lemma FlushLog_ok d : logging d -> exists d', FlushLog d = Ok tt d' /\ log_records d' = log_records d /\ logging d'.
Proof.
  intros Hd. unfold FlushLog. rewrite (bind_ok (gets logger) _ d (logger d) d) by done. rewrite (proj2 Hd).
  destruct (flush_call_ok FlushBuffer d) as (d1 & H1 & Hl1 & Hd1); [by left|done|]. run_step H1.
  rewrite (bind_ok (gets options) _ d1 (options d1) d1) by done.
  destruct (opt_sync (options d1)); [|by exists d1].
  destruct (flush_call_ok Sync d1) as (d2 & H2 & Hl2 & Hd2); [by right|done|].
  exists d2. by rewrite Hl2.
Qed.

(** The call that logs an operation. *)
Definition append_op (op : LogOp) : M DBImpl unit :=
  match op with
  | OpBegin => AppendBeginLog
  | OpRollback => AppendRollbackLog
  | OpCommit => AppendCommitLog
  | OpSubBucket id key => AppendSubBucketLog id key
  | OpPut id key value b => AppendPutLog id key value b
  | OpDelete id key => AppendDeleteLog id key
  end.

Lemma append_op_ok op d : logging d ->
  exists d', append_op op d = Ok tt d' /\ log_records d' = log_records d ++ op_records op /\ logging d'.
Proof.
  intros Hd. assert (Hwal : gets is_wal d = Ok true d) by (unfold gets; f_equal; apply Hd).
  destruct op as [| | |id key|id key value b|id key]; cbn [append_op op_records].
  - by apply AppendLog_ok.
  - by apply AppendLog_ok.
  - unfold AppendCommitLog. destruct (AppendLog_ok [le_bytes 1 kCommit] d Hd) as (d1 & Hr & Hl & Hd1).
    run_step Hr. destruct (FlushLog_ok d1 Hd1) as (d2 & H2 & Hl2 & Hd2). exists d2. by rewrite Hl2.
  - by apply AppendLog_ok.
  - unfold AppendPutLog. run_step Hwal. by apply AppendLog_ok.
  - unfold AppendDeleteLog. run_step Hwal. by apply AppendLog_ok.
Qed.

(** ** Running an operation: what replaying it should do.  [cur] says whether
    a transaction is open. *)
Definition op_bucket (id : Z) : M DBImpl Bucket :=
  let* _ := get_update_tx in
  let b := mkBucketRef UpdateTxRef id in
  let* _ := the_bucket b in
  ret b.

Definition op_body (cur : bool) (op : LogOp) : M DBImpl bool :=
  match op with
  | OpBegin => require (negb cur) ;;; TxManager.Update ;;; ret true
  | OpRollback => require cur ;;; UpdateTx_RollBack true ;;; ret false
  | OpCommit => require cur ;;; UpdateTx_Commit true ;;; ret false
  | OpSubBucket id key => let* b := op_bucket id in SubBucket b key true ;;; ret cur
  | OpPut id key value is_bucket => let* b := op_bucket id in Bucket_Put b key value is_bucket ;;; ret cur
  | OpDelete id key => let* b := op_bucket id in Bucket_Delete b key ;;; ret cur
  end.
Definition run_op (cur : bool) (op : LogOp) : M DBImpl bool := unwinding cur (op_body cur op).

Fixpoint run_ops (cur : bool) (ops : list LogOp) : M DBImpl bool :=
  match ops with
  | [] => ret cur
  | op :: ops => let* cur := run_op cur op in run_ops cur ops
  end.

Lemma bind_ext {S A B} (m : M S A) (f g : A -> M S B) s :
  (forall a s', f a s' = g a s') -> bind m f s = bind m g s.
Proof. intros Hfg. unfold bind. destruct (m s); [apply Hfg|done|done]. Qed.

Lemma bind_ok_cong {S A B} (m1 m2 : M S A) (f : A -> M S B) s : m1 s = m2 s -> bind m1 f s = bind m2 f s.
Proof. intros Heq. unfold bind. by rewrite Heq. Qed.

Lemma unwinding_map {A B} cur (m : M DBImpl A) (g : A -> B) d :
  unwinding cur (let* a := m in ret (g a)) d = (let* a := unwinding cur m in ret (g a)) d.
Proof.
  unfold unwinding, bind, ret. destruct (m d) as [|e d'|]; [done| |done]. by destruct (UpdateTx_destroy cur d').
Qed.
Lemma unwinding_ext {A} cur (m1 m2 : M DBImpl A) d : m1 d = m2 d -> unwinding cur m1 d = unwinding cur m2 d.
Proof. intros Heq. unfold unwinding. by rewrite Heq. Qed.

Definition head_record (op : LogOp) : list byte := hd [] (op_records op).
Lemma op_records_cons op : op_records op = head_record op :: tl (op_records op).
Proof. by destruct op. Qed.

Definition op_type (op : LogOp) : Z :=
  match op with
  | OpBegin => kBegin
  | OpRollback => kRollback
  | OpCommit => kCommit
  | OpSubBucket _ _ => kSubBucket
  | OpPut _ _ _ b => if b then kPut_IsBucket else kPut_NotBucket
  | OpDelete _ _ => kDelete
  end.
Lemma head_type op : log_type (head_record op) = op_type op.
Proof. destruct op as [| | | | ? ? ? []|]; reflexivity. Qed.
Lemma log_bucket_op ty id : 0 <= id < 2 ^ 32 -> log_bucket (encode_bucket_log ty id) = op_bucket id.
Proof. intros Hid. unfold log_bucket. by rewrite bucket_log_id. Qed.

(** One turn of the loop on an operation's records, if the storage the
    transaction is moved into reads as a null pointer, as the constructor
    asserts. *)
Definition nothing_stale : Prop := forall n, stale_tx n = false.

Lemma replay_record_op op cur rest d :
  nothing_stale -> 0 <= op_id op < 2 ^ 32 ->
  replay_record (head_record op) (mkReplay (tl (op_records op) ++ rest) cur true false) d =
  (let* c := op_body cur (replayed op) in ret (mkReplay rest c true false)) d.
Proof.
  intros Hnull Hid. unfold replay_record. rewrite head_type.
  destruct op as [| | |id key|id key value []|id key]; cbn [op_id op_type] in *;
    unfold replay_sub_bucket, replay_put, replay_delete;
    cbn [kWalTxId kBegin kRollback kCommit kSubBucket kPut_IsBucket kPut_NotBucket kDelete Z.eqb Pos.eqb orb
      rp_init rp_current_tx rp_records op_body require head_record op_records hd tl app replayed];
    unfold UpdateTx_move; rewrite ?Hnull.
  1-3: destruct cur; cbn [negb require]; unfold bind, ret, unrecoverable, throw; by try case_match.
  all: run_step (eq_refl (ret tt d)); rewrite bind_assert by done; rewrite log_bucket_op by done;
    rewrite bind_assoc; apply bind_ext; intros b d'; by rewrite bind_assoc.
Qed.

Lemma replay_loop_turn fuel record rest cur d :
  (0 < length record)%nat ->
  replay_loop (S fuel) (mkReplay (record :: rest) cur true false) d =
  (let* st' := unwinding cur (replay_record record (mkReplay rest cur true false)) in replay_loop fuel st') d.
Proof. intros Hl. destruct record as [|b bs]; [cbn in Hl; lia|reflexivity]. Qed.

Lemma head_record_size op : (0 < length (head_record op))%nat.
Proof. destruct op; cbn; lia. Qed.

Lemma replay_ops_ok ops cur rest fuel d :
  nothing_stale -> Forall (fun op => 0 <= op_id op < 2 ^ 32) ops ->
  replay_loop (length ops + fuel) (mkReplay (concat (op_records <$> ops) ++ rest) cur true false) d =
  (let* cur' := run_ops cur (replayed <$> ops) in replay_loop fuel (mkReplay rest cur' true false)) d.
Proof.
  intros Hnull Hids. revert cur d. induction Hids as [|op ops Hid _ IH]; intros cur d; [done|].
  cbn [length Nat.add fmap list_fmap concat run_ops]. rewrite op_records_cons, <- !app_assoc. cbn [app].
  rewrite replay_loop_turn by apply head_record_size.
  erewrite (bind_ok_cong (unwinding cur _)) by (rewrite (unwinding_ext _ _ _ _ (replay_record_op op cur _ d Hnull Hid)), unwinding_map; reflexivity).
  rewrite !bind_assoc. apply bind_ext. intros c d'. apply IH.
Qed.


(** ** The loop's bound *)
Definition yields {A} (P : A -> Prop) (m : M DBImpl A) : Prop := forall d a d', m d = Ok a d' -> P a.

Lemma yields_bind {A B} (P : B -> Prop) (m : M DBImpl A) (k : A -> M DBImpl B) :
  (forall a, yields P (k a)) -> yields P (bind m k).
Proof. intros Hk d b d' Hm. unfold bind in Hm. destruct (m d) as [a d1| |]; [|done|done]. by eapply Hk. Qed.
Lemma yields_ret {A} (P : A -> Prop) (a : A) : P a -> yields P (ret a).
Proof. by intros Ha d b d' [= <- _]. Qed.
Lemma yields_throw {A} (P : A -> Prop) e : yields P (throw e).
Proof. by intros ???. Qed.
Lemma yields_unwinding {A} (P : A -> Prop) cur (m : M DBImpl A) : yields P m -> yields P (unwinding cur m).
Proof.
  intros Hm d a d' Hu. unfold unwinding in Hu. destruct (m d) as [a1 d1|e d1|w] eqn:E; [|by case_match|done].
  rewrite Hu in E. by eapply Hm.
Qed.

Lemma replay_record_shorter record st :
  yields (fun st' => (length (rp_records st') <= length (rp_records st))%nat) (replay_record record st).
Proof.
  unfold replay_record, replay_sub_bucket, replay_put, replay_delete.
  repeat (first [ apply yields_bind; intros ? | apply yields_throw | case_match ]);
    apply yields_ret; cbn [rp_records length] in *; simplify_eq; cbn; lia.
Qed.

Lemma replay_loop_more n st d k :
  (length (rp_records st) < n)%nat -> replay_loop (n + k) st d = replay_loop n st d.
Proof.
  revert st d. induction n as [|n IH]; intros st d Hl; [lia|]. cbn [Nat.add replay_loop].
  destruct (rp_end st); [done|]. destruct (rp_records st) as [|record rest] eqn:E; [done|].
  destruct (length record <? 1)%nat; [done|].
  set (m := unwinding _ _). unfold bind. destruct (m d) as [st' d'| |] eqn:Em; [|done|done].
  apply IH. cbn [length] in Hl.
  eapply yields_unwinding in Em; [|apply replay_record_shorter]. cbn [rp_records] in Em. lia.
Qed.

(** ** Recovery *)
Definition op_ids_ok (ops : list LogOp) : Prop := Forall (fun op => 0 <= op_id op < 2 ^ 32) ops.
Definition ops_records (ops : list LogOp) : list (list byte) := concat (op_records <$> ops).

Lemma length_ops_records ops : (length ops <= length (ops_records ops))%nat.
Proof.
  unfold ops_records. induction ops as [|op ops IH]; [done|].
  cbn [fmap list_fmap concat length]. rewrite length_app, op_records_cons. cbn [length]. lia.
Qed.

(** What is left of a recovery once the operations were replayed: nothing is
    saved. *)
Definition finish_recovery (cur : bool) : M DBImpl unit :=
  set_disable_writing false ;;;
  WriteAllDirtyPages ;;;
  if cur then UpdateTx_RollBack true else ret tt.

(** The header's turn. *)
Lemma replay_header x records fuel d :
  0 <= x < 2 ^ 64 ->
  replay_loop (S fuel) (mkReplay (encode_txid_log x :: records) false false false) d =
  replay_loop fuel (mkReplay records false true (x <? m_txid (shm_meta d))) d.
Proof. intros Hx. rewrite <- (txid_log_txid x) at 2 by done. reflexivity. Qed.

Lemma Recover_loop records d :
  Recover records d =
  (set_disable_writing true ;;;
   let* st := replay_loop (S (length records)) (mkReplay records false false false) in
   finish_recovery (rp_current_tx st)) d.
Proof.
  unfold Recover, finish_recovery. apply bind_ext. intros _ d1. apply bind_ext. intros st d2.
  apply bind_ext. intros _ d3. apply bind_ext. intros _ d4.
  unfold bind at 1. destruct (rp_current_tx st); [destruct (UpdateTx_RollBack true d4) as [[] d5| |]; [|done|done]|];
    unfold bind, gets, ret; by rewrite Z.ltb_irrefl.
Qed.

(** Whatever was logged, [replayed] is what is run. *)
Lemma Recover_ops x ops d :
  nothing_stale -> 0 <= x < 2 ^ 64 -> op_ids_ok ops ->
  Recover (encode_txid_log x :: ops_records ops) d =
  (set_disable_writing true ;;;
   let* meta := gets shm_meta in
   let* cur := (if x <? m_txid meta then ret false else run_ops false (replayed <$> ops)) in
   finish_recovery cur) d.
Proof.
  intros Hnull Hx Hids. rewrite Recover_loop. apply bind_ext. intros _ d1.
  cbn [length]. pose proof (length_ops_records ops) as Hlen.
  erewrite bind_ok_cong by (apply replay_header; done).
  unfold bind at 2, gets. destruct (x <? m_txid (shm_meta d1)); [done|].
  replace (S (length (ops_records ops)))
    with (length ops + S (length (ops_records ops) - length ops))%nat by lia.
  rewrite <- (app_nil_r (ops_records ops)) at 2.
  erewrite bind_ok_cong by (by apply replay_ops_ok).
  rewrite bind_assoc. apply bind_ext. by intros cur d2.
Qed.

(** The calls that log a sequence of operations. *)
Fixpoint append_ops (ops : list LogOp) : M DBImpl unit :=
  match ops with
  | [] => ret tt
  | op :: ops => append_op op ;;; append_ops ops
  end.

Lemma append_ops_ok ops d : logging d ->
  exists d', append_ops ops d = Ok tt d' /\ log_records d' = log_records d ++ ops_records ops /\ logging d'.
Proof.
  revert d. induction ops as [|op ops IH]; intros d Hd; cbn [append_ops].
  - exists d. unfold ops_records. cbn. by rewrite app_nil_r.
  - destruct (append_op_ok op d Hd) as (d1 & H1 & Hl1 & Hd1). run_step H1.
    destruct (IH d1 Hd1) as (d2 & H2 & Hl2 & Hd2). exists d2. split_and!; [done| |done].
    rewrite Hl2, Hl1, <- app_assoc. done.
Qed.

(** ** The theorems *)

(** C26: the log is read back as it was written.  Whatever sequence of
    operations ([Begin], [Commit], [Rollback], [SubBucket], [Put], [Delete])
    is appended after the header record of transaction id [x], recovery from
    the resulting records on any database [d0] does this and nothing else: if
    the database's meta is newer than [x] the records are skipped, otherwise
    every operation is run, in order, with its bucket id, key, value and kind;
    then the dirty pages are written and the transaction still open, if any,
    is rolled back.  The key of a sub-bucket must have no zero byte (the replay
    would cut it there, [Recover_ops]), and the uninitialised pointer that
    [current_tx.emplace] reads must be null, as the code asserts. *)
Theorem log_roundtrip x ops d :
  nothing_stale -> 0 <= x < 2 ^ 64 -> ops_ok ops ->
  is_wal d = true -> disable_writing (logger d) = false -> log_records d = [encode_txid_log x] ->
  exists d', append_ops ops d = Ok tt d' /\
    forall d0, Recover (log_records d') d0 =
      (set_disable_writing true ;;;
       let* meta := gets shm_meta in
       let* cur := (if x <? m_txid meta then ret false else run_ops false ops) in
       finish_recovery cur) d0.
Proof.
  intros Hnull Hx Hops Hw Hd Hr. destruct (append_ops_ok ops d) as (d' & Ha & Hl & _); [done|].
  exists d'. split; [done|]. intros d0. rewrite Hl, Hr. cbn [app]. rewrite Recover_ops; [by rewrite replayed_ids|done..|].
  by eapply Forall_impl; [exact Hops|]; intros op [Hid _].
Qed.

(** The replay without a bound, [n] turns of its loop: it stops at the end of
    the records, at an empty one or at what the last record asked; otherwise a
    turn takes a record, and an exception or a fault of the turn is the
    loop's. *)
Definition replay_turn (record : list byte) (rest : list (list byte)) (st : Replay) : M DBImpl Replay :=
  unwinding (rp_current_tx st) (replay_record record (mkReplay rest (rp_current_tx st) (rp_init st) false)).

Inductive replays : nat -> Replay -> DBImpl -> outcome DBImpl Replay -> Prop :=
| replays_end st d : rp_end st = true -> replays 0 st d (Ok st d)
| replays_eof st d : rp_records st = [] -> replays 0 st d (Ok st d)
| replays_empty st d rest : rp_records st = [] :: rest -> replays 0 st d (Ok st d)
| replays_turn n st d record rest st' d' o :
    rp_end st = false -> rp_records st = record :: rest -> record <> [] ->
    replay_turn record rest st d = Ok st' d' -> replays n st' d' o -> replays (S n) st d o
| replays_throw st d record rest e d' :
    rp_end st = false -> rp_records st = record :: rest -> record <> [] ->
    replay_turn record rest st d = Throw e d' -> replays 1 st d (Throw e d')
| replays_fault st d record rest w :
    rp_end st = false -> rp_records st = record :: rest -> record <> [] ->
    replay_turn record rest st d = Fault w -> replays 1 st d (Fault w).

Lemma replay_turn_shorter record rest st d st' d' :
  replay_turn record rest st d = Ok st' d' -> (length (rp_records st') <= length rest)%nat.
Proof. intros Hm. eapply yields_unwinding in Hm; [|apply replay_record_shorter]. exact Hm. Qed.

Lemma replay_loop_replays fuel : forall st d, (length (rp_records st) < fuel)%nat ->
  exists n, (n <= length (rp_records st))%nat /\ replays n st d (replay_loop fuel st d).
Proof.
  induction fuel as [|fuel IH]; intros st d Hl; [lia|]. cbn [replay_loop].
  destruct (rp_end st) eqn:He; [exists 0%nat; split; [lia|by constructor]|].
  destruct (rp_records st) as [|record rest] eqn:E; [exists 0%nat; split; [lia|by constructor]|]. cbn [length] in *.
  destruct record as [|b record]; [exists 0%nat; split; [lia|by eapply replays_empty]|]. cbn [length Nat.ltb Nat.leb].
  change (unwinding _ _) with (replay_turn (b :: record) rest st).
  unfold bind. destruct (replay_turn (b :: record) rest st d) as [st' d'|e d'|w] eqn:Em.
  - pose proof (replay_turn_shorter _ _ _ _ _ _ Em). destruct (IH st' d') as (n & Hn & Hr); [lia|].
    exists (S n). split; [lia|by eapply replays_turn].
  - exists 1%nat. split; [lia|by eapply replays_throw].
  - exists 1%nat. split; [lia|by eapply replays_fault].
Qed.

Lemma replays_fun n st d o : replays n st d o -> forall m o', replays m st d o' -> n = m /\ o = o'.
Proof.
  induction 1 as [| | |n st d record rest st' d' o He Hr Hn Ht _ IH| |]; intros m o' Hm; inversion Hm; subst;
    repeat match goal with H1 : ?x = _, H2 : ?x = _ |- _ => rewrite H1 in H2; simplify_eq end; try done.
  match goal with Hx : replays _ _ _ _ |- _ => destruct (IH _ _ Hx) as [-> ->] end. done.
Qed.

(** C27: the replay loop ends by itself: from any state it takes no more turns
    than there are records left, and what it ends with (a return, an exception
    or a fault of the operation a turn ran) is what the bounded loop computes
    with any bound above the number of records, [Recover]'s among them. *)
Theorem replay_terminates st d fuel :
  (length (rp_records st) < fuel)%nat ->
  exists n, (n <= length (rp_records st))%nat /\ replays n st d (replay_loop fuel st d) /\
    forall m o, replays m st d o -> m = n /\ o = replay_loop fuel st d.
Proof.
  intros Hf. destruct (replay_loop_replays fuel st d Hf) as (n & Hn & Hr). exists n. split_and!; [done..|].
  intros m o Hm. exact (replays_fun _ _ _ _ Hm _ _ Hr).
Qed.

(** A log whose first record is not the header record is refused at once,
    whichever operation that record starts and whatever follows, and so is a
    log with a second header: recovery throws and the database is as it was. *)
Theorem replay_needs_header op rest fuel d :
  replay_loop (S fuel) (mkReplay (head_record op :: rest) false false false) d =
    Throw (RuntimeError "unrecoverable logs.") d /\
  forall x, replay_loop (S fuel) (mkReplay (encode_txid_log x :: rest) false true false) d =
    Throw (RuntimeError "Unrecoverable logs.") d.
Proof.
  split; [|by intros x].
  assert (Hr : forall st, rp_init st = false ->
    replay_record (head_record op) st d = Throw (RuntimeError "unrecoverable logs.") d).
  { intros st Hi. unfold replay_record, replay_sub_bucket, replay_put, replay_delete. rewrite head_type, Hi.
    by destruct op as [| | | | ? ? ? []|]. }
  cbn [replay_loop rp_end rp_records]. pose proof (head_record_size op).
  rewrite (proj2 (Nat.ltb_ge _ _)) by lia. unfold bind, unwinding. by rewrite Hr.
Qed.
End log_theorems.

(** ** On a sample log *)
#[local] Existing Instance sample_crc.
#[local] Instance no_size : WalWriter := { writer_size _ := 0 }.
#[local] Instance null_storage : Uninitialised := { stale_tx _ := false }.

(** A database in log mode whose log has its header only. *)
Definition logging_db : DBImpl :=
  set_logger (mkLogger [Open; AppendRecordToBuffer (encode_txid_log 3)] false false)
    (blank_db (mkOptions 256 ByteArrayComparator false true kWal 1024) ∅ 0).
Definition sample_ops : list LogOp := [OpBegin; OpPut 0 [x61] [x62; x00; x63] false; OpDelete 0 [x64]; OpCommit].

Lemma log_roundtrip_witness :
  exists d', append_ops sample_ops logging_db = Ok tt d' /\
    Recover (log_records d') logging_db =
      (set_disable_writing true ;;;
       let* meta := gets shm_meta in
       let* cur := (if 3 <? m_txid meta then ret false else run_ops false sample_ops) in
       finish_recovery cur) logging_db.
Proof.
  destruct (log_roundtrip 3 sample_ops logging_db) as (d' & Ha & Hr); [by intros n|lia| |reflexivity..|].
  - repeat constructor; cbn; lia.
  - exists d'. split; [exact Ha|exact (Hr logging_db)].
Defined.

Definition sample_replay : Replay := mkReplay (ops_records sample_ops) false false false.
Lemma replay_terminates_witness :
  exists n, (n <= 7)%nat /\ replays n sample_replay logging_db (replay_loop 8 sample_replay logging_db).
Proof.
  destruct (replay_terminates sample_replay logging_db 8) as (n & Hn & Hr & _); [cbn; lia|].
  exists n. split; [exact Hn|exact Hr].
Defined.
