(* ===== verification/RecoveryTheorems.v ===== *)
(** What a recovery leaves behind ([Logger::Recover] of [src/logger.cpp] and
    [DBImpl::InitLogFile] of [src/db_impl.cpp]): the transactions it gives back
    are in the mapped pages only, no meta record is written, and the log is
    reset. *)
From S2P Require Import Prelude Format Comparator State Memory FreeMap Pager PagerI PagerInst Node Tx Iterator BTree Trails.
From S2P Require Import Meta Logger TxManager Bucket Recovery TreeTrails MetaTheorems Keeps TxTheorems LogTheorems.

Implicit Types (d : DBImpl).

(** ** Replaying makes no I/O *)

(** The log mode, while the replay writes no log. *)
Definition replaying d : Prop :=
  is_wal d = true /\ disable_writing (logger d) = true /\ checkpoint_needed (logger d) = false.
Definition io_state d : Options * Logger * list IoEvent * Z := (options d, logger d, io_trace d, cur_meta_index d).
Definition no_io d d' : Prop := replaying d -> io_state d' = io_state d.

Lemma replaying_same d d' : io_state d' = io_state d -> replaying d -> replaying d'.
Proof. intros [= Ho Hl _ _] Hr. unfold replaying, is_wal in *. by rewrite Ho, Hl. Qed.

#[export] Instance no_io_preorder : PreOrder no_io.
Proof.
  split; [by intros d|]. intros d1 d2 d3 H12 H23 Hr. specialize (H12 Hr).
  rewrite (H23 (replaying_same _ _ H12 Hr)). exact H12.
Qed.

(** A program known on the states that are replaying. *)
Lemma no_io_when {A} (m : M DBImpl A) :
  (forall d, replaying d -> match m d with Ok _ d' | Throw _ d' => io_state d' = io_state d | Fault _ => True end) -> trails no_io m.
Proof.
  intros Hm d. destruct (m d) as [a d'|e d'|w] eqn:E; [| |done]; intros Hr; specialize (Hm d Hr); by rewrite E in Hm.
Qed.

Section recovery_theorems.
Context `{Crc32, WalWriter, HU : Uninitialised}.

Lemma no_io_AppendLog l : trails no_io (AppendLog l).
Proof. apply no_io_when. intros d (_ & Hw & _). unfold AppendLog, bind, gets. by rewrite Hw. Qed.
Lemma no_io_FlushLog : trails no_io FlushLog.
Proof. apply no_io_when. intros d (_ & Hw & _). unfold FlushLog, bind, gets. by rewrite Hw. Qed.
Lemma no_io_modify f : (forall d, io_state (f d) = io_state d) -> trails no_io (modify f).
Proof. intros Hf d Hr. apply Hf. Qed.
#[local] Hint Resolve no_io_AppendLog no_io_FlushLog : trails.
#[local] Hint Extern 1 (trails no_io (modify _)) => apply no_io_modify; intros ?; reflexivity : trails.

Lemma no_io_zoom {A} (m : M Pager A) : trails no_io (zoom pager_lens m).
Proof. by apply trails_zoom_pager. Qed.
Lemma no_io_update_tx t : trails no_io get_update_tx /\ trails no_io (put_update_tx t).
Proof. split; [apply trails_get_update_tx; exact _|apply trails_put_update_tx; intros ?? ?; reflexivity]. Qed.
#[local] Hint Resolve no_io_zoom : trails.
#[local] Hint Extern 1 (trails no_io get_update_tx) => apply (no_io_update_tx (mkTx blank_meta true (mkBucket 0 true UserRoot None) [])) : trails.
#[local] Hint Extern 1 (trails no_io (put_update_tx _)) => apply no_io_update_tx : trails.

Lemma no_io_locks : trails no_io lock_update /\ trails no_io unlock_update /\ trails no_io ClearPendingMmap.
Proof.
  split_and!; intros d; unfold lock_update, unlock_update, ClearPendingMmap.
  - by destruct (update_lock d).
  - done.
  - destruct (db_mmap_pending d); [done|]. by destruct (_ =? _)%nat.
Qed.
#[local] Hint Extern 1 (trails no_io lock_update) => apply no_io_locks : trails.
#[local] Hint Extern 1 (trails no_io unlock_update) => apply no_io_locks : trails.
#[local] Hint Extern 1 (trails no_io ClearPendingMmap) => apply no_io_locks : trails.

Lemma no_io_Update : trails no_io TxManager.Update.
Proof. unfold TxManager.Update, AppendBeginLog. trails. Qed.
Lemma no_io_end_update : trails no_io end_update.
Proof. unfold end_update. trails. Qed.
#[local] Hint Resolve no_io_Update no_io_end_update : trails.

(** No checkpoint is due while the log is replayed. *)
Lemma no_io_checkpoint (m : M DBImpl unit) : trails no_io m -> trails no_io (m ;;; let* l := gets logger in if checkpoint_needed l then Checkpoint else ret tt).
Proof.
  intros Hm. apply no_io_when. intros d Hr. unfold bind. specialize (Hm d). destruct (m d) as [[] d1|e d1|]; [|by apply Hm|done].
  specialize (Hm Hr). cbn. destruct (replaying_same _ _ Hm Hr) as (_ & _ & ->). exact Hm.
Qed.

Lemma no_io_Commit : trails no_io Commit.
Proof.
  unfold Commit. apply trails_bind; [exact _|trails|]. intros m. destruct (update_tx m) as [t|]; [|done].
  unfold Meta_Reset. apply trails_bind; [exact _|trails|]. intros _. apply no_io_when. intros d Hr.
  rewrite (bind_ok (gets is_wal) _ d true d) by (unfold gets; f_equal; apply Hr).
  assert (Hc : trails no_io (AppendCommitLog ;;; let* l := gets logger in if checkpoint_needed l then Checkpoint else ret tt)).
  { apply no_io_checkpoint. unfold AppendCommitLog. trails. }
  pose proof (trails_bind no_io _ (fun _ => end_update) Hc (fun _ => no_io_end_update) d) as Ht.
  destruct (bind _ _ d); [by apply Ht|by apply Ht|done].
Qed.

Lemma no_io_RollBack : trails no_io RollBack.
Proof.
  apply no_io_when. intros d Hr. unfold RollBack. rewrite (bind_ok (gets is_wal) _ d true d) by (unfold gets; f_equal; apply Hr).
  assert (Hc : trails no_io (AppendRollbackLog ;;; let* l := gets logger in if checkpoint_needed l then Checkpoint else ret tt)).
  { apply no_io_checkpoint, no_io_AppendLog. }
  assert (Hk : trails no_io (PagerRollback ;;; end_update)) by (unfold PagerRollback; trails).
  pose proof (trails_bind no_io _ (fun _ => PagerRollback ;;; end_update) Hc (fun _ => Hk) d) as Ht.
  destruct (bind _ _ d); [by apply Ht|by apply Ht|done].
Qed.

(** ** The operations of the log *)
Ltac by_setters := first [exact _ | apply no_io_AppendLog | intros ?? ?; reflexivity].
Lemma no_io_get_tx r : trails no_io (get_tx r).
Proof. apply trails_get_tx; by_setters. Qed.
#[local] Hint Resolve no_io_Commit no_io_RollBack no_io_get_tx : trails.
Lemma no_io_Tx_RollBack r : trails no_io (Tx_RollBack r).
Proof. unfold Tx_RollBack, RollBackView. trails. Qed.
#[local] Hint Resolve no_io_Tx_RollBack : trails.

Lemma no_io_put_roots b : trails no_io (put_bucket_roots b).
Proof. apply trails_put_bucket_roots; by_setters. Qed.
Lemma no_io_put_all_roots r l : trails no_io (put_all_roots r l).
Proof. apply trails_put_all_roots; by_setters. Qed.
#[local] Hint Resolve no_io_put_roots no_io_put_all_roots : trails.
Lemma no_io_Tx_Commit : trails no_io Tx_Commit.
Proof. unfold Tx_Commit. trails. Qed.
Lemma no_io_SubBucket b k w : trails no_io (SubBucket b k w).
Proof. apply trails_SubBucket; by_setters. Qed.
Lemma no_io_Bucket_Put b k v is_b : trails no_io (Bucket_Put b k v is_b).
Proof. apply trails_Bucket_Put; by_setters. Qed.
Lemma no_io_Bucket_Delete b k : trails no_io (Bucket_Delete b k).
Proof. apply trails_Bucket_Delete; by_setters. Qed.
Lemma no_io_at_bucket r i : trails no_io (at_bucket r i).
Proof. apply trails_at_bucket; by_setters. Qed.
#[local] Hint Resolve no_io_Tx_Commit no_io_SubBucket no_io_Bucket_Put no_io_Bucket_Delete no_io_at_bucket : trails.







End recovery_theorems.

(** ** A recovery *)
#[local] Existing Instance sample_crc.
#[local] Instance short_log : WalWriter := { writer_size _ := 0 }.
#[local] Instance clean_storage : Uninitialised := { stale_tx _ := false }.



