(* ===== verification/FormatTheorems.v ===== *)
(** What the code relies on below its components: page images read back as the
    nodes they were, page addresses, and the order of the default comparator. *)
From S2P Require Import Prelude Format Comparator State Memory FreeMap Pager PagerI PagerInst.
From S2P Require Import Node NodeWf NodeSpec Sample.

(** C29: the bytes of a node page are read back as that node: for a node whose
    fields fit their bit fields and whose slots end where its records begin,
    casting its page image to [NodeData] gives the same header (the 2 and 14
    bits of type and count, the signed data offset), the same tail child, the
    same live slots (offsets and sizes of 15 bits with their flags) and the
    same record area; the image is exactly one page long. *)
Theorem page_image_roundtrip ps nd :
  node_wf ps nd -> header_ranges (header nd) -> 0 <= tail_child nd < 2 ^ 32 ->
  node_equiv (decode_node (page_image nd)) nd /\ Z.of_nat (length (page_image nd)) = ps.
Proof.
  intros Hwf Hh Ht. destruct (slots_split _ _ Hwf) as (dead & _ & Hlen & _).
  pose proof (sw_low _ _ Hwf). pose proof (sw_top _ _ Hwf). pose proof (sw_used _ _ Hwf).
  pose proof (sw_payload _ _ Hwf). pose proof (space_bounds _ _ Hwf) as (Hps & _). unfold count in *.
  split; [|rewrite length_page_image; lia].
  apply decode_page_image; try done; try lia.
  eapply Forall_impl; [exact (nw_live _ _ Hwf)|]. intros s Hs.
  pose proof (sizeof_record_nonneg _ _ _ Hs). destruct Hs. split; lia.
Qed.

(** C31: page addresses are exact up to 4 GiB and only there.  Below, the
    pointer of a page and offset is the file position the page number means,
    [GetPageIdByPtr] recovers the page from it and two pages never share an
    address; but the product is a 32-bit one, so that with every page size the
    page [2^32 / page_size] numbers further on has the same address. *)
Theorem GetPtr_bounds ps :
  page_size_ok ps ->
  (forall pgid off, 0 <= pgid -> pgid * ps < 2 ^ 32 -> GetPtr ps pgid off = pgid * ps + off) /\
  (forall pgid off, 0 <= pgid -> pgid * ps < 2 ^ 32 -> 0 <= off < ps -> GetPageIdByPtr ps (GetPtr ps pgid off) = pgid) /\
  (forall p q, 0 <= p -> 0 <= q -> p * ps < 2 ^ 32 -> q * ps < 2 ^ 32 -> GetPtr ps p 0 = GetPtr ps q 0 -> p = q) /\
  (forall pgid off, GetPtr ps (pgid + 2 ^ 32 / ps) off = GetPtr ps pgid off).
Proof.
  intros Hps. destruct (page_size_bounds _ Hps) as [Hr _]. split_and!.
  - intros. apply GetPtr_exact; lia.
  - intros pgid off H0 Hlt Ho. rewrite GetPtr_exact by lia. unfold GetPageIdByPtr.
    rewrite (Z.mul_comm pgid), Z.add_comm, Z.mul_comm, Z.div_add by lia. rewrite (Z.div_small off) by lia.
    apply u32_small. nia.
  - intros p q Hp Hq Hpl Hql. rewrite !GetPtr_exact by lia. nia.
  - intros. by apply GetPtr_wraps.
Qed.

(** C30: the default comparator, a [memcmp] of the common length and then the
    sign of a 64-bit difference of sizes, is the lexicographic order of byte
    strings, and this is a strict total order, whatever the keys' bytes and
    lengths (below [2^63]). *)
Theorem ByteArrayCompFunc_order a b :
  Z.of_nat (length a) < 2 ^ 63 -> Z.of_nat (length b) < 2 ^ 63 ->
  ByteArrayCompFunc a b = Some (lex_compare a b) /\
  (ByteArrayCompFunc a b = Some Eq <-> a = b) /\
  ByteArrayCompFunc b a = Some (CompOpp (lex_compare a b)) /\
  (forall c, Z.of_nat (length c) < 2 ^ 63 ->
     ByteArrayCompFunc a b = Some Lt -> ByteArrayCompFunc b c = Some Lt -> ByteArrayCompFunc a c = Some Lt).
Proof.
  intros Ha Hb. rewrite !ByteArrayCompFunc_lex by done. split_and!; [done| | |].
  - rewrite <- lex_compare_eq. split; [by intros [= ?]|by intros ->].
  - by rewrite lex_compare_antisym.
  - intros c Hc. rewrite !ByteArrayCompFunc_lex by done. intros [= H1] [= H2]. f_equal.
    by apply lex_compare_trans with b.
Qed.

(** The comparator bound to the name [UInt64Comparator] refuses every key of
    eight bytes: its assertion asks for four. *)
Lemma UInt64Comparator_rejects a b : length a = 8%nat -> UInt64Comparator a b = None.
Proof. intros Ha. unfold UInt64Comparator, UInt32CompFunc. by rewrite Ha. Qed.

(** ** On the sample *)
Lemma page_image_roundtrip_witness :
  node_equiv (decode_node (page_image two_entries.1)) two_entries.1 /\
  Z.of_nat (length (page_image two_entries.1)) = 256.
Proof.
  apply (page_image_roundtrip 256 two_entries.1).
  - destruct two_entries_sound as (Hok & _ & Hps). rewrite <- Hps. apply Hok.
  - split; vm_compute; split; (discriminate || reflexivity).
  - vm_compute. split; (discriminate || reflexivity).
Defined.

Lemma GetPtr_bounds_witness :
  GetPtr 4096 3 20 = 3 * 4096 + 20 /\ GetPtr 4096 (3 + 2 ^ 32 / 4096) 20 = GetPtr 4096 3 20.
Proof.
  destruct (GetPtr_bounds 4096) as (Hp & _ & _ & Hw).
  - unfold page_size_ok. set_solver.
  - split; [apply Hp; lia|apply Hw].
Defined.

Lemma ByteArrayCompFunc_order_witness :
  ByteArrayCompFunc [x61] [x61; x00] = Some (lex_compare [x61] [x61; x00]).
Proof. exact (proj1 (ByteArrayCompFunc_order [x61] [x61; x00] eq_refl eq_refl)). Defined.
