(* ===== verification/Isolation.v ===== *)
(** What readers see of a write transaction in the update-in-place mode, where
    [TxImpl::CopyNeeded] of [src/tx_impl.cpp] has every page of an earlier
    version copied: nothing.  The log mode is in [Runs]. *)
From S2P Require Import Prelude Format Comparator State Memory FreeMap Pager PagerI PagerInst.
From S2P Require Import Node NodeWf NodeSpec Search BranchSpec Tx Iterator BTree.
From S2P Require Import NodeDb Tree TreeSearch TreeGet SampleTree TreeWalk Copying TreeSteps Forest.
From S2P Require Import LeafPage LeafSplit BranchPage BranchSplit Rebuild PutUp PutTree PutOrder PutTheorems PutSame PutSamples.
From S2P Require Import Holes Siblings DeleteUp DeleteLeaf DeleteTheorems DeleteSamples KeyValue.

Implicit Types (d : DBImpl) (p q : Z) (es : list entry) (e : entry) (t u : tree) (fs : list frame).

(** ** Update-in-place mode *)

(** The nodes [N] are of versions before the write transaction. *)
Definition older d (N : list Z) : Prop :=
  forall q, q ∈ N -> last_modified_txid (header (db_node d q)) < db_txid d <= kTxInvalidId.

(** Nothing was persisted by a checkpoint: every page of an earlier version is
    copied, whoever the readers are. *)
Lemma older_apart d N u : persisted_txid (tx_manager d) = kTxInvalidId -> older d N -> apart_nodes d N u.
Proof.
  intros Hp Ho q _ Hq. destruct (Ho q Hq) as [Hlt Hle]. unfold needs_copy, copy_needed. rewrite Hp.
  rewrite (proj2 (Z.ltb_ge kTxInvalidId _)) by lia. rewrite andb_false_r. by apply Z.ltb_lt.
Qed.

Section in_place.
Context (cmp : comparator) (key_ok : list byte -> Prop) {HO : KeyOrder cmp key_ok}.
Context (bt : BTree) (d : DBImpl) (T : option tree) (m : kvmap) (ops : list kv_op).
Context (Hstate : kv_state cmp key_ok bt d T m) (Hops : Forall (op_ok key_ok (page_size d)) ops).
Context (Hslim : forall k, key_ok k -> slim (page_size d) k) (Hroom : kv_room * Z.of_nat (length ops) <= db_space d).

(** C7: without checkpoints, whatever sequence of puts, deletions and lookups a
    write transaction makes in a tree of earlier versions, every tree of every
    view is what it was: searches and walks through the view give what they
    gave before. *)
Theorem in_place_isolation :
  persisted_txid (tx_manager d) = kTxInvalidId -> older d (nodes_of T) ->
  exists rs d' T' m', run_all bt ops d = Ok rs d' /\ kv_steps (page_size d) m ops rs m' /\ kv_state cmp key_ok bt d' T' m' /\
    forall vb i u hu, bt_tx vb = ViewTxRef i -> tree_at cmp key_ok d vb u hu -> tree_at cmp key_ok d' vb u hu.
Proof.
  intros Hp Ho. destruct (run_all_ok cmp key_ok bt ops d T m Hstate Hops Hslim Hroom) as (rs & d' & T' & m' & Hrun & Hst & Hs' & [Hinv He Hk]).
  exists rs, d', T', m'. split_and!; try done. intros vb i u hu Hvb Hu.
  apply (view_kept cmp key_ok d d' vb i u hu He Hinv Hvb Hu), (tu_readers _ _ _ _ _ _ Hk u (ta_rep _ _ _ _ _ _ Hu)). by apply older_apart.
Qed.
End in_place.

(** ** Samples *)
Definition sample_ops : list kv_op := [KvPut [x64] [x04]; KvDelete [x61]; KvGet [x64]; KvDelete [x62]; KvPut [x63] [x33]; KvGet [x61]].

Lemma sample_ops_ok : Forall (op_ok slim_key 256) sample_ops.
Proof. repeat (apply Forall_cons_2; [cbn [op_ok]; unfold slim_key, inline_entry; vm_compute; try split; (lia || discriminate)|]). apply Forall_nil_2. Qed.

Lemma sample_state : kv_state ByteArrayComparator slim_key sample_bt tree_db (Some sample_tree) (as_map (contents sample_tree)).
Proof.
  split; [exists 1%nat; exact (sample_own_tree_of slim_key sample_key_slim)|]. split; [|done].
  change (contents sample_tree) with [small x61 x01; small x62 x02; small x63 x03; small x65 x05].
  repeat (apply Forall_cons_2; [split; [done|vm_compute; discriminate]|]). apply Forall_nil_2.
Qed.

Lemma key_value_refines_witness :
  exists rs d' T' m', run_all sample_bt sample_ops empty_db = Ok rs d' /\ kv_steps 256 ∅ sample_ops rs m' /\
    kv_state ByteArrayComparator slim_key sample_bt d' T' m'.
Proof.
  destruct (key_value_refines ByteArrayComparator slim_key sample_bt sample_ops empty_db None ∅) as (rs & d' & T' & m' & H1 & H2 & H3 & _).
  - split_and!; [reflexivity|exact empty_inv|reflexivity..].
  - exact sample_ops_ok.
  - exact slim_key_256.
  - vm_compute. discriminate.
  - exists rs, d', T', m'. split; [exact H1|]. split; [exact H2|exact H3].
Defined.

Lemma in_place_isolation_witness :
  exists rs d' T' m', run_all sample_bt sample_ops tree_db = Ok rs d' /\ kv_steps 256 (as_map (contents sample_tree)) sample_ops rs m' /\
    kv_state ByteArrayComparator slim_key sample_bt d' T' m'.
Proof.
  assert (Ho : older tree_db (nodes_of (Some sample_tree))).
  { intros q Hq. change (nodes_of (Some sample_tree)) with [3; 4; 5] in Hq. rewrite !elem_of_cons, elem_of_nil in Hq.
    destruct Hq as [->|[->|[->|[]]]]; (split; [vm_compute; reflexivity|vm_compute; discriminate]). }
  destruct (in_place_isolation ByteArrayComparator slim_key sample_bt tree_db (Some sample_tree) _ sample_ops sample_state
    sample_ops_ok slim_key_256) as (rs & d' & T' & m' & H1 & H2 & H3 & _); [vm_compute; discriminate|reflexivity|exact Ho|].
  exists rs, d', T', m'. split; [exact H1|]. split; [exact H2|exact H3].
Defined.
