(* ===== verification/Versions.v ===== *)
(** Versions of the user bucket's tree: the committed one, those the live views
    read, and that of the open write transaction.  Here is what each of them
    is on the pages of the file, and what keeps it. *)
From S2P Require Import Prelude Format Comparator State Memory FreeMap Pager PagerI PagerInst.
From S2P Require Import Node NodeWf NodeSpec Tx Iterator BTree Meta Logger TxManager NodeDb Freed Tree TreeSearch TreeGet Copying TreeSteps.
From S2P Require Import Forest PutTheorems KeyValue PagerTheorems Keeps MetaTheorems TxTheorems Isolation.

Implicit Types (d : DBImpl) (p q v : Z) (t u : tree) (T : option tree) (m : kvmap).

(** ** The database a write transaction works on: its own, or, between two, what
    the next one would find *)
Definition window d : DBImpl :=
  match update_tx (tx_manager d) with
  | Some _ => d
  | None => set_tx_manager (set_update_tx (Some (opening_tx d)) (tx_manager d)) d
  end.

Lemma window_open d tx : update_tx (tx_manager d) = Some tx -> window d = d.
Proof. unfold window. by intros ->. Qed.

Lemma window_same d : page_size (window d) = page_size d /\ pager (window d) = pager d /\ db_map (window d) = db_map d /\
  options (window d) = options d /\ view_txs (window d) = view_txs d /\ shm_meta (window d) = shm_meta d.
Proof. unfold window. by destruct (update_tx (tx_manager d)). Qed.

Lemma window_used_idle d q : update_tx (tx_manager d) = None ->
  db_used (window d) q <-> 0 <= q < m_page_count (shm_meta d) /\ ~ covers (free_map (pager d)) q.
Proof.
  intros Ht. unfold window. rewrite Ht. unfold db_used, in_use. cbn. split; [by intros (tx & [= <-] & H)|]. intros H. by exists (opening_tx d).
Qed.

(** The pages the others have freed and no [Release] gave back yet. *)
Definition others d : list (Z * Z) := concat (snd <$> db_pending (window d)).

(** A list of the pager taken out of its map. *)
Lemma find_erase_perm {V} k (l : list (Z * V)) : match map_find k l with
  | Some v => l ≡ₚ (k, v) :: map_erase k l
  | None => map_erase k l = l
  end.
Proof.
  induction l as [|[a b] l IH]; [done|]. cbn. destruct (Z.eqb_spec a k) as [->|Hne]; [done|].
  destruct (map_find k l) as [v|]; [|by rewrite IH]. rewrite IH at 1. apply Permutation_swap.
Qed.

Lemma pending_perm d : concat (snd <$> pending_map (pager d)) ≡ₚ db_freed d ++ concat (snd <$> db_pending d).
Proof.
  assert (Hb : forall l : list (Z * list (Z * Z)), concat (snd <$> l) = l ≫= snd) by (induction l as [|e l IH]; [done|cbn; by rewrite IH]).
  rewrite !Hb. unfold db_freed, db_pending. pose proof (find_erase_perm (db_txid d) (pending_map (pager d))) as Hp.
  destruct (map_find _ _) as [l|]; [rewrite Hp at 1; done|]. by rewrite Hp.
Qed.
Lemma pending_elem d e : e ∈ pending_map (pager d) -> e ∈ db_pending d \/ e = (db_txid d, db_freed d).
Proof.
  unfold db_freed, db_pending. pose proof (find_erase_perm (db_txid d) (pending_map (pager d))) as Hp.
  destruct (map_find _ _) as [l|]; [rewrite Hp at 1; rewrite elem_of_cons; cbn; tauto|]. rewrite Hp. by left.
Qed.
Lemma pending_rest d e : e ∈ db_pending d -> e ∈ pending_map (pager d).
Proof.
  unfold db_pending. pose proof (find_erase_perm (db_txid d) (pending_map (pager d))) as Hp.
  destruct (map_find _ _) as [l|]; [|by rewrite Hp]. intros He. rewrite Hp at 1. by apply list_elem_of_further.
Qed.

Lemma covers_concat (l : list (Z * list (Z * Z))) q : covers (concat (snd <$> l)) q <-> exists e, e ∈ l /\ covers e.2 q.
Proof.
  induction l as [|e l IH]; cbn; [split; [by intros ?%covers_nil|by intros (e & ?%elem_of_nil & _)]|]. rewrite covers_app, IH. split.
  - intros [Hq|(e' & He & Hq)]; [exists e; split; [apply list_elem_of_here|done]|exists e'; split; [by apply list_elem_of_further|done]].
  - intros (e' & [->|He]%elem_of_cons & Hq); [by left|right; eauto].
Qed.

Lemma disjoint_pairs_perm l1 l2 : l1 ≡ₚ l2 -> disjoint_pairs l1 -> disjoint_pairs l2.
Proof.
  assert (Hcov : forall l l' q, l ≡ₚ l' -> covers l q -> covers l' q).
  { intros l l' q E. unfold covers. rewrite !Exists_exists. intros (e & He & Hq). exists e. split; [|done]. by rewrite <- E. }
  induction 1 as [|[f c] l1 l2 E IH|[f c] [g n] l|l1 l2 l3 E1 IH1 E2 IH2]; [done| | |by auto].
  - cbn [disjoint_pairs]. intros (? & ? & ? & Hd & Hl). split_and!; auto. intros q Hq Hc. apply (Hd q Hq). by apply (Hcov l2 l1).
  - cbn [disjoint_pairs]. setoid_rewrite covers_cons. intros (? & ? & ? & Hd & ? & ? & ? & Hd' & Hl). split_and!; try done.
    + intros q Hq [Hc|Hc]; [|by apply (Hd' q)]. apply (Hd q); [done|]. by left.
    + intros q Hq Hc. apply (Hd q Hq). by right.
Qed.
Lemma disjoint_pairs_NoDup l : disjoint_pairs l -> NoDup (pair_pages l).
Proof.
  induction l as [|[f c] l IH]; [constructor|]. cbn [disjoint_pairs]. intros (_ & _ & _ & Hd & Hl). unfold pair_pages. cbn.
  apply NoDup_app. split; [apply NoDup_seqZ|]. split; [|by apply IH]. intros q Hq%elem_of_seqZ Hc%elem_of_pair_pages. by apply (Hd q).
Qed.

(** ** Pages that neither a rollback nor the end of the transaction takes away *)
Definition settled d q : Prop := 2 <= q < m_page_count (shm_meta d) /\
  match update_tx (tx_manager d) with
  | None => ~ covers (free_map (pager d)) q
  | Some _ => q ∉ tx_pages (pager d)
  end.

(** ** A version *)
Section version.
Context (cmp : comparator) (key_ok : list byte -> Prop).

(** The tree of root [root] holds the map [m]. *)
Definition version_tree d (root : Z) T m : Prop :=
  match T with
  | None => root = kPageInvalidId /\ m = ∅
  | Some t => root = pg t /\ rep d t /\ (exists h, shape h t /\ (h < 32)%nat) /\ items_ok cmp key_ok (trace t) /\
      NoDup (footprint d t) /\ Forall (plain (page_size d)) (contents t) /\ m = as_map (contents t)
  end.

(** The version [v] is safe from the other transactions: its nodes are that old,
    its pages were freed by later ones at most, and the nodes [N] it shares with
    the open transaction's tree will be copied before they are written. *)
Record version d (N : list Z) (v root : Z) T m : Prop := {
  ve_tree : version_tree (window d) root T m;
  ve_marks : Forall (fun q => mark (window d) q <= v) (nodes_of T);
  ve_settled q : q ∈ pages_of (window d) T -> settled d q;
  ve_pending q e : q ∈ pages_of (window d) T -> e ∈ pending_map (pager d) -> covers e.2 q -> v < e.1;
  ve_apart u : T = Some u -> apart_nodes (window d) N u;
}.

(** The tree is where it was. *)
Definition tree_kept d d' T : Prop :=
  match T with
  | None => True
  | Some t => rep d' t /\ footprint d' t = footprint d t /\ forall q, q ∈ footprint d t -> mark d' q = mark d q
  end.

Lemma nodes_pages d T q : q ∈ nodes_of T -> q ∈ pages_of d T.
Proof. destruct T as [t|]; [apply tree_nodes_footprint|done]. Qed.

Lemma kept_pages d d' T : tree_kept d d' T -> pages_of d' T = pages_of d T.
Proof. destruct T as [t|]; [by intros (_ & ? & _)|done]. Qed.

Lemma kept_version_tree d d' root T m : tree_kept d d' T -> page_size d' = page_size d -> version_tree d root T m -> version_tree d' root T m.
Proof.
  destruct T as [t|]; [|done]. intros (Hr & Hfp & _) Hps (E & _ & Hs & Hi & Hn & Hp & Em). split_and!; try done; [by rewrite Hfp|by rewrite Hps].
Qed.

Lemma version_moved d d' N N' v root T m : version d N v root T m -> tree_kept (window d) (window d') T ->
  page_size d' = page_size d -> (forall q, q ∈ pages_of (window d) T -> settled d q -> settled d' q) ->
  (forall e, e ∈ pending_map (pager d') -> e ∈ pending_map (pager d) \/ v < e.1) ->
  (forall u, T = Some u -> apart_nodes (window d') N' u) -> version d' N' v root T m.
Proof.
  intros [H1 H2 H3 H4 H5] Hk Hps Hset Hpend Hap. pose proof (kept_pages _ _ _ Hk) as Epg. split; [|..|done].
  - apply (kept_version_tree (window d)); [done| |done]. by rewrite (proj1 (window_same d)), (proj1 (window_same d')).
  - rewrite Forall_forall in H2 |- *. intros q Hq. pose proof (nodes_pages (window d) T q Hq) as Hqp. specialize (H2 q Hq).
    destruct T as [t|]; [|by apply elem_of_nil in Hq]. destruct Hk as (_ & _ & Hm). cbn in Hqp. by rewrite Hm.
  - rewrite Epg. auto.
  - rewrite Epg. intros q e Hq He Hc. destruct (Hpend e He) as [He'|]; [by apply (H4 q e)|done].
Qed.

(** Databases that agree on the version's pages. *)
Lemma tree_kept_others (W : Z -> Prop) d d' T : keeps_others W d d' -> db_inv d ->
  (forall t, T = Some t -> rep d t) -> (forall q, q ∈ pages_of d T -> ~ W q) -> tree_kept d d' T.
Proof.
  intros Hk Hinv Hr HW. destruct T as [t|]; [|done]. destruct (rep_frame W d d' t Hk Hinv (Hr t eq_refl) HW) as [Hr' Hfp].
  split; [done|]. split; [done|]. intros q Hq. unfold mark. rewrite (ko_node _ _ _ Hk); [done| |by apply HW].
  apply (footprint_used d t q Hinv); auto.
Qed.

Lemma version_rep d N v root T m t : version d N v root T m -> T = Some t -> rep (window d) t.
Proof. intros [H1 _ _ _ _] ->. apply H1. Qed.
End version.
