(* ===== verification/System.v ===== *)
(** The database as a whole, in the update-in-place mode: one write transaction
    at a time, commits, rollbacks, and any number of views, over one tree of
    keys and values.  The specification is a committed map, the map of the open
    transaction, and the map each live view saw when it was opened; the theorem
    is that every operation does what it does on these. *)
From S2P Require Import Prelude Format Comparator State Memory FreeMap Pager PagerI PagerInst.
From S2P Require Import Node NodeWf NodeSpec Tx Iterator BTree Meta Logger TxManager NodeDb Freed Tree TreeSearch TreeGet Copying TreeSteps.
From S2P Require Import Forest LeafPage PutTheorems Holes KeyValue PagerTheorems Keeps MetaTheorems TxTheorems Isolation Peeks Versions.

Implicit Types (d : DBImpl) (p q v : Z) (t u : tree) (T : option tree) (m : kvmap).

(** ** The specification: the page size, which bounds a leaf, and the maps *)
Record sys_spec : Type := mkSpec {
  sp_page : Z;
  sp_committed : kvmap;
  sp_working : option kvmap;
  sp_views : list (option kvmap);
}.
Definition set_working w s : sys_spec := mkSpec (sp_page s) (sp_committed s) w (sp_views s).
Definition set_views l s : sys_spec := mkSpec (sp_page s) (sp_committed s) (sp_working s) l.

Inductive sys_op : Type :=
| SysBegin | SysWrite (op : kv_op) | SysCommit | SysRollBack
| SysView | SysRead (h : nat) (k : list byte) | SysEndView (h : nat).
Inductive sys_result : Type := Done | Did (r : kv_result) | Opened (h : nat).

Inductive sys_step : sys_spec -> sys_op -> sys_result -> sys_spec -> Prop :=
| sys_begin s : sp_working s = None -> sys_step s SysBegin Done (set_working (Some (sp_committed s)) s)
| sys_write s m op r m' : sp_working s = Some m -> kv_step (sp_page s) m op r m' -> sys_step s (SysWrite op) (Did r) (set_working (Some m') s)
| sys_commit s m : sp_working s = Some m -> sys_step s SysCommit Done (mkSpec (sp_page s) m None (sp_views s))
| sys_rollback s : is_Some (sp_working s) -> sys_step s SysRollBack Done (set_working None s)
| sys_view s : sys_step s SysView (Opened (length (sp_views s))) (set_views (sp_views s ++ [Some (sp_committed s)]) s)
| sys_read s h m k : sp_views s !! h = Some (Some m) -> sys_step s (SysRead h k) (Did (Found (m !! k))) s
| sys_end_view s h m : sp_views s !! h = Some (Some m) -> sys_step s (SysEndView h) Done (set_views (<[h := None]> (sp_views s)) s).

(** ** The program *)
Definition user_tree (r : TxRef) : BTree := mkBTree r UserRoot.

(** A transaction that has opened no sub bucket. *)
Definition plain_tx (w : bool) (tx : TxImpl) : Prop :=
  tx_writable tx = w /\ user_bucket tx = mkBucket kUserRootBucketId w UserRoot None /\ sub_bucket_cache tx = [].

Lemma plain_forget w (tx tx' : TxImpl) : forget_tx tx' = forget_tx tx -> plain_tx w tx -> plain_tx w tx'.
Proof.
  intros E (Hw & Hb & Hc). pose proof (f_equal tx_writable E) as Ew. pose proof (f_equal user_bucket E) as Eb. pose proof (f_equal sub_bucket_cache E) as Ec.
  cbn in Ew, Eb, Ec. rewrite Hb in Eb. rewrite Hc in Ec. split; [congruence|]. split; [|by apply map_eq_nil in Ec].
  destruct (user_bucket tx') as [i w' g [m|]]; [done|]. unfold forget_entries in Eb. cbn in Eb. by injection Eb as -> -> ->.
Qed.

Section system.
Context `{Crc32, WalWriter}.

Context (cmp : comparator) (key_ok : list byte -> Prop) {HO : KeyOrder cmp key_ok}.

(** When an operation may be called, and the room it needs. *)
Definition live d (h : nat) : Prop := exists tx, view_txs d !! h = Some (Some tx).
Definition sys_ready d (op : sys_op) : Prop :=
  match op with
  | SysBegin => update_tx (tx_manager d) = None /\ (db_mmap_pending d = O \/ live_views d = O) /\ m_txid (shm_meta d) < 2 ^ 64 - 2
  | SysWrite op => is_Some (update_tx (tx_manager d)) /\ op_ok key_ok (page_size d) op /\ kv_room <= db_space d
  | SysCommit => is_Some (update_tx (tx_manager d)) /\ Z.of_nat (length (saved_pairs (pager d))) * 8 < 2 ^ 32 /\
      GetPageCount (page_size d) (Z.of_nat (length (saved_pairs (pager d))) * 8) <= db_space d
  | SysRollBack => is_Some (update_tx (tx_manager d))
  | SysView => Z.of_nat (length (view_txids d)) < 2 ^ 32 - 1
  | SysRead h k => live d h /\ key_ok k
  | SysEndView h => live d h
  end.

(** ** The invariant *)
Definition view_at d (N : list Z) (v : option TxImpl) (m : option kvmap) : Prop :=
  match v, m with
  | None, None => True
  | Some tx, Some m => 0 < txid tx <= m_txid (shm_meta d) /\ plain_tx false tx /\ exists T, version cmp key_ok d N (txid tx) (m_user_root (meta_format tx)) T m
  | _, _ => False
  end.

(** An open transaction: its tree, the account of its pages and of the others',
    and the pages a rollback makes free again. *)
Record open_tx d tx m T : Prop := {
  op_state : kv_state cmp key_ok (user_tree UpdateTxRef) d T m;
  op_marked : marked d (nodes_of T);
  op_account : accounted d (pages_of d T ++ 0 :: 1 :: pair_pages (others d));
  op_txid : txid tx = m_txid (shm_meta d) + 1;
  op_list : m_free_list_pgid (meta_format tx) = kPageInvalidId;
  op_base q : q ∈ tx_pages (pager d) -> 2 <= q < m_page_count (shm_meta d);
  op_pages q : 0 <= q < m_page_count (shm_meta d) -> db_used d q \/ q ∈ tx_pages (pager d);
  op_last : txid tx < kTxInvalidId;
  op_plain : plain_tx true tx;
  op_count : 2 <= m_page_count (shm_meta d) <= m_page_count (meta_format tx);
}.

Definition working d s T : Prop :=
  match update_tx (tx_manager d), sp_working s with
  | None, None => T = None /\ map_find (m_txid (shm_meta d) + 1) (pending_map (pager d)) = None
  | Some tx, Some m => open_tx d tx m T
  | _, _ => False
  end.

Record sys_at d s T : Prop := {
  sa_cmp : opt_comparator (options d) = cmp;
  sa_wal : is_wal d = false;
  sa_writable : opt_read_only (options d) = false;
  sa_persisted : persisted_txid (tx_manager d) = kTxInvalidId;
  sa_ps : m_page_size (shm_meta d) = page_size d;
  sa_page : page_size d = sp_page s;
  sa_list : m_free_list_pgid (shm_meta d) = kPageInvalidId;
  sa_txid : 0 < m_txid (shm_meta d) < kTxInvalidId;
  sa_mgr : mgr_inv d;
  sa_inv : db_inv (window d);
  sa_others : disjoint_pairs (others d);
  sa_older e : e ∈ db_pending (window d) -> e.1 <= m_txid (shm_meta d);
  sa_taken q : covers (others d) q -> settled d q;
  sa_committed : exists T0, version cmp key_ok d (nodes_of T) (m_txid (shm_meta d)) (m_user_root (shm_meta d)) T0 (sp_committed s);
  sa_views : Forall2 (view_at d (nodes_of T)) (view_txs d) (sp_views s);
  sa_working : working d s T;
  sa_slim k : key_ok k -> slim (page_size d) k;
}.
Definition sys_inv d s : Prop := exists T, sys_at d s T.

(** ** What an operation of the open transaction leaves alone *)
Record same_rest d d' : Prop := {
  sr_pending : db_pending d' = db_pending d;
  sr_base : tx_pages (pager d') = tx_pages (pager d);
  sr_opts : options d' = options d;
  sr_shm : shm_meta d' = shm_meta d;
  sr_lock : update_lock d' = update_lock d;
  sr_txs : view_txs d' = view_txs d;
  sr_mgr : view_tx_map (tx_manager d') = view_tx_map (tx_manager d);
  sr_persisted : persisted_txid (tx_manager d') = persisted_txid (tx_manager d);
  sr_tx tx : update_tx (tx_manager d) = Some tx -> exists tx', update_tx (tx_manager d') = Some tx' /\ txid tx' = txid tx /\
    m_free_list_pgid (meta_format tx') = m_free_list_pgid (meta_format tx) /\ forall w, plain_tx w tx -> plain_tx w tx';
}.

Lemma env_rest d d' : tx_env d' = tx_env d -> same_rest d d'.
Proof.
  intros E. split.
  - exact (f_equal (fun x => pending_map (pager x)) E).
  - exact (f_equal (fun x => debug_free_set (pager x)) E).
  - exact (f_equal options E).
  - exact (f_equal shm_meta E).
  - exact (f_equal update_lock E).
  - exact (f_equal view_txs E).
  - exact (f_equal (fun x => view_tx_map (tx_manager x)) E).
  - exact (f_equal (fun x => persisted_txid (tx_manager x)) E).
  - intros tx Htx. pose proof (f_equal (fun x => update_tx (tx_manager x)) E) as Et. cbn in Et. rewrite Htx in Et. cbn in Et.
    destruct (update_tx (tx_manager d')) as [tx'|]; [|done]. exists tx'. split; [done|].
    change (Some (forget_tx (set_meta_format (set_page_count 0 (meta_format tx')) tx')) = Some (forget_tx (set_meta_format (set_page_count 0 (meta_format tx)) tx))) in Et.
    apply (inj Some) in Et. pose proof (f_equal meta_format Et) as Em. split; [exact (f_equal m_txid Em)|]. split; [exact (f_equal m_free_list_pgid Em)|].
    intros w Hw. exact (plain_forget w _ _ Et Hw).
Qed.

(** Versions that stay make views that stay. *)
Lemma view_moved d d' (N N' : list Z) (w : option TxImpl) (o : option kvmap) : view_at d N w o -> m_txid (shm_meta d) <= m_txid (shm_meta d') ->
  (forall tx root T m, w = Some tx -> txid tx <= m_txid (shm_meta d) -> version cmp key_ok d N (txid tx) root T m ->
    version cmp key_ok d' N' (txid tx) root T m) -> view_at d' N' w o.
Proof.
  unfold view_at. destruct w as [tx|], o as [m|]; try done. intros (Hv & Hp & T & HT) Hle Hm. split; [lia|]. split; [done|]. exists T. apply Hm; [done|lia|done].
Qed.
Lemma views_moved d d' (N N' : list Z) l sp : Forall2 (view_at d N) l sp -> m_txid (shm_meta d) <= m_txid (shm_meta d') ->
  (forall tx root T m, Some tx ∈ l -> txid tx <= m_txid (shm_meta d) -> version cmp key_ok d N (txid tx) root T m ->
    version cmp key_ok d' N' (txid tx) root T m) -> Forall2 (view_at d' N') l sp.
Proof.
  intros Hl Hle. induction Hl as [|w o l sp Hv Hl IH]; intros Hm; constructor.
  - apply (view_moved d d' N N' w o Hv Hle). intros tx root T m' ->. apply Hm, list_elem_of_here.
  - apply IH. intros tx root T m' Hin. apply Hm. by apply list_elem_of_further.
Qed.

(** ** An operation on the open transaction's tree *)
Section work.
Context (d : DBImpl) (s : sys_spec) (T : option tree) (tx : TxImpl) (m : kvmap) (op : kv_op).
Context (Hs : sys_at d s T) (Htx : update_tx (tx_manager d) = Some tx) (Hop : open_tx d tx m T).
Context (Hok : op_ok key_ok (page_size d) op) (Hroom : kv_room <= db_space d).

Lemma turned_version d' T' v root T0 m0 : same_rest d d' -> update_tx (tx_manager d') <> None ->
  turned d (nodes_of T) (pages_of d T) d' (nodes_of T') (pages_of d' T') -> v <= m_txid (shm_meta d) ->
  version cmp key_ok d (nodes_of T) v root T0 m0 -> version cmp key_ok d' (nodes_of T') v root T0 m0.
Proof.
  intros Hr Htx' [Hk _ _ _ _] Hv Hver. pose proof (window_open _ _ Htx) as Ew.
  destruct (update_tx (tx_manager d')) as [tx'|] eqn:Etx'; [|done]. pose proof (window_open _ _ Etx') as Ew'.
  assert (Hps : page_size d' = page_size d) by (unfold page_size; by rewrite (sr_opts _ _ Hr)).
  assert (Hkept : forall u, T0 = Some u -> rep d' u /\ footprint d' u = footprint d u /\ apart_nodes d' (nodes_of T') u /\
    forall q, q ∈ footprint d u -> mark d' q = mark d q).
  { intros u ->. apply Hk; [|rewrite <- Ew; by apply (ve_apart _ _ _ _ _ _ _ _ Hver)]. rewrite <- Ew. by apply (version_rep cmp key_ok d _ _ _ _ _ u Hver). }
  apply (version_moved cmp key_ok d d' _ _ v root T0 m0 Hver); rewrite ?Ew, ?Ew'; try done.
  - destruct T0 as [u|]; [|done]. destruct (Hkept u eq_refl) as (? & ? & _ & ?). by split_and!.
  - intros q _. unfold settled. by rewrite Etx', Htx, (sr_shm _ _ Hr), (sr_base _ _ Hr).
  - intros e [He| ->]%pending_elem; [left; apply pending_rest; by rewrite <- (sr_pending _ _ Hr)|right]. cbn.
    assert (Et : db_txid d' = txid tx).
    { unfold db_txid, update_txid. rewrite Etx'. cbn. destruct (sr_tx _ _ Hr tx Htx) as (tx2 & E2 & Ht2 & _).
      rewrite Etx' in E2. by injection E2 as <-. }
    rewrite Et, (op_txid _ _ _ _ Hop). lia.
  - intros u Eu. by apply Hkept.
Qed.

Lemma work_step : exists r d' T' m', run_kv (user_tree UpdateTxRef) op d = Ok r d' /\ kv_step (page_size d) m op r m' /\
  sys_at d' (set_working (Some m') s) T'.
Proof.
  destruct (kv_op_ok cmp key_ok (user_tree UpdateTxRef) d T m op (op_state _ _ _ _ Hop) Hok (sa_slim _ _ _ Hs) Hroom)
    as (r & d' & T' & m' & Hrun & Hst & Hs' & [Hinv' He Hturn] & _).
  exists r, d', T', m'. split; [done|]. split; [done|]. pose proof (env_rest _ _ He) as Hr.
  destruct (sr_tx _ _ Hr tx Htx) as (tx' & Htx' & Htid & Hfl & Hplain). pose proof (window_open _ _ Htx) as Ew. pose proof (window_open _ _ Htx') as Ew'.
  assert (Hps : page_size d' = page_size d) by (unfold page_size; by rewrite (sr_opts _ _ Hr)).
  assert (Hoth : others d' = others d) by (unfold others; by rewrite Ew, Ew', (sr_pending _ _ Hr)).
  assert (Hset : forall q, settled d' q <-> settled d q) by (intros q; unfold settled; by rewrite Htx', Htx, (sr_shm _ _ Hr), (sr_base _ _ Hr)).
  pose proof (sr_shm _ _ Hr) as Hshm.
  destruct Hs as [S1 S2 S16 S3 S4 S17 S5 S6 S7 S8 S9 S10 S11 (T0 & S12) S13 _ S15]. split; rewrite ?Hoth, ?Ew', ?(sr_pending _ _ Hr), ?Hshm, ?Hps; try done.
  - by rewrite (sr_opts _ _ Hr).
  - unfold is_wal. by rewrite (sr_opts _ _ Hr).
  - by rewrite (sr_opts _ _ Hr).
  - by rewrite (sr_persisted _ _ Hr).
  - destruct S7 as [Hv Hl]. split; [apply (views_ok_same d); [|done]; unfold mgr_views; by rewrite (sr_mgr _ _ Hr), (sr_txs _ _ Hr)|].
    rewrite (sr_lock _ _ Hr), Htx', Hl, Htx. by split; intros _; eexists.
  - by rewrite Ew in S10.
  - intros q Hq. by apply Hset, S11.
  - exists T0. apply turned_version; [done|by rewrite Htx'|done|lia|exact S12].
  - rewrite (sr_txs _ _ Hr). apply (views_moved d d' _ _ _ _ S13); [by rewrite Hshm|]. intros tx0 root T1 m1 _ Hle. apply turned_version; [done|by rewrite Htx'|done|lia].
  - unfold working. rewrite Htx'. cbn. destruct Hop as [O1 O2 O3 O4 O5 O6 O7 O9 O10 O8].
    assert (Hused : forall q, db_used d' q -> q < m_page_count (meta_format tx')).
    { intros q Hq. apply (db_used_tx d' tx' q Htx') in Hq as [Hq _]. lia. }
    assert (Hbase : forall q, q ∈ tx_pages (pager d') -> q < m_page_count (meta_format tx')).
    { destruct Hinv' as [(tx2 & Hw) _]. pose proof (aw_tx _ _ Hw) as E. rewrite Htx' in E. injection E as <-. intros q Hq. by apply (aw_base _ _ Hw). }
    split; try done.
    + apply (tu_marks _ _ _ _ _ _ Hturn O2).
    + rewrite Hoth. by apply (tu_frees _ _ _ _ _ _ Hturn).
    + by rewrite Htid, Hshm.
    + by rewrite Hfl.
    + by rewrite (sr_base _ _ Hr), Hshm.
    + rewrite Hshm, (sr_base _ _ Hr). intros q Hq. destruct (O7 q Hq) as [Hu|Hu]; [left; by apply (tu_used _ _ _ _ _ _ Hturn)|by right].
    + by rewrite Htid.
    + by apply Hplain.
    + rewrite Hshm. split; [lia|]. destruct (O7 (m_page_count (shm_meta d) - 1)) as [Hu|Hu]; [lia| |].
      * apply (tu_used _ _ _ _ _ _ Hturn), Hused in Hu. lia.
      * rewrite <- (sr_base _ _ Hr) in Hu. apply Hbase in Hu. lia.
Qed.
End work.
End system.
