(* ===== verification/SystemViews.v ===== *)
(** Views in the database as a whole: opening one, reading through it whoever is
    writing, ending it. *)
From S2P Require Import Prelude Format Comparator State Memory FreeMap Pager PagerI PagerInst.
From S2P Require Import Node NodeWf NodeSpec Tx Iterator BTree Meta Logger TxManager NodeDb Freed Tree TreeSearch TreeGet Copying TreeSteps.
From S2P Require Import Forest LeafPage PutTheorems PutSame Holes KeyValue PagerTheorems Keeps MetaTheorems TxTheorems Isolation Peeks Versions System.

Implicit Types (d : DBImpl) (p q v : Z) (t u : tree) (T : option tree) (m : kvmap).

(** ** Databases that differ in the views alone *)
Record same_db d d' : Prop := {
  sd_pager : pager d' = pager d;
  sd_map : db_map d' = db_map d;
  sd_options : options d' = options d;
  sd_shm : shm_meta d' = shm_meta d;
  sd_tx : update_tx (tx_manager d') = update_tx (tx_manager d);
  sd_min : min_view_txid (tx_manager d') = min_view_txid (tx_manager d);
  sd_persisted : persisted_txid (tx_manager d') = persisted_txid (tx_manager d);
}.

Lemma same_db_ps d d' : same_db d d' -> page_size d' = page_size d.
Proof. intros Hd. unfold page_size. by rewrite (sd_options _ _ Hd). Qed.

Lemma same_db_window d d' : same_db d d' -> same_db (window d) (window d').
Proof.
  intros Hd. pose proof Hd as [H1 H2 H3 H4 H5 H6 H7]. unfold window. rewrite H5. destruct (update_tx (tx_manager d)) as [tx|]; [exact Hd|].
  split; try done. cbn. unfold opening_tx. by rewrite H4.
Qed.

Lemma same_db_inv d d' : same_db d d' -> db_inv d -> db_inv d'.
Proof.
  intros Hd [(tx & [A1 A2 A3 A4 A5 A6 A7 A8]) Hp]. pose proof (same_db_ps _ _ Hd) as Hps. destruct Hd as [H1 H2 H3 H4 H5 H6 H7].
  split; [exists tx; split|]; rewrite ?H1, ?H2, ?H5, ?Hps; done.
Qed.

Lemma same_db_keeps d d' : same_db d d' -> keeps_others (fun _ => False) d d'.
Proof.
  intros Hd. pose proof (same_db_ps _ _ Hd) as Hps. destruct Hd as [H1 H2 H3 H4 H5 H6 H7]. split; [done|..].
  - intros q Hq _. unfold db_used, in_use in *. by rewrite H1, H5.
  - intros q _ _. unfold db_node. by rewrite H2, Hps.
  - intros a _ _. unfold db_mem. by rewrite H2, Hps.
Qed.

Lemma same_db_txid d d' : same_db d d' -> db_txid d' = db_txid d.
Proof. intros Hd. unfold db_txid, update_txid. by rewrite (sd_tx _ _ Hd). Qed.

Section views.
Context `{Crc32, WalWriter} (cmp : comparator) (key_ok : list byte -> Prop) {HO : KeyOrder cmp key_ok}.

Lemma same_db_version d d' (N : list Z) v root T m : same_db d d' -> db_inv (window d) ->
  version cmp key_ok d N v root T m -> version cmp key_ok d' N v root T m.
Proof.
  intros Hd Hinv Hv. pose proof (same_db_window _ _ Hd) as Hw. pose proof (same_db_keeps _ _ Hw) as Hk.
  assert (Hkept : tree_kept (window d) (window d') T).
  { apply (tree_kept_others (fun _ => False)); try done; auto. intros t. apply (version_rep cmp key_ok _ _ _ _ _ _ _ Hv). }
  apply (version_moved cmp key_ok d d' N N v root T m Hv Hkept).
  - by apply same_db_ps.
  - intros q _. unfold settled. by rewrite (sd_tx _ _ Hd), (sd_shm _ _ Hd), (sd_pager _ _ Hd).
  - rewrite (sd_pager _ _ Hd). by left.
  - intros u -> q Hq HN. destruct Hkept as (_ & Efp & Hm). rewrite Efp in Hq.
    rewrite <- (ve_apart _ _ _ _ _ _ _ _ Hv u eq_refl q Hq HN). unfold needs_copy, copy_needed, IsTxExpired.
    rewrite (sd_min _ _ Hw), (sd_persisted _ _ Hw), (same_db_txid _ _ Hw). by rewrite (Hm q Hq : last_modified_txid _ = last_modified_txid _).
Qed.

Lemma same_db_others d d' : same_db d d' -> others d' = others d /\ db_pending (window d') = db_pending (window d).
Proof.
  intros Hd. pose proof (same_db_window _ _ Hd) as Hw. unfold others, db_pending. by rewrite (sd_pager _ _ Hw), (same_db_txid _ _ Hw).
Qed.

Lemma same_db_accounted d d' P : same_db d d' -> accounted d P -> accounted d' P.
Proof.
  intros Hd [A1 A2 A3 A4 A5]. assert (Hf : db_freed d' = db_freed d) by (unfold db_freed; by rewrite (same_db_txid _ _ Hd), (sd_pager _ _ Hd)).
  assert (Hu : forall q, db_used d q -> db_used d' q) by (intros q Hq; apply (ko_used _ _ _ (same_db_keeps _ _ Hd)); auto).
  split; rewrite ?Hf; auto.
Qed.

(** The root of the open transaction's tree is the transaction's. *)
Lemma same_db_root d d' r : same_db d d' -> tree_root (user_tree UpdateTxRef) d = Ok r d -> tree_root (user_tree UpdateTxRef) d' = Ok r d'.
Proof.
  intros Hd. unfold tree_root, get_root, bind. cbn. unfold get_update_tx. rewrite (sd_tx _ _ Hd).
  destruct (update_tx (tx_manager d)); [|done]. by intros [= ->].
Qed.

Lemma same_db_state d d' T m : same_db d d' -> db_inv d' -> kv_state cmp key_ok (user_tree UpdateTxRef) d T m ->
  kv_state cmp key_ok (user_tree UpdateTxRef) d' T m.
Proof.
  intros Hd Hinv'. pose proof (same_db_keeps _ _ Hd) as Hk. pose proof (same_db_ps _ _ Hd) as Hps. destruct T as [t|]; cbn.
  - intros ((h & [[T1 T2 T3 T4 T5 T6 T7] Htx Hnd Hcl]) & Hp & Hm). destruct (rep_frame _ d d' t Hk T2 T3 ltac:(auto)) as [Hr Hfp].
    split; [exists h|by rewrite Hps]. split; [split; try done|done|by rewrite Hfp|].
    + by rewrite (sd_options _ _ Hd).
    + by apply (same_db_root d).
    + apply (own_closed_ext d); [|done]. intros q Hq. unfold needs_copy, copy_needed, IsTxExpired.
      rewrite (sd_min _ _ Hd), (sd_persisted _ _ Hd), (same_db_txid _ _ Hd).
      rewrite (ko_node _ _ _ Hk); [done| |auto]. by apply (footprint_used d t).
  - intros (H1 & H2 & H3 & H4 & H5). split_and!; try done; [by rewrite (sd_options _ _ Hd)|by apply (same_db_root d)].
Qed.

(** All of the invariant but the views' own part. *)
Lemma same_db_sys d d' s T l : sys_at cmp key_ok d s T -> same_db d d' -> mgr_inv d' ->
  Forall2 (view_at cmp key_ok d' (nodes_of T)) (view_txs d') l ->
  sys_at cmp key_ok d' (set_views l s) T.
Proof.
  intros [S1 S2 S16 S3 S4 S17 S5 S6 S7 S8 S9 S10 S11 (T0 & S12) S13 S14 S15] Hd Hm Hl. destruct (same_db_others _ _ Hd) as [Eo Ep].
  pose proof (same_db_inv _ _ (same_db_window _ _ Hd) S8) as Hinv'.
  split; rewrite ?Eo, ?Ep, ?(sd_shm _ _ Hd), ?(same_db_ps _ _ Hd); try done.
  - by rewrite (sd_options _ _ Hd).
  - unfold is_wal. by rewrite (sd_options _ _ Hd).
  - by rewrite (sd_options _ _ Hd).
  - by rewrite (sd_persisted _ _ Hd).
  - intros q Hq. unfold settled. rewrite (sd_tx _ _ Hd), (sd_shm _ _ Hd), (sd_pager _ _ Hd). by apply S11.
  - exists T0. by apply (same_db_version d).
  - unfold working in *. cbn [sp_working set_views]. rewrite (sd_tx _ _ Hd), (sd_shm _ _ Hd), (sd_pager _ _ Hd).
    destruct (update_tx (tx_manager d)) as [tx|] eqn:Htx; [|done]. destruct (sp_working s) as [m|]; [|done].
    pose proof (window_open _ _ Htx) as Ew. assert (Htx' : update_tx (tx_manager d') = Some tx) by (by rewrite (sd_tx _ _ Hd)).
    pose proof (window_open _ _ Htx') as Ew'. rewrite Ew' in Hinv'. destruct S14 as [O1 O2 O3 O4 O5 O6 O7 O8 O9 O10]. split; rewrite ?(sd_shm _ _ Hd); try done.
    + by apply (same_db_state d).
    + apply (marked_same d); [by apply same_db_txid| |done]. intros q _. unfold mark, db_node. by rewrite (sd_map _ _ Hd), (same_db_ps _ _ Hd).
    + rewrite Eo. assert (Epg : pages_of d' T = pages_of d T).
      { destruct T as [t|]; [|done]. destruct O1 as ((h & Hown) & _).
        by destruct (rep_frame _ d d' t (same_db_keeps _ _ Hd) (ta_inv _ _ _ _ _ _ Hown) (ta_rep _ _ _ _ _ _ Hown) ltac:(auto)). }
      rewrite Epg. by apply (same_db_accounted d).
    + by rewrite (sd_pager _ _ Hd).
    + rewrite (sd_pager _ _ Hd). intros q Hq. destruct (O7 q Hq); [left|by right]. by apply (ko_used _ _ _ (same_db_keeps _ _ Hd)); auto.
Qed.

(** ** Opening a view *)
Lemma view_step d s T : sys_at cmp key_ok d s T -> Z.of_nat (length (view_txids d)) < 2 ^ 32 - 1 ->
  exists d', View d = Ok (length (sp_views s)) d' /\ sys_at cmp key_ok d' (set_views (sp_views s ++ [Some (sp_committed s)]) s) T.
Proof.
  intros Hs Hn. pose proof (sa_mgr _ _ _ _ _ Hs) as [Hv Hl]. destruct (View_ok d Hv Hn) as (d' & Hrun & Hv' & _).
  assert (Hd : same_db d d' /\ update_lock d' = update_lock d /\ view_txs d' = view_txs d ++ [Some (new_TxImpl (shm_meta d) false)]).
  { unfold View in Hrun. injection Hrun as <-. done. }
  destruct Hd as (Hd & El & Et). exists d'. rewrite <- (Forall2_length _ _ _ (sa_views _ _ _ _ _ Hs)). split; [done|].
  apply (same_db_sys d); try done; [split; [done|by rewrite El, (sd_tx _ _ Hd)]|]. rewrite Et. apply Forall2_app.
  - apply (views_moved cmp key_ok d d' _ _ _ _ (sa_views _ _ _ _ _ Hs)); [by rewrite (sd_shm _ _ Hd)|].
    intros tx root T1 m _ _. apply same_db_version; [done|apply (sa_inv _ _ _ _ _ Hs)].
  - constructor; [|constructor]. destruct (sa_committed _ _ _ _ _ Hs) as (T0 & HT). pose proof (sa_txid _ _ _ _ _ Hs). cbn.
    rewrite (sd_shm _ _ Hd). change (txid (new_TxImpl (shm_meta d) false)) with (m_txid (shm_meta d)).
    split; [lia|]. split; [done|]. exists T0. apply (same_db_version d); [done|apply (sa_inv _ _ _ _ _ Hs)|done].
Qed.

(** ** Ending one *)
Lemma end_view_step d s T h : sys_at cmp key_ok d s T -> live d h ->
  exists d', destroy_view h d = Ok tt d' /\ sys_at cmp key_ok d' (set_views (<[h := None]> (sp_views s)) s) T /\
    exists m, sp_views s !! h = Some (Some m).
Proof.
  intros Hs (tx & Hh). pose proof (sa_mgr _ _ _ _ _ Hs) as [Hv Hl]. destruct (destroy_view_ok d h tx Hv Hh) as (d' & Hrun & Hv' & Et).
  set (f := fun x => (pager x, db_map x, options x, shm_meta x, update_tx (tx_manager x), min_view_txid (tx_manager x),
    persisted_txid (tx_manager x), update_lock x)).
  assert (Hf : f d' = f d).
  { revert Hrun. apply keeps_ok. unfold destroy_view, RollBackView.
    apply keeps_bind; [intros x; cbn; by destruct (view_txs x !! h) as [[?|]|]|]. intros t'. keeps. }
  unfold f in Hf. injection Hf as H1 H2 H3 H4 H5 H6 H7 H8. assert (Hd : same_db d d') by (by split).
  exists d'. split; [done|]. pose proof (sa_views _ _ _ _ _ Hs) as Hvs. split.
  - apply (same_db_sys d); try done; [split; [done|by rewrite H8, H5]|]. rewrite Et. apply Forall2_insert; [|done].
    apply (views_moved cmp key_ok d d' _ _ _ _ Hvs); [by rewrite H4|].
    intros tx0 root T1 m _ _. apply same_db_version; [done|apply (sa_inv _ _ _ _ _ Hs)].
  - destruct (Forall2_lookup_l _ _ _ _ _ Hvs Hh) as (o & Ho & Hat). destruct o as [m|]; [by exists m|done].
Qed.

(** ** Reading through one *)
Lemma read_step d s T h k : sys_at cmp key_ok d s T -> live d h -> key_ok k ->
  exists m, sp_views s !! h = Some (Some m) /\ run_kv (user_tree (ViewTxRef h)) (KvGet k) d = Ok (Found (m !! k)) d.
Proof.
  intros Hs (tx & Hh) Hk. destruct (Forall2_lookup_l _ _ _ _ _ (sa_views _ _ _ _ _ Hs) Hh) as (o & Ho & Hat).
  destruct o as [m|]; [|done]. destruct Hat as (Hx & _ & Tv & Hver). exists m. split; [done|].
  destruct (window_same d) as (Eps & _ & Em & Eo & Ev & _).
  assert (Hsr : same_reads (window d) d) by (by split). set (bt := user_tree (ViewTxRef h)).
  assert (Hroot : tree_root bt (window d) = Ok (m_user_root (meta_format tx)) (window d)).
  { unfold tree_root, get_root, bind. cbn. by rewrite Ev, Hh. }
  apply (view_get h UserRoot k (window d) d _ (window d) Hsr). fold bt. cbn [run_kv]. destruct Hver as [Ht _ _ _ _]. destruct Tv as [u|].
  - destruct Ht as (Er & Hr & (n & Hn & Hn32) & Hi & Hnd & Hpl & ->). rewrite Er in Hroot.
    assert (Hat : tree_at cmp key_ok (window d) bt u n).
    { split; try done; [rewrite Eo; apply (sa_cmp _ _ _ _ _ Hs)|apply (sa_inv _ _ _ _ _ Hs)]. }
    pose proof (Get_ok cmp key_ok bt k Hk (window d) u n Hat) as HG. rewrite as_map_lookup. destruct (find_entry k (contents u)) as [x|].
    + destruct HG as (it & HG & Hend & _ & Hval & _). run_step HG. rewrite Hend. by run_step Hval.
    + run_step HG. by rewrite tree_end_end.
  - destruct Ht as [Er ->]. rewrite Er in Hroot.
    assert (HG : Get bt k (window d) = Ok (tree_end bt) (window d)).
    { unfold Get. by run_step (LowerBound_empty bt (window d) (mkEntry k [] false) Hroot). }
    run_step HG. rewrite tree_end_end. by rewrite lookup_empty.
Qed.
End views.
