(* ===== verification/SystemBegin.v ===== *)
(** Opening a write transaction in the database as a whole: the pages given back
    are no version's, and the committed tree is the one it starts from. *)
From S2P Require Import Prelude Format Comparator State Memory FreeMap Pager PagerI PagerInst.
From S2P Require Import Node NodeWf NodeSpec Tx Iterator BTree Meta Logger TxManager NodeDb Freed Tree TreeSearch TreeGet Copying TreeSteps.
From S2P Require Import Forest LeafPage PutTheorems PutSame Holes KeyValue PagerTheorems Keeps MetaTheorems TxTheorems Isolation Peeks Versions System.

Implicit Types (d : DBImpl) (p q v r : Z) (t u : tree) (T : option tree) (m : kvmap).

(** ** What a release leaves *)
Lemma released_kept r (l : list (Z * list (Z * Z))) : released r l ++ concat (snd <$> kept r l) = concat (snd <$> l).
Proof.
  induction l as [|[a b] l IH]; [done|]. cbn. destruct (r <=? a); [done|]. by rewrite <- app_assoc, IH.
Qed.
Lemma kept_sub r (l : list (Z * list (Z * Z))) e : e ∈ kept r l -> e ∈ l.
Proof.
  induction l as [|[a b] l IH]; [done|]. cbn. destruct (r <=? a); [done|]. intros He. by apply list_elem_of_further, IH.
Qed.

Lemma find_absent {V} k (l : list (Z * V)) : (forall e, e ∈ l -> e.1 <> k) -> map_find k l = None.
Proof.
  induction l as [|[a b] l IH]; [done|]. intros Hl. cbn. rewrite (proj2 (Z.eqb_neq a k)).
  - apply IH. intros e He. by apply Hl, list_elem_of_further.
  - exact (Hl (a, b) (list_elem_of_here _ _)).
Qed.

Lemma own_closed_none d t : (forall q, q ∈ tree_nodes t -> needs_copy d q = true) -> own_closed d t.
Proof.
  induction t as [p es|p ks ts IH] using tree_induction; [done|]. intros Hn. apply own_closed_Branch. rewrite Forall_forall in IH |- *.
  intros t Ht. assert (Hsub : forall q, q ∈ tree_nodes t -> q ∈ tree_nodes (Branch p ks ts)).
  { intros q Hq. apply list_elem_of_further, list_elem_of_bind. by exists t. }
  split; [|apply IH; auto]. unfold own. rewrite Hn; [done|]. apply Hsub, tree_nodes_pg.
Qed.

Section begin.
Context `{Crc32, WalWriter} (cmp : comparator) (key_ok : list byte -> Prop) {HO : KeyOrder cmp key_ok}.
Context (d : DBImpl) (s : sys_spec) (T : option tree) (n : nat) (p' : Pager).
Context (Hs : sys_at cmp key_ok d s T) (Htx : update_tx (tx_manager d) = None) (Hmax : m_txid (shm_meta d) < 2 ^ 64 - 2).

Let c : Z := m_txid (shm_meta d).
Let r : Z := oldest_view d - 1.
Let d' : DBImpl := set_pager p' (opened d n).

Context (Hwf : free_wf p') (Hpend : pending_map p' = kept r (pending_map (pager d))) (Hrec : alloc_records p' = []).
Context (Hfree : forall q, covers (free_map p') q <-> covers (free_map (pager d)) q \/ covers (released r (pending_map (pager d))) q).

Lemma idle_parts : map_find (c + 1) (pending_map (pager d)) = None /\ T = None /\ sp_working s = None.
Proof.
  pose proof (sa_working _ _ _ _ _ Hs) as Hw. unfold working in Hw. rewrite Htx in Hw. destruct (sp_working s); [done|]. by destruct Hw.
Qed.

Lemma idle_window : update_tx (tx_manager (window d)) = Some (opening_tx d) /\ db_txid (window d) = c + 1.
Proof. unfold window. rewrite Htx. split; [done|]. done. Qed.

Lemma idle_pending : db_pending (window d) = pending_map (pager d).
Proof.
  unfold db_pending. rewrite (proj2 idle_window). destruct (window_same d) as (_ & -> & _). apply erase_absent, idle_parts.
Qed.
Lemma idle_others : others d = concat (snd <$> pending_map (pager d)).
Proof. unfold others. by rewrite idle_pending. Qed.

Lemma oldest_bounds : 0 < oldest_view d <= c.
Proof.
  pose proof (sa_txid _ _ _ _ _ Hs) as Hc. fold c in Hc. pose proof (sa_mgr _ _ _ _ _ Hs) as [[Hsrt Hcnt] _]. unfold oldest_view.
  destruct (view_tx_map (tx_manager d)) as [|[k w] l] eqn:E; [fold c; lia|]. specialize (Hcnt k). cbn in Hcnt. rewrite Z.eqb_refl in Hcnt.
  case_decide as Hn; [done|]. unfold views_at in Hn.
  destruct (filter (fun i => i = k) (view_txids d)) as [|x xs] eqn:Ef; [done|].
  assert (Hin : x ∈ filter (fun i => i = k) (view_txids d)) by (rewrite Ef; apply list_elem_of_here).
  apply list_elem_of_filter in Hin as [-> Hin]. apply list_elem_of_omap in Hin as ([tx|] & Hx & Etx); [|done]. injection Etx as <-.
  apply list_elem_of_lookup_1 in Hx as (i & Hi).
  destruct (Forall2_lookup_l _ _ _ _ _ (sa_views _ _ _ _ _ Hs) Hi) as ([m|] & _ & Hat); [|done]. apply Hat.
Qed.

(** ** The database the transaction starts from *)
Lemma begin_tx : update_tx (tx_manager d') = Some (opening_tx d).
Proof. done. Qed.
Lemma begin_window : window d' = d'.
Proof. done. Qed.
Lemma begin_txid : db_txid d' = c + 1.
Proof. done. Qed.

Lemma pending_older e : e ∈ pending_map (pager d) -> e.1 <= c.
Proof. intros He. apply (sa_older _ _ _ _ _ Hs). by rewrite idle_pending. Qed.

Lemma begin_freed : db_freed d' = [].
Proof.
  unfold db_freed. rewrite begin_txid. change (pending_map (pager d')) with (pending_map p'). rewrite Hpend, find_absent; [done|].
  intros e He%kept_sub%pending_older. lia.
Qed.
Lemma begin_pending : db_pending d' = kept r (pending_map (pager d)).
Proof.
  unfold db_pending. rewrite begin_txid. change (pending_map (pager d')) with (pending_map p'). rewrite Hpend. apply erase_absent, find_absent.
  intros e He%kept_sub%pending_older. lia.
Qed.
Lemma begin_others : others d' = concat (snd <$> kept r (pending_map (pager d))).
Proof. unfold others. by rewrite begin_window, begin_pending. Qed.

Lemma begin_sub q : covers (others d') q -> covers (others d) q.
Proof. rewrite begin_others, idle_others, <- (released_kept r (pending_map (pager d))). rewrite covers_app. tauto. Qed.
Lemma release_sub q : covers (released r (pending_map (pager d))) q -> covers (others d) q.
Proof. rewrite idle_others, <- (released_kept r (pending_map (pager d))). rewrite covers_app. tauto. Qed.

Lemma split_others : disjoint_pairs (released r (pending_map (pager d))) /\ disjoint_pairs (others d') /\
  forall q, covers (released r (pending_map (pager d))) q -> ~ covers (others d') q.
Proof.
  pose proof (sa_others _ _ _ _ _ Hs) as Ho. rewrite idle_others, <- (released_kept r (pending_map (pager d))) in Ho. rewrite begin_others.
  by apply disjoint_pairs_app in Ho.
Qed.

Lemma idle_settled q : settled d q <-> 2 <= q < m_page_count (shm_meta d) /\ ~ covers (free_map (pager d)) q.
Proof. unfold settled. by rewrite Htx. Qed.

Lemma begin_base q : q ∈ tx_pages (pager d') <-> covers (free_map p') q.
Proof. rewrite elem_of_tx_pages. change (pager d') with p'. rewrite Hrec, covers_nil. tauto. Qed.

Lemma begin_used q : db_used d' q <-> 0 <= q < m_page_count (shm_meta d) /\ ~ covers (free_map p') q.
Proof. rewrite (db_used_tx d' (opening_tx d)) by done. done. Qed.

Lemma begin_free_bound q : covers (free_map p') q -> 2 <= q < m_page_count (shm_meta d).
Proof.
  rewrite Hfree. intros [Hq|Hq].
  - destruct (sa_inv _ _ _ _ _ Hs) as [(tx & Hw) _]. pose proof (aw_tx _ _ Hw) as E. rewrite (proj1 idle_window) in E. injection E as <-.
    apply (aw_bound _ _ _ Hw). destruct (window_same d) as (_ & -> & _). exact Hq.
  - by apply release_sub, (sa_taken _ _ _ _ _ Hs) in Hq as [Hq _].
Qed.

Lemma begin_inv : db_inv d'.
Proof.
  destruct (window_same d) as (Eps & Epg & Em & _). destruct (sa_inv _ _ _ _ _ Hs) as [(tx & Hw) Hp]. pose proof (aw_tx _ _ Hw) as E.
  rewrite (proj1 idle_window) in E. injection E as <-. destruct Hw as [_ A2 _ A4 _ A6 A7 _]. rewrite Eps in *. rewrite Em in *.
  split; [|exact Hp]. exists (opening_tx d). split; try done.
  - intros q. rewrite begin_base. apply begin_free_bound.
  - split; change (pager d') with p'; rewrite Hrec; [done|]. intros q Hq. by apply covers_nil in Hq.
Qed.

Lemma begin_settled q : settled d q -> ~ covers (released r (pending_map (pager d))) q -> settled d' q.
Proof.
  intros Hq Hr. apply (proj1 (idle_settled q)) in Hq as [Hb Hn]. split; [done|]. rewrite begin_tx, begin_base, Hfree. tauto.
Qed.

Lemma begin_keeps : keeps_others (covers (released r (pending_map (pager d)))) (window d) d'.
Proof.
  destruct (window_same d) as (Eps & Epg & Em & _). split; [done|..].
  - intros q Hq Hn. apply begin_used. apply (window_used_idle d q Htx) in Hq as [Hb Hf]. split; [done|]. rewrite Hfree. tauto.
  - intros q _ _. unfold db_node. by rewrite Eps, Em.
  - intros a _ _. unfold db_mem. by rewrite Eps, Em.
Qed.

(** ** The versions *)
Lemma version_unreleased (N : list Z) v root T0 m q : version cmp key_ok d N v root T0 m -> oldest_view d <= v ->
  q ∈ pages_of (window d) T0 -> ~ covers (released r (pending_map (pager d))) q.
Proof. intros Hv Hle Hq (e & He & Hr & Hc)%released_in. pose proof (ve_pending _ _ _ _ _ _ _ _ Hv q e Hq He Hc). unfold r in Hr. lia. Qed.

Lemma begin_kept (N : list Z) v root T0 m : version cmp key_ok d N v root T0 m -> oldest_view d <= v -> tree_kept (window d) d' T0.
Proof.
  intros Hv Hle. apply (tree_kept_others (covers (released r (pending_map (pager d))))); [apply begin_keeps|apply (sa_inv _ _ _ _ _ Hs)| |].
  - intros t. apply (version_rep cmp key_ok _ _ _ _ _ _ _ Hv).
  - intros q. apply (version_unreleased N v root T0 m q Hv Hle).
Qed.

Lemma begin_marks (N : list Z) v root T0 m : version cmp key_ok d N v root T0 m -> oldest_view d <= v <= c -> older d' (nodes_of T0).
Proof.
  intros Hv [Hle Hc] q Hq. rewrite begin_txid. pose proof (begin_kept N v root T0 m Hv Hle) as Hk.
  pose proof (proj1 (Forall_forall _ _) (ve_marks _ _ _ _ _ _ _ _ Hv) q Hq) as Hm. cbn in Hm.
  assert (E : mark d' q = mark (window d) q).
  { pose proof (nodes_pages (window d) T0 q Hq) as Hq'. destruct T0 as [t|]; [|by apply elem_of_nil in Hq]. by apply Hk. }
  unfold mark in *. rewrite E. unfold kTxInvalidId. lia.
Qed.

Lemma begin_version (N : list Z) v root T0 T1 m m1 v1 root1 N1 : version cmp key_ok d N v root T0 m -> oldest_view d <= v <= c ->
  version cmp key_ok d N1 v1 root1 T1 m1 -> oldest_view d <= v1 <= c -> version cmp key_ok d' (nodes_of T1) v root T0 m.
Proof.
  intros Hv Hle Hv1 Hle1. apply (version_moved cmp key_ok d d' N _ v root T0 m Hv); rewrite ?begin_window.
  - apply (begin_kept N v root T0 m); [done|lia].
  - done.
  - intros q Hq Hst. apply begin_settled; [done|]. apply (version_unreleased N v root T0 m q Hv); [lia|done].
  - intros e He. left. change (pending_map (pager d')) with (pending_map p') in He. rewrite Hpend in He. by apply kept_sub in He.
  - intros u _. apply older_apart; [apply (sa_persisted _ _ _ _ _ Hs)|]. apply (begin_marks N1 v1 root1 T1 m1); done.
Qed.

Section committed.
Context (T0 : option tree) (Hv0 : version cmp key_ok d (nodes_of T) c (m_user_root (shm_meta d)) T0 (sp_committed s)).

Lemma begin_old : tree_kept (window d) d' T0 /\ older d' (nodes_of T0) /\ pages_of d' T0 = pages_of (window d) T0.
Proof.
  pose proof oldest_bounds as Ho. fold c in Ho. split_and!.
  - apply (begin_kept (nodes_of T) c _ T0 _ Hv0). lia.
  - apply (begin_marks (nodes_of T) c _ T0 _ Hv0). lia.
  - apply kept_pages, (begin_kept (nodes_of T) c _ T0 _ Hv0). lia.
Qed.

Lemma begin_state : kv_state cmp key_ok (user_tree UpdateTxRef) d' T0 (sp_committed s).
Proof.
  destruct begin_old as (Hk & Ho & _). pose proof (kept_version_tree cmp key_ok _ d' _ _ _ Hk (eq_sym (proj1 (window_same d))) (ve_tree _ _ _ _ _ _ _ _ Hv0)) as Ht.
  destruct T0 as [t|]; cbn.
  - destruct Ht as (Er & Hr & (h & Hh & Hlt) & Hi & Hnd & Hpl & Em). split; [|done]. exists h. split; [|done|done|].
    + split; try done; [apply (sa_cmp _ _ _ _ _ Hs)|apply begin_inv|]. unfold tree_root, get_root, bind. cbn. unfold get_update_tx. cbn. by rewrite Er.
    + apply own_closed_none. intros q Hq. apply (older_apart d' (tree_nodes t) t); [apply (sa_persisted _ _ _ _ _ Hs)|exact Ho| |done].
      by apply tree_nodes_footprint.
  - destruct Ht as [Er ->]. split_and!; try done; [apply (sa_cmp _ _ _ _ _ Hs)|apply begin_inv|].
    unfold tree_root, get_root, bind. cbn. unfold get_update_tx. cbn. by rewrite Er.
Qed.

Lemma begin_account : accounted d' (pages_of d' T0 ++ 0 :: 1 :: pair_pages (others d')).
Proof.
  destruct begin_old as (_ & _ & Epg). destruct split_others as (_ & Hdj & Hap). rewrite Epg.
  assert (Hset : forall q, q ∈ pages_of (window d) T0 -> settled d' q).
  { intros q Hq. apply begin_settled; [by apply (ve_settled _ _ _ _ _ _ _ _ Hv0)|]. apply (version_unreleased (nodes_of T) c _ T0 _ q Hv0); [|done].
    apply oldest_bounds. }
  assert (Hoth : forall q, covers (others d') q -> settled d' q).
  { intros q Hq. apply begin_settled; [by apply (sa_taken _ _ _ _ _ Hs), begin_sub|]. intros Hc. by apply (Hap q). }
  assert (Hu : forall q, settled d' q -> db_used d' q /\ 2 <= q).
  { intros q [Hb Hn]. rewrite begin_tx, begin_base in Hn. split; [|lia]. apply begin_used. split; [|done]. change (shm_meta d') with (shm_meta d) in Hb. lia. }
  assert (Hlow : forall q, 0 <= q < 2 -> db_used d' q).
  { intros q Hq. apply begin_used. destruct begin_inv as [(tx & Hw) _]. pose proof (aw_tx _ _ Hw) as E. rewrite begin_tx in E. injection E as <-.
    pose proof (aw_count _ _ Hw) as Hc. change (m_page_count (meta_format (opening_tx d))) with (m_page_count (shm_meta d)) in Hc.
    split; [lia|]. intros Hf%begin_free_bound. lia. }
  split; rewrite ?begin_freed; try done.
  - intros q Hq. by apply covers_nil in Hq.
  - intros q [Hq|[->|[->|Hq]%elem_of_cons]%elem_of_cons]%elem_of_app; [by apply Hu, Hset|by apply Hlow|by apply Hlow|].
    by apply elem_of_pair_pages, Hoth in Hq; apply Hu.
  - assert (Hpair : forall q, q ∈ pair_pages (others d') -> settled d' q) by (intros q Hq; by apply Hoth, elem_of_pair_pages).
    apply NoDup_app. split_and!.
    + pose proof (ve_tree _ _ _ _ _ _ _ _ Hv0) as Ht. destruct T0 as [t|]; [|apply NoDup_nil_2]. by apply Ht.
    + intros q Hq. pose proof (proj2 (Hu q (Hset q Hq))) as Hq2.
      intros [->|[->|Hc%elem_of_pair_pages]%elem_of_cons]%elem_of_cons; [lia|lia|].
      rewrite begin_others in Hc. apply covers_concat in Hc as (e & He%kept_sub & Hc).
      pose proof (ve_pending _ _ _ _ _ _ _ _ Hv0 q e Hq He Hc). pose proof (pending_older e He). lia.
    + apply NoDup_cons. split; [|apply NoDup_cons; split; [|by apply disjoint_pairs_NoDup]].
      * intros [?|Hq]%elem_of_cons; [done|]. pose proof (proj2 (Hu 0 (Hpair 0 Hq))). lia.
      * intros Hq. pose proof (proj2 (Hu 1 (Hpair 1 Hq))). lia.
  - intros q _ Hq. by apply covers_nil in Hq.
Qed.

Lemma begin_open : open_tx cmp key_ok d' (opening_tx d) (sp_committed s) T0.
Proof.
  destruct begin_old as (_ & Ho & _). split.
  - apply begin_state.
  - unfold marked. apply Forall_forall. intros q Hq. destruct (Ho q Hq). unfold mark. lia.
  - apply begin_account.
  - done.
  - apply (sa_list _ _ _ _ _ Hs).
  - intros q Hq. by apply begin_free_bound, begin_base.
  - intros q Hq. rewrite begin_base, begin_used. change (shm_meta d') with (shm_meta d) in Hq.
    destruct (decide (q ∈ (list_to_set (pair_pages (free_map p')) : gset Z))) as [Hd|Hd]; rewrite elem_of_list_to_set, elem_of_pair_pages in Hd; tauto.
  - change (txid (opening_tx d)) with (m_txid (shm_meta d) + 1). unfold kTxInvalidId. lia.
  - done.
  - destruct begin_inv as [(tx & Hw) _]. pose proof (aw_tx _ _ Hw) as E. rewrite begin_tx in E. injection E as <-.
    pose proof (aw_count _ _ Hw) as Hc. change (m_page_count (meta_format (opening_tx d))) with (m_page_count (shm_meta d)) in Hc |- *.
    change (m_page_count (shm_meta d')) with (m_page_count (shm_meta d)). lia.
Qed.

Lemma begin_sys : sys_at cmp key_ok d' (set_working (Some (sp_committed s)) s) T0.
Proof.
  destruct idle_parts as (_ & ET & _). pose proof oldest_bounds as Hold. fold c in Hold.
  pose proof Hs as [S1 S2 S16 S3 S4 S17 S5 S6 S7 S8 S9 S10 S11 _ S13 _ S15]. split; try done.
  - destruct S7 as [Hv _]. split; [by apply (views_ok_same d)|]. split; [by eexists|done].
  - apply begin_inv.
  - apply split_others.
  - intros e He. rewrite begin_window, begin_pending in He. by apply kept_sub, pending_older in He.
  - intros q Hq. apply begin_settled; [by apply S11, begin_sub|]. intros Hr. by apply (proj2 (proj2 split_others) q).
  - exists T0. change (shm_meta d') with (shm_meta d). fold c. eapply (begin_version (nodes_of T)); [exact Hv0| |exact Hv0|]; lia.
  - apply (views_moved cmp key_ok d d' _ _ _ _ S13); [done|]. intros tx root T1 m Hin Hle Hv.
    assert (Hid : txid tx ∈ view_txids d) by (apply list_elem_of_omap; by exists (Some tx)).
    pose proof (oldest_le d _ (proj1 S7) Hid). fold c in Hle.
    eapply (begin_version (nodes_of T)); [exact Hv| |exact Hv0|]; lia.
  - apply begin_open.
Qed.
End committed.
End begin.

(** ** Opening a write transaction *)
Section update.
Context `{Crc32, WalWriter} (cmp : comparator) (key_ok : list byte -> Prop) {HO : KeyOrder cmp key_ok}.

Lemma begin_idle d s T : sys_at cmp key_ok d s T -> sys_ready key_ok d SysBegin -> idle d.
Proof.
  intros Hs (Htx & Hmm & Hmax). pose proof (sa_mgr _ _ _ _ _ Hs) as [_ Hl]. pose proof (sa_txid _ _ _ _ _ Hs) as Hid.
  split; [|exact Htx|exact Hmm|lia|apply (sa_wal _ _ _ _ _ Hs)]. destruct (update_lock d); [|done]. destruct (proj1 Hl eq_refl) as [? E]. by rewrite Htx in E.
Qed.

Lemma begin_step d s T : sys_at cmp key_ok d s T -> sys_ready key_ok d SysBegin ->
  match TxManager.Update d with
  | Ok _ d' => sys_inv cmp key_ok d' (set_working (Some (sp_committed s)) s)
  | Throw _ _ => False
  | Fault w => w = BadIterator
  end.
Proof.
  intros Hs Hr. pose proof (begin_idle d s T Hs Hr) as Hidle. destruct Hr as (Htx & _ & Hmax). pose proof (sa_txid _ _ _ _ _ Hs) as Hid.
  destruct (Update_run d Hidle) as (n & ->). pose proof (oldest_bounds cmp key_ok d s T Hs) as Hold.
  assert (Hdj : disjoint_pairs (released (oldest_view d - 1) (pending_map (pager d))) /\
    forall q, covers (released (oldest_view d - 1) (pending_map (pager d))) q -> ~ covers (free_map (pager d)) q).
  { pose proof (sa_others _ _ _ _ _ Hs) as Ho. pose proof (idle_others cmp key_ok d s T Hs Htx) as Eo. split.
    - rewrite Eo, <- (released_kept (oldest_view d - 1) (pending_map (pager d))) in Ho. by apply disjoint_pairs_app in Ho as [Ho _].
    - intros q Hq. assert (Hq' : covers (others d) q).
      { rewrite Eo, <- (released_kept (oldest_view d - 1) (pending_map (pager d))). apply covers_app. by left. }
      apply (sa_taken _ _ _ _ _ Hs) in Hq' as [_ Hn]. by rewrite Htx in Hn. }
  destruct (sa_inv _ _ _ _ _ Hs) as [(tx & Hw) _]. destruct (window_same d) as (_ & Epg & _).
  assert (Hwf : free_wf (pager d)) by (rewrite <- Epg; apply (aw_free _ _ Hw)).
  rewrite u64_small by lia. unfold zoom. cbn [lget pager_lens]. change (pager (opened d n)) with (pager d).
  pose proof (Release_spec (oldest_view d - 1) (pager d) Hwf (proj1 Hdj) (proj2 Hdj)) as HR.
  destruct (Release (oldest_view d - 1) (pager d)) as [[] p'| |]; [|done|done]. destruct HR as (R1 & R2 & R3 & R4).
  cbn [lset pager_lens]. destruct (sa_committed _ _ _ _ _ Hs) as (T0 & Hv0). exists T0. by apply (begin_sys cmp key_ok d s T n p').
Qed.
End update.
