(* ===== verification/SystemEnds.v ===== *)
(** Ending the write transaction in the database as a whole: a rollback leaves
    the committed tree and the views, a commit puts the transaction's tree in
    the committed one's place. *)
From S2P Require Import Prelude Format Comparator State Memory FreeMap Pager PagerI PagerInst.
From S2P Require Import Node NodeWf NodeSpec Tx Iterator BTree Meta Logger TxManager NodeDb Freed Tree TreeSearch TreeGet Copying TreeSteps.
From S2P Require Import Forest LeafPage PutTheorems PutSame Holes KeyValue PagerTheorems Keeps MetaTheorems TxTheorems Isolation Peeks Versions System SystemBegin.

Implicit Types (d : DBImpl) (p q v : Z) (t u : tree) (T : option tree) (m : kvmap).

Section ends.
Context `{Crc32, WalWriter} (cmp : comparator) (key_ok : list byte -> Prop) {HO : KeyOrder cmp key_ok}.

(** A version when no transaction is open any more. *)
Lemma idle_version (W : Z -> Prop) d d' (N : list Z) v root T m : version cmp key_ok d N v root T m ->
  keeps_others W (window d) (window d') -> db_inv (window d) -> page_size d' = page_size d ->
  (forall q, q ∈ pages_of (window d) T -> ~ W q /\ settled d' q) ->
  (forall e, e ∈ pending_map (pager d') -> e ∈ pending_map (pager d) \/ v < e.1) -> version cmp key_ok d' [] v root T m.
Proof.
  intros Hv Hk Hinv Hps Hq Hp. apply (version_moved cmp key_ok d d' N [] v root T m Hv); try done.
  - apply (tree_kept_others W); try done; [|intros q Hin; by apply Hq]. intros t. apply (version_rep cmp key_ok _ _ _ _ _ _ _ Hv).
  - intros q ? _. by apply Hq.
  - intros u _ q _ Hn. by apply elem_of_nil in Hn.
Qed.

Section rollback.
Context (d : DBImpl) (s : sys_spec) (T : option tree) (tx : TxImpl) (m : kvmap) (p1 : Pager).
Context (Hs : sys_at cmp key_ok d s T) (Htx : update_tx (tx_manager d) = Some tx) (Hop : open_tx cmp key_ok d tx m T).
Context (Hwf : free_wf p1) (Hpend : pending_map p1 = db_pending d) (Hrec : alloc_records p1 = []).
Context (Hfree : forall q, covers (free_map p1) q <-> q ∈ tx_pages (pager d)).

Let d' : DBImpl := set_update_lock false (set_tx_manager (set_update_tx None (tx_manager d)) (set_pager p1 d)).
Let c : Z := m_txid (shm_meta d).

Lemma open_inv : db_inv d.
Proof. pose proof (sa_inv _ _ _ _ _ Hs) as Hi. by rewrite (window_open d tx Htx) in Hi. Qed.

Lemma back_window : update_tx (tx_manager (window d')) = Some (opening_tx d) /\ db_txid (window d') = c + 1 /\
  pager (window d') = p1 /\ page_size (window d') = page_size d /\ db_map (window d') = db_map d.
Proof. done. Qed.

Lemma open_older e : e ∈ db_pending d -> e.1 <= c.
Proof. pose proof (sa_older _ _ _ _ _ Hs e) as Ho. by rewrite (window_open d tx Htx) in Ho. Qed.

Lemma back_pending : db_pending (window d') = db_pending d /\ map_find (c + 1) (pending_map p1) = None.
Proof.
  assert (Hn : map_find (c + 1) (pending_map p1) = None).
  { rewrite Hpend. apply find_absent. intros e He%open_older. lia. }
  split; [|done]. unfold db_pending at 1. rewrite (proj1 (proj2 back_window)). change (pager (window d')) with p1.
  by rewrite erase_absent.
Qed.

Lemma back_others : others d' = others d.
Proof. unfold others. by rewrite (proj1 back_pending), (window_open d tx Htx). Qed.

Lemma back_settled q : settled d q -> settled d' q.
Proof. intros [Hb Hn]. rewrite Htx in Hn. split; [done|]. cbn. by rewrite Hfree. Qed.

Lemma back_inv : db_inv (window d').
Proof.
  destruct open_inv as [(tx0 & Hw) Hp]. pose proof (aw_tx _ _ Hw) as E. rewrite Htx in E. injection E as <-.
  destruct Hw as [_ A2 _ A4 A5 A6 A7 _]. pose proof (op_count _ _ _ _ _ _ Hop) as [Hc1 Hc2]. destruct (page_size_bounds _ A2).
  split; [|exact Hp]. exists (opening_tx d). split; change (page_size (window d')) with (page_size d); try done.
  - intros q. rewrite elem_of_tx_pages. change (pager (window d')) with p1. rewrite Hrec, covers_nil, Hfree.
    intros [Hq|[]]. by apply (op_base _ _ _ _ _ _ Hop).
  - change (db_map (window d')) with (db_map d). change (m_page_count (meta_format (opening_tx d))) with (m_page_count (shm_meta d)). nia.
  - change (m_page_count (meta_format (opening_tx d))) with (m_page_count (shm_meta d)). nia.
  - split; change (pager (window d')) with p1; rewrite Hrec; [done|]. intros q Hq. by apply covers_nil in Hq.
Qed.

Definition taken_away q : Prop := q ∈ tx_pages (pager d) \/ ~ 2 <= q < m_page_count (shm_meta d).

Lemma back_keeps : keeps_others taken_away (window d) (window d').
Proof.
  rewrite (window_open d tx Htx). split; [done| |done|done]. intros q _ Hn. apply (db_used_tx _ (opening_tx d)); [done|].
  split; change (m_page_count (meta_format (opening_tx d))) with (m_page_count (shm_meta d)).
  - destruct (decide (2 <= q < m_page_count (shm_meta d))) as [?|Hb]; [lia|]. destruct Hn. by right.
  - change (pager (window d')) with p1. rewrite Hfree. intros Hq. apply Hn. by left.
Qed.

Lemma back_version (N : list Z) v root T0 m0 : version cmp key_ok d N v root T0 m0 -> version cmp key_ok d' [] v root T0 m0.
Proof.
  intros Hv. apply (idle_version taken_away d d' N v root T0 m0 Hv back_keeps); [apply (sa_inv _ _ _ _ _ Hs)|done| |].
  - intros q Hq%(ve_settled _ _ _ _ _ _ _ _ Hv). split; [|by apply back_settled]. destruct Hq as [Hb Hn]. rewrite Htx in Hn. by intros [?|?].
  - intros e He. left. apply pending_rest. by rewrite <- Hpend.
Qed.

Lemma back_sys : sys_at cmp key_ok d' (set_working None s) None.
Proof.
  pose proof (window_open d tx Htx) as Ew. pose proof Hs as [S1 S2 S16 S3 S4 S17 S5 S6 S7 S8 S9 S10 S11 (T0 & S12) S13 _ S15].
  split; rewrite ?back_others; try done.
  - destruct S7 as [Hv _]. split; [by apply (views_ok_same d)|]. by apply closed_inv.
  - apply back_inv.
  - rewrite (proj1 back_pending). exact open_older.
  - intros q Hq. by apply back_settled, S11.
  - exists T0. by apply (back_version (nodes_of T)).
  - apply (views_moved cmp key_ok d d' _ _ _ _ S13); [done|]. intros tx0 root T1 m1 _ _. apply back_version.
  - split; [done|apply back_pending].
Qed.
End rollback.

Lemma PagerRollback_pager d d1 : PagerRollback d = Ok tt d1 -> d1 = set_pager (pager d1) d.
Proof.
  unfold PagerRollback, bind at 1. destruct (get_update_tx d) as [tx d0| |] eqn:E; [|done|done].
  unfold get_update_tx in E. destruct (update_tx (tx_manager d)); [|done]. injection E as -> ->.
  unfold zoom at 1. cbn [lget lset pager_lens]. set (prog := bind (modify _) _). destruct (prog (pager d0)) as [[] ?| |]; [|done|done].
  by intros [= <-].
Qed.

Lemma rollback_step d s T : sys_at cmp key_ok d s T -> is_Some (update_tx (tx_manager d)) ->
  match RollBack d with
  | Ok _ d' => sys_inv cmp key_ok d' (set_working None s) /\ is_Some (sp_working s)
  | Throw _ _ => False
  | Fault w => w = BadIterator
  end.
Proof.
  intros Hs (tx & Htx). pose proof (sa_working _ _ _ _ _ Hs) as Hw. unfold working in Hw. rewrite Htx in Hw.
  destruct (sp_working s) as [m|] eqn:Em; [|done]. pose proof (open_inv d s T tx Hs Htx) as [(tx0 & Hwf) _].
  assert (Hb : rollback_inv (fun q => q ∈ tx_pages (pager d)) (db_pending d) (db_txid d) d).
  { split; [apply tx_allocs_pages; apply Hwf|]. split; [done|]. unfold db_txid, update_txid. by rewrite Htx. }
  pose proof (PagerRollback_restores _ _ _ _ Hb) as HR. unfold RollBack.
  assert (Hwal : gets is_wal d = Ok false d) by (unfold gets; f_equal; apply (sa_wal _ _ _ _ _ Hs)). run_step Hwal.
  rewrite (bind_ok (ret tt) _ d tt d) by done. unfold bind at 1. destruct (PagerRollback d) as [[] d1| |] eqn:Er; [|done|done].
  destruct HR as (R1 & R2 & R3 & R4). pose proof (PagerRollback_pager _ _ Er) as ->. split; [|by eexists]. exists None.
  by apply (back_sys d s T tx m (pager d1)).
Qed.

(** ** Commit *)

(** The meta record is on one of the first two pages. *)
Lemma cut_frame d i bs : db_inv d -> 0 <= i <= 1 -> Z.of_nat (length bs) = kMetaSize ->
  let mp := cut (length bs) (i * page_size d) bs d in
  map_size mp = map_size (db_map d) /\ pages_ok (page_size d) (file_pages mp) /\
  (forall q, 2 <= q -> db_node (set_db_map mp d) q = db_node d q) /\
  (forall a, 2 <= a / page_size d -> db_mem (set_db_map mp d) a = db_mem d a).
Proof.
  intros [(tx & Hw) Hok] Hi Hl. destruct (page_size_bounds _ (aw_ps _ _ Hw)) as [Hr _]. unfold kMetaSize in Hl.
  pose proof (aw_count _ _ Hw). pose proof (aw_map _ _ Hw).
  destruct (write_at_ok d (i * page_size d) bs (aw_ps _ _ Hw) Hok) as (m' & HW & Hok' & _ & Hm & Hlk); [nia|nia|].
  assert (E : cut (length bs) (i * page_size d) bs d = mkMapping m' (map_size (db_map d))).
  { unfold cut. rewrite firstn_all. revert HW. unfold write_at. destruct (_ && _); [|done]. by intros [= <-]. }
  assert (Hin : forall b, i * page_size d <= b < i * page_size d + Z.of_nat (length bs) -> b / page_size d < 2).
  { intros b Hb. apply Z.div_lt_upper_bound; nia. }
  intros mp. unfold mp. rewrite E. split_and!; [done|exact Hok'| |].
  - intros q Hq. unfold db_node, page_at. cbn. rewrite Hlk; [done|]. intros b Hb%Hin. lia.
  - intros a Ha. apply Hm. intros Hb%Hin. lia.
Qed.

Section commit.
Context (d : DBImpl) (s : sys_spec) (T : option tree) (tx : TxImpl) (m : kvmap).
Context (Hs : sys_at cmp key_ok d s T) (Htx : update_tx (tx_manager d) = Some tx) (Hop : open_tx cmp key_ok d tx m T).
Let c : Z := m_txid (shm_meta d).

Lemma committable_inv : db_inv d.
Proof. exact (open_inv d s T tx Hs Htx). Qed.
Lemma open_txid : db_txid d = c + 1.
Proof. unfold db_txid, update_txid. rewrite Htx. apply (op_txid _ _ _ _ _ _ Hop). Qed.

Lemma others_used q : covers (others d) q -> db_used d q /\ 2 <= q /\ ~ covers (db_freed d) q.
Proof.
  intros Hq. pose proof (op_account _ _ _ _ _ _ Hop) as Ha.
  assert (Hin : q ∈ pages_of d T ++ 0 :: 1 :: pair_pages (others d)).
  { apply elem_of_app. right. do 2 apply list_elem_of_further. by apply elem_of_pair_pages. }
  split_and!; [by apply (ac_used _ _ Ha)| |by apply (ac_apart _ _ Ha)]. pose proof (sa_taken _ _ _ _ _ Hs q Hq) as [? _]. lia.
Qed.

Lemma freed_used q : covers (db_freed d) q -> db_used d q /\ 2 <= q.
Proof.
  intros Hq. pose proof (op_account _ _ _ _ _ _ Hop) as Ha. pose proof (ac_freed_used _ _ Ha q Hq) as Hu. split; [done|].
  assert (Hn : forall p, p = 0 \/ p = 1 -> q <> p).
  { intros p Hp ->. apply (ac_apart _ _ Ha p); [|done]. apply elem_of_app. right. rewrite !elem_of_cons. tauto. }
  apply (db_used_tx d tx q Htx) in Hu as [Hb _]. pose proof (Hn 0). pose proof (Hn 1). lia.
Qed.

Lemma tree_used q : q ∈ pages_of d T -> db_used d q /\ 2 <= q /\ ~ covers (db_freed d) q /\ ~ covers (others d) q.
Proof.
  intros Hq. pose proof (op_account _ _ _ _ _ _ Hop) as Ha. pose proof (ac_nodup _ _ Ha) as Hnd. apply NoDup_app in Hnd as (_ & Hnd & _).
  specialize (Hnd q Hq). rewrite !elem_of_cons, elem_of_pair_pages in Hnd.
  assert (Hin : q ∈ pages_of d T ++ 0 :: 1 :: pair_pages (others d)) by (apply elem_of_app; by left).
  pose proof (ac_used _ _ Ha q Hin) as Hu. split_and!; [done| |by apply (ac_apart _ _ Ha)|tauto].
  apply (db_used_tx d tx q Htx) in Hu as [Hb _]. destruct (decide (q = 0)); [tauto|]. destruct (decide (q = 1)); [tauto|]. lia.
Qed.

Lemma pending_all : concat (snd <$> pending_map (pager d)) ≡ₚ db_freed d ++ others d.
Proof. unfold others. rewrite (window_open d tx Htx). apply pending_perm. Qed.

Lemma pending_pairs : disjoint_pairs (concat (snd <$> pending_map (pager d))).
Proof.
  apply (disjoint_pairs_perm (db_freed d ++ others d)); [by rewrite pending_all|]. apply disjoint_pairs_app.
  split_and!; [apply (op_account _ _ _ _ _ _ Hop)|apply (sa_others _ _ _ _ _ Hs)|]. intros q Hf Ho. by apply others_used in Ho as (_ & _ & ?).
Qed.

Lemma pending_used q : covers (concat (snd <$> pending_map (pager d))) q -> db_used d q /\ 2 <= q.
Proof.
  intros (e & He & Hq)%covers_concat. assert (Hc : covers (db_freed d ++ others d) q).
  { rewrite covers_app. apply pending_elem in He as [He| ->]; [right|by left]. unfold others. rewrite (window_open d tx Htx). apply covers_concat. by exists e. }
  apply covers_app in Hc as [Hc|Hc]; [by apply freed_used|]. by apply others_used in Hc as (? & ? & _).
Qed.

Lemma used_not_free q : db_used d q -> 0 <= q < m_page_count (meta_format tx) /\ ~ covers (free_map (pager d)) q.
Proof. by intros Hq%(db_used_tx d tx q Htx). Qed.

Context (Hlen : Z.of_nat (length (saved_pairs (pager d))) * 8 < 2 ^ 32).
Context (Hsp : GetPageCount (page_size d) (Z.of_nat (length (saved_pairs (pager d))) * 8) <= db_space d).

Lemma open_committable : committable d tx.
Proof.
  pose proof (sa_inv _ _ _ _ _ Hs) as Hinv. rewrite (window_open d tx Htx) in Hinv.
  split; [apply (sa_wal _ _ _ _ _ Hs)|exact Hinv|exact Htx|apply (sa_ps _ _ _ _ _ Hs)|apply (op_list _ _ _ _ _ _ Hop)| |exact Hlen|exact Hsp].
  destruct Hinv as [(tx0 & Hw) _]. destruct (aw_free _ _ Hw) as [Hf _].
  apply disjoint_pairs_app. split_and!; [by apply (wf_from_disjoint 0)|apply pending_pairs|].
  intros q Hq Hp. apply pending_used in Hp as [Hu _]. by apply used_not_free in Hu as [_ Hn].
Qed.

(** The database the commit leaves. *)
Section committed.
Context (d2 d' : DBImpl) (t2 : TxImpl) (Hsave : list_saved d tx d2 t2) (Hpager : pager d' = pager d2).
Context (Hmap : db_map d' = cut (length (encode_meta (committed_meta d tx))) (other_index d * page_size d) (encode_meta (committed_meta d tx)) d2).
Context (Hshm : shm_meta d' = committed_meta d tx) (Hopt : options d' = options d) (Hviews : mgr_views d' = mgr_views d).
Context (Hpers : persisted_txid (tx_manager d') = persisted_txid (tx_manager d)).
Context (Hnone : update_tx (tx_manager d') = None) (Hlock : update_lock d' = false).

Lemma done_ps : page_size d' = page_size d.
Proof. unfold page_size. by rewrite Hopt. Qed.
Lemma done_shm : m_txid (shm_meta d') = c + 1 /\ m_page_count (shm_meta d') = m_page_count (meta_format tx) /\
  m_user_root (shm_meta d') = m_user_root (meta_format tx) /\ m_page_size (shm_meta d') = m_page_size (shm_meta d) /\
  m_free_list_pgid (shm_meta d') = kPageInvalidId.
Proof. rewrite Hshm. split_and!; try done; [apply (op_txid _ _ _ _ _ _ Hop)|apply (op_list _ _ _ _ _ _ Hop)]. Qed.

Lemma done_window : update_tx (tx_manager (window d')) = Some (opening_tx d') /\ db_txid (window d') = c + 2 /\
  pager (window d') = pager d2 /\ db_map (window d') = db_map d' /\ page_size (window d') = page_size d /\
  m_page_count (meta_format (opening_tx d')) = m_page_count (meta_format tx).
Proof.
  destruct (window_same d') as (E1 & E2 & E3 & _). rewrite E1, E2, E3, done_ps. split_and!; [| |apply Hpager|done|done|apply done_shm].
  - unfold window. by rewrite Hnone.
  - unfold window. rewrite Hnone. unfold db_txid, update_txid. cbn. rewrite (proj1 done_shm). lia.
Qed.

Lemma done_older e : e ∈ pending_map (pager d) -> e.1 <= c + 1.
Proof.
  intros [He| ->]%pending_elem.
  - pose proof (sa_older _ _ _ _ _ Hs e) as Ho. rewrite (window_open d tx Htx) in Ho. specialize (Ho He). fold c in Ho. lia.
  - cbn [fst]. rewrite open_txid. lia.
Qed.

Lemma done_pending : db_pending (window d') = pending_map (pager d) /\ map_find (c + 2) (pending_map (pager d')) = None.
Proof.
  destruct done_window as (_ & Et & Ep & _). unfold db_pending. rewrite Et, Ep, Hpager, (ls_pending _ _ _ _ Hsave).
  assert (Hn : map_find (c + 2) (pending_map (pager d)) = None) by (apply find_absent; intros e He%done_older; lia).
  by rewrite erase_absent.
Qed.
Lemma done_others : others d' = concat (snd <$> pending_map (pager d)).
Proof. unfold others. by rewrite (proj1 done_pending). Qed.

Lemma done_settled q : 2 <= q < m_page_count (meta_format tx) -> ~ covers (free_map (pager d)) q -> settled d' q.
Proof.
  intros Hb Hn. split; [by rewrite (proj1 (proj2 done_shm))|]. rewrite Hnone, Hpager. by intros Hq%(ls_free _ _ _ _ Hsave).
Qed.
Lemma used_settled q : db_used d q -> 2 <= q -> settled d' q.
Proof. intros [Hb Hn]%used_not_free H2. apply done_settled; [lia|done]. Qed.

Lemma done_cut : map_size (db_map d') = map_size (db_map d2) /\ pages_ok (page_size d) (file_pages (db_map d')) /\
  (forall q, 2 <= q -> db_node (window d') q = db_node d2 q) /\
  (forall a, 2 <= a / page_size d -> db_mem (window d') a = db_mem d2 a).
Proof.
  pose proof (kp_ps _ _ _ (ls_keeps _ _ _ _ Hsave)) as Eps. destruct done_window as (_ & _ & _ & Em & Ep & _).
  destruct (cut_frame d2 (other_index d) (encode_meta (committed_meta d tx)) (ls_inv _ _ _ _ Hsave)) as (C1 & C2 & C3 & C4).
  { unfold other_index. destruct (_ =? 0); lia. } { by rewrite length_encode_meta. }
  rewrite Eps in *. rewrite <- Hmap in *. split_and!; [done|done|..].
  - intros q Hq. rewrite <- (C3 q Hq). unfold db_node. rewrite Em, Ep. unfold page_size at 2. cbn. fold (page_size d2). by rewrite Eps.
  - intros a Ha. rewrite <- (C4 a Ha). unfold db_mem. rewrite Em, Ep. unfold page_size at 2. cbn. fold (page_size d2). by rewrite Eps.
Qed.

Lemma done_inv : db_inv (window d').
Proof.
  destruct done_window as (Et & _ & Epg & Em & Ep & Ec). destruct done_cut as (C1 & C2 & _).
  destruct (committable_inv) as [(tx0 & Hw) _]. pose proof (aw_tx _ _ Hw) as E. rewrite Htx in E. injection E as <-.
  destruct (ls_inv _ _ _ _ Hsave) as [(t3 & Hw2) _]. pose proof (ls_map _ _ _ _ Hsave).
  split; [|by rewrite Ep, Em]. exists (opening_tx d'). split; rewrite ?Ep, ?Epg, ?Em, ?Ec; try apply Hw; try apply Hw2; [done| |].
  - rewrite (ls_taken _ _ _ _ Hsave). apply (aw_base _ _ Hw).
  - rewrite C1. pose proof (aw_map _ _ Hw). lia.
Qed.

Lemma done_keeps : keeps_others (fun q => ~ 2 <= q) d (window d').
Proof.
  destruct done_window as (Et & _ & Epg & Em & Ep & Ec). destruct done_cut as (_ & _ & C3 & C4). pose proof (ls_keeps _ _ _ _ Hsave) as [_ K2 K3 K4].
  split; [done|..].
  - intros q Hq _. apply (db_used_tx _ (opening_tx d') q Et). unfold in_use. rewrite Ec, Epg. apply used_not_free in Hq as [Hb Hn].
    split; [done|]. by intros Hf%(ls_free _ _ _ _ Hsave).
  - intros q Hq Hn. rewrite C3 by lia. apply K3; auto.
  - intros a Hq Hn. rewrite C4 by lia. apply K4; auto.
Qed.

Lemma done_version v root T0 m0 : version cmp key_ok d (nodes_of T) v root T0 m0 -> version cmp key_ok d' [] v root T0 m0.
Proof.
  intros Hv. apply (idle_version (fun q => ~ 2 <= q) d d' (nodes_of T) v root T0 m0 Hv).
  - rewrite (window_open d tx Htx). exact done_keeps.
  - apply (sa_inv _ _ _ _ _ Hs).
  - apply done_ps.
  - intros q Hq%(ve_settled _ _ _ _ _ _ _ _ Hv). destruct Hq as [Hb Hn]. rewrite Htx in Hn. split; [lia|].
    pose proof (op_count _ _ _ _ _ _ Hop). apply done_settled; [lia|]. intros Hf. apply Hn, elem_of_tx_pages. by left.
  - rewrite Hpager, (ls_pending _ _ _ _ Hsave). by left.
Qed.

(** The transaction's tree is the new version. *)
Lemma done_tree : version cmp key_ok d' [] (c + 1) (m_user_root (meta_format tx)) T m.
Proof.
  pose proof (op_state _ _ _ _ _ _ Hop) as Hst. destruct done_window as (_ & _ & _ & _ & Ep & _).
  assert (Ht : version_tree cmp key_ok d (m_user_root (meta_format tx)) T m).
  { assert (Er : tree_root (user_tree UpdateTxRef) d = Ok (m_user_root (meta_format tx)) d).
    { unfold tree_root, get_root, bind. cbn. unfold get_update_tx. by rewrite Htx. }
    destruct T as [t|]; cbn in Hst |- *.
    - destruct Hst as ((h & [[T1 T2 T3 T4 T5 T6 T7] _ Hnd _]) & Hpl & Em). rewrite Er in T4. injection T4 as ->. split_and!; try done. by exists h.
    - destruct Hst as (_ & _ & _ & Er' & Em). pose proof (eq_trans (eq_sym Er) Er') as E. by injection E as ->. }
  assert (Hk : tree_kept d (window d') T).
  { apply (tree_kept_others (fun q => ~ 2 <= q) d (window d') T done_keeps (kv_inv cmp key_ok _ _ _ _ Hst)).
    - intros t ->. cbn in Ht. apply Ht.
    - intros q Hq. apply tree_used in Hq as (_ & ? & _). lia. }
  pose proof (kept_pages _ _ _ Hk) as Epg. split.
  - by apply (kept_version_tree cmp key_ok d).
  - apply Forall_forall. intros q Hq. pose proof (proj1 (Forall_forall _ _) (op_marked _ _ _ _ _ _ Hop) q Hq) as Hm. cbn in Hm. rewrite open_txid in Hm.
    destruct T as [t|]; [|by apply elem_of_nil in Hq]. destruct Hk as (_ & _ & ->); [lia|]. by apply tree_nodes_footprint.
  - rewrite Epg. intros q Hq. apply tree_used in Hq as (? & ? & _). by apply used_settled.
  - rewrite Epg, Hpager, (ls_pending _ _ _ _ Hsave). intros q e Hq He Hc. exfalso. apply tree_used in Hq as (_ & _ & Hf & Ho).
    apply pending_elem in He as [He| ->]; [|done]. apply Ho. unfold others. rewrite (window_open d tx Htx). apply covers_concat. by exists e.
  - intros u _ q _ Hn. by apply elem_of_nil in Hn.
Qed.

Lemma done_sys : sys_at cmp key_ok d' (mkSpec (sp_page s) m None (sp_views s)) None.
Proof.
  destruct done_shm as (M1 & M2 & M3 & M4 & M5). pose proof Hs as [S1 S2 S16 S3 S4 S17 S5 S6 S7 S8 S9 S10 S11 _ S13 _ S15].
  assert (Hvt : view_txs d' = view_txs d) by (unfold mgr_views in Hviews; by injection Hviews).
  split; rewrite ?M1, ?M4, ?M5, ?done_ps, ?done_others; try done.
  - by rewrite Hopt.
  - unfold is_wal. by rewrite Hopt.
  - by rewrite Hopt.
  - by rewrite Hpers.
  - pose proof (op_last _ _ _ _ _ _ Hop). rewrite (op_txid _ _ _ _ _ _ Hop) in *. fold c in S6. lia.
  - destruct S7 as [Hv _]. split; [by apply (views_ok_same d)|]. by apply closed_inv.
  - apply done_inv.
  - apply pending_pairs.
  - rewrite (proj1 done_pending). exact done_older.
  - intros q Hq. apply pending_used in Hq as [? ?]. by apply used_settled.
  - exists T. rewrite M3. exact done_tree.
  - rewrite Hvt. apply (views_moved cmp key_ok d d' _ _ _ _ S13); [rewrite M1; unfold c; lia|]. intros tx0 root T1 m1 _ _. apply done_version.
  - unfold working. rewrite Hnone, M1. cbn. split; [done|]. replace (c + 1 + 1) with (c + 2) by lia. apply done_pending.
Qed.
End committed.
End commit.

Lemma commit_step d s T : sys_at cmp key_ok d s T -> sys_ready key_ok d SysCommit ->
  exists m d', Commit d = Ok tt d' /\ sp_working s = Some m /\ sys_inv cmp key_ok d' (mkSpec (sp_page s) m None (sp_views s)).
Proof.
  intros Hs ((tx & Htx) & Hlen & Hsp). pose proof (sa_working _ _ _ _ _ Hs) as Hop. unfold working in Hop. rewrite Htx in Hop.
  destruct (sp_working s) as [m|] eqn:Em; [|done]. pose proof (open_committable d s T tx m Hs Htx Hop Hlen Hsp) as Hcm.
  destruct (Commit_run d tx Hcm) as (d2 & t2 & d' & Hrun & Hsave & Hpg & Hmap & _ & Hshm & _ & Hpers). exists m, d'. split_and!; [done|done|].
  destruct (Commit_closes d d' Hrun) as [Hl Ht]. exists None.
  assert (Ho : options d' = options d) by (revert Hrun; by apply keeps_ok, keeps_Commit).
  assert (Hv : mgr_views d' = mgr_views d) by (revert Hrun; by apply keeps_ok, keeps_Commit).
  by apply (done_sys d s T tx m Hs Htx Hop d2 d' t2).
Qed.
End ends.
