(* ===== verification/SystemTheorem.v ===== *)
(** The database as a whole does what its specification says: from a file just
    created, whatever operations its users call, through [DB::Update],
    [DB::View], the buckets and the transactions of [src/include/atomkv/]. *)
From S2P Require Import Prelude Format Comparator State Memory FreeMap Pager PagerI PagerInst.
From S2P Require Import Node NodeWf NodeSpec Tx Iterator BTree Meta Logger TxManager Bucket Recovery NodeDb Freed Tree TreeSearch TreeGet Copying TreeSteps.
From S2P Require Import Forest LeafPage PutTheorems PutSame Holes DeleteSamples KeyValue PagerTheorems Keeps MetaTheorems TxTheorems Isolation Peeks.
From S2P Require Import Versions System SystemViews SystemBegin SystemEnds.

Implicit Types (d : DBImpl) (p q v : Z) (t u : tree) (T : option tree) (m : kvmap).

(** ** The program, by its public methods *)
Section program.
Context `{Crc32, WalWriter}.

Definition run_bucket (b : Bucket) (op : kv_op) : M DBImpl kv_result :=
  match op with
  | KvGet k =>
      let* it := Bucket_Get b k in
      if iter_end it then ret (Found None)
      else let* (v, _) := with_iterator it iter_value in ret (Found (Some v))
  | KvPut k v => Bucket_Put b k v false ;;; ret Stored
  | KvDelete k => let* r := Bucket_Delete b k in ret (Deleted r)
  end.

Definition run_sys (op : sys_op) : M DBImpl sys_result :=
  match op with
  | SysBegin => db_Update ;;; ret Done
  | SysWrite op => let* r := run_bucket (UserBucket UpdateTxRef) op in ret (Did r)
  | SysCommit => UpdateTx_Commit true ;;; ret Done
  | SysRollBack => UpdateTx_RollBack true ;;; ret Done
  | SysView => let* h := db_View in ret (Opened h)
  | SysRead h k => let* r := run_bucket (UserBucket (ViewTxRef h)) (KvGet k) in ret (Did r)
  | SysEndView h => destroy_view h ;;; ret Done
  end.

(** The user bucket of a transaction is its tree. *)
Lemma run_bucket_tree r w tx op d : get_tx r d = Ok tx d -> plain_tx w tx -> is_wal d = false ->
  run_bucket (UserBucket r) op d = run_kv (user_tree r) op d.
Proof.
  intros Hget (_ & Hb & _) Hwal.
  assert (Hat : the_bucket (UserBucket r) d = Ok (mkBucket kUserRootBucketId w UserRoot None) d).
  { unfold the_bucket, at_bucket. run_step Hget. unfold find_bucket. cbn [bk_id UserBucket]. by rewrite Z.eqb_refl, Hb. }
  assert (Hbt : btree (UserBucket r) d = Ok (user_tree r) d) by (unfold btree; by run_step Hat).
  assert (Hw : gets is_wal d = Ok false d) by (unfold gets; by rewrite Hwal).
  destruct op as [k|k v|k]; cbn [run_bucket run_kv].
  - unfold Bucket_Get. rewrite bind_assoc. by run_step Hbt.
  - unfold Bucket_Put, AppendPutLog. rewrite !bind_assoc. run_step Hat. rewrite !bind_assoc. run_step Hw. cbn [negb].
    rewrite (bind_ok (ret tt) _ d tt d) by done. rewrite bind_assoc. by run_step Hbt.
  - unfold Bucket_Delete, AppendDeleteLog. rewrite !bind_assoc. run_step Hat. rewrite !bind_assoc. run_step Hw. cbn [negb].
    rewrite (bind_ok (ret tt) _ d tt d) by done. rewrite bind_assoc. by run_step Hbt.
Qed.

Lemma commit_plain tx d : update_tx (tx_manager d) = Some tx -> plain_tx true tx -> UpdateTx_Commit true d = Commit d.
Proof.
  intros Htx (Hw & Hb & Hc). assert (Hget : get_tx UpdateTxRef d = Ok tx d) by (cbn; unfold get_update_tx; by rewrite Htx).
  unfold UpdateTx_Commit, Tx_Commit. cbn [negb]. run_step Hget. rewrite bind_assert by done.
  assert (Hp : put_bucket_roots (mkBucketRef UpdateTxRef kUserRootBucketId) d = Ok tt d).
  { unfold put_bucket_roots. cbn [bk_tx bk_id]. run_step Hget. unfold find_bucket. by rewrite Z.eqb_refl, Hb. }
  run_step Hp. run_step Hget. by rewrite Hc.
Qed.

Lemma rollback_plain tx d : update_tx (tx_manager d) = Some tx -> plain_tx true tx -> UpdateTx_RollBack true d = RollBack d.
Proof.
  intros Htx (Hw & _). assert (Hget : get_tx UpdateTxRef d = Ok tx d) by (cbn; unfold get_update_tx; by rewrite Htx).
  unfold UpdateTx_RollBack, Tx_RollBack. cbn [negb]. run_step Hget. by rewrite Hw.
Qed.
End program.

(** ** One operation *)
Section steps.
Context `{Crc32, WalWriter} (cmp : comparator) (key_ok : list byte -> Prop) {HO : KeyOrder cmp key_ok}.

(** What a call may come to: the answer and the state the specification gives;
    where pages are given back, a step before [begin()]. *)
Definition sys_answers d s (op : sys_op) : Prop :=
  match run_sys op d with
  | Ok r d' => exists s', sys_step s op r s' /\ sys_inv cmp key_ok d' s'
  | Throw _ _ => False
  | Fault w => w = BadIterator /\ (op = SysBegin \/ op = SysRollBack)
  end.

Lemma answers_ok d s op r d' s' : run_sys op d = Ok r d' -> sys_step s op r s' -> sys_inv cmp key_ok d' s' -> sys_answers d s op.
Proof. intros Hrun Hst Hinv. unfold sys_answers. rewrite Hrun. by exists s'. Qed.

Lemma open_parts d s T : sys_at cmp key_ok d s T -> is_Some (update_tx (tx_manager d)) ->
  exists tx m, update_tx (tx_manager d) = Some tx /\ sp_working s = Some m /\ open_tx cmp key_ok d tx m T.
Proof.
  intros Hs (tx & Htx). pose proof (sa_working _ _ _ _ _ Hs) as Hw. unfold working in Hw. rewrite Htx in Hw.
  destruct (sp_working s) as [m|]; [|done]. by exists tx, m.
Qed.

Lemma begin_answers d s T : sys_at cmp key_ok d s T -> sys_ready key_ok d SysBegin -> sys_answers d s SysBegin.
Proof.
  intros Hs Hr. pose proof (begin_step cmp key_ok d s T Hs Hr) as Hb. destruct Hr as (Htx & _). pose proof (sa_working _ _ _ _ _ Hs) as Hw.
  unfold working in Hw. rewrite Htx in Hw. destruct (sp_working s) as [m|] eqn:Em; [done|].
  unfold sys_answers. cbn [run_sys]. unfold db_Update. rewrite bind_assoc, (bind_ok (gets options) _ d (options d) d) by done.
  rewrite (sa_writable _ _ _ _ _ Hs). unfold bind at 1. destruct (TxManager.Update d) as [[] d'| |]; [|done|by auto].
  eexists. split; [by apply sys_begin|exact Hb].
Qed.

Lemma rollback_answers d s T : sys_at cmp key_ok d s T -> sys_ready key_ok d SysRollBack -> sys_answers d s SysRollBack.
Proof.
  intros Hs Hr. destruct (open_parts d s T Hs Hr) as (tx & m & Htx & Em & Hop). pose proof (rollback_step cmp key_ok d s T Hs Hr) as Hb.
  unfold sys_answers. cbn [run_sys]. unfold bind at 1. rewrite (rollback_plain tx d Htx (op_plain _ _ _ _ _ _ Hop)).
  destruct (RollBack d) as [[] d'| |]; [|done|by auto]. destruct Hb as [Hb Hw]. eexists. split; [by apply sys_rollback|exact Hb].
Qed.

Lemma sys_op_ok d s op : sys_inv cmp key_ok d s -> sys_ready key_ok d op -> sys_answers d s op.
Proof.
  intros (T & Hs) Hr. pose proof (sa_wal _ _ _ _ _ Hs) as Hwal. destruct op as [|op| | | |h k|h].
  - by apply (begin_answers d s T).
  - destruct Hr as (Hsome & Hok & Hroom). destruct (open_parts d s T Hs Hsome) as (tx & m & Htx & Em & Hop).
    destruct (work_step cmp key_ok d s T tx m op Hs Htx Hop Hok Hroom) as (r & d' & T' & m' & Hrun & Hst & Hs').
    rewrite (sa_page _ _ _ _ _ Hs) in Hst. apply (answers_ok d s _ (Did r) d' (set_working (Some m') s)); [|by apply (sys_write s m)|by exists T'].
    cbn [run_sys]. assert (Hget : get_tx UpdateTxRef d = Ok tx d) by (cbn; unfold get_update_tx; by rewrite Htx).
    rewrite <- (run_bucket_tree UpdateTxRef true tx op d Hget (op_plain _ _ _ _ _ _ Hop) Hwal) in Hrun. by run_step Hrun.
  - destruct (open_parts d s T Hs (proj1 Hr)) as (tx & m & Htx & Em & Hop).
    destruct (commit_step cmp key_ok d s T Hs Hr) as (m' & d' & Hrun & Em' & Hs'). rewrite Em in Em'. injection Em' as <-.
    eapply (answers_ok d s _ Done d'); [|by apply sys_commit|exact Hs'].
    cbn [run_sys]. rewrite <- (commit_plain tx d Htx (op_plain _ _ _ _ _ _ Hop)) in Hrun. by run_step Hrun.
  - by apply (rollback_answers d s T).
  - destruct (view_step cmp key_ok d s T Hs Hr) as (d' & Hrun & Hs').
    eapply (answers_ok d s _ (Opened (length (sp_views s))) d'); [|by apply sys_view|by exists T]. cbn [run_sys]. unfold db_View. by run_step Hrun.
  - destruct Hr as [Hl Hk]. destruct (read_step cmp key_ok d s T h k Hs Hl Hk) as (m & Hm & Hrun). destruct Hl as (tx & Htx).
    apply (answers_ok d s _ (Did (Found (m !! k))) d s); [|by apply sys_read|by exists T].
    destruct (Forall2_lookup_l _ _ _ _ _ (sa_views _ _ _ _ _ Hs) Htx) as ([m0|] & _ & Hat); [|done]. destruct Hat as (_ & Hp & _).
    cbn [run_sys]. assert (Hget : get_tx (ViewTxRef h) d = Ok tx d) by (cbn; by rewrite Htx).
    rewrite <- (run_bucket_tree (ViewTxRef h) false tx (KvGet k) d Hget Hp Hwal) in Hrun. by run_step Hrun.
  - destruct (end_view_step cmp key_ok d s T h Hs Hr) as (d' & Hrun & Hs' & m & Hm).
    eapply (answers_ok d s _ Done d'); [|by apply (sys_end_view s h m)|by exists T]. cbn [run_sys]. by run_step Hrun.
Qed.

(** ** A sequence of operations, each called when it may be *)
Inductive sys_runs : DBImpl -> list sys_op -> list sys_result -> DBImpl -> Prop :=
| runs_nil d : sys_runs d [] [] d
| runs_cons d op r d1 ops rs d' : sys_ready key_ok d op -> run_sys op d = Ok r d1 -> sys_runs d1 ops rs d' ->
    sys_runs d (op :: ops) (r :: rs) d'.
Inductive sys_steps : sys_spec -> list sys_op -> list sys_result -> sys_spec -> Prop :=
| steps_nil s : sys_steps s [] [] s
| steps_cons s op r s1 ops rs s' : sys_step s op r s1 -> sys_steps s1 ops rs s' -> sys_steps s (op :: ops) (r :: rs) s'.

Lemma runs_ok d ops rs d' : sys_runs d ops rs d' -> forall s, sys_inv cmp key_ok d s -> exists s', sys_steps s ops rs s' /\ sys_inv cmp key_ok d' s'.
Proof.
  induction 1 as [d|d op r d1 ops rs d' Hr Hrun _ IH]; intros s Hs; [exists s; split; [constructor|done]|].
  pose proof (sys_op_ok d s op Hs Hr) as Ha. unfold sys_answers in Ha. rewrite Hrun in Ha. destruct Ha as (s1 & Hst & Hs1).
  destruct (IH s1 Hs1) as (s' & Hsts & Hs'). exists s'. split; [by apply (steps_cons s op r s1)|done].
Qed.
End steps.

(** ** A database just opened *)
Section fresh.
Context `{Crc32, WalWriter} (cmp : comparator) (key_ok : list byte -> Prop) {HO : KeyOrder cmp key_ok}.

(** No page is free, no transaction and no view is open. *)
Record fresh d : Prop := {
  fr_ps : page_size_ok (page_size d);
  fr_pages : pages_ok (page_size d) (file_pages (db_map d));
  fr_mode : opt_mode (options d) = kUpdateInPlace;
  fr_writable : opt_read_only (options d) = false;
  fr_cmp : opt_comparator (options d) = cmp;
  fr_slim k : key_ok k -> slim (page_size d) k;
  fr_size : m_page_size (shm_meta d) = page_size d;
  fr_list : m_free_list_pgid (shm_meta d) = kPageInvalidId;
  fr_txid : 0 < m_txid (shm_meta d) < kTxInvalidId;
  fr_count : 2 <= m_page_count (shm_meta d);
  fr_map : m_page_count (shm_meta d) * page_size d <= map_size (db_map d);
  fr_addr : m_page_count (shm_meta d) * page_size d <= 2 ^ 32;
  fr_manager : exists v, tx_manager d = mkTxManager kTxInvalidId None [] v;
  fr_pager : pager d = new_Pager;
  fr_views : view_txs d = [];
  fr_lock : update_lock d = false;
}.

Lemma fresh_sys d m T0 : fresh d -> version_tree cmp key_ok (window d) (m_user_root (shm_meta d)) T0 m ->
  (forall q, q ∈ nodes_of T0 -> mark (window d) q <= m_txid (shm_meta d)) ->
  (forall q, q ∈ pages_of (window d) T0 -> 2 <= q < m_page_count (shm_meta d)) -> sys_inv cmp key_ok d (mkSpec (page_size d) m None []).
Proof.
  intros [F1 F2 F3 F4 F5 F6 F7 F8 F9 F10 F11 F12 (v & F13) F14 F15 F16] Ht Hmarks Hpages. exists None.
  destruct (window_same d) as (E1 & E2 & E3 & _).
  assert (Etx : update_tx (tx_manager d) = None) by (by rewrite F13).
  assert (Htx : update_tx (tx_manager (window d)) = Some (opening_tx d)) by (unfold window; by rewrite Etx).
  assert (Epend : pending_map (pager d) = []) by (by rewrite F14).
  assert (Ep : db_pending (window d) = []) by (unfold db_pending; by rewrite E2, Epend).
  assert (Eo : others d = []) by (unfold others; by rewrite Ep).
  split; rewrite ?Eo, ?Ep; try done.
  - unfold is_wal. by rewrite F3.
  - by rewrite F13.
  - split; [|by apply closed_inv]. split; [rewrite F13; constructor|]. intros i. unfold views_at, view_txids. by rewrite F13, F15.
  - split; [|by rewrite E1, E3]. exists (opening_tx d).
    assert (Ec : m_page_count (meta_format (opening_tx d)) = m_page_count (shm_meta d)) by done.
    split; rewrite ?E1, ?E3, ?Ec; try done.
    + rewrite E2, F14. split; [done|]. intros q. cbn. rewrite covers_nil. by rewrite elem_of_empty.
    + intros q. rewrite elem_of_tx_pages, E2, F14. cbn. rewrite covers_nil. tauto.
    + rewrite E2, F14. split; [done|]. intros q Hq. by apply covers_nil in Hq.
  - intros e He. by apply elem_of_nil in He.
  - intros q Hq. by apply covers_nil in Hq.
  - exists T0. split; [done|by apply Forall_forall| | |].
    + intros q Hq. split; [by apply Hpages|]. rewrite Etx, F14. by intros Hc%covers_nil.
    + intros q e _ He. rewrite Epend in He. by apply elem_of_nil in He.
    + intros u _ q _ Hq. by apply elem_of_nil in Hq.
  - rewrite F15. constructor.
  - unfold working. rewrite Etx. cbn. by rewrite Epend.
Qed.
End fresh.

(** ** A database just created *)
Section created.
Context `{Crc32, WalWriter, HU : Uninitialised} (cmp : comparator) (key_ok : list byte -> Prop) {HO : KeyOrder cmp key_ok}.
Context (ps : Z) (o : Options) (Hps : page_size_ok ps).
Context (Hro : opt_read_only o = false) (Hmode : opt_mode o = kUpdateInPlace) (Hcmp : opt_comparator o = cmp).
Context (Hopt : opt_page_size o = 0 \/ opt_page_size o = ps) (Hslim : forall k, key_ok k -> slim ps k).

(** The state after [Meta::Init]: two records in a file of two pages, no
    transaction, an empty pager. *)
Record created d : Prop := {
  cr_file : meta_file d;
  cr_size : map_size (db_map d) = 2 * ps;
  cr_shm : exists crc, shm_meta d = mkMeta ATOMKV_SIGN ps ATOMKV_VERSION 2 kPageInvalidId kPageInvalidId 0 0 1 crc;
  cr_rest : (pager d, options d, view_txs d, update_lock d) = (new_Pager, set_page_size ps o, [], false);
  cr_index : cur_meta_index d = 0;
  cr_slots : exists x, meta_valid ps x /\ m_txid x = 2 /\ shm_meta d = sealed (set_m_txid 1 x) /\
    meta_at d 0 = encode_meta (sealed x) /\ meta_at d 1 = encode_meta (shm_meta d);
}.

Lemma ps_bounds : 256 <= ps <= 16384.
Proof. by destruct (page_size_bounds _ Hps). Qed.

(** A save keeps the file in shape. *)
Lemma save_file d i : meta_file d -> m_page_size (shm_meta d) = page_size d -> cur_meta_index d = i -> 0 <= i <= 1 ->
  exists d', Meta_Save d = Ok tt d' /\ meta_file d' /\ map_size (db_map d') = map_size (db_map d) /\
    shm_meta d' = sealed (shm_meta d) /\ cur_meta_index d' = i /\
    meta_at d' i = encode_meta (sealed (shm_meta d)) /\ meta_at d' (1 - i) = meta_at d (1 - i) /\
    (pager d', options d', view_txs d', update_lock d') = (pager d, options d, view_txs d, update_lock d).
Proof.
  intros Hf Hp Hi Hir. destruct (Meta_Save_run d (page_size d) Hp eq_refl) as (d' & Hrun & Hmap & _ & Hshm & Hidx).
  set (f := fun x => (pager x, options x, view_txs x, update_lock x)).
  assert (Hk : f d' = f d) by (revert Hrun; by apply keeps_ok, keeps_Meta_Save).
  exists d'. split; [done|]. pose proof Hk as Hk'. unfold f in Hk'. injection Hk' as Hpg Ho Hv Hl.
  set (bs := encode_meta (sealed (shm_meta d))) in *.
  destruct (cut_file d i (length bs) bs Hf Hir) as ([M1 M2 M3] & M4 & M5); [by unfold bs; rewrite length_encode_meta|done|].
  rewrite torn_all in M4 by (unfold bs, meta_at; by rewrite length_mem_read, length_encode_meta).
  rewrite Hi in Hmap. assert (Eps : page_size d' = page_size d) by (unfold page_size; by rewrite Ho).
  split; [split; rewrite ?Eps, ?Hmap; done|]. split; [by rewrite Hmap|]. split; [done|]. split; [congruence|].
  assert (Hat : forall j, meta_at d' j = meta_at (set_db_map (cut (length bs) (i * page_size d) bs d) d) j).
  { intros j. apply meta_at_map; [exact Eps|exact Hmap]. }
  split; [exact (eq_trans (Hat i) M4)|]. split; [exact (eq_trans (Hat (1 - i)) M5)|exact Hk].
Qed.

Lemma init_valid c : 0 <= c < 2 ^ 32 -> meta_valid ps (init_meta ps c).
Proof.
  intros Hc. pose proof ps_bounds. assert (Hu : u16 ps = ps) by (apply Z.mod_small; lia). split; [|done..|exact Hu|done].
  split; cbn; try done. rewrite Hu. lia.
Qed.

Lemma init_created : exists d, Meta_Init (blank_db (set_page_size ps o) ∅ (ps * kPageInitCount)) = Ok tt d /\ created d.
Proof.
  pose proof ps_bounds as Hb. set (d0 := blank_db _ _ _). set (m1 := init_meta ps (m_crc32 (shm_meta d0))).
  set (d1 := set_shm_meta m1 (set_cur_meta_index 0 d0)).
  assert (Hu : u16 ps = ps) by (apply Z.mod_small; lia).
  assert (Hf1 : meta_file d1).
  { split; [exact Hps| |change (2 * ps <= ps * 2); lia]. intros q p Hq. cbn in Hq. by rewrite lookup_empty in Hq. }
  destruct (save_file d1 0 Hf1) as (d2 & Hs2 & Hf2 & Hz2 & Hm2 & Hi2 & Hat2 & _ & Hr2); [exact Hu|done|lia|].
  injection Hr2 as Hg2 Ho2 Hv2 Hl2. set (d3 := set_cur_meta_index 1 d2). set (d4 := set_shm_meta (set_m_txid 1 (shm_meta d3)) d3).
  assert (Hp2 : page_size d4 = ps) by (unfold page_size; cbn; by rewrite Ho2).
  assert (Hf4 : meta_file d4) by (destruct Hf2; split; done).
  destruct (save_file d4 1 Hf4) as (d5 & Hs5 & Hf5 & Hz5 & Hm5 & Hi5 & Hat5 & Hat5' & Hr5); [rewrite Hp2; cbn; rewrite Hm2; exact Hu|done|lia|].
  injection Hr5 as Hg5 Ho5 Hv5 Hl5. set (d6 := set_cur_meta_index 0 d5). exists d6. split.
  - unfold Meta_Init. rewrite (bind_ok (modify _) _ d0 tt (set_cur_meta_index 0 d0)) by done.
    rewrite (bind_ok (modify _) _ (set_cur_meta_index 0 d0) tt d1) by done. run_step Hs2.
    assert (Hw2 : Meta_Switch d2 = Ok tt d3) by (unfold Meta_Switch, modify; by rewrite Hi2). run_step Hw2.
    rewrite (bind_ok (modify _) _ d3 tt d4) by done. run_step Hs5. unfold Meta_Switch, modify. by rewrite Hi5.
  - split.
    + destruct Hf5; split; done.
    + change (map_size (db_map d6)) with (map_size (db_map d5)). rewrite Hz5. change (map_size (db_map d4)) with (map_size (db_map d2)).
      rewrite Hz2. change (ps * 2 = 2 * ps). lia.
    + change (shm_meta d6) with (shm_meta d5). rewrite Hm5. eexists. unfold d4. cbn. change (shm_meta d3) with (shm_meta d2). rewrite Hm2.
      rewrite <- Hu. reflexivity.
    + cbn. by rewrite Hg5, Ho5, Hv5, Hl5, Hg2, Ho2, Hv2, Hl2.
    + done.
    + change (shm_meta d6) with (shm_meta d5). rewrite Hm5. exists m1. split_and!; [|done|..].
      * by apply init_valid.
      * unfold d4. cbn. change (shm_meta d3) with (shm_meta d2). by rewrite Hm2.
      * transitivity (meta_at d5 0); [by apply meta_at_map|]. transitivity (meta_at d4 0); [exact Hat5'|]. transitivity (meta_at d2 0); [by apply meta_at_map|exact Hat2].
      * transitivity (meta_at d5 1); [by apply meta_at_map|]. exact Hat5.
Qed.

Definition served d : DBImpl := set_tx_manager (mkTxManager kTxInvalidId None [] 1) d.

Lemma open_created : exists d, created d /\ DB_Open ps o ∅ 0 None = Ok tt (served d).
Proof.
  pose proof ps_bounds as Hb. destruct init_created as (d & Hrun & Hd). exists d. split; [done|]. unfold DB_Open.
  rewrite (proj2 (Z.ltb_ge kPageMaxSize ps)) by (unfold kPageMaxSize; lia).
  assert (E : negb (opt_page_size o =? 0) && negb (opt_page_size o =? ps) = false).
  { destruct Hopt as [->| ->]; [done|]. rewrite (Z.eqb_refl ps). apply andb_false_r. }
  rewrite E. assert (Hu : u16 ps = ps) by (apply Z.mod_small; lia). rewrite Hu. cbn [opt_read_only set_page_size]. rewrite Hro.
  cbn [negb andb Z.eqb opt_page_size set_page_size]. run_step Hrun.
  set (d1 := set_tx_manager (mkTxManager kTxInvalidId None [] 0) d). destruct (cr_shm _ Hd) as (crc & Hshm).
  assert (Hl : LoadFreeList d1 = Ok tt d1).
  { unfold LoadFreeList. rewrite (bind_ok (gets shm_meta) _ d1 (shm_meta d) d1) by done. by rewrite Hshm. }
  assert (Hi : init_TxManager d = Ok tt (served d)).
  { unfold init_TxManager. rewrite (bind_ok (modify _) _ d tt d1) by done. run_step Hl. unfold modify. cbn. by rewrite Hshm. }
  run_step Hi. cbn [opt_mode set_page_size]. by rewrite Hmode.
Qed.

Lemma created_sys d : created d -> sys_inv cmp key_ok (served d) (mkSpec ps ∅ None []).
Proof.
  intros [[F1 F2 F3] Hz (crc & Hshm) Hr]. injection Hr as Hg Ho Hv Hl.
  assert (Eps : page_size (served d) = ps) by (unfold page_size; change (options (served d)) with (options d); by rewrite Ho).
  change (page_size d) with (page_size (served d)) in *. rewrite Eps in *. pose proof ps_bounds as Hb.
  rewrite <- Eps. apply (fresh_sys cmp key_ok (served d) ∅ None).
  - assert (Em : shm_meta (served d) = shm_meta d) by done. assert (Eo : options (served d) = options d) by done.
    split; rewrite ?Eps, ?Em, ?Eo, ?Hshm, ?Ho; try done; [cbn; lia..|by exists 1].
  - cbn. by rewrite Hshm.
  - intros q Hq. by apply elem_of_nil in Hq.
  - intros q Hq. by apply elem_of_nil in Hq.
Qed.

(** C1: whatever sequence of transactions, commits, rollbacks, views, puts,
    deletions and lookups a user makes on a file just created, in the
    update-in-place mode, with keys of a tenth of a page and values kept in
    their leaves, the answers are those of the specification: a lookup finds
    what the transaction itself last put, or what was committed when the view
    was opened, and nothing else.  The specification may lose one kind of put:
    a longer value for an existing key that other entries leave no room for in
    one leaf ([crowded]).  The next call never throws, and always answers, but
    for the step before [begin()] that a begin or a rollback may take when it
    gives pages back ([Release_exact], [rollback_restores] say when). *)
Theorem database_serves : exists d0, DB_Open ps o ∅ 0 None = Ok tt d0 /\
  forall ops rs d, sys_runs key_ok d0 ops rs d -> exists s, sys_steps (mkSpec ps ∅ None []) ops rs s /\
    forall op, sys_ready key_ok d op ->
      match run_sys op d with
      | Ok r _ => exists s', sys_step s op r s'
      | Throw _ _ => False
      | Fault w => w = BadIterator /\ (op = SysBegin \/ op = SysRollBack)
      end.
Proof.
  destruct open_created as (d & Hd & Hrun). exists (served d). split; [exact Hrun|]. intros ops rs d' Hruns.
  destruct (runs_ok cmp key_ok _ _ _ _ Hruns _ (created_sys d Hd)) as (s & Hst & Hs). exists s. split; [exact Hst|]. intros op Hop.
  pose proof (sys_op_ok cmp key_ok d' s op Hs Hop) as Ha. unfold sys_answers in Ha. destruct (run_sys op d') as [r d2| |]; [|done|done].
  destruct Ha as (s' & Hs' & _). by exists s'.
Qed.
End created.

(** ** A run *)
#[local] Instance serving_writer : WalWriter := { writer_size l := Z.of_nat (length l) }.
#[local] Instance serving_storage : Uninitialised := { stale_tx _ := false }.
#[local] Existing Instance sample_crc.

Definition run_options : Options := mkOptions 0 ByteArrayComparator false true kUpdateInPlace 1024.
Definition run_db : DBImpl := match DB_Open 256 run_options ∅ 0 None with Ok _ d => d | _ => blank_db run_options ∅ 0 end.
Definition after (op : sys_op) d : DBImpl := match run_sys op d with Ok _ d' => d' | _ => d end.

Lemma ran op d r : match run_sys op d with Ok r' _ => r' = r | _ => False end -> run_sys op d = Ok r (after op d).
Proof. unfold after. by destruct (run_sys op d) as [r' d'| |]; [intros ->|..]. Qed.

Lemma run_next d op r ops rs d' : sys_ready slim_key d op -> match run_sys op d with Ok r' _ => r' = r | _ => False end ->
  sys_runs slim_key (after op d) ops rs d' -> sys_runs slim_key d (op :: ops) (r :: rs) d'.
Proof. intros Hr Hrun Hn. by apply (runs_cons slim_key d op r (after op d)); [|apply ran|]. Qed.

(** A commit of a key, a rollback of its deletion, a view, and a commit of
    another value: the view reads the first value before and after it. *)
Definition run_ops : list sys_op :=
  [SysBegin; SysWrite (KvPut [x61] [x01]); SysCommit; SysBegin; SysWrite (KvDelete [x61]); SysRollBack; SysView;
   SysBegin; SysWrite (KvPut [x61] [x02]); SysRead 0 [x61]; SysCommit; SysRead 0 [x61]; SysEndView 0].
Definition run_results : list sys_result :=
  [Done; Did Stored; Done; Done; Did (Deleted true); Done; Opened 0;
   Done; Did Stored; Did (Found (Some [x01])); Done; Did (Found (Some [x01])); Done].

Ltac ready :=
  lazymatch goal with
  | |- is_Some _ => apply (bool_decide_unpack _); vm_compute; exact I
  | |- live _ _ => unfold live; vm_compute; eexists; reflexivity
  | |- slim_key _ => apply sample_key_slim
  | |- inline_entry _ _ => unfold inline_entry; vm_compute; discriminate
  | |- _ \/ _ => first [left; vm_compute; reflexivity | right; vm_compute; reflexivity]
  | |- _ /\ _ => split; ready
  | |- _ = _ => vm_compute; reflexivity
  | |- _ => first [vm_compute; reflexivity | vm_compute; discriminate]
  end.

Lemma run_runs : exists d, sys_runs slim_key run_db run_ops run_results d.
Proof.
  eexists. unfold run_ops, run_results. repeat (apply run_next; [unfold sys_ready, op_ok; ready|vm_compute; reflexivity|]). constructor.
Qed.

Lemma database_serves_witness : exists d s, DB_Open 256 run_options ∅ 0 None = Ok tt run_db /\
  sys_runs slim_key run_db run_ops run_results d /\ sys_steps (mkSpec 256 ∅ None []) run_ops run_results s.
Proof.
  destruct (database_serves ByteArrayComparator slim_key 256 run_options) as (d0 & Hopen & Hall); [by left|done|done|done|by left|exact slim_key_256|].
  assert (E : d0 = run_db) by (unfold run_db; by rewrite Hopen). subst d0. destruct run_runs as (d & Hruns).
  destruct (Hall _ _ _ Hruns) as (s & Hs & _). exists d, s. split; [exact Hopen|]. split; [exact Hruns|exact Hs].
Defined.
