(* ===== verification/Durable.v ===== *)
(** What a database leaves when it stops, by [DBImpl::~DBImpl] or by a crash at
    any moment between two calls, and what [DB::Open] makes of it: the committed
    map, and nothing of a transaction that was open; but for the first commit to
    a new file, of which it makes an empty database. *)
From S2P Require Import Prelude Format Comparator State Memory FreeMap Pager PagerI PagerInst.
From S2P Require Import Node NodeWf NodeSpec Tx Iterator BTree Meta Logger TxManager Bucket Recovery NodeDb Freed Tree TreeSearch TreeGet Copying TreeSteps.
From S2P Require Import Forest LeafPage PutTheorems PutSame Holes DeleteSamples KeyValue PagerTheorems Keeps MetaTheorems TxTheorems Isolation Peeks.
From S2P Require Import Versions System SystemViews SystemBegin SystemEnds SystemTheorem.

Implicit Types (d : DBImpl) (p q v i : Z) (t u : tree) (T : option tree) (m : kvmap).

(** ** The two records of the file, and the record in memory *)
Section records.
Context `{Crc32}.

Definition counts_ok (x : MetaStruct) : Prop := 0 <= m_free_pair_count x < 2 ^ 32 /\ 0 <= m_free_list_page_count x < 2 ^ 32.

(** The record [x] says what [y] says of the pages. *)
Definition same_pages (x y : MetaStruct) : Prop :=
  m_page_count x = m_page_count y /\ m_user_root x = m_user_root y /\ m_free_list_pgid x = m_free_list_pgid y.

(** The record of an empty file. *)
Definition blank_pages (x : MetaStruct) : Prop :=
  m_page_count x = 2 /\ m_user_root x = kPageInvalidId /\ m_free_list_pgid x = kPageInvalidId.

(** [Load] takes a record with the pages of the one in memory, unless the
    version is 2, which [Init] leaves in the file as well: up to that version
    it takes the record of [Init], of an empty file. *)
Record disk_at d : Prop := {
  dk_index : 0 <= cur_meta_index d <= 1;
  dk_tx tx : update_tx (tx_manager d) = Some tx -> counts_ok (meta_format tx);
  dk_shm : exists x, meta_valid (page_size d) x /\ shm_meta d = sealed x;
  dk_slots i : 0 <= i <= 1 -> exists x, meta_valid (page_size d) x /\ meta_at d i = encode_meta (sealed x);
  dk_current : m_txid (shm_meta d) <> 1 -> meta_at d (cur_meta_index d) = encode_meta (shm_meta d);
  dk_next : m_txid (shm_meta d) <> 2 -> exists i x, 0 <= i <= 1 /\ meta_valid (page_size d) x /\ meta_at d i = encode_meta (sealed x) /\
    newest d = i /\ m_txid (shm_meta d) <= m_txid x < kTxInvalidId /\ same_pages x (shm_meta d);
  dk_first : m_txid (shm_meta d) <= 2 -> newest d = 0 /\ (m_txid (shm_meta d) = 1 -> cur_meta_index d = 0) /\
    exists x, meta_valid (page_size d) x /\ blank_pages x /\ m_txid x = 2 /\ meta_at d 0 = encode_meta (sealed x);
}.

(** A call keeps the file so, and adds [n] to the version. *)
Definition disk_step (n : Z) d d' : Prop :=
  disk_at d' /\ options d' = options d /\ m_txid (shm_meta d') = m_txid (shm_meta d) + n.
Lemma disk_still d d' : disk_at d' /\ options d' = options d -> shm_meta d' = shm_meta d -> disk_step 0 d d'.
Proof. intros [? ?] E. split_and!; [done..|]. rewrite E. lia. Qed.

Lemma meta_at_same d d' i : page_size_ok (page_size d) -> 0 <= i <= 1 -> page_size d' = page_size d ->
  (forall a, a / page_size d = i -> db_mem d' a = db_mem d a) -> meta_at d' i = meta_at d i.
Proof.
  intros Hok Hi Hps Hm. destruct (page_size_bounds _ Hok) as [Hr _]. unfold meta_at. rewrite Hps. apply mem_read_ext. unfold kMetaSize.
  intros b Hb. apply Hm. symmetry. apply (Z.div_unique b (page_size d) i (b - i * page_size d)); lia.
Qed.

Lemma newest_same d d' : (forall i, 0 <= i <= 1 -> meta_at d' i = meta_at d i) -> newest d' = newest d.
Proof. intros Hm. unfold newest. by rewrite !Hm by lia. Qed.

Lemma disk_same d d' : disk_at d -> page_size d' = page_size d -> cur_meta_index d' = cur_meta_index d -> shm_meta d' = shm_meta d ->
  (forall i, 0 <= i <= 1 -> meta_at d' i = meta_at d i) ->
  (forall tx, update_tx (tx_manager d') = Some tx -> counts_ok (meta_format tx)) -> disk_at d'.
Proof.
  intros [D1 D2 D3 D4 D5 D6 D7] Hps Hi Hm Hat Htx. split; rewrite ?Hps, ?Hi, ?Hm; try done.
  - intros i Hir. rewrite Hat by done. by apply D4.
  - intros Hx. rewrite Hat by done. by apply D5.
  - intros (i & x & Hir & Hv & Hx & Hn & Ht)%D6. exists i, x. rewrite Hat, (newest_same d) by done. done.
  - rewrite Hat, (newest_same d) by done. exact D7.
Qed.

(** The file as the mapping has it. *)
Lemma disk_map d d' : disk_at d -> db_map d' = db_map d -> options d' = options d -> cur_meta_index d' = cur_meta_index d ->
  shm_meta d' = shm_meta d -> (forall tx, update_tx (tx_manager d') = Some tx -> counts_ok (meta_format tx)) -> disk_at d'.
Proof.
  intros Hd Hm Ho Hi Hs Ht. assert (Hps : page_size d' = page_size d) by (unfold page_size; by rewrite Ho).
  apply (disk_same d); try done. intros i _. by apply meta_at_map.
Qed.

Lemma shm_counts d : disk_at d -> counts_ok (shm_meta d).
Proof. intros Hd. destruct (dk_shm _ Hd) as (x & [[] _ _ _] & ->). done. Qed.
End records.

(** ** Every call keeps the file so *)
Section steps.
Context `{Crc32, WalWriter} (cmp : comparator) (key_ok : list byte -> Prop) {HO : KeyOrder cmp key_ok}.

Lemma begin_disk d s T d' : sys_at cmp key_ok d s T -> sys_ready key_ok d SysBegin -> disk_at d -> TxManager.Update d = Ok tt d' ->
  disk_step 0 d d'.
Proof.
  intros Hs Hr Hd. destruct (Update_run d (begin_idle cmp key_ok d s T Hs Hr)) as (n & ->). unfold zoom.
  destruct (Release _ _) as [[] p| |]; [|done|done]. intros [= <-]. apply disk_still; [|done]. split; [|done]. apply (disk_map d); try done.
  cbn. intros tx [= <-]. exact (shm_counts d Hd).
Qed.

Lemma rollback_disk d s T d' : sys_at cmp key_ok d s T -> disk_at d -> RollBack d = Ok tt d' -> disk_step 0 d d'.
Proof.
  intros Hs Hd Hrun. destruct (RollBack_closes d d' Hrun) as [_ Hn]. set (f := fun x => (db_map x, options x, cur_meta_index x, shm_meta x)).
  assert (Hf : f d' = f d).
  { revert Hrun. unfold RollBack. assert (Hwal : gets is_wal d = Ok false d) by (unfold gets; f_equal; apply (sa_wal _ _ _ _ _ Hs)).
    run_step Hwal. apply keeps_ok. pose proof (keeps_PagerRollback f (fun _ _ => eq_refl)).
    pose proof (keeps_end_update f (fun _ _ => eq_refl) (fun _ _ => eq_refl)). keeps. }
  unfold f in Hf. injection Hf as H1 H2 H3 H4. apply disk_still; [|done]. split; [|done]. apply (disk_map d); try done. by rewrite Hn.
Qed.

Lemma views_disk d d' : disk_at d -> update_tx (tx_manager d') = update_tx (tx_manager d) -> db_map d' = db_map d ->
  options d' = options d -> cur_meta_index d' = cur_meta_index d -> shm_meta d' = shm_meta d -> disk_step 0 d d'.
Proof. intros Hd Ht Hm Ho Hi Hs. apply disk_still; [|done]. split; [|done]. apply (disk_map d); try done. rewrite Ht. apply (dk_tx _ Hd). Qed.

Lemma work_disk d s T tx m op r d' : sys_at cmp key_ok d s T -> update_tx (tx_manager d) = Some tx -> open_tx cmp key_ok d tx m T ->
  op_ok key_ok (page_size d) op -> kv_room <= db_space d -> disk_at d -> run_kv (user_tree UpdateTxRef) op d = Ok r d' ->
  disk_step 0 d d'.
Proof.
  intros Hs Htx Hop Hok Hroom Hd Hrun.
  destruct (kv_op_ok cmp key_ok (user_tree UpdateTxRef) d T m op (op_state _ _ _ _ _ _ Hop) Hok (sa_slim _ _ _ _ _ Hs) Hroom)
    as (r' & d1 & T' & m' & Hrun' & _ & _ & [_ He [_ _ _ _ [Hps Hside]]] & _).
  rewrite Hrun in Hrun'. injection Hrun' as <- <-. apply disk_still; [|exact (f_equal shm_meta He)]. split; [|exact (f_equal options He)].
  apply (disk_same d d' Hd); [done|exact (f_equal cur_meta_index He)|exact (f_equal shm_meta He)| |].
  - intros i Hi. apply meta_at_same; [|done|done|].
    + destruct (open_inv cmp key_ok d s T tx Hs Htx) as [(tx0 & Hw) _]. apply (aw_ps _ _ Hw).
    + intros a Ha. apply (Hside (0 :: 1 :: pair_pages (others d))); [apply (op_account _ _ _ _ _ _ Hop)|]. rewrite Ha, !elem_of_cons. lia.
  - intros tx' Htx'. pose proof (f_equal (fun x => update_tx (tx_manager x)) He) as Et. cbn in Et. rewrite Htx, Htx' in Et. cbn in Et.
    change (Some (forget_tx (set_meta_format (set_page_count 0 (meta_format tx')) tx')) = Some (forget_tx (set_meta_format (set_page_count 0 (meta_format tx)) tx))) in Et.
    apply (inj Some) in Et. pose proof (f_equal meta_format Et) as Em. pose proof (f_equal m_free_pair_count Em) as E1.
    pose proof (f_equal m_free_list_page_count Em) as E2. cbn in E1, E2. unfold counts_ok. rewrite E1, E2. exact (dk_tx _ Hd tx Htx).
Qed.

Section commit.
Context (d : DBImpl) (s : sys_spec) (T : option tree) (tx : TxImpl) (m : kvmap).
Context (Hs : sys_at cmp key_ok d s T) (Htx : update_tx (tx_manager d) = Some tx) (Hop : open_tx cmp key_ok d tx m T) (Hd : disk_at d).

Lemma open_alloc : alloc_wf d tx /\ pages_ok (page_size d) (file_pages (db_map d)).
Proof.
  destruct (open_inv cmp key_ok d s T tx Hs Htx) as [(tx0 & Hw) Hp]. pose proof (aw_tx _ _ Hw) as E. rewrite Htx in E. by injection E as <-.
Qed.

Lemma tx_root_range : 0 <= m_user_root (meta_format tx) < 2 ^ 32.
Proof.
  pose proof (op_state _ _ _ _ _ _ Hop) as Hst. destruct (proj1 open_alloc) as [_ A2 _ _ _ _ A7 _]. destruct (page_size_bounds _ A2) as [Hr _].
  assert (Er : tree_root (user_tree UpdateTxRef) d = Ok (m_user_root (meta_format tx)) d).
  { unfold tree_root, get_root, bind. cbn. unfold get_update_tx. by rewrite Htx. }
  destruct T as [t|]; cbn in Hst.
  - destruct Hst as ((h & [[_ _ _ T4 _ _ _] _ _ _]) & _). rewrite Er in T4. injection T4 as ->.
    destruct (tree_used cmp key_ok d (Some t) tx m Htx Hop (pg t)) as (Hu & _); [apply tree_nodes_footprint, tree_nodes_pg|].
    apply (db_used_tx d tx _ Htx) in Hu as [Hu _]. nia.
  - destruct Hst as (_ & _ & _ & Er' & _). pose proof (eq_trans (eq_sym Er) Er') as E. injection E as ->. done.
Qed.

Lemma committed_valid : meta_valid (page_size d) (CopyMetaInfo (shm_meta d) (meta_format tx)).
Proof.
  destruct (proj1 open_alloc) as [_ A2 _ A4 _ _ A7 _]. destruct (page_size_bounds _ A2) as [Hr _]. destruct (dk_tx _ Hd tx Htx) as [C1 C2].
  destruct (dk_shm _ Hd) as (x & Hx & Ex). destruct (sealed_valid _ _ Hx) as [[M1 M2 M3 M4 M5 M6 M7 M8 M9 M10] V2 V3 V4]. rewrite <- Ex in *.
  pose proof (sa_txid _ _ _ _ _ Hs). pose proof (op_txid _ _ _ _ _ _ Hop) as Et. pose proof (op_last _ _ _ _ _ _ Hop) as El.
  split; [|done..]. split; cbn; try done; [nia|apply tx_root_range|by rewrite (op_list _ _ _ _ _ _ Hop)|].
  change (0 <= txid tx < 2 ^ 64). unfold kTxInvalidId in El. lia.
Qed.

Lemma low_used q : 0 <= q <= 1 -> db_used d q.
Proof.
  intros Hq. apply (ac_used _ _ (op_account _ _ _ _ _ _ Hop)), elem_of_app. right. rewrite !elem_of_cons. lia.
Qed.

Lemma commit_disk d' : sys_ready key_ok d SysCommit -> Commit d = Ok tt d' -> disk_step 1 d d'.
Proof.
  intros (_ & Hlen & Hsp) Hrun. pose proof (open_committable cmp key_ok d s T tx m Hs Htx Hop Hlen Hsp) as Hcm.
  destruct (Commit_run d tx Hcm) as (d2 & t2 & d1 & Hrun' & Hsave & _ & Hmap & _ & Hshm & Hidx & _). rewrite Hrun in Hrun'. injection Hrun' as <-.
  destruct (Commit_closes d d' Hrun) as [_ Hn]. assert (Ho : options d' = options d) by (revert Hrun; by apply keeps_ok, keeps_Commit).
  assert (Hps : page_size d' = page_size d) by (unfold page_size; by rewrite Ho).
  destruct open_alloc as [[_ A2 _ A4 _ A6 _ _] _]. pose proof (ls_keeps _ _ _ _ Hsave) as [K1 _ _ K4]. pose proof (ls_map _ _ _ _ Hsave) as Hsz.
  destruct (ls_inv _ _ _ _ Hsave) as [_ Hok]. rewrite K1 in Hok. destruct (page_size_bounds _ A2) as [Hr _].
  assert (Hf : meta_file d2) by (split; rewrite ?K1; [done|done|nia]).
  assert (Hat2 : forall i, 0 <= i <= 1 -> meta_at d2 i = meta_at d i).
  { intros i Hi. apply meta_at_same; [done..|]. intros a Ha. apply K4; [|tauto]. rewrite Ha. by apply low_used. }
  set (bs := encode_meta (committed_meta d tx)) in *. set (j := other_index d) in *. pose proof (dk_index _ Hd) as Hi.
  assert (Hj : 0 <= j <= 1 /\ cur_meta_index d = 1 - j) by (unfold j, other_index; destruct (Z.eqb_spec (cur_meta_index d) 0); lia).
  destruct (cut_file d2 j (length bs) bs Hf (proj1 Hj)) as (_ & Hnew & Hold); [by unfold bs; rewrite length_encode_meta|done|].
  rewrite torn_all in Hnew by (unfold bs, meta_at; by rewrite length_mem_read, length_encode_meta). rewrite K1 in Hnew, Hold.
  assert (Hsame : forall i, meta_at d' i = meta_at (set_db_map (cut (length bs) (j * page_size d) bs d2) d2) i).
  { intros i. apply meta_at_map; [exact (eq_trans Hps (eq_sym K1))|exact Hmap]. }
  pose proof committed_valid as Hv. set (x := CopyMetaInfo (shm_meta d) (meta_format tx)) in *. change (committed_meta d tx) with (sealed x) in *.
  pose proof (sa_txid _ _ _ _ _ Hs). pose proof (op_txid _ _ _ _ _ _ Hop) as Et. pose proof (op_last _ _ _ _ _ _ Hop).
  assert (Ex : m_txid x = m_txid (shm_meta d) + 1) by (change (m_txid x) with (txid tx); done).
  split; [|split; [exact Ho|rewrite Hshm; exact Ex]].
  assert (Hj' : meta_at d' j = bs) by (by rewrite Hsame).
  assert (Hj2 : meta_at d' (1 - j) = meta_at d (1 - j)) by (rewrite Hsame, Hold; apply Hat2; lia).
  split; rewrite ?Hps, ?Hidx, ?Hshm; [lia|by rewrite Hn|by exists x| |done| |].
  - intros i Hir. assert (i = j \/ i = 1 - j) as [->| ->] by lia; [by exists x|]. rewrite Hj2. apply (dk_slots _ Hd). lia.
  - change (m_txid (sealed x)) with (m_txid x). rewrite Ex. intros Hne. exists j, x. split; [lia|]. split; [done|]. split; [done|]. split; [|by split; [lia|]].
    apply newest_is; [lia|]. rewrite Hj', Hj2. unfold bs. rewrite (decode_sealed _ x Hv), <- (proj2 Hj), (dk_current _ Hd) by lia.
    destruct (dk_shm _ Hd) as (y & Hy & Ey). rewrite Ey, (decode_sealed _ y Hy), <- Ey. change (m_txid (sealed x)) with (m_txid x). lia.
  - change (m_txid (sealed x)) with (m_txid x). rewrite Ex. intros Hle.
    destruct (dk_first _ Hd) as (_ & Hc & y & Hy & Hb & Hy2 & Hat0); [lia|]. specialize (Hc ltac:(lia)).
    assert (Ej : j = 1) by lia. rewrite Ej in *. change (1 - 1) with 0 in Hj2. rewrite <- Hj2 in Hat0. split_and!; [|lia|by exists y].
    unfold newest. rewrite Hat0, Hj'. unfold bs. rewrite (decode_sealed _ x Hv), (decode_sealed _ y Hy).
    change (m_txid (sealed x)) with (m_txid x). change (m_txid (sealed y)) with (m_txid y). rewrite (proj2 (Z.ltb_ge _ _)) by lia. done.
Qed.
End commit.

Definition commit_count (op : sys_op) : Z := match op with SysCommit => 1 | _ => 0 end.

Lemma call_disk d s op r d' : sys_inv cmp key_ok d s -> sys_ready key_ok d op -> disk_at d -> run_sys op d = Ok r d' ->
  disk_step (commit_count op) d d'.
Proof.
  intros (T & Hs) Hr Hd Hrun. pose proof (sa_wal _ _ _ _ _ Hs) as Hwal. destruct op as [|op| | | |h k|h]; cbn [run_sys] in Hrun.
  - apply bind_inv in Hrun as ([] & d1 & Hrun & [= _ <-]). apply bind_inv in Hrun as (o & d2 & [= <- <-] & Hrun).
    rewrite (sa_writable _ _ _ _ _ Hs) in Hrun. by apply (begin_disk d s T).
  - destruct Hr as (Hsome & Hok & Hroom). destruct (open_parts cmp key_ok d s T Hs Hsome) as (tx & m & Htx & _ & Hop).
    apply bind_inv in Hrun as (r' & d1 & Hrun & [= _ <-]).
    assert (Hget : get_tx UpdateTxRef d = Ok tx d) by (cbn; unfold get_update_tx; by rewrite Htx).
    rewrite (run_bucket_tree UpdateTxRef true tx op d Hget (op_plain _ _ _ _ _ _ Hop) Hwal) in Hrun.
    by apply (work_disk d s T tx m op r').
  - destruct (open_parts cmp key_ok d s T Hs (proj1 Hr)) as (tx & m & Htx & _ & Hop). apply bind_inv in Hrun as ([] & d1 & Hrun & [= _ <-]).
    rewrite (commit_plain tx d Htx (op_plain _ _ _ _ _ _ Hop)) in Hrun. by apply (commit_disk d s T tx m).
  - destruct (open_parts cmp key_ok d s T Hs Hr) as (tx & m & Htx & _ & Hop). apply bind_inv in Hrun as ([] & d1 & Hrun & [= _ <-]).
    rewrite (rollback_plain tx d Htx (op_plain _ _ _ _ _ _ Hop)) in Hrun. by apply (rollback_disk d s T).
  - apply bind_inv in Hrun as (h & d1 & Hrun & [= _ <-]). unfold db_View, View in Hrun. injection Hrun as _ <-. by apply views_disk.
  - destruct Hr as [Hl Hk]. destruct (read_step cmp key_ok d s T h k Hs Hl Hk) as (m & Hm & Hrd). destruct Hl as (tx & Htx).
    destruct (Forall2_lookup_l _ _ _ _ _ (sa_views _ _ _ _ _ Hs) Htx) as ([m0|] & _ & Hat); [|done]. destruct Hat as (_ & Hp & _).
    assert (Hget : get_tx (ViewTxRef h) d = Ok tx d) by (cbn; by rewrite Htx).
    apply bind_inv in Hrun as (r' & d1 & Hrun & [= _ <-]). rewrite (run_bucket_tree (ViewTxRef h) false tx (KvGet k) d Hget Hp Hwal), Hrd in Hrun.
    injection Hrun as _ <-. by apply disk_still.
  - apply bind_inv in Hrun as ([] & d1 & Hrun & [= _ <-]). set (f := fun x => (update_tx (tx_manager x), db_map x, options x, cur_meta_index x, shm_meta x)).
    assert (Hf : f d1 = f d).
    { revert Hrun. apply keeps_ok. unfold destroy_view, RollBackView.
      apply keeps_bind; [intros x; cbn; by destruct (view_txs x !! h) as [[?|]|]|]. intros t'. keeps. }
    unfold f in Hf. injection Hf as H1 H2 H3 H4 H5. by apply views_disk.
Qed.
End steps.

(** ** Opening what is left *)
Section reopened.
Context `{Crc32, WalWriter, HU : Uninitialised} (cmp : comparator) (key_ok : list byte -> Prop) {HO : KeyOrder cmp key_ok}.
Context (ps : Z) (o : Options) (Hps : page_size_ok ps).
Context (Hro : opt_read_only o = false) (Hmode : opt_mode o = kUpdateInPlace) (Hcmp : opt_comparator o = cmp).
Context (Hopt : opt_page_size o = 0 \/ opt_page_size o = ps) (Hslim : forall k, key_ok k -> slim ps k).

(** The file at a stop: what the mapping has in the pages of the records and in
    those of the committed version, which nobody has written since the last
    [WriteAllDirtyPages]; anything in the other pages, and at any length from
    the one [~DBImpl] cuts it to. *)
Record left_by d (file : gmap Z Page) (size : Z) : Prop := {
  lb_pages : pages_ok (page_size d) file;
  lb_size : m_page_count (shm_meta d) * page_size d <= size;
  lb_same q : q = 0 \/ q = 1 \/ settled d q -> file !! q = file_pages (db_map d) !! q;
}.

Lemma shm_count d s T : sys_at cmp key_ok d s T -> 2 <= m_page_count (shm_meta d) /\ m_page_count (shm_meta d) * page_size d <= 2 ^ 32.
Proof.
  intros Hs. destruct (sa_inv _ _ _ _ _ Hs) as [(tx & [A1 A2 _ A4 _ _ A7 _]) _]. destruct (window_same d) as (Eps & _ & _ & _). rewrite Eps in *.
  destruct (page_size_bounds _ A2) as [Hr _]. destruct (update_tx (tx_manager d)) as [tx0|] eqn:Htx.
  - rewrite (window_open d tx0 Htx), Htx in A1. injection A1 as ->. pose proof (sa_working _ _ _ _ _ Hs) as Hw. unfold working in Hw.
    rewrite Htx in Hw. destruct (sp_working s) as [m|]; [|done]. pose proof (op_count _ _ _ _ _ _ Hw). nia.
  - unfold window in A1. rewrite Htx in A1. injection A1 as <-. done.
Qed.

(** The database [Open] makes, before [TxManager] is there. *)
Section loaded.
Context (d : DBImpl) (s : sys_spec) (T : option tree) (file : gmap Z Page) (size : Z) (i : Z) (x : MetaStruct).
Context (Hs : sys_at cmp key_ok d s T) (Hd : disk_at d) (Hl : left_by d file size) (Hdps : page_size d = ps).
Context (Hi : 0 <= i <= 1) (Hx : meta_valid ps x) (Hat : meta_at d i = encode_meta (sealed x)) (Hnew : newest d = i).
Context (Htxid : m_txid (shm_meta d) <= m_txid x < kTxInvalidId) (Hlist : m_free_list_pgid x = kPageInvalidId).

Let b : DBImpl := blank_db (set_page_size ps o) file size.
Definition reopened : DBImpl := set_tx_manager (mkTxManager kTxInvalidId None [] (m_txid x)) (set_shm_meta (sealed x) (set_cur_meta_index i b)).

Lemma left_mem a : a / ps = 0 \/ a / ps = 1 \/ settled d (a / ps) -> db_mem reopened a = db_mem d a.
Proof.
  intros Ha. unfold db_mem, page_mem. rewrite Hdps. change (page_size reopened) with ps. change (db_map reopened) with (mkMapping file size).
  unfold page_at. cbn [file_pages]. by rewrite (lb_same _ _ _ Hl).
Qed.
Lemma left_node q : settled d q -> db_node reopened q = db_node d q.
Proof.
  intros Hq. unfold db_node, page_at. rewrite Hdps. change (page_size reopened) with ps. change (db_map reopened) with (mkMapping file size).
  cbn [file_pages]. rewrite (lb_same _ _ _ Hl); [done|tauto].
Qed.

Lemma left_at j : 0 <= j <= 1 -> meta_at reopened j = meta_at d j.
Proof.
  intros Hj. apply meta_at_same; [by rewrite Hdps|done|by rewrite Hdps|]. rewrite Hdps. intros a Ha. apply left_mem. lia.
Qed.

Lemma open_left : DB_Open ps o file size None = Ok tt reopened.
Proof.
  destruct (page_size_bounds _ Hps) as [Hr _]. destruct (shm_count d s T Hs) as [Hc _]. pose proof Hl as [Hpk Hsz _]. rewrite Hdps in Hpk, Hsz.
  unfold DB_Open. rewrite (proj2 (Z.ltb_ge kPageMaxSize ps)) by (unfold kPageMaxSize; lia).
  assert (E : negb (opt_page_size o =? 0) && negb (opt_page_size o =? ps) = false).
  { destruct Hopt as [->| ->]; [done|]. rewrite (Z.eqb_refl ps). apply andb_false_r. }
  rewrite E. assert (Hu : u16 ps = ps) by (apply Z.mod_small; lia). rewrite Hu. cbn [opt_read_only set_page_size]. rewrite Hro.
  rewrite (proj2 (Z.eqb_neq size 0)) by nia. cbn [negb andb opt_page_size set_page_size]. fold b.
  assert (Hbat : forall j, 0 <= j <= 1 -> meta_at b j = meta_at d j).
  { intros j Hj. rewrite <- left_at by done. apply meta_at_map; done. }
  destruct (dk_slots _ Hd 0) as (y & Hy & Ey); [lia|]. destruct (sealed_valid _ _ Hy) as [_ Y1 _ Y2].
  assert (Hload : Meta_Load b = Ok tt (loaded b i (meta_at b i))).
  { apply Meta_Load_ok; try done; rewrite ?Hbat, ?Ey, ?(decode_sealed _ y Hy), ?Hat, ?(decode_sealed _ x Hx) by lia; try done.
    - split; [exact Hps|exact Hpk|change (2 * ps <= size); nia].
    - by rewrite Y2.
    - by apply (sealed_crc ps).
    - apply (mv_ps _ _ (sealed_valid _ x Hx)).
    - left. by rewrite (newest_same d b). }
  run_step Hload. rewrite Hbat, Hat by done. unfold loaded. rewrite (decode_sealed _ x Hx). set (c := set_shm_meta _ _).
  set (c1 := set_tx_manager (mkTxManager kTxInvalidId None [] 0) c).
  assert (Hfl : LoadFreeList c1 = Ok tt c1).
  { unfold LoadFreeList. rewrite (bind_ok (gets shm_meta) _ c1 (sealed x) c1) by done. change (m_free_list_pgid (sealed x)) with (m_free_list_pgid x).
    by rewrite Hlist. }
  assert (Hm : init_TxManager c = Ok tt reopened).
  { unfold init_TxManager. rewrite (bind_ok (modify _) _ c tt c1) by done. by run_step Hfl. }
  run_step Hm. cbn [opt_mode set_page_size]. by rewrite Hmode.
Qed.

Lemma left_disk : disk_at reopened.
Proof.
  split; [done|done|by exists x| | | |].
  - intros j Hj. rewrite left_at by done. change (page_size reopened) with ps. rewrite <- Hdps. by apply (dk_slots _ Hd).
  - intros _. change (cur_meta_index reopened) with i. by rewrite left_at.
  - intros _. exists i, x. rewrite left_at, (newest_same d) by (done || apply left_at). split_and!; try done; lia.
  - change (m_txid (shm_meta reopened)) with (m_txid x). change (cur_meta_index reopened) with i. intros Hle.
    destruct (dk_first _ Hd) as (Hn & _ & y & Hy); [lia|]. rewrite left_at, (newest_same d) by (done || apply left_at).
    change (page_size reopened) with ps. rewrite <- Hdps. split_and!; [done|lia|by exists y].
Qed.

(** The record of an empty file: whatever is in the pages, the map is empty. *)
Lemma left_empty : blank_pages x -> sys_inv cmp key_ok reopened (mkSpec ps ∅ None []).
Proof.
  intros (Ec & Er & _). destruct (page_size_bounds _ Hps) as [Hr _]. destruct (shm_count d s T Hs) as [Hc _]. pose proof Hl as [Hpk Hsz _]. rewrite Hdps in Hpk, Hsz.
  pose proof (sa_txid _ _ _ _ _ Hs). pose proof (mv_ps _ _ Hx). change ps with (page_size reopened) at 1. apply (fresh_sys cmp key_ok reopened ∅ None).
  - assert (Em : shm_meta reopened = sealed x) by done. assert (Ep : page_size reopened = ps) by done.
    assert (Ef : db_map reopened = mkMapping file size) by done. assert (Eo : options reopened = set_page_size ps o) by done.
    split; rewrite ?Em, ?Ep, ?Ef, ?Eo; cbn [m_page_size m_free_list_pgid m_txid m_page_count sealed set_m_crc32 file_pages map_size]; rewrite ?Ec; try done;
      [lia|nia|lia|by exists (m_txid x)].
  - cbn. by rewrite Er.
  - intros q Hq. by apply elem_of_nil in Hq.
  - intros q Hq. by apply elem_of_nil in Hq.
Qed.

Context (Hsame : same_pages x (shm_meta d)).

Lemma left_kept (N : list Z) v root T0 m : version cmp key_ok d N v root T0 m -> tree_kept (window d) (window reopened) T0.
Proof.
  intros Hv. destruct (window_same d) as (E1 & _ & E3 & _). destruct (window_same reopened) as (F1 & _ & F3 & _).
  apply (tree_kept_others (fun q => q ∉ pages_of (window d) T0)); [|apply (sa_inv _ _ _ _ _ Hs)| |by intros q Hq Hn].
  - assert (Hset : forall q, ~ (q ∉ pages_of (window d) T0) -> settled d q).
    { intros q Hq%dec_stable. by apply (ve_settled _ _ _ _ _ _ _ _ Hv). }
    split; [rewrite E1, F1; by rewrite Hdps|..].
    + intros q _ [Hq _]%Hset. apply (window_used_idle reopened q); [done|]. destruct Hsame as (Ec & _).
      change (m_page_count (shm_meta reopened)) with (m_page_count x). rewrite Ec. split; [lia|]. by intros Hn%covers_nil.
    + intros q _ Hq%Hset. transitivity (db_node reopened q); [unfold db_node; by rewrite F1, F3|]. rewrite left_node by done. unfold db_node. by rewrite E1, E3.
    + intros a _ Ha%Hset. rewrite E1, Hdps in Ha.
      transitivity (db_mem reopened a); [unfold db_mem; by rewrite F1, F3|]. rewrite left_mem by auto. unfold db_mem. by rewrite E1, E3.
  - intros t. apply (version_rep cmp key_ok _ _ _ _ _ _ _ Hv).
Qed.

Lemma left_sys : sys_inv cmp key_ok reopened (mkSpec (sp_page s) (sp_committed s) None []).
Proof.
  destruct (shm_count d s T Hs) as [Hc1 Hc2]. pose proof Hl as [Hpk Hsz _]. rewrite Hdps in Hpk, Hsz, Hc2. destruct Hsame as (Ec & Er & El).
  destruct (sa_committed _ _ _ _ _ Hs) as (T0 & Hv). pose proof (left_kept _ _ _ _ _ Hv) as Hk.
  destruct (window_same d) as (E1 & _). destruct (window_same reopened) as (F1 & _).
  assert (Epg : sp_page s = page_size reopened) by (rewrite <- (sa_page _ _ _ _ _ Hs); exact Hdps).
  rewrite Epg. apply (fresh_sys cmp key_ok reopened (sp_committed s) T0).
  - assert (Em : shm_meta reopened = sealed x) by done. assert (Ep : page_size reopened = ps) by done.
    assert (Ef : db_map reopened = mkMapping file size) by done. assert (Eo : options reopened = set_page_size ps o) by done.
    pose proof (sa_txid _ _ _ _ _ Hs). pose proof (mv_ps _ _ Hx).
    split; rewrite ?Em, ?Ep, ?Ef, ?Eo; cbn [m_page_size m_free_list_pgid m_txid m_page_count sealed set_m_crc32 file_pages map_size]; rewrite ?Ec, ?El; try done.
    + apply (sa_list _ _ _ _ _ Hs).
    + lia.
    + by exists (m_txid x).
  - apply (kept_version_tree cmp key_ok (window d)); [done|by rewrite E1, F1, Hdps|].
    change (m_user_root (shm_meta reopened)) with (m_user_root x). rewrite Er. apply Hv.
  - intros q Hq. change (m_txid (shm_meta reopened)) with (m_txid x).
    pose proof (proj1 (Forall_forall _ _) (ve_marks _ _ _ _ _ _ _ _ Hv) q Hq) as Hm. cbn in Hm. pose proof (nodes_pages (window d) T0 q Hq) as Hq'.
    destruct T0 as [t|]; [|by apply elem_of_nil in Hq]. destruct Hk as (_ & _ & Hk). rewrite Hk by done. lia.
  - rewrite (kept_pages _ _ _ Hk). intros q Hq. change (m_page_count (shm_meta reopened)) with (m_page_count x). rewrite Ec.
    by apply (ve_settled _ _ _ _ _ _ _ _ Hv).
Qed.
End loaded.

Lemma stop_recovers d s file size : sys_inv cmp key_ok d s -> disk_at d -> page_size d = ps -> m_txid (shm_meta d) <> 2 -> left_by d file size ->
  exists d', DB_Open ps o file size None = Ok tt d' /\ sys_inv cmp key_ok d' (mkSpec (sp_page s) (sp_committed s) None []) /\ disk_at d' /\ page_size d' = ps.
Proof.
  intros (T & Hs) Hd Hdps Hne Hl. destruct (dk_next _ Hd Hne) as (i & x & Hi & Hx & Hat & Hn & Ht & Hsm). rewrite Hdps in Hx.
  assert (Hf : m_free_list_pgid x = kPageInvalidId) by (destruct Hsm as (_ & _ & ->); apply (sa_list _ _ _ _ _ Hs)).
  exists (reopened file size i x). split_and!; [by apply (open_left d s T)|by apply (left_sys d s T)|by apply (left_disk d)|done].
Qed.

(** Up to the version that [Init] leaves in the file, a stop leaves it empty. *)
Lemma stop_empties d s file size : sys_inv cmp key_ok d s -> disk_at d -> page_size d = ps -> m_txid (shm_meta d) <= 2 -> left_by d file size ->
  exists d', DB_Open ps o file size None = Ok tt d' /\ sys_inv cmp key_ok d' (mkSpec ps ∅ None []).
Proof.
  intros (T & Hs) Hd Hdps Hle Hl. destruct (dk_first _ Hd Hle) as (Hn & _ & x & Hx & Hb & Ht & Hat). rewrite Hdps in Hx.
  assert (Hx2 : m_txid (shm_meta d) <= m_txid x < kTxInvalidId) by (rewrite Ht; unfold kTxInvalidId; lia).
  pose proof Hb as (_ & _ & Hf). exists (reopened file size 0 x).
  split; [by apply (open_left d s T)|by apply (left_empty d s T)].
Qed.
End reopened.

(** ** Calls and stops *)
Inductive life_op : Type := Call (op : sys_op) | Stop.

(** A stop keeps what is committed. *)
Inductive life_step : sys_spec -> life_op -> sys_result -> sys_spec -> Prop :=
| step_call s op r s' : sys_step s op r s' -> life_step s (Call op) r s'
| step_stop s : life_step s Stop Done (mkSpec (sp_page s) (sp_committed s) None []).
Inductive life_steps : sys_spec -> list life_op -> list sys_result -> sys_spec -> Prop :=
| life_steps_nil s : life_steps s [] [] s
| life_steps_cons s op r s1 ops rs s' : life_step s op r s1 -> life_steps s1 ops rs s' -> life_steps s (op :: ops) (r :: rs) s'.

Section lives.
Context `{Crc32, WalWriter, HU : Uninitialised} (cmp : comparator) (key_ok : list byte -> Prop) {HO : KeyOrder cmp key_ok}.
Context (ps : Z) (o : Options).

(** The database stops, with any file it can leave, and is opened again; not
    while its version is 2, the one that [Init] leaves in the file too. *)
Inductive life_runs : DBImpl -> list life_op -> list sys_result -> DBImpl -> Prop :=
| life_nil d : life_runs d [] [] d
| life_call d op r d1 ops rs d' : sys_ready key_ok d op -> run_sys op d = Ok r d1 -> life_runs d1 ops rs d' ->
    life_runs d (Call op :: ops) (r :: rs) d'
| life_stop d file size d1 ops rs d' : m_txid (shm_meta d) <> 2 -> left_by d file size -> DB_Open ps o file size None = Ok tt d1 ->
    life_runs d1 ops rs d' -> life_runs d (Stop :: ops) (Done :: rs) d'.

Lemma runs_then d ops rs d1 ops2 rs2 d2 : sys_runs key_ok d ops rs d1 -> life_runs d1 ops2 rs2 d2 ->
  life_runs d (map Call ops ++ ops2) (rs ++ rs2) d2.
Proof. induction 1 as [d|d op r d0 ops rs d1 Hr Hrun _ IH]; [done|]. intros Hl. apply (life_call d op r d0); auto. Qed.

Context (Hps : page_size_ok ps).
Context (Hro : opt_read_only o = false) (Hmode : opt_mode o = kUpdateInPlace) (Hcmp : opt_comparator o = cmp).
Context (Hopt : opt_page_size o = 0 \/ opt_page_size o = ps) (Hslim : forall k, key_ok k -> slim ps k).

(** The database and the specification, with the file under them. *)
Record alive d s : Prop := { al_sys : sys_inv cmp key_ok d s; al_disk : disk_at d; al_ps : page_size d = ps }.

Lemma created_disk d : created ps o d -> disk_at (served d).
Proof.
  intros [F _ (crc & Hcrc) Hr Hi (x & Hx & Ht & Hshm & Hs0 & Hs1)]. injection Hr as _ Ho _ _.
  assert (Eps : page_size (served d) = ps) by (unfold page_size; change (options (served d)) with (options d); by rewrite Ho).
  assert (Hat : forall i, meta_at (served d) i = meta_at d i) by (intros i; by apply meta_at_map).
  set (y := set_m_txid 1 x) in *. assert (Hy : meta_valid ps y) by (destruct Hx as [[] ? ? ?]; split; [by split|done..]).
  rewrite Hshm in Hs1. split; change (shm_meta (served d)) with (shm_meta d); change (cur_meta_index (served d)) with (cur_meta_index d);
    rewrite ?Eps, ?Hshm, ?Hi; [done|done|by exists y| |done| |].
  - intros i Hir. rewrite Hat. assert (i = 0 \/ i = 1) as [->| ->] by lia; [by exists x|by exists y].
  - intros _. exists 0, x. split; [done|]. split; [done|]. split; [by rewrite Hat|]. split; [|by split; [rewrite Ht|]].
    apply newest_is; [done|]. rewrite !Hat. change (1 - 0) with 1. rewrite Hs0, Hs1, (decode_sealed _ x Hx), (decode_sealed _ y Hy).
    change (1 < m_txid x). by rewrite Ht.
  - intros _. split_and!; [|done|].
    + apply newest_is; [done|]. rewrite !Hat. change (1 - 0) with 1. rewrite Hs0, Hs1, (decode_sealed _ x Hx), (decode_sealed _ y Hy).
      change (1 < m_txid x). by rewrite Ht.
    + exists x. rewrite Hat. split; [done|]. split; [|done]. rewrite Hcrc in Hshm. unfold blank_pages.
      split_and!; [exact (eq_sym (f_equal m_page_count Hshm))|exact (eq_sym (f_equal m_user_root Hshm))|exact (eq_sym (f_equal m_free_list_pgid Hshm))].
Qed.

Lemma created_alive d : created ps o d -> alive (served d) (mkSpec ps ∅ None []).
Proof.
  intros Hd. split; [by apply (created_sys cmp key_ok ps o Hps)|by apply created_disk|]. pose proof (cr_rest _ _ _ Hd) as Hr. injection Hr as _ Ho _ _.
  unfold page_size. change (options (served d)) with (options d). by rewrite Ho.
Qed.

Lemma lives_ok d ops rs d' : life_runs d ops rs d' -> forall s, alive d s -> exists s', life_steps s ops rs s' /\ alive d' s'.
Proof.
  induction 1 as [d|d op r d1 ops rs d' Hr Hrun _ IH|d file size d1 ops rs d' Hne Hl Hopen _ IH]; intros s [Hs Hd Hdps].
  - exists s. split; [constructor|by split].
  - pose proof (sys_op_ok cmp key_ok d s op Hs Hr) as Ha. unfold sys_answers in Ha. rewrite Hrun in Ha. destruct Ha as (s1 & Hst & Hs1).
    destruct (call_disk cmp key_ok d s op r d1 Hs Hr Hd Hrun) as (Hd1 & Ho & _). destruct (IH s1) as (s' & Hsts & Ha').
    { split; [done|done|]. unfold page_size. by rewrite Ho. }
    exists s'. split; [|done]. apply (life_steps_cons s (Call op) r s1); [by constructor|done].
  - destruct (stop_recovers cmp key_ok ps o Hps Hro Hmode Hcmp Hopt Hslim d s file size Hs Hd Hdps Hne Hl) as (d2 & Hopen' & Hs2 & Hd2 & Hps2).
    rewrite Hopen in Hopen'. injection Hopen' as <-. destruct (IH _ ltac:(by split)) as (s' & Hsts & Ha').
    exists s'. split; [|done]. apply (life_steps_cons s Stop Done (mkSpec (sp_page s) (sp_committed s) None [])); [constructor|done].
Qed.

(** Calls alone, with the number of their commits in the version. *)
Definition commits (ops : list sys_op) : Z := foldr (fun op n => commit_count op + n) 0 ops.

Lemma runs_alive d ops rs d' : sys_runs key_ok d ops rs d' -> forall s, alive d s ->
  exists s', alive d' s' /\ m_txid (shm_meta d') = m_txid (shm_meta d) + commits ops.
Proof.
  induction 1 as [d|d op r d1 ops rs d' Hr Hrun _ IH]; intros s Ha; [exists s; cbn; split; [done|lia]|]. destruct Ha as [Hs Hd Hdps].
  pose proof (sys_op_ok cmp key_ok d s op Hs Hr) as Ha. unfold sys_answers in Ha. rewrite Hrun in Ha. destruct Ha as (s1 & _ & Hs1).
  destruct (call_disk cmp key_ok d s op r d1 Hs Hr Hd Hrun) as (Hd1 & Ho & Ht). destruct (IH s1) as (s' & Ha' & Ht').
  { split; [done|done|]. unfold page_size. by rewrite Ho. }
  exists s'. split; [done|]. change (commits (op :: ops)) with (commit_count op + commits ops). lia.
Qed.

(** C2: what is committed survives: the database may be closed, or crash, at
    any moment between two calls, transactions and views open or not, and as
    often as it likes; its file may then hold anything outside the two meta
    records and the pages of the committed version.  [DB::Open] succeeds on it
    and the answers go on as those of the committed map, nothing of an open
    transaction left; but for the first commit to a new
    file ([first_commit_lost]). *)
Theorem database_survives : exists d0, DB_Open ps o ∅ 0 None = Ok tt d0 /\
  forall ops rs d, life_runs d0 ops rs d -> exists s, life_steps (mkSpec ps ∅ None []) ops rs s /\
    (forall op, sys_ready key_ok d op ->
      match run_sys op d with
      | Ok r _ => exists s', sys_step s op r s'
      | Throw _ _ => False
      | Fault w => w = BadIterator /\ (op = SysBegin \/ op = SysRollBack)
      end) /\
    (forall file size, m_txid (shm_meta d) <> 2 -> left_by d file size -> exists d', DB_Open ps o file size None = Ok tt d').
Proof.
  destruct (open_created ps o Hps Hro Hmode Hopt) as (d & Hd & Hrun). exists (served d). split; [exact Hrun|]. intros ops rs d' Hruns.
  destruct (lives_ok _ _ _ _ Hruns _ (created_alive d Hd)) as (s & Hst & [Hs Hdk Hdps]). exists s. split; [exact Hst|]. split.
  - intros op Hop. pose proof (sys_op_ok cmp key_ok d' s op Hs Hop) as Ha. unfold sys_answers in Ha. destruct (run_sys op d') as [r d2| |]; [|done|done].
    destruct Ha as (s' & Hs' & _). by exists s'.
  - intros file size Hne Hl. destruct (stop_recovers cmp key_ok ps o Hps Hro Hmode Hcmp Hopt Hslim d' s file size Hs Hdk Hdps Hne Hl) as (d2 & Ho & _).
    by exists d2.
Qed.

(** C34: the first commit to a new file is lost.  Whatever is done on a file just
    created with no more than one commit, whether the database is then closed
    or crashes, [DB::Open] succeeds on the file it leaves, and everything asked
    of the database opened again is answered as by one that is empty:
    [Meta::Init] leaves a record of version 2 in the slot that [Load] prefers,
    with version 1 in memory, so that the first commit is of version 2 as well. *)
Theorem first_commit_lost : exists d0, DB_Open ps o ∅ 0 None = Ok tt d0 /\
  forall ops rs d, sys_runs key_ok d0 ops rs d -> commits ops <= 1 -> forall file size, left_by d file size ->
    exists d1, DB_Open ps o file size None = Ok tt d1 /\
      forall ops' rs' d2, sys_runs key_ok d1 ops' rs' d2 -> exists s, sys_steps (mkSpec ps ∅ None []) ops' rs' s.
Proof.
  destruct (open_created ps o Hps Hro Hmode Hopt) as (d & Hd & Hrun). exists (served d). split; [exact Hrun|].
  intros ops rs d' Hruns Hc file size Hl. destruct (runs_alive _ _ _ _ Hruns _ (created_alive d Hd)) as (s & [Hs Hdk Hdps] & Ht).
  destruct (cr_shm _ _ _ Hd) as (crc & Hshm). assert (E : m_txid (shm_meta (served d)) = 1) by exact (f_equal m_txid Hshm).
  destruct (stop_empties cmp key_ok ps o Hps Hro Hmode Hcmp Hopt Hslim d' s file size Hs Hdk Hdps ltac:(lia) Hl) as (d1 & Ho & Hs1).
  exists d1. split; [done|]. intros ops' rs' d2 Hruns'. destruct (runs_ok cmp key_ok _ _ _ _ Hruns' _ Hs1) as (s' & Hst & _). by exists s'.
Qed.
End lives.

(** ** A run with a stop *)

(** The file without the pages of later transactions, as long as [~DBImpl]
    leaves it. *)
Definition cut_file_pages d : gmap Z Page := filter (fun e => e.1 < m_page_count (shm_meta d)) (file_pages (db_map d)).
Definition cut_size d : Z := page_size d * m_page_count (shm_meta d).

Lemma left_cut `{Crc32, WalWriter} (cmp : comparator) (key_ok : list byte -> Prop) {HO : KeyOrder cmp key_ok} d s :
  sys_inv cmp key_ok d s -> left_by d (cut_file_pages d) (cut_size d).
Proof.
  intros (T & Hs). destruct (shm_count cmp key_ok d s T Hs) as [Hc _]. destruct (sa_inv _ _ _ _ _ Hs) as [_ Hok].
  destruct (window_same d) as (E1 & _ & E3 & _). rewrite E1, E3 in Hok. split.
  - intros q p Hq%map_lookup_filter_Some_1_1. by apply (Hok q).
  - unfold cut_size. lia.
  - intros q Hq. assert (Hlt : q < m_page_count (shm_meta d)) by (destruct Hq as [->|[->|[? _]]]; lia).
    unfold cut_file_pages. destruct (file_pages (db_map d) !! q) as [p|] eqn:E.
    + by apply map_lookup_filter_Some_2.
    + apply map_lookup_filter_None_2. by left.
Qed.

(** [~DBImpl], with no transaction and no view open, leaves it so. *)
Lemma closed_size `{Crc32, WalWriter} d : is_wal d = false -> update_tx (tx_manager d) = None -> view_tx_map (tx_manager d) = [] ->
  db_mmap_pending d = O \/ live_views d = O -> 0 <= cut_size d < 2 ^ 32 ->
  exists d', destroy_DBImpl d = Ok (cut_size d) d' /\ db_map d' = db_map d /\ shm_meta d' = shm_meta d.
Proof.
  intros Hw Ht Hv Hm Hsz. unfold destroy_DBImpl. assert (Hwal : gets is_wal d = Ok false d) by (unfold gets; by rewrite Hw). run_step Hwal.
  rewrite (bind_ok (ret tt) _ d tt d) by done.
  assert (Hd : destroy_TxManager d = Ok tt d).
  { unfold destroy_TxManager. rewrite (bind_ok (gets tx_manager) _ d (tx_manager d) d) by done. by rewrite Ht, Hv. }
  run_step Hd. rewrite (bind_ok (gets page_size) _ d (page_size d) d), (bind_ok (gets shm_meta) _ d (shm_meta d) d) by done.
  destruct (ClearPendingMmap_runs d Hm) as (n & Hc). run_step Hc. exists (set_db_mmap_pending n d). split; [|done]. unfold ret. f_equal. fold (cut_size d).
  unfold u32, u64. rewrite (Z.mod_small (cut_size d)) by lia. apply Z.mod_small. lia.
Qed.

#[local] Existing Instance serving_writer.
#[local] Existing Instance serving_storage.
#[local] Existing Instance sample_crc.

(** Two commits, and a third value put by a transaction open at the stop: a view
    of the database opened again reads the second. *)
Definition stop_ops : list sys_op :=
  [SysBegin; SysWrite (KvPut [x61] [x01]); SysCommit; SysBegin; SysWrite (KvPut [x61] [x02]); SysCommit;
   SysBegin; SysWrite (KvPut [x61] [x03])].
Definition stop_results : list sys_result := [Done; Did Stored; Done; Done; Did Stored; Done; Done; Did Stored].
Definition read_ops : list sys_op := [SysView; SysRead 0 [x61]].
Definition read_results : list sys_result := [Opened 0; Did (Found (Some [x02]))].

Definition stop_db : DBImpl := foldl (fun d op => after op d) run_db stop_ops.
Definition restarted_db : DBImpl :=
  match DB_Open 256 run_options (cut_file_pages stop_db) (cut_size stop_db) None with Ok _ d => d | _ => run_db end.
Definition life_ops : list life_op := map Call stop_ops ++ Stop :: map Call read_ops.
Definition life_results : list sys_result := stop_results ++ Done :: read_results.

Lemma stop_runs : sys_runs slim_key run_db stop_ops stop_results stop_db.
Proof. unfold stop_db, stop_ops, stop_results. cbn [foldl]. repeat (apply run_next; [unfold sys_ready, op_ok; ready|vm_compute; reflexivity|]). constructor. Qed.
Lemma read_runs : exists d, sys_runs slim_key restarted_db read_ops read_results d.
Proof. eexists. unfold read_ops, read_results. repeat (apply run_next; [unfold sys_ready, op_ok; ready|vm_compute; reflexivity|]). constructor. Qed.

(** A database that only ran calls of the new one leaves a file. *)
Lemma run_left ops rs d : sys_runs slim_key run_db ops rs d -> left_by d (cut_file_pages d) (cut_size d).
Proof.
  destruct (open_created 256 run_options) as (d0 & Hd & Hrun); [by left|done|done|by left|].
  assert (E : run_db = served d0) by (unfold run_db; by rewrite Hrun). rewrite E. intros Hruns.
  destruct (runs_ok ByteArrayComparator slim_key _ _ _ _ Hruns (mkSpec 256 ∅ None [])) as (s & _ & Hs).
  { apply (created_sys ByteArrayComparator slim_key 256 run_options); [by left|done|done|done|exact slim_key_256|exact Hd]. }
  exact (left_cut ByteArrayComparator slim_key _ _ Hs).
Qed.

Lemma stop_left : left_by stop_db (cut_file_pages stop_db) (cut_size stop_db).
Proof. exact (run_left _ _ _ stop_runs). Qed.

Lemma restarted : DB_Open 256 run_options (cut_file_pages stop_db) (cut_size stop_db) None = Ok tt restarted_db.
Proof.
  unfold restarted_db. assert (E : match DB_Open 256 run_options (cut_file_pages stop_db) (cut_size stop_db) None with Ok _ _ => True | _ => False end)
    by (vm_compute; exact I). by destruct (DB_Open _ _ _ _ _) as [[] ?| |].
Qed.

Lemma life_runs_once : exists d, life_runs slim_key 256 run_options run_db life_ops life_results d.
Proof.
  destruct read_runs as (d & Hr). exists d. apply (runs_then slim_key 256 run_options run_db stop_ops stop_results stop_db); [exact stop_runs|].
  apply (life_stop slim_key 256 run_options stop_db (cut_file_pages stop_db) (cut_size stop_db) restarted_db); [|exact stop_left|exact restarted|].
  - vm_compute. discriminate.
  - pose proof (runs_then slim_key 256 run_options _ _ _ _ [] [] d Hr (life_nil _ _ _ d)) as Hl. by rewrite !app_nil_r in Hl.
Qed.

Lemma database_survives_witness : exists d s, DB_Open 256 run_options ∅ 0 None = Ok tt run_db /\
  life_runs slim_key 256 run_options run_db life_ops life_results d /\ life_steps (mkSpec 256 ∅ None []) life_ops life_results s.
Proof.
  destruct (database_survives ByteArrayComparator slim_key 256 run_options) as (d0 & Hopen & Hall);
    [by left|done|done|done|by left|exact slim_key_256|].
  assert (E : d0 = run_db) by (unfold run_db; by rewrite Hopen). subst d0. destruct life_runs_once as (d & Hruns).
  destruct (Hall _ _ _ Hruns) as (s & Hs & _). exists d, s. split; [exact Hopen|]. split; [exact Hruns|exact Hs].
Defined.

(** One commit, a stop, and a view of the database opened again: nothing is
    there. *)
Definition first_db : DBImpl := foldl (fun d op => after op d) run_db (take 3 stop_ops).
Lemma first_runs : sys_runs slim_key run_db (take 3 stop_ops) [Done; Did Stored; Done] first_db.
Proof. unfold first_db, stop_ops. cbn [foldl take]. repeat (apply run_next; [unfold sys_ready, op_ok; ready|vm_compute; reflexivity|]). constructor. Qed.
Definition first_again : outcome DBImpl unit := DB_Open 256 run_options (cut_file_pages first_db) (cut_size first_db) None.
Definition first_restarted : DBImpl := match first_again with Ok _ d => d | _ => run_db end.
Lemma first_reads : exists d, sys_runs slim_key first_restarted read_ops [Opened 0; Did (Found None)] d.
Proof. eexists. unfold read_ops. repeat (apply run_next; [unfold sys_ready, op_ok; ready|vm_compute; reflexivity|]). constructor. Qed.

Lemma first_commit_lost_witness : exists s, first_again = Ok tt first_restarted /\
  sys_steps (mkSpec 256 ∅ None []) read_ops [Opened 0; Did (Found None)] s.
Proof.
  destruct (first_commit_lost ByteArrayComparator slim_key 256 run_options) as (d0 & Hopen & Hall);
    [by left|done|done|done|by left|exact slim_key_256|].
  assert (E : d0 = run_db) by (unfold run_db; by rewrite Hopen). subst d0.
  destruct (Hall _ _ _ first_runs) with (file := cut_file_pages first_db) (size := cut_size first_db) as (d1 & Ho & Hruns);
    [cbn; lia|exact (run_left _ _ _ first_runs)|].
  assert (E : first_restarted = d1) by (unfold first_restarted, first_again; by rewrite Ho).
  destruct first_reads as (d & Hr). rewrite E in *. destruct (Hruns _ _ _ Hr) as (s & Hst). exists s. split; [exact Ho|exact Hst].
Defined.
