(* ===== verification/Runs.v ===== *)
(** Runs of the whole database, from [DB::Open] of [src/db_impl.cpp] on an empty
    file, through transactions, buckets, trees, nodes and pager, evaluated:
    where transactions and keys beyond the hypotheses of the theorems lead. *)
From S2P Require Import Prelude Format Comparator State Memory FreeMap Pager PagerI PagerInst.
From S2P Require Import Node Tx Iterator BTree Meta Logger TxManager Bucket Recovery MetaTheorems.

(** ** Reading what is not committed *)

(** A log whose size is its number of records since it was last opened. *)
Fixpoint records_since_open (calls : list WalCall) : Z :=
  match calls with [] | Open :: _ => 0 | _ :: calls => 1 + records_since_open calls end.
#[local] Instance counting_writer : WalWriter := { writer_size calls := records_since_open (rev calls) }.
#[local] Existing Instance sample_crc.
#[local] Instance null_pointer : Uninitialised := { stale_tx _ := false }.

Definition put_a (v : byte) : M DBImpl unit := Bucket_Put (UserBucket UpdateTxRef) [x61] [v] false.
Definition commit_a (v : byte) : M DBImpl unit := db_Update ;;; put_a v ;;; UpdateTx_Commit true.
(** The value a view reads. *)
Definition view_a (h : nat) : M DBImpl (list byte) :=
  let* it := Bucket_Get (UserBucket (ViewTxRef h)) [x61] in
  let* (v, _) := with_iterator it iter_value in ret v.

(** Three versions of a key and an empty transaction; then a view reads the
    key before and while a write transaction puts it again; the transaction
    is rolled back, and another view reads the key. *)
Definition dirty_run : M DBImpl (list byte * list byte * list byte) :=
  commit_a x01 ;;; commit_a x02 ;;; commit_a x03 ;;;
  db_Update ;;; UpdateTx_Commit true ;;;
  let* view := db_View in
  let* before := view_a view in
  db_Update ;;; put_a x04 ;;;
  let* during := view_a view in
  UpdateTx_RollBack true ;;;
  let* view := db_View in
  let* after := view_a view in
  ret (before, during, after).

(** A program run on a database opened empty, with pages of 256 bytes. *)
Definition run_from_empty {A} (mode : DbMode) (m : M DBImpl A) : option A :=
  match DB_Open 256 (mkOptions 256 ByteArrayComparator false true mode 12) ∅ 0 None with
  | Ok _ d => match m d with Ok r _ => Some r | _ => None end
  | _ => None
  end.

(** On a database opened empty, the view reads 3 before the write
    transaction puts 4.  In place, it reads 3 while the transaction is open,
    and so does a view after the rollback.  In the log mode, one checkpoint
    after the first commits is enough for the view to read the uncommitted 4,
    and for the rolled back 4 to stay. *)
Lemma dirty_read :
  run_from_empty kUpdateInPlace dirty_run = Some ([x03], [x03], [x03]) /\ run_from_empty kWal dirty_run = Some ([x03], [x04], [x04]).
Proof. split; vm_compute; reflexivity. Qed.

(** ** Buckets in buckets *)

(** The bucket at the end of a path of keys. *)
Fixpoint at_path (b : Bucket) (path : list (list byte)) (writable : bool) : M DBImpl Bucket :=
  match path with
  | [] => ret b
  | key :: path => let* b := SubBucket b key writable in at_path b path writable
  end.

(** A transaction that puts a value in that bucket, and what a view reads there. *)
Definition commit_at (path : list (list byte)) (v : byte) : M DBImpl unit :=
  db_Update ;;;
  let* b := at_path (UserBucket UpdateTxRef) path true in
  Bucket_Put b [x61] [v] false ;;;
  UpdateTx_Commit true.
Definition seen_at (path : list (list byte)) : M DBImpl (option (list byte)) :=
  let* h := db_View in
  let* b := at_path (UserBucket (ViewTxRef h)) path false in
  let* it := Bucket_Get b [x61] in
  let* v := (if iter_end it then ret None else let* (v, _) := with_iterator it iter_value in ret (Some v)) in
  destroy_view h ;;;
  ret v.
Definition changed_at (path : list (list byte)) (v w : byte) : M DBImpl (option (list byte) * option (list byte)) :=
  commit_at path v ;;;
  let* before := seen_at path in
  commit_at path w ;;;
  let* after := seen_at path in
  ret (before, after).

(** A value put in a bucket of the user bucket, then another one, are
    both read back after their commits.  In a bucket within that one, the
    second is lost: [TxImpl::Commit] writes the roots of
    the buckets parent first, and writing the inner root moves the outer
    bucket's own root page, which its parent's entry no longer follows. *)
Lemma nested_commit_lost v w :
  run_from_empty kUpdateInPlace (changed_at [[x62]] v w) = Some (Some [v], Some [w]) /\
  run_from_empty kUpdateInPlace (changed_at [[x62]; [x63]] v w) = Some (Some [v], Some [v]).
Proof. split; vm_compute; reflexivity. Qed.

(** Deleting a bucket that holds another one: the map of the bucket's own open
    buckets was never made, and is dereferenced. *)
Definition delete_outer : M DBImpl bool :=
  commit_at [[x62]; [x63]] x01 ;;; db_Update ;;; DeleteSubBucket 10 (UserBucket UpdateTxRef) [x62].
Lemma delete_nested_stuck :
  match DB_Open 256 (mkOptions 256 ByteArrayComparator false true kUpdateInPlace 12) ∅ 0 None with
  | Ok _ d => delete_outer d = Fault EmptyOptional
  | _ => False
  end.
Proof. vm_compute. reflexivity. Qed.

(** ** Keys longer than a quarter of a page *)
Definition put_all (keys : list (list byte)) : M DBImpl unit :=
  foldr (fun k m => Bucket_Put (UserBucket UpdateTxRef) k (replicate (111 - length k) x01) false ;;; m) (ret tt) keys.
Definition lookup_all (keys : list (list byte)) : M DBImpl (list bool) :=
  foldr (fun k m =>
    let* it := Bucket_Get (UserBucket UpdateTxRef) k in
    let* l := m in ret (negb (iter_end it) :: l)) (ret []) keys.

(** A key of [n] bytes below a first one. *)
Definition long_key (n : nat) (b : byte) : list byte := b :: x01 :: replicate n x00.
Definition long_keys : list (list byte) :=
  [long_key 0 xa7; long_key 109 x8b; long_key 109 x03; long_key 0 x62;
   long_key 109 xb0; long_key 0 x38; long_key 0 x6d; long_key 109 xba].

(** Eight puts of different keys, every key within the limit of a node,
    none of which reports an error; afterwards the tree does not find two of
    them.  [Branch_Split] moved a key to the left node with a tail child that
    was stale, and lost a subtree: the theorems on [Put] ask for keys of at
    most a quarter of a page. *)
Lemma long_keys_lost :
  NoDup long_keys /\ Forall (fun k => Z.of_nat (length k) <= 111) long_keys /\
  run_from_empty kUpdateInPlace (db_Update ;;; put_all long_keys ;;; lookup_all long_keys) =
    Some [true; true; true; false; true; true; false; true].
Proof.
  split; [by apply (bool_decide_unpack _); vm_compute|].
  split; [repeat (apply Forall_cons_2; [vm_compute; discriminate|]); apply Forall_nil_2|].
  vm_compute. reflexivity.
Qed.
