(* ===== verification/Crashes.v ===== *)
(** Runs of the database over several openings: closed and opened again, or, in
    the log mode, crashed and recovered by [Logger::Recover] of [src/logger.cpp].

    A crash leaves the file as it was when it was opened or last synced, and in
    the log the records appended since: that is what [AppendRecordToBuffer] of
    the log writer and [ReadRecord] of the reader, in a library outside the
    sources, are for. *)
From S2P Require Import Prelude Format Comparator State Memory FreeMap Pager PagerI PagerInst.
From S2P Require Import Node Tx Iterator BTree Meta Logger TxManager Bucket Recovery MetaTheorems Runs.

#[local] Existing Instance counting_writer.
#[local] Existing Instance null_pointer.
#[local] Existing Instance sample_crc.

Definition session_options (mode : DbMode) : Options := mkOptions 256 ByteArrayComparator false true mode 1000.
Definition open_file (mode : DbMode) (file : gmap Z Page) (size : Z) (log : option (list (list byte))) : outcome DBImpl unit :=
  DB_Open 256 (session_options mode) file size log.
Definition new_file (mode : DbMode) : outcome DBImpl unit := open_file mode ∅ 0 None.

(** The next session, on the database of the one before. *)
Definition next {A} (o : outcome DBImpl unit) (f : DBImpl -> outcome DBImpl A) : outcome DBImpl A :=
  match o with Ok _ d => f d | Throw e d => Throw e d | Fault w => Fault w end.
Definition result {A} (o : outcome DBImpl A) : A + (exn + fault) :=
  match o with Ok a _ => inl a | Throw e _ => inr (inl e) | Fault w => inr (inr w) end.

(** The program [m] runs; the file, as long as the closing leaves it, is opened
    again; [~Logger] has removed the log. *)
Definition close (mode : DbMode) (m : M DBImpl unit) (d : DBImpl) : outcome DBImpl unit :=
  match (m ;;; destroy_DBImpl) d with
  | Ok size d' => open_file mode (file_pages (db_map d')) size None
  | Throw e d' => Throw e d'
  | Fault w => Fault w
  end.

(** The records a session has appended. *)
Definition log_records (d : DBImpl) : list (list byte) :=
  omap (fun c => match c with AppendRecordToBuffer r => Some r | _ => None end) (writer_calls (logger d)).
Definition open_with (log : list (list byte)) (d : DBImpl) : outcome DBImpl unit :=
  open_file kWal (file_pages (db_map d)) (map_size (db_map d)) (Some log).
(** [m] runs on [d], just opened; the database is opened on the file of [d] and
    the log of [m]. *)
Definition crash (m : M DBImpl unit) (d : DBImpl) : outcome DBImpl unit := next (m d) (fun d' => open_with (log_records d') d).

(** The value a new view reads, if any. *)
Definition seen_a : M DBImpl (option (list byte)) :=
  let* h := db_View in
  let* it := Bucket_Get (UserBucket (ViewTxRef h)) [x61] in
  if iter_end it then ret None else let* (v, _) := with_iterator it iter_value in ret (Some v).

(** Runs of [Durable.first_commit_lost], and of the log mode: the first commit to a
    new file is lost, in place when the database is closed after it, in the log
    mode when it crashes.
    [Meta::Init] leaves a record of version 2 in the slot [Load] prefers, with
    version 1 in memory: the first commit is version 2 as well, and the log of
    version 1 is older than the file.  The second commit in place, and one in
    the log mode after the file was closed, are read back. *)
Lemma first_commit_runs (v w : byte) :
  result (next (next (new_file kUpdateInPlace) (close kUpdateInPlace (commit_a v))) seen_a) = inl None /\
  result (next (next (new_file kUpdateInPlace) (close kUpdateInPlace (commit_a v ;;; commit_a w))) seen_a) = inl (Some [w]) /\
  result (next (next (new_file kWal) (crash (commit_a v))) seen_a) = inl None /\
  result (next (next (next (new_file kWal) (close kWal (ret tt))) (crash (commit_a v))) seen_a) = inl (Some [v]).
Proof. split_and!; vm_compute; reflexivity. Qed.

(** ** Crashes of the log mode, in a file closed once *)
Definition second_session : outcome DBImpl unit := next (new_file kWal) (close kWal (ret tt)).
Definition recovered (v : byte) : outcome DBImpl unit := next second_session (crash (commit_a v)).

(** Runs of [RecoveryTheorems.recovery_not_saved]: what the log gave back is
    lost by a second crash right after it.  [Recover] syncs the pages but saves
    no meta record, since it compares the version with itself, and the log is
    then reset.  If the reset left the old records in the log file, the next
    recovery would refuse the second header. *)
Lemma recovery_runs_lost (v : byte) :
  result (next (recovered v) seen_a) = inl (Some [v]) /\
  result (next (next (recovered v) (fun d => open_with (log_records d) d)) seen_a) = inl None /\
  result (next (next second_session (commit_a v)) (fun old => next (recovered v) (fun d => open_with (log_records old ++ log_records d) d))) =
    inr (inl (RuntimeError "Unrecoverable logs.")).
Proof. split_and!; vm_compute; reflexivity. Qed.

(** A transaction that put a value in a bucket of the user bucket cannot be
    replayed: opening the bucket was not logged. *)
Lemma sub_bucket_log_stuck (v : byte) : result (next second_session (crash (commit_at [[x62]] v))) = inr (inr OutOfBounds).
Proof. vm_compute. reflexivity. Qed.
